(* ===== verification/_CoqProject ===== *)
-Q . S2P
Prelude.v
Words.v
Memory.v
Internal.v
Spec.v
Prng.v
Refine.v
TestPrf.v
Session.v
ChaChaRef.v
ChaChaMerged.v
Ecrypt.v
ChaChaKrovetz.v
ChaChaPrf.v
Os.v
CpuInfo.v
Entropy.v
TestOs.v
TestVectors.v
CString.v
Tinytest.v
TinytestProps.v
HsChaCha.v
HsOttery.v
EntropyProps.v
Config.v
Api.v
Keeps.v
ApiRefine.v
UnixMachine.v
ApiProps.v
TestSpec.v
TestEgd.v
Safety.v
ConfigProps.v
Global.v
GlobalProps.v
Public.v
DumpBytes.v
DumpBytesProps.v
Configure.v
Threads.v
ThreadsInv.v
ThreadsProps.v
ThreadsGlobal.v
ThreadsOs.v
ThreadsOsInv.v
ThreadsOsProps.v
TestDeep.v
TestMain.v
TestShallow.v
TestShallowProps.v
