(* ===== verification/Prelude.v ===== *)
(** * A model and correctness proof of libottery

    libottery is a userspace cryptographic random number generator in C. It
    seeds a ChaCha-based generator from the operating system and the CPU, gives
    out bytes and integers from a buffer of keystream, replaces its key after
    every buffer, reseeds itself after a fork, and refuses to work on a state
    that was not initialized. This library models every function of src/ under
    its source name, over parameters for the system calls and instructions they
    use, and proves what each part promises to the next, up to the three public
    headers and the threads that call them.

    ** The parts and how they interact

    A call of the public API ([ottery_rand_bytes], [ottery_st_rand_uint32], ...)
    goes through these layers; each is one file here.

    - Public.v (src/ottery.h, src/ottery_st.h, src/ottery_nolock.h): the
      prototypes of the three headers as one record of operations ([prng_ops]),
      the promises of their comments as a class of laws ([PrngLaws]), and the
      three headers as its instances. Configure.v (the prototypes of
      src/ottery_common.h): a client that configures a generator and then makes it.
    - Threads.v: several threads calling one state. A call of ottery_st.h is cut
      into its check, [LOCK], the steps made under the lock and [UNLOCK]
      ([ask_phases] puts it together again); a system is a pool of threads, the
      shared state and the process; a schedule is a list of thread numbers.
      ThreadsOs.v adds the call with a null seed, whose steps before the lock run
      the entropy sources and store their state ([gather], [store];
      [os_seed_phases] puts the call together again), and a world that changes
      between steps. ThreadsGlobal.v has the calls of ottery.h, which begin by
      reading a flag and, where it is clear, initializing the state
      ([CHECK_INIT_body]): two more steps, outside the lock ([gturn];
      [ask_global] puts the call together again).
    - Global.v (src/ottery_global.c): the process-wide state and its lazy
      initialization ([CHECK_INIT]). It calls the state API.
    - Api.v (the second half of src/ottery.c): initialization, reseeding, adding
      seed, the checks before output (magic number, process id, lock), locked
      and lock-free output, ranges, wiping, fatal errors. It calls the entropy
      layer for seed and the generator core for output.
    - Config.v (the first part of src/ottery.c, ottery_common.h): configuration,
      the PRF table and the choice from it, build flags, version and sizes.
    - Entropy.v (src/ottery_entropy.c and the four files it includes): the
      entropy sources and the loop that combines them. CpuInfo.v
      (src/ottery_cpuinfo.c): the cpuid instruction as each compiler is told to
      execute it, and CPU capabilities.
    - Os.v: what lies outside the repository, as parameters: [Class OS], the
      system calls, cpuid, rdrand and the lock constructors, over an abstract
      world, with [Class OSLaws] for the documented behaviour the code relies on
      ([read] returns at most what was asked for and stores as many bytes as it
      says; a successful CryptGenRandom fills its buffer); [Class Platform], the
      preprocessor facts of a target; the lock macros of src/ottery-threading.h;
      and the monad [M] of the stateful functions.
    - Spec.v (doc/specification.txt): two generators over a key and a buffer. The
      document's is the text as it stands ([doc_tiny], [doc_big], [doc_add], ...);
      the other, here called the abstract generator, is what the code computes
      ([tiny], [big], [add], ...), and differs from the document in when it stirs
      and in how it divides a big request.
    - Prng.v (the generator core of src/ottery.c): block generation, rekeying,
      buffered, bulk and integer output, seed mixing, clearing.
    - Internal.v (src/ottery-internal.h, src/ottery_common.h): structures,
      constants, build options, and the interface [PrfSpec]/[PrfSizes] between
      the core and a pseudorandom function. ChaChaPrf.v: what every PRF of the
      table also is, ChaCha of some rounds in calls of some blocks ([ChaChaPrf]).
    - ChaChaMerged.v (src/chacha_merged.c) and ChaChaKrovetz.v
      (src/chacha_krovetz.c): the two ChaCha implementations, the second for
      SSE2, SSSE3 and Neon and for both compilers. Both are instances of the PRF
      interface, so that every theorem about the core holds for each PRF of the
      table. Ecrypt.v (src/chacha_merged_ecrypt.h): the forms of the word access
      macros for the byte orders, which agree. ChaChaRef.v: the plain ChaCha of test/make_test_vectors.py, the
      reference both are compared with.
    - TestVectors.v (test/streams.c, test/test_vectors.c, make_test_vectors.py):
      the program that prints test vectors and the script its output is compared
      with. HsChaCha.v and HsOttery.v (test/hs/ChaCha.hs, test/hs/Ottery.hs): the
      repository's Haskell model of the specification. TestSpec.v
      (test/test_spec.c, test/hs/test_ottery.hs): the two programs that the
      specification test compares. TestEgd.v (test/fake_egd.c, test/test_egd.c):
      a server of the entropy-gathering protocol and a client of the library.
      CString.v and DumpBytes.v (test/dump_bytes.c): the program that feeds a
      statistics suite, a client of both the state and the global functions.
    - Tinytest.v (test/tinytest.c and its headers): the driver that the test
      programs run under: it selects tests by name, runs them in the process or in
      a forked child, and counts. A test is code on the memory of its process
      and the world, which tells the driver of failures and finishes, dies or never
      ends ([fate]); a driver that waits for the report of a test that never ends
      never ends itself. TestDeep.v
      (test/test_deep.c): the deep tests over the wrappers of test/st_wrappers.h;
      TestMain.v: their program, and doc/tinytest/tinytest_demo.c. TestShallow.v
      (test/test_shallow.c): the shallow tests, less those of random bytes, and
      their program. UnixMachine.v: what the tests take for granted of a machine, as
      a class of laws, and the error codes that follow; ThreadsGlobal.v uses it too. Keeps.v: a property of the
      world that every primitive preserves is preserved by seeding.
    - Words.v and Memory.v: 8, 16, 32 and 64-bit unsigned integers as [Z] with
      their wrap-around written out, bytes, little-endian integers; byte buffers
      with checked reads and writes.

    ** Conventions

    A C function that takes a pointer to a structure takes its contents and
    returns the new contents; an output pointer is a buffer and an offset. In the
    core and the PRFs a result is an [option]: [None] is an access outside an
    object, a failed assertion or a call of a null function pointer. In the
    functions that reach the operating system a result is an [outcome]: [Ret],
    [Aborted] (the fatal error path without a handler), [Undefined], and
    [NoFuel] for a loop cut short. (In the test driver, [None] is a chain of aliases
    deeper than the stack, or a selection that names no test.) So a theorem that gives a [Some] or a [Ret]
    says that the code is free of these errors as well as what it computes. The
    [#ifdef] choices are class parameters ([BuildConfig], [Platform]): a theorem
    holds for every build unless it says otherwise. [unsigned] has 32 bits and
    [size_t] 64, and the machine is little-endian.

    ** What is proved

    - Refine.v relates a concrete state to the abstract generator of Spec.v and
      proves that every core operation simulates its abstract counterpart, for any
      PRF behind the interface. Session.v draws the consequences: a whole session of
      requests gives the answers of the abstract generator, and those of the
      document's as long as a check on the lengths of the requests and of the buffer
      ([doc_fits_all]) finds none on which the two part; exactly which bytes of the
      caller's buffer change; what is cleared of yielded bytes in the state and what
      remains; that mixing in seed loses nothing of the state or of the seed.
    - ChaChaMerged.v, ChaChaKrovetz.v: both ciphers compute the reference blocks
      on every target; the two give the same stream; where it repeats. The key and
      nonce words of a cipher's state write back as the bytes they were read from.
    - Entropy.v, EntropyProps.v: every source returns, writes only its part of the
      buffer, and on success has filled it with bytes obtained from the operating
      system or the CPU in this call ([os_bytes]): read from the caller's descriptor
      or from the file of the configured name, once its type and inode have passed
      the checks on a device ([device_passes]), or from the configured socket;
      [ottery_get_entropy_] yields the concatenation of what its sources gave one
      after the other ([gathers]), from at least one strong source and at most one
      per domain; partial reads; which descriptors are closed.
    - Config.v's choice of PRF and flags: ConfigProps.v.
    - ApiRefine.v, ApiProps.v: initialization ends in a ready state or a clean
      failure; a ready state answers as the abstract generator, locked or not,
      and leaves its lock free; a forked child reseeds before output; uninitialized
      and wiped states are refused; ranges are exact, terminate, and are as
      uniform as a division can make them; seed is cleared from the stack buffers
      of the seeding functions ([reseed_frame] and [add_seed_frame] return these
      buffers beside the results of the functions).
    - Safety.v: the state API as a transition system. Every state reachable by
      permitted calls, forks and changes of the world has its lock free and is
      either refused by its magic number or a full generator; no permitted call
      on one has undefined behaviour, and only a range call can fail to return.
    - GlobalProps.v: first use, failure and wiping of the global state.
    - Public.v: initialization, any sequence of calls, and destruction, through any
      of the three headers, behave as the abstract generator; the first global
      call. Configure.v: any sequence of configuration calls leaves the last
      setting of each kind, and a generator made with it is seeded without the
      disabled sources and with a strong one.
    - ThreadsInv.v, ThreadsProps.v: under every schedule at most one thread is
      inside the lock, the replies are those of the same calls made one after the
      other in the order in which they completed, threads of one process share
      the abstract stream without overlap, and every thread finishes; a place
      where the code's locking does not cover what it shares. ThreadsGlobal.v: any
      two threads that first call the global functions before the state is
      initialized can be inside its lock together; those that start later cannot.
      ThreadsOsInv.v,
      ThreadsOsProps.v: the same, as one abstract generator to which each null
      seed adds what its sources gave, when threads also add fresh entropy and the
      world changes under them; no step is undefined or aborts.
    - TestVectors.v: whichever implementations it is asked for, the C program
      prints what the script prints. HsOttery.v: the Haskell model answers
      sessions as the abstract generator, except where a check on lengths finds
      one of its two differences (it leaves an empty buffer empty, and it answers
      large requests as the document does); the number of rounds it is asked for
      makes no difference to it. TestSpec.v: run on the seed file, with whatever
      implementation initialization chooses, the C program prints what the
      Haskell program prints for its number of blocks in a call. TestEgd.v: over a
      connection that carries bytes, whole or in pieces, the client obtains the
      server's bytes or the right error, for every length and every bug the server
      can be told to have. DumpBytesProps.v: which arguments choose which
      strategy of dump_bytes and which end it, that what it writes is what the
      strategy reads from the abstract generator's stream, and which of its options
      do not do what they are for.
    - TinytestProps.v: which tests a command line selects, in terms of their full
      names and flags ([orders], [named], [obey], [selection]); the driver runs these
      and no others, in order; its counts and status are the verdicts of the tests'
      events; children do not influence each other through memory, and a dead child
      is a failure; when it ends, and when it does not. TestMain.v: the program of
      the deep tests passes, in every build and for every selection, and so does the
      demonstration on a working system.
      TestShallowProps.v: the shallow tests pass on every Unix machine, in every
      build.
    - TestPrf.v and TestOs.v are concrete instances (the test PRF of
      test/test_deep.c, a deterministic operating system) on which the theorems
      are instantiated.

    ** Loops and fuel

    The block loops are structural on their number of turns. The loops over a
    length take that length as fuel and are proved never to run out
    ([rand_bytes_whole_blocks] gets one turn more than there are whole blocks,
    [add_seed_loop], [read_n_bytes_loop] and [rdrand_loop] get one turn per byte,
    each turn consuming at least one). The one loop without a bound is that of
    [ottery_st_rand_range]: it repeats while a random draw is too large. It takes
    its fuel from the caller, and the theorems say that it returns as soon as the
    fuel covers the draws the abstract generator rejects. The steps a thread
    makes in one call are bounded by [call_steps] ([tcall_steps] with null
    seeds), and no schedule without range calls is longer than their sum. The
    loops of the test programs over bytes still to generate or to add take their
    number as fuel ([stream_loop], [HsOttery.addSeed_]). dump_bytes runs for ever:
    [dump_main] makes as many turns of its loop as it is told; a turn's inner loop
    gets a turn per byte of the buffer, which is enough, and its loops that reject
    draws take their fuel from the caller like the range functions. The driver's
    aliases may name aliases; [process_test_option] follows them to a given depth,
    the stack, and [tinytest_main_ends] says which depth is enough and when none is.

    ** Not modelled

    The step of a thread is one call of the core, of a check, of the entropy
    sources, or the store of their state: what happens inside it is not
    interleaved. For the steps inside the lock exclusion justifies this; for the
    sources and the store, which a null seed makes outside it, it is an
    assumption. Null seeds and forks are not combined: Threads.v has the fork
    check of every call in full, ThreadsOs.v follows a schedule as long as the
    process keeps its id. Also left out: the failure of [alloca]; what a compiler
    does with the volatile pointer to [memset]; the AltiVec branch, which the
    source refuses to compile; of the shallow tests, those that look at random
    bytes, and so pass with a probability; the clearing test, which looks at memory
    of a function that has returned; of the driver, its branch for Windows, the
    text of failed checks, a pipe that cannot be made or read; the benchmarks; and
    the build system. *)
From Stdlib Require Export ZArith Lia.
From Stdlib Require Export Strings.Byte.
From stdpp Require Export base list option strings.

(** ** Scopes, hint databases and tactics shared by the development *)

Declare Scope ottery_scope.
Delimit Scope ottery_scope with ottery.

(** [ottery] resolves the side conditions of the library lemmas, [zlen]
    computes lengths of buffers. *)
Create HintDb ottery.
Create Rewrite HintDb zlen.
Create Rewrite HintDb ottery.

#[global] Instance byte_eq_dec : EqDecision byte := Byte.byte_eq_dec.
#[global] Instance byte_inhabited : Inhabited byte := populate x00.

(** ** Lengths of lists as integers *)

Definition zlen {A} (l : list A) : Z := Z.of_nat (length l).

Lemma zlen_nonneg {A} (l : list A) : (0 <= zlen l)%Z.
Proof. unfold zlen. lia. Qed.

Lemma zlen_nil {A} : zlen (@nil A) = 0%Z.
Proof. reflexivity. Qed.

Lemma zlen_cons {A} (x : A) l : zlen (x :: l) = (1 + zlen l)%Z.
Proof. unfold zlen. cbn [length]. lia. Qed.

Lemma zlen_app {A} (l k : list A) : zlen (l ++ k) = (zlen l + zlen k)%Z.
Proof. unfold zlen. rewrite length_app. lia. Qed.

Lemma zlen_replicate {A} n (x : A) : zlen (replicate n x) = Z.of_nat n.
Proof. unfold zlen. by rewrite length_replicate. Qed.

Lemma zlen_take {A} n (l : list A) :
  zlen (take n l) = Z.min (Z.of_nat n) (zlen l).
Proof. unfold zlen. rewrite length_take. lia. Qed.

Lemma zlen_drop {A} n (l : list A) :
  zlen (drop n l) = Z.max 0 (zlen l - Z.of_nat n).
Proof. unfold zlen. rewrite length_drop. lia. Qed.

Lemma zlen_fmap {A B} (f : A -> B) (l : list A) : zlen (f <$> l) = zlen l.
Proof. unfold zlen. by rewrite length_fmap. Qed.

#[export] Hint Rewrite @zlen_nil @zlen_cons @zlen_app @zlen_replicate
  @zlen_take @zlen_drop @zlen_fmap : zlen.

(** [zlen_lia] normalises buffer lengths and decides the arithmetic. *)
Ltac zlen_facts :=
  repeat match goal with
  | |- context [zlen ?l] =>
      lazymatch goal with
      | _ : (0 <= zlen l)%Z |- _ => fail
      | _ => pose proof (zlen_nonneg l)
      end
  | H : context [zlen ?l] |- _ =>
      lazymatch goal with
      | _ : (0 <= zlen l)%Z |- _ => fail
      | _ => pose proof (zlen_nonneg l)
      end
  end.

Ltac zlen_lia :=
  autorewrite with zlen in *; zlen_facts; lia.

(** ** Conditionals on boolean comparisons *)

(** [bool_lia b v] replaces the boolean [b] by [v] when arithmetic decides it;
    the code's guards are boolean comparisons of integers. *)
Ltac decide_guard :=
  match goal with
  | |- context [if (?a <? ?b)%Z then _ else _] =>
      first
        [ replace (a <? b)%Z with true by (symmetry; apply Z.ltb_lt; lia)
        | replace (a <? b)%Z with false by (symmetry; apply Z.ltb_ge; lia) ]
  | |- context [if (?a <=? ?b)%Z then _ else _] =>
      first
        [ replace (a <=? b)%Z with true by (symmetry; apply Z.leb_le; lia)
        | replace (a <=? b)%Z with false by (symmetry; apply Z.leb_gt; lia) ]
  | |- context [if (?a =? ?b)%Z then _ else _] =>
      first
        [ replace (a =? b)%Z with true by (symmetry; apply Z.eqb_eq; lia)
        | replace (a =? b)%Z with false by (symmetry; apply Z.eqb_neq; lia) ]
  end.

(** [split_guard] does the case analysis on the first integer comparison of
    the goal and records its meaning. *)
Ltac split_guard :=
  match goal with
  | |- context [(?a <? ?b)%Z] => destruct (Z.ltb_spec a b)
  | |- context [(?a <=? ?b)%Z] => destruct (Z.leb_spec a b)
  | |- context [(?a =? ?b)%Z] => destruct (Z.eqb_spec a b)
  end.

(** ** The option monad as the code's undefined behaviour

    A computation on buffers returns [None] when the C code would read or
    write outside an object, call through a null pointer, or fail an
    assertion. *)

Lemma bind_Some {A B} (x : A) (f : A -> option B) : (Some x ≫= f) = f x.
Proof. reflexivity. Qed.

#[export] Hint Rewrite @bind_Some : ottery.

Lemma bind_is_Some {A B} (m : option A) (f : A -> option B) (y : B) :
  (m ≫= f) = Some y -> exists x, m = Some x /\ f x = Some y.
Proof. destruct m as [x|]; [|discriminate]. intros H. by exists x. Qed.

(** [inv_bind H] peels the binds of a hypothesis [H : (x ← m; k) = Some y]. *)
Ltac inv_bind H :=
  let x := fresh "x" in let Hx := fresh "Hx" in
  apply bind_is_Some in H as (x & Hx & H).

(** ** Lists in the option monad *)

Lemma mapM_pure {A B} (f : A -> option B) (g : A -> B) l :
  Forall (fun x => f x = Some (g x)) l -> mapM f l = Some (g <$> l).
Proof. intros H. induction H as [|x l Hx _ IH]; [done|]. cbn. by rewrite Hx; cbn; rewrite IH. Qed.

Lemma mapM_congr {A B} (f g : A -> option B) l :
  Forall (fun x => f x = g x) l -> mapM f l = mapM g l.
Proof. intros H. induction H as [|x l Hx _ IH]; [done|]. cbn. by rewrite Hx, IH. Qed.

Lemma mjoin_fmap {A B} (f : A -> list B) l : mjoin (f <$> l) = l ≫= f.
Proof. induction l as [|x l IH]; [done|]. rewrite bind_cons, <-IH. done. Qed.

(** ** Logs of several threads *)

Section Logs.
Context {E : Type} (who : E -> nat).

(** The entries of thread [i]. *)
Definition log_of (i : nat) (log : list E) : list E := filter (fun e => who e = i) log.

(** What a step adds to the log. *)
Definition ext (ev : option E) : list E :=
  match ev with Some e => [e] | None => [] end.

Lemma ext_None log : log ++ ext None = log.
Proof. apply app_nil_r. Qed.

Lemma log_of_ext i ev log :
  (forall e, ev = Some e -> who e = i) -> log_of i (log ++ ext ev) = log_of i log ++ ext ev.
Proof.
  intros H. unfold log_of. rewrite filter_app. f_equal. destruct ev as [e|]; [|done].
  cbn [ext]. by rewrite filter_cons_True, filter_nil by (by apply H).
Qed.

Lemma log_of_other i j ev log :
  (forall e, ev = Some e -> who e = i) -> i <> j -> log_of j (log ++ ext ev) = log_of j log.
Proof.
  intros H Hne. unfold log_of. rewrite filter_app. destruct ev as [e|]; cbn [ext];
    [|by rewrite filter_nil, app_nil_r].
  rewrite filter_cons_False, filter_nil, app_nil_r; [done|]. rewrite (H e eq_refl). congruence.
Qed.

(** The log stays one of the threads' entries. *)
Lemma Forall_ext ev (P : E -> Prop) log :
  Forall P log -> (forall e, ev = Some e -> P e) -> Forall P (log ++ ext ev).
Proof.
  intros Hl He. apply Forall_app. split; [done|]. destruct ev as [e|]; [|done].
  apply Forall_singleton. by apply He.
Qed.
End Logs.

(** Lowering one term lowers the sum. *)
Lemma sum_list_insert_lt (ns : list nat) i m n :
  ns !! i = Some m -> (n < m)%nat -> (sum_list (<[i := n]> ns) < sum_list ns)%nat.
Proof.
  revert i. induction ns as [|k ns IH]; intros [|i] Hn Hlt; [done..| |].
  - injection Hn as ->. cbn. unfold id. lia.
  - specialize (IH i Hn Hlt). change (k + sum_list (<[i := n]> ns) < k + sum_list ns)%nat. lia.
Qed.
