(* ===== verification/Words.v ===== *)
(** * Machine words

    Fixed-width unsigned integers as [Z] with their wrap-around, the byte
    type, the word macros of src/chacha_merged_ecrypt.h, and the lemmas about
    them that the components share. *)
From Stdlib Require Import NArith.
From S2P Require Import Prelude.
Local Open Scope Z_scope.

(** ** Wrap-around of the C unsigned types *)

Definition u8 (z : Z) : Z := z mod 2 ^ 8.
Definition u16 (z : Z) : Z := z mod 2 ^ 16.
Definition u32 (z : Z) : Z := z mod 2 ^ 32.
Definition u64 (z : Z) : Z := z mod 2 ^ 64.

Definition in_u32 (z : Z) : Prop := 0 <= z < 2 ^ 32.

(** ** Bytes *)

Definition byte_of_Z (z : Z) : byte :=
  default x00 (Byte.of_N (Z.to_N (u8 z))).

Definition Z_of_byte (b : byte) : Z := Z.of_N (Byte.to_N b).

Definition byte_xor (a b : byte) : byte :=
  byte_of_Z (Z.lxor (Z_of_byte a) (Z_of_byte b)).

(** ** Little-endian integers of any width: [memcpy] into an integer object *)

Fixpoint le_decode (bs : list byte) : Z :=
  match bs with
  | [] => 0
  | b :: bs => Z_of_byte b + 2 ^ 8 * le_decode bs
  end.

Fixpoint le_encode (n : nat) (z : Z) : list byte :=
  match n with
  | O => []
  | S n => byte_of_Z z :: le_encode n (z / 2 ^ 8)
  end.

(** ** The macros of chacha_merged_ecrypt.h *)

Definition U32V (v : Z) : Z := Z.land (u32 v) 0xFFFFFFFF.
Definition U8V (v : Z) : Z := Z.land (u8 v) 0xFF.

Definition ROTL32 (v n : Z) : Z :=
  Z.lor (U32V (u32 (Z.shiftl v n))) (Z.shiftr v (32 - n)).

(** The portable byte-order macros; Ecrypt.v has the other forms. *)
Definition U8TO32_LITTLE (p0 p1 p2 p3 : byte) : Z :=
  Z.lor (Z.lor (Z.lor (Z_of_byte p0) (u32 (Z.shiftl (Z_of_byte p1) 8)))
               (u32 (Z.shiftl (Z_of_byte p2) 16)))
        (u32 (Z.shiftl (Z_of_byte p3) 24)).

Definition U32TO8_LITTLE (v : Z) : list byte :=
  [ byte_of_Z (U8V v); byte_of_Z (U8V (Z.shiftr v 8));
    byte_of_Z (U8V (Z.shiftr v 16)); byte_of_Z (U8V (Z.shiftr v 24)) ].

(** ** Lemmas: wrap-around *)

Lemma u8_range z : 0 <= u8 z < 2 ^ 8.
Proof. apply Z.mod_pos_bound. lia. Qed.

Lemma u16_range z : 0 <= u16 z < 2 ^ 16.
Proof. apply Z.mod_pos_bound. lia. Qed.

Lemma u32_range z : 0 <= u32 z < 2 ^ 32.
Proof. apply Z.mod_pos_bound. lia. Qed.

Lemma u64_range z : 0 <= u64 z < 2 ^ 64.
Proof. apply Z.mod_pos_bound. lia. Qed.

Lemma u8_small z : 0 <= z < 2 ^ 8 -> u8 z = z.
Proof. apply Z.mod_small. Qed.

Lemma u16_small z : 0 <= z < 2 ^ 16 -> u16 z = z.
Proof. apply Z.mod_small. Qed.

Lemma u32_small z : 0 <= z < 2 ^ 32 -> u32 z = z.
Proof. apply Z.mod_small. Qed.

Lemma u64_small z : 0 <= z < 2 ^ 64 -> u64 z = z.
Proof. apply Z.mod_small. Qed.

Lemma in_u32_u32 z : in_u32 (u32 z).
Proof. apply u32_range. Qed.

#[export] Hint Resolve in_u32_u32 u32_range u8_range : ottery.

(** A number below [2^n] has no bit at or above [n]. *)
Lemma testbit_high z n i : 0 <= z < 2 ^ n -> n <= i -> Z.testbit z i = false.
Proof.
  intros Hz Hi. destruct (Z.eq_dec z 0) as [->|Hnz]; [apply Z.bits_0|].
  apply Z.bits_above_log2; [lia|].
  assert (0 <= n) by (destruct (Z.le_gt_cases 0 n); [done|];
    rewrite (Z.pow_neg_r 2 n) in Hz by lia; lia).
  pose proof (proj1 (Z.log2_lt_pow2 z n ltac:(lia)) (proj2 Hz)). lia.
Qed.

Lemma bits_bound z n :
  0 <= n -> 0 <= z -> (forall i, n <= i -> Z.testbit z i = false) -> z < 2 ^ n.
Proof.
  intros Hn Hz Hb. destruct (Z.lt_ge_cases z (2 ^ n)) as [|Hge]; [done|].
  assert (n <= Z.log2 z) as Hl by (apply Z.log2_le_pow2; lia).
  specialize (Hb _ Hl). rewrite Z.bit_log2 in Hb; [done|].
  pose proof (Z.pow_pos_nonneg 2 n). lia.
Qed.

Lemma land_lt_pow2 a b n : 0 <= n -> 0 <= a < 2 ^ n -> 0 <= b < 2 ^ n ->
  0 <= Z.land a b < 2 ^ n.
Proof.
  intros Hn Ha Hb. assert (0 <= Z.land a b) by (apply Z.land_nonneg; lia).
  split; [done|]. apply bits_bound; [done..|]. intros i Hi.
  by rewrite Z.land_spec, (testbit_high a n i).
Qed.

Lemma lor_lt_pow2 a b n : 0 <= n -> 0 <= a < 2 ^ n -> 0 <= b < 2 ^ n ->
  0 <= Z.lor a b < 2 ^ n.
Proof.
  intros Hn Ha Hb. assert (0 <= Z.lor a b) by (apply Z.lor_nonneg; lia).
  split; [done|]. apply bits_bound; [done..|]. intros i Hi.
  by rewrite Z.lor_spec, (testbit_high a n i), (testbit_high b n i).
Qed.

Lemma lxor_lt_pow2 a b n : 0 <= n -> 0 <= a < 2 ^ n -> 0 <= b < 2 ^ n ->
  0 <= Z.lxor a b < 2 ^ n.
Proof.
  intros Hn Ha Hb. assert (0 <= Z.lxor a b) by (apply Z.lxor_nonneg; lia).
  split; [done|]. apply bits_bound; [done..|]. intros i Hi.
  by rewrite Z.lxor_spec, (testbit_high a n i), (testbit_high b n i).
Qed.

Lemma U32V_u32 v : U32V v = u32 v.
Proof.
  unfold U32V. change 0xFFFFFFFF with (Z.ones 32).
  rewrite Z.land_ones by lia. apply Z.mod_small, u32_range.
Qed.

Lemma U8V_u8 v : U8V v = u8 v.
Proof.
  unfold U8V. change 0xFF with (Z.ones 8).
  rewrite Z.land_ones by lia. apply Z.mod_small, u8_range.
Qed.

Lemma u32_idemp v : u32 (u32 v) = u32 v.
Proof. apply u32_small, u32_range. Qed.

(** ** Lemmas: bytes *)

Lemma Z_of_byte_range b : 0 <= Z_of_byte b < 2 ^ 8.
Proof.
  unfold Z_of_byte. pose proof (Byte.to_N_bounded b) as H.
  change (2 ^ 8) with (Z.of_N 256). lia.
Qed.

Lemma byte_of_Z_of_byte b : byte_of_Z (Z_of_byte b) = b.
Proof.
  unfold byte_of_Z. rewrite u8_small by apply Z_of_byte_range.
  unfold Z_of_byte. rewrite N2Z.id. by rewrite Byte.of_to_N.
Qed.

Lemma Z_of_byte_of_Z z : Z_of_byte (byte_of_Z z) = u8 z.
Proof.
  unfold byte_of_Z, Z_of_byte. pose proof (u8_range z) as Hr.
  destruct (Byte.of_N (Z.to_N (u8 z))) as [b|] eqn:E; cbn.
  - apply Byte.to_of_N in E. rewrite E. lia.
  - apply Byte.of_N_None_iff in E. lia.
Qed.

Lemma byte_of_Z_u8 z : byte_of_Z (u8 z) = byte_of_Z z.
Proof. unfold byte_of_Z. by rewrite (u8_small (u8 z)) by apply u8_range. Qed.

Lemma Z_of_byte_xor a b :
  Z_of_byte (byte_xor a b) = Z.lxor (Z_of_byte a) (Z_of_byte b).
Proof.
  unfold byte_xor. rewrite Z_of_byte_of_Z. apply u8_small.
  apply lxor_lt_pow2; [lia|apply Z_of_byte_range..].
Qed.

Lemma Z_of_byte_inj a b : Z_of_byte a = Z_of_byte b -> a = b.
Proof. intros H. by rewrite <-(byte_of_Z_of_byte a), H, byte_of_Z_of_byte. Qed.

(** XORing twice with the same byte gives the first one back. *)
Lemma byte_xor_comm a b : byte_xor a b = byte_xor b a.
Proof. unfold byte_xor. by rewrite Z.lxor_comm. Qed.

Lemma byte_xor_involutive a b : byte_xor (byte_xor a b) b = a.
Proof.
  apply Z_of_byte_inj. rewrite !Z_of_byte_xor, Z.lxor_assoc, Z.lxor_nilpotent.
  apply Z.lxor_0_r.
Qed.

(** ** Lemmas: little-endian integers *)

Lemma le_decode_range bs : 0 <= le_decode bs < 2 ^ (8 * zlen bs).
Proof.
  induction bs as [|b bs IH]; cbn [le_decode]; [change (0 <= 0 < 1); lia|].
  rewrite zlen_cons, Z.mul_add_distr_l, Z.pow_add_r by (zlen_facts; lia).
  pose proof (Z_of_byte_range b). change (2 ^ (8 * 1)) with (2 ^ 8). nia.
Qed.

Lemma length_le_encode n z : length (le_encode n z) = n.
Proof. revert z. induction n; intros z; cbn; [done|by rewrite IHn]. Qed.

Lemma zlen_le_encode n z : zlen (le_encode n z) = Z.of_nat n.
Proof. unfold zlen. by rewrite length_le_encode. Qed.

Lemma le_decode_encode n z : le_decode (le_encode n z) = z mod 2 ^ (8 * Z.of_nat n).
Proof.
  revert z. induction n as [|n IH]; intros z; cbn [le_encode le_decode].
  - by rewrite Z.mod_1_r.
  - rewrite IH, Z_of_byte_of_Z. unfold u8.
    replace (8 * Z.of_nat (S n)) with (8 + 8 * Z.of_nat n) by lia.
    rewrite Z.pow_add_r by lia.
    assert (0 < 2 ^ (8 * Z.of_nat n)) by (apply Z.pow_pos_nonneg; lia).
    rewrite Z.rem_mul_r by lia. done.
Qed.

Lemma le_encode_decode bs : le_encode (length bs) (le_decode bs) = bs.
Proof.
  induction bs as [|b bs IH]; cbn [length le_encode le_decode]; [done|].
  pose proof (Z_of_byte_range b).
  replace (Z_of_byte b + 2 ^ 8 * le_decode bs)
    with (le_decode bs * 2 ^ 8 + Z_of_byte b) by lia.
  f_equal.
  - rewrite <-(byte_of_Z_u8 (_ + _)). unfold u8.
    rewrite Z.add_comm, Z.mod_add by lia. rewrite Z.mod_small by lia.
    apply byte_of_Z_of_byte.
  - rewrite Z.div_add_l, Z.div_small, Z.add_0_r by lia. exact IH.
Qed.

#[export] Hint Rewrite zlen_le_encode : zlen.
