(* ===== verification/Memory.v ===== *)
(** * Byte buffers

    A C byte array is a [list byte]; a pointer into it is an offset. Reads and
    writes are checked: [None] is an access outside the array. *)
From S2P Require Import Prelude Words.
Local Open Scope Z_scope.

(** ** Operations *)

(** The [n] bytes at offset [off]. *)
Definition slice {A} (m : list A) (off n : Z) : list A :=
  take (Z.to_nat n) (drop (Z.to_nat off) m).

(** [m] with [bs] stored at offset [off]. *)
Definition splice {A} (m : list A) (off : Z) (bs : list A) : list A :=
  take (Z.to_nat off) m ++ bs ++ drop (Z.to_nat off + length bs) m.

Definition mread (m : list byte) (off n : Z) : option (list byte) :=
  if (0 <=? off) && (0 <=? n) && (off + n <=? zlen m)
  then Some (slice m off n) else None.

Definition mwrite (m : list byte) (off : Z) (bs : list byte) : option (list byte) :=
  if (0 <=? off) && (off + zlen bs <=? zlen m)
  then Some (splice m off bs) else None.

Definition zeros (n : Z) : list byte := replicate (Z.to_nat n) x00.

(** [memset(m + off, 0, n)] *)
Definition mzero (m : list byte) (off n : Z) : option (list byte) :=
  if 0 <=? n then mwrite m off (zeros n) else None.

(** [memcpy(dst + doff, src + soff, n)] *)
Definition memcpy (dst : list byte) (doff : Z) (src : list byte) (soff n : Z)
  : option (list byte) :=
  bs ← mread src soff n; mwrite dst doff bs.

(** ** Lemmas *)

Lemma zlen_slice {A} (m : list A) off n :
  0 <= off -> 0 <= n -> off + n <= zlen m -> zlen (slice m off n) = n.
Proof. unfold slice, zlen. rewrite length_take, length_drop. lia. Qed.

Lemma zlen_splice {A} (m bs : list A) off :
  0 <= off -> off + zlen bs <= zlen m -> zlen (splice m off bs) = zlen m.
Proof.
  unfold splice, zlen. rewrite !length_app, length_take, length_drop. lia.
Qed.

Lemma zlen_zeros n : 0 <= n -> zlen (zeros n) = n.
Proof. unfold zeros. rewrite zlen_replicate. lia. Qed.

Lemma mread_ok m off n :
  0 <= off -> 0 <= n -> off + n <= zlen m -> mread m off n = Some (slice m off n).
Proof.
  intros. unfold mread.
  rewrite (proj2 (Z.leb_le 0 off)), (proj2 (Z.leb_le 0 n)),
    (proj2 (Z.leb_le _ _)) by lia. done.
Qed.

Lemma mwrite_ok m off bs :
  0 <= off -> off + zlen bs <= zlen m -> mwrite m off bs = Some (splice m off bs).
Proof.
  intros. unfold mwrite.
  rewrite (proj2 (Z.leb_le 0 off)), (proj2 (Z.leb_le _ _)) by lia. done.
Qed.

Lemma mzero_ok m off n :
  0 <= off -> 0 <= n -> off + n <= zlen m ->
  mzero m off n = Some (splice m off (zeros n)).
Proof.
  intros. unfold mzero. rewrite (proj2 (Z.leb_le 0 n)) by lia.
  apply mwrite_ok; [lia|]. rewrite zlen_zeros; lia.
Qed.

Lemma memcpy_ok dst doff src soff n :
  0 <= soff -> 0 <= n -> soff + n <= zlen src ->
  0 <= doff -> doff + n <= zlen dst ->
  memcpy dst doff src soff n = Some (splice dst doff (slice src soff n)).
Proof.
  intros. unfold memcpy. rewrite mread_ok by lia. cbn [mbind option_bind].
  apply mwrite_ok; [lia|]. rewrite zlen_slice; lia.
Qed.

Lemma mread_inv m off n bs :
  mread m off n = Some bs ->
  0 <= off /\ 0 <= n /\ off + n <= zlen m /\ bs = slice m off n.
Proof.
  unfold mread. destruct (_ && _) eqn:E; [|done]. intros [= <-].
  apply andb_prop in E as [[E1 E2]%andb_prop E3].
  apply Z.leb_le in E1, E2, E3. done.
Qed.

Lemma mwrite_inv m off bs m' :
  mwrite m off bs = Some m' ->
  0 <= off /\ off + zlen bs <= zlen m /\ m' = splice m off bs.
Proof.
  unfold mwrite. destruct (_ && _) eqn:E; [|done]. intros [= <-].
  apply andb_prop in E as [E1 E2]. apply Z.leb_le in E1, E2. done.
Qed.

Lemma mwrite_zlen m off bs m' : mwrite m off bs = Some m' -> zlen m' = zlen m.
Proof. intros (H1 & H2 & ->)%mwrite_inv. by apply zlen_splice. Qed.

(** Reading back what was stored, and what was not touched. *)
Lemma slice_splice_eq {A} (m bs : list A) off n :
  0 <= off -> off + zlen bs <= zlen m -> n = zlen bs ->
  slice (splice m off bs) off n = bs.
Proof.
  unfold slice, splice, zlen. intros ? ? ->.
  rewrite drop_app_length' by (rewrite length_take; lia).
  by rewrite take_app_length' by lia.
Qed.

Lemma slice_splice_before {A} (m bs : list A) off o n :
  0 <= o -> 0 <= n -> o + n <= off -> off <= zlen m ->
  slice (splice m off bs) o n = slice m o n.
Proof.
  unfold slice, splice, zlen. intros.
  rewrite drop_app_le by (rewrite length_take; lia).
  rewrite take_app_le by (rewrite length_drop, length_take; lia).
  rewrite skipn_firstn_comm, firstn_firstn. f_equal. lia.
Qed.

Lemma slice_splice_after {A} (m bs : list A) off o n :
  0 <= off -> off + zlen bs <= zlen m -> off + zlen bs <= o -> 0 <= n ->
  slice (splice m off bs) o n = slice m o n.
Proof.
  unfold slice, splice, zlen. intros. f_equal.
  rewrite !app_assoc, drop_app_ge by (rewrite length_app, length_take; lia).
  rewrite drop_drop, length_app, length_take. f_equal. lia.
Qed.

(** One store, with the facts its successors need. *)
Lemma mwrite_step m off bs :
  0 <= off -> off + zlen bs <= zlen m ->
  exists m', mwrite m off bs = Some m' /\ zlen m' = zlen m /\
    slice m' off (zlen bs) = bs /\
    (forall o n, 0 <= n -> 0 <= o -> o + n <= off \/ off + zlen bs <= o ->
      slice m' o n = slice m o n).
Proof.
  intros. exists (splice m off bs). split; [by apply mwrite_ok|].
  split; [apply zlen_splice; lia|]. split; [apply slice_splice_eq; lia|].
  intros o n ? ? [|].
  - apply slice_splice_before; zlen_facts; lia.
  - apply slice_splice_after; lia.
Qed.

Lemma splice_splice_app {A} (m a b : list A) off off' :
  0 <= off -> off + zlen a + zlen b <= zlen m -> off' = off + zlen a ->
  splice (splice m off a) off' b = splice m off (a ++ b).
Proof.
  unfold splice, zlen. intros ? ? ->. rewrite length_app.
  set (t := take (Z.to_nat off) m).
  assert (length t = Z.to_nat off) as Ht by (unfold t; rewrite length_take; lia).
  rewrite !app_assoc. rewrite take_app_length' by (rewrite length_app; lia).
  rewrite drop_app_ge by (rewrite length_app; lia).
  rewrite drop_drop, length_app. rewrite <-!app_assoc. do 3 f_equal. f_equal. lia.
Qed.

(** A store right after the last one extends it. *)
Lemma mwrite_splice m off a off' b :
  0 <= off -> off + zlen a + zlen b <= zlen m -> off' = off + zlen a ->
  mwrite (splice m off a) off' b = Some (splice m off (a ++ b)).
Proof.
  intros ? ? ->. zlen_facts. rewrite mwrite_ok by (rewrite ?zlen_splice; lia).
  by rewrite splice_splice_app.
Qed.

Lemma splice_nil {A} (m : list A) off : splice m off [] = m.
Proof.
  unfold splice. cbn [app length]. rewrite Nat.add_0_r. apply take_drop.
Qed.

Lemma slice_app_split {A} (m : list A) off a b :
  0 <= off -> 0 <= a -> 0 <= b ->
  slice m off (a + b) = slice m off a ++ slice m (off + a) b.
Proof.
  unfold slice. intros.
  replace (Z.to_nat (off + a)) with (Z.to_nat off + Z.to_nat a)%nat by lia.
  rewrite <-drop_drop. replace (Z.to_nat (a + b)) with (Z.to_nat a + Z.to_nat b)%nat by lia.
  by rewrite take_take_drop.
Qed.

Lemma slice_all {A} (m : list A) n : n = zlen m -> slice m 0 n = m.
Proof. unfold slice, zlen. intros ->. cbn. apply take_ge. lia. Qed.

Lemma splice_all {A} (m bs : list A) : zlen bs = zlen m -> splice m 0 bs = bs.
Proof.
  intros H. unfold splice. change (Z.to_nat 0) with O. unfold zlen in H.
  rewrite drop_ge by lia. change (take 0 m) with (@nil A). by rewrite app_nil_r.
Qed.

Lemma slice_nil {A} (m : list A) off : slice m off 0 = [].
Proof. reflexivity. Qed.

Lemma slice_app_l {A} (a b : list A) off n :
  0 <= off -> 0 <= n -> off + n <= zlen a -> slice (a ++ b) off n = slice a off n.
Proof.
  unfold slice, zlen. intros. rewrite drop_app_le by lia.
  apply take_app_le. rewrite length_drop. lia.
Qed.

Lemma slice_app_r {A} (a b : list A) : slice (a ++ b) (zlen a) (zlen b) = b.
Proof. unfold slice, zlen. rewrite !Nat2Z.id, drop_app_length. by apply take_ge. Qed.

(** What was stored at the start of a buffer. *)
Lemma slice_splice_0 {A} (m bs : list A) o n :
  0 <= o -> 0 <= n -> o + n <= zlen bs ->
  slice (splice m 0 bs) o n = slice bs o n.
Proof. intros. change (splice m 0 bs) with (bs ++ drop (length bs) m). by apply slice_app_l. Qed.

Lemma slice_slice {A} (m : list A) off n o k :
  0 <= off -> 0 <= o -> 0 <= k -> o + k <= n ->
  slice (slice m off n) o k = slice m (off + o) k.
Proof.
  unfold slice. intros. rewrite skipn_firstn_comm, firstn_firstn, drop_drop.
  f_equal; [lia|]. f_equal. lia.
Qed.

Lemma take_slice {A} (m : list A) off n k :
  0 <= k <= n -> take (Z.to_nat k) (slice m off n) = slice m off k.
Proof. unfold slice. intros. rewrite firstn_firstn. f_equal. lia. Qed.

Lemma drop_slice {A} (m : list A) off n k :
  0 <= off -> 0 <= k <= n ->
  drop (Z.to_nat k) (slice m off n) = slice m (off + k) (n - k).
Proof.
  unfold slice. intros. rewrite skipn_firstn_comm, drop_drop.
  f_equal; [lia|]. f_equal. lia.
Qed.

Lemma slice_zeros off n k : 0 <= off -> 0 <= n -> off + n <= k -> slice (zeros k) off n = zeros n.
Proof.
  unfold slice, zeros. intros. rewrite drop_replicate, take_replicate. f_equal. lia.
Qed.

Lemma zeros_app a b : 0 <= a -> 0 <= b -> zeros a ++ zeros b = zeros (a + b).
Proof. intros. unfold zeros. rewrite <-replicate_add. f_equal. lia. Qed.

(** ** Footprints *)

(** [out'] is [out] with nothing changed outside [off, off + n). *)
Record wrote (off n : Z) (out out' : list byte) : Prop := mk_wrote {
  wrote_len : zlen out' = zlen out;
  wrote_frame : forall o k, 0 <= o -> 0 <= k -> o + k <= off \/ off + n <= o ->
    slice out' o k = slice out o k;
}.

#[export] Instance wrote_preorder off n : PreOrder (wrote off n).
Proof.
  split; [by intros ?|]. intros a b c [L1 F1] [L2 F2]. split; [congruence|].
  intros. rewrite F2, F1 by done. done.
Qed.

Lemma wrote_mono off n off' n' out out' :
  wrote off n out out' -> off' <= off -> off + n <= off' + n' -> wrote off' n' out out'.
Proof. intros [L F] ??. split; [done|]. intros. apply F; lia. Qed.

Lemma wrote_splice off n out o bs :
  0 <= off <= o -> o + zlen bs <= off + n -> o + zlen bs <= zlen out ->
  wrote off n out (splice out o bs).
Proof.
  intros. zlen_facts. split; [apply zlen_splice; lia|].
  intros ? ? ? ? [|]; [apply slice_splice_before|apply slice_splice_after]; lia.
Qed.

#[export] Hint Rewrite @zlen_slice @zlen_splice zlen_zeros using lia : zlen.
