(* ===== verification/Internal.v ===== *)
(** * The data structures of src/ottery-internal.h and src/ottery_common.h

    Constants, error codes, entropy flags, [struct ottery_prf] and the
    interface a pseudorandom function offers to the generator, the
    configuration and state structures, and the build options. *)
From S2P Require Import Prelude Words Memory.
Local Open Scope Z_scope.

(** ** Constants *)

Definition MAX_STATE_BYTES : Z := 64.
Definition MAX_STATE_LEN : Z := 256.
Definition MAX_OUTPUT_LEN : Z := 1024.

Definition OTTERY_ERR_NONE : Z := 0x0000.
Definition OTTERY_ERR_LOCK_INIT : Z := 0x0001.
Definition OTTERY_ERR_INTERNAL : Z := 0x0002.
Definition OTTERY_ERR_INIT_STRONG_RNG : Z := 0x0003.
Definition OTTERY_ERR_ACCESS_STRONG_RNG : Z := 0x0004.
Definition OTTERY_ERR_INVALID_ARGUMENT : Z := 0x0005.
Definition OTTERY_ERR_STATE_ALIGNMENT : Z := 0x0006.
Definition OTTERY_ERR_STATE_INIT : Z := 0x1000.
Definition OTTERY_ERR_FLAG_GLOBAL_PRNG_INIT : Z := 0x2000.
Definition OTTERY_ERR_FLAG_POSTFORK_RESEED : Z := 0x4000.

(** [OTTERY_ERR_IS_FATAL(err)] *)
Definition OTTERY_ERR_IS_FATAL (err : Z) : bool :=
  negb (Z.land err (Z.lnot 0xfff) =? 0).

Definition OTTERY_ENTROPY_FL_STRONG : Z := 0x000001.
Definition OTTERY_ENTROPY_FL_FAST : Z := 0x000002.
Definition OTTERY_ENTROPY_DOM_OS : Z := 0x000100.
Definition OTTERY_ENTROPY_DOM_CPU : Z := 0x000200.
Definition OTTERY_ENTROPY_DOM_EGD : Z := 0x000400.
Definition OTTERY_ENTROPY_FLAG_MASK : Z := 0x000000ff.
Definition OTTERY_ENTROPY_DOM_MASK : Z := 0x0000ff00.
Definition OTTERY_ENTROPY_ALL_SOURCES : Z := 0x0fff0000.
Definition OTTERY_ENTROPY_SRC_RANDOMDEV : Z := 0x0010000.
Definition OTTERY_ENTROPY_SRC_CRYPTGENRANDOM : Z := 0x0020000.
Definition OTTERY_ENTROPY_SRC_RDRAND : Z := 0x0040000.
Definition OTTERY_ENTROPY_SRC_EGD : Z := 0x0080000.

Definition OTTERY_CPUCAP_SIMD : Z := Z.shiftl 1 0.
Definition OTTERY_CPUCAP_SSSE3 : Z := Z.shiftl 1 1.
Definition OTTERY_CPUCAP_AES : Z := Z.shiftl 1 2.
Definition OTTERY_CPUCAP_RAND : Z := Z.shiftl 1 3.

(** ** Build options: the OTTERY_NO_ macros *)

Class BuildConfig := {
  OTTERY_NO_PID_CHECK : bool;
  OTTERY_NO_INIT_CHECK : bool;
  OTTERY_NO_LOCKS : bool;
  OTTERY_NO_CLEAR_AFTER_YIELD : bool;
  OTTERY_NO_WIPE_STACK : bool;
  OTTERY_NO_SIMD : bool;
}.

(** The default build sets none of them. *)
Definition default_build : BuildConfig := {|
  OTTERY_NO_PID_CHECK := false;
  OTTERY_NO_INIT_CHECK := false;
  OTTERY_NO_LOCKS := false;
  OTTERY_NO_CLEAR_AFTER_YIELD := false;
  OTTERY_NO_WIPE_STACK := false;
  OTTERY_NO_SIMD := false |}.

(** ** Pseudorandom functions *)

(** [struct ottery_prf]. [setup state bytes] is the new contents of the state
    object; [generate state output idx] is the new contents of the state
    object and of the output buffer. Both return [None] where the C function
    would access memory outside its arguments. *)
Record ottery_prf := mk_prf {
  name : string;
  impl : string;
  flav : string;
  state_len : Z;
  state_bytes : Z;
  output_len : Z;
  required_cpucap : Z;
  setup : list byte -> list byte -> option (list byte);
  generate : list byte -> list byte -> Z -> option (list byte * list byte);
}.

(** A zeroed [struct ottery_prf]: null names, zero sizes, and null function
    pointers, which are undefined behaviour to call. *)
Definition null_prf : ottery_prf := {|
  name := EmptyString; impl := EmptyString; flav := EmptyString;
  state_len := 0; state_bytes := 0; output_len := 0; required_cpucap := 0;
  setup := fun _ _ => None;
  generate := fun _ _ _ => None |}.

(** ** Entropy configuration and state *)

(** A socket address: its family and the rest of its bytes. *)
Record sockaddr := mk_sockaddr { sa_family : Z; sa_data : list byte }.

Record ottery_entropy_config := mk_entropy_config {
  urandom_fname : option string;
  urandom_fd : Z;
  urandom_fd_is_set : bool;
  egd_sockaddr : option sockaddr;
  egd_socklen : Z;
  disabled_sources : Z;
  weak_sources : Z;
  allow_nondev_urandom : bool;
}.

Record ottery_entropy_state := mk_entropy_state { urandom_fd_inode : Z }.

Record ottery_config := mk_config {
  cfg_impl : option ottery_prf;
  cfg_entropy : ottery_entropy_config;
}.

(** ** The generator's state *)

(** The lock in the state: not initialised, free, or held. *)
Inductive lock_state := LockUninit | LockFree | LockHeld.

Record ottery_state := mk_state {
  st_buffer : list byte;
  st_state : list byte;
  st_prf : ottery_prf;
  st_block_counter : Z;
  st_magic : Z;
  st_pos : Z;
  st_pid : Z;
  st_entropy_src_flags : Z;
  st_last_entropy_flags : Z;
  st_entropy_config : ottery_entropy_config;
  st_entropy_state : ottery_entropy_state;
  st_mutex : lock_state;
}.

(** Assignments to one field of the structure. *)
Definition set_buffer (x : list byte) (st : ottery_state) : ottery_state :=
  mk_state x (st_state st) (st_prf st) (st_block_counter st)
    (st_magic st) (st_pos st) (st_pid st) (st_entropy_src_flags st)
    (st_last_entropy_flags st) (st_entropy_config st) (st_entropy_state st) (st_mutex st).
Definition set_state (x : list byte) (st : ottery_state) : ottery_state :=
  mk_state (st_buffer st) x (st_prf st) (st_block_counter st)
    (st_magic st) (st_pos st) (st_pid st) (st_entropy_src_flags st)
    (st_last_entropy_flags st) (st_entropy_config st) (st_entropy_state st) (st_mutex st).
Definition set_prf (x : ottery_prf) (st : ottery_state) : ottery_state :=
  mk_state (st_buffer st) (st_state st) x (st_block_counter st)
    (st_magic st) (st_pos st) (st_pid st) (st_entropy_src_flags st)
    (st_last_entropy_flags st) (st_entropy_config st) (st_entropy_state st) (st_mutex st).
Definition set_block_counter (x : Z) (st : ottery_state) : ottery_state :=
  mk_state (st_buffer st) (st_state st) (st_prf st) x
    (st_magic st) (st_pos st) (st_pid st) (st_entropy_src_flags st)
    (st_last_entropy_flags st) (st_entropy_config st) (st_entropy_state st) (st_mutex st).
Definition set_magic (x : Z) (st : ottery_state) : ottery_state :=
  mk_state (st_buffer st) (st_state st) (st_prf st) (st_block_counter st)
    x (st_pos st) (st_pid st) (st_entropy_src_flags st)
    (st_last_entropy_flags st) (st_entropy_config st) (st_entropy_state st) (st_mutex st).
Definition set_pos (x : Z) (st : ottery_state) : ottery_state :=
  mk_state (st_buffer st) (st_state st) (st_prf st) (st_block_counter st)
    (st_magic st) x (st_pid st) (st_entropy_src_flags st)
    (st_last_entropy_flags st) (st_entropy_config st) (st_entropy_state st) (st_mutex st).
Definition set_pid (x : Z) (st : ottery_state) : ottery_state :=
  mk_state (st_buffer st) (st_state st) (st_prf st) (st_block_counter st)
    (st_magic st) (st_pos st) x (st_entropy_src_flags st)
    (st_last_entropy_flags st) (st_entropy_config st) (st_entropy_state st) (st_mutex st).
Definition set_entropy_src_flags (x : Z) (st : ottery_state) : ottery_state :=
  mk_state (st_buffer st) (st_state st) (st_prf st) (st_block_counter st)
    (st_magic st) (st_pos st) (st_pid st) x
    (st_last_entropy_flags st) (st_entropy_config st) (st_entropy_state st) (st_mutex st).
Definition set_last_entropy_flags (x : Z) (st : ottery_state) : ottery_state :=
  mk_state (st_buffer st) (st_state st) (st_prf st) (st_block_counter st)
    (st_magic st) (st_pos st) (st_pid st) (st_entropy_src_flags st)
    x (st_entropy_config st) (st_entropy_state st) (st_mutex st).
Definition set_entropy_config (x : ottery_entropy_config) (st : ottery_state) : ottery_state :=
  mk_state (st_buffer st) (st_state st) (st_prf st) (st_block_counter st)
    (st_magic st) (st_pos st) (st_pid st) (st_entropy_src_flags st)
    (st_last_entropy_flags st) x (st_entropy_state st) (st_mutex st).
Definition set_entropy_state (x : ottery_entropy_state) (st : ottery_state) : ottery_state :=
  mk_state (st_buffer st) (st_state st) (st_prf st) (st_block_counter st)
    (st_magic st) (st_pos st) (st_pid st) (st_entropy_src_flags st)
    (st_last_entropy_flags st) (st_entropy_config st) x (st_mutex st).
Definition set_mutex (x : lock_state) (st : ottery_state) : ottery_state :=
  mk_state (st_buffer st) (st_state st) (st_prf st) (st_block_counter st)
    (st_magic st) (st_pos st) (st_pid st) (st_entropy_src_flags st)
    (st_last_entropy_flags st) (st_entropy_config st) (st_entropy_state st) x.

(** Zeroed structures, as [memset] leaves them. *)
Definition zero_entropy_config : ottery_entropy_config :=
  mk_entropy_config None 0 false None 0 0 0 false.

Definition zero_state : ottery_state :=
  mk_state (zeros MAX_OUTPUT_LEN) (zeros MAX_STATE_LEN) null_prf 0 0 0 0 0 0
    zero_entropy_config (mk_entropy_state 0) LockUninit.

(** ** What a pseudorandom function promises to the generator

    [prf_out key idx] is the mathematical function; [prf_holds key m] says
    that the state object [m] holds [key]. The generator's theorems are proved
    against this interface, and each PRF in the library implements it. *)
Class PrfSpec (p : ottery_prf) := {
  prf_out : list byte -> Z -> list byte;
  prf_holds : list byte -> list byte -> Prop;
  prf_out_len : forall k i,
    zlen k = state_bytes p -> zlen (prf_out k i) = output_len p;
  prf_setup_ok : forall m bs,
    zlen m = MAX_STATE_LEN -> state_bytes p <= zlen bs ->
    exists m', setup p m bs = Some m' /\ zlen m' = MAX_STATE_LEN /\
      prf_holds (slice bs 0 (state_bytes p)) m';
  prf_generate_ok : forall k m out i,
    zlen k = state_bytes p -> prf_holds k m -> zlen m = MAX_STATE_LEN ->
    output_len p <= zlen out -> in_u32 i ->
    exists m', generate p m out i = Some (m', splice out 0 (prf_out k i)) /\
      zlen m' = MAX_STATE_LEN /\ prf_holds k m';
}.
Arguments prf_out p {_} _ _.
Arguments prf_holds p {_} _ _.

(** The sizes a PRF must have for the generator to work: the bounds that
    [ottery_st_initialize] checks, and the three it relies on without
    checking (half a key is not empty; a fresh block holds the next key, one
    8-byte integer and at least one byte more; two keys fit in a block). *)
Class PrfSizes (p : ottery_prf) : Prop := {
  sizes_state_len : 0 <= state_len p <= MAX_STATE_LEN;
  sizes_state_bytes : 2 <= state_bytes p <= MAX_STATE_BYTES;
  sizes_output_len : output_len p <= MAX_OUTPUT_LEN;
  sizes_int : state_bytes p + 8 < output_len p;
  sizes_two_keys : 2 * state_bytes p <= output_len p;
}.

(** [clia] is [lia] with the size constants unfolded. *)
Ltac clia :=
  unfold MAX_OUTPUT_LEN, MAX_STATE_LEN, MAX_STATE_BYTES, in_u32 in *; lia.
