(* ===== verification/Spec.v ===== *)
(** * The abstract generators

    The PRNG layer of doc/specification.txt: a state is a PRF key and the
    buffered bytes not yet given to the user. There are two generators over it.
    The document's is the text as it stands ([doc_tiny], [small], [doc_big],
    [doc_get_bytes], [doc_add], [doc_construct]). The code's ([tiny], [small],
    [big], [get_bytes], [add], [construct]), which the rest of the development
    calls the abstract generator, shares "Stir", "Removing" and the small requests
    with it, but never leaves its buffer empty, divides a big request another way,
    and stirs once more at the end of a construction. Session.v says on which
    requests the two agree. *)
From S2P Require Import Prelude Words Memory.
Local Open Scope Z_scope.

(** A PRNG state (K, BUF). *)
Record prng := mk_prng { K : list byte; BUF : list byte }.

Section Spec.
(** The key length, the bytes per PRF call, and the PRF itself. *)
Context (KEY_LEN BLOCK_LEN : Z) (PRF : list byte -> Z -> list byte).

(** "Stir": the first KEY_LEN bytes of PRF(K, ctr) become the key, the rest
    the buffer. [ctr] is 0 except after the whole blocks of a big request. *)
Definition stir_at (ctr : Z) (a : prng) : prng :=
  let out := PRF (K a) ctr in
  mk_prng (slice out 0 KEY_LEN) (slice out KEY_LEN (BLOCK_LEN - KEY_LEN)).

Definition stir : prng -> prng := stir_at 0.

(** "Removing" n bytes from BUF. *)
Definition remove (n : Z) (a : prng) : list byte * prng :=
  (take (Z.to_nat n) (BUF a), mk_prng (K a) (drop (Z.to_nat n) (BUF a))).

(** A request for an integer, as the code makes it: the buffer is never left empty. *)
Definition tiny (n : Z) (a : prng) : list byte * prng :=
  if n <=? zlen (BUF a) then
    let '(bs, a1) := remove n a in
    (bs, if n =? zlen (BUF a) then stir a1 else a1)
  else remove n (stir a).

(** "Small Request". *)
Definition small (n : Z) (a : prng) : list byte * prng :=
  if n <? zlen (BUF a) then remove n a
  else
    let '(bs, a1) := remove (n - zlen (BUF a)) (stir a) in (BUF a ++ bs, a1).

(** PRF(K, ctr..ctr+n-1), with the document's 32-bit counter. *)
Fixpoint blocks (k : list byte) (ctr : Z) (n : nat) : list byte :=
  match n with
  | O => []
  | S n => PRF k (u32 ctr) ++ blocks k (ctr + 1) n
  end.

(** A large request, as the code makes it: the buffer, whole blocks under the old
    key, then a stir at the next counter and a small request for what is left. *)
Definition big (n : Z) (a : prng) : list byte * prng :=
  let n1 := n - zlen (BUF a) in
  let q := n1 / BLOCK_LEN in
  let '(bs, a1) := small (n1 mod BLOCK_LEN) (stir_at (u32 q) a) in
  (BUF a ++ blocks (K a) 0 (Z.to_nat q) ++ bs, a1).

(** The code's choice between the two. *)
Definition get_bytes (n : Z) (a : prng) : list byte * prng :=
  if n <? BLOCK_LEN - KEY_LEN + zlen (BUF a) - 1 then small n a else big n a.

(** "Add": half a key of seed at a time, XORed into the first bytes of a
    block that becomes the key. *)
Definition xor_prefix (s x : list byte) : list byte :=
  zip_with byte_xor (take (length s) x) s ++ drop (length s) x.

Definition add_chunk (y : list byte) (a : prng) : prng :=
  mk_prng (slice (xor_prefix y (PRF (K a) 0)) 0 KEY_LEN) [].

Fixpoint add_loop (fuel : nat) (s : list byte) (a : prng) : prng :=
  match fuel, s with
  | O, _ | _, [] => a
  | S fuel, _ =>
      let h := Z.to_nat (KEY_LEN / 2) in
      add_loop fuel (drop h s) (add_chunk (take h s) a)
  end.

Definition add (s : list byte) (a : prng) : prng :=
  stir (add_loop (length s) s a).

(** "Construct", as the code does it: the first KEY_LEN bytes of the seed are
    the key, the rest is added, and the result is stirred (after "Add" has
    already stirred it). *)
Definition construct (s : list byte) : prng :=
  let a := mk_prng (slice s 0 KEY_LEN) [] in
  stir (if KEY_LEN <? zlen s then add (drop (Z.to_nat KEY_LEN) s) a else a).

(** An integer in [0, upper]: draws of [size] bytes, divided, until one is small
    enough; [None] when [fuel] draws were not enough. *)
Fixpoint range (fuel : nat) (size divisor upper : Z) (a : prng) : option (Z * prng) :=
  match fuel with
  | O => None
  | S fuel =>
      let '(bs, a1) := tiny size a in
      let n := le_decode bs / divisor in
      if upper <? n then range fuel size divisor upper a1 else Some (n, a1)
  end.

(** ** The document *)

(** "Tiny Request": "If there are fewer than N bytes in BUF, then Stir the PRNG.
    Remove the first N bytes from BUF". *)
Definition doc_tiny (n : Z) (a : prng) : list byte * prng :=
  remove n (if zlen (BUF a) <? n then stir a else a).

(** The document's "Big Request" (reading its "(N_BLOCKS-1) * BLOCK_LEN" as
    "(BLOCKS_NEEDED-1) * BLOCK_LEN", as test/hs/Ottery.hs does): room for
    the next key is counted in BYTES_NEEDED, so the block that holds the key
    also holds everything left to return. *)
Definition doc_big (n : Z) (a : prng) : list byte * prng :=
  let bytes_needed := n + KEY_LEN - zlen (BUF a) in
  let blocks_needed := (bytes_needed + BLOCK_LEN - 1) / BLOCK_LEN in
  let B := blocks (K a) 0 (Z.to_nat (blocks_needed - 1)) in
  let '(c, a1) := remove (n - zlen B - zlen (BUF a)) (stir_at (u32 (blocks_needed - 1)) a) in
  (BUF a ++ B ++ c, if zlen (BUF a1) =? 0 then stir a1 else a1).

(** "Get N Random Bytes": "as a Small request if can", which is for N "no more
    than BUF_LEN + Len(BUF) - 1", "and if not [...] as a Big request". *)
Definition doc_get_bytes (n : Z) (a : prng) : list byte * prng :=
  if n <=? BLOCK_LEN - KEY_LEN + zlen (BUF a) - 1 then small n a else doc_big n a.

(** "Pad S with 0 bytes to a multiple of KEY_LEN/2." *)
Definition pad (s : list byte) : list byte :=
  s ++ replicate (Z.to_nat ((- zlen s) mod (KEY_LEN / 2))) x00.

(** "Add" (which leaves unsaid that X becomes the key). *)
Definition doc_add (s : list byte) (a : prng) : prng :=
  stir (add_loop (length (pad s)) (pad s) a).

(** "Construct", from the bytes of the first source and those of the others. *)
Definition doc_construct (e1 s : list byte) : prng := doc_add s (mk_prng e1 []).
End Spec.
