(* ===== verification/Prng.v ===== *)
(** * The generator core of src/ottery.c

    Block generation, rekeying, buffered and bulk output, integer output and
    the seed-mixing loop: the functions that only touch the generator's state
    and the caller's buffer. Each returns [None] exactly where the C code has
    undefined behaviour or a failing assertion; a caller's pointer [out] is a
    buffer and an offset. *)
From S2P Require Import Prelude Words Memory Internal.
Local Open Scope Z_scope.

Section Prng.
Context {BC : BuildConfig}.

(** [CLEARBUF(ptr, n)] *)
Definition CLEARBUF (m : list byte) (off n : Z) : option (list byte) :=
  if OTTERY_NO_CLEAR_AFTER_YIELD then Some m else mzero m off n.

(** [ottery_memset_volatile_(mem, 0, len)] *)
Definition ottery_memclear_ (mem : list byte) (len : Z) : option (list byte) := mzero mem 0 len.

Definition WIPE_STACK_LEN : Z := 512.

(** Clears a local array, whose contents no one reads. *)
Definition ottery_wipe_stack_ : option unit :=
  if OTTERY_NO_WIPE_STACK then Some tt
  else
    let buf := zeros WIPE_STACK_LEN in
    _ ← ottery_memclear_ buf (zlen buf); Some tt.

(** [st->prf.generate(...)], then the stack and the counter. *)
Definition ottery_st_nextblock_nolock_norekey (st : ottery_state)
  : option ottery_state :=
  '(s, b) ← generate (st_prf st) (st_state st) (st_buffer st) (st_block_counter st);
  _ ← ottery_wipe_stack_;
  Some (set_block_counter (u32 (st_block_counter st + 1))
         (set_buffer b (set_state s st))).

Definition ottery_st_nextblock_nolock (st : ottery_state) : option ottery_state :=
  st1 ← ottery_st_nextblock_nolock_norekey st;
  s ← setup (st_prf st1) (st_state st1) (st_buffer st1);
  b ← CLEARBUF (st_buffer st1) 0 (state_bytes (st_prf st1));
  Some (set_pos (u16 (state_bytes (st_prf st1)))
         (set_block_counter 0 (set_buffer b (set_state s st1)))).

Definition ottery_st_rand_bytes_from_buf (st : ottery_state)
    (out : list byte) (off n : Z) : option (ottery_state * list byte) :=
  if u64 (n + st_pos st) <? output_len (st_prf st) then
    out1 ← memcpy out off (st_buffer st) (st_pos st) n;
    b ← CLEARBUF (st_buffer st) (st_pos st) n;
    Some (set_pos (u16 (st_pos st + n)) (set_buffer b st), out1)
  else
    let cpy := u32 (output_len (st_prf st) - st_pos st) in
    out1 ← memcpy out off (st_buffer st) (st_pos st) cpy;
    let n1 := u64 (n - cpy) in
    let off1 := off + cpy in
    st1 ← ottery_st_nextblock_nolock st;
    out2 ← memcpy out1 off1 (st_buffer st1) (st_pos st1) n1;
    b ← CLEARBUF (st_buffer st1) 0 n1;
    let st2 := set_pos (u16 (st_pos st1 + n1)) (set_buffer b st1) in
    if st_pos st2 <? output_len (st_prf st2) then Some (st2, out2) else None.

(** The [while (n >= st->prf.output_len)] loop; the fuel bounds its turns. *)
Fixpoint rand_bytes_whole_blocks (fuel : nat) (st : ottery_state)
    (out : list byte) (off n : Z)
  : option (ottery_state * list byte * Z * Z) :=
  match fuel with
  | O => None
  | S fuel =>
      let ol := output_len (st_prf st) in
      if ol <=? n then
        st1 ← ottery_st_nextblock_nolock_norekey st;
        out1 ← memcpy out off (st_buffer st1) 0 ol;
        rand_bytes_whole_blocks fuel st1 out1 (off + ol) (n - ol)
      else Some (st, out, off, n)
  end.

Definition ottery_st_rand_bytes_impl (st : ottery_state)
    (out : list byte) (off n : Z) : option (ottery_state * list byte) :=
  let p := st_prf st in
  if u64 (n + st_pos st) <? u32 (output_len p * 2 - state_bytes p - 1) then
    ottery_st_rand_bytes_from_buf st out off n
  else
    let cpy := u32 (output_len p - st_pos st) in
    out1 ← memcpy out off (st_buffer st) (st_pos st) cpy;
    let off1 := off + cpy in
    let n1 := u64 (n - cpy) in
    '(st2, out2, off2, n2) ←
      rand_bytes_whole_blocks (S (Z.to_nat (n1 / output_len p))) st out1 off1 n1;
    st3 ← ottery_st_nextblock_nolock st2;
    ottery_st_rand_bytes_from_buf st3 out2 off2 n2.

(** [INT_ASSIGN_PTR(type, r, p)] for an unsigned type of [size] bytes, on a
    little-endian machine. *)
Definition INT_ASSIGN_PTR (size : Z) (m : list byte) (off : Z) : option Z :=
  bs ← mread m off size; Some (le_decode bs).

(** [OTTERY_RETURN_RAND_INTTYPE_IMPL(st, inttype, unlock)] without its unlock,
    for an unsigned type of [size] bytes. *)
Definition OTTERY_RETURN_RAND_INTTYPE_IMPL (size : Z) (st : ottery_state)
  : option (Z * ottery_state) :=
  if size + st_pos st <=? output_len (st_prf st) then
    result ← INT_ASSIGN_PTR size (st_buffer st) (st_pos st);
    b ← CLEARBUF (st_buffer st) (st_pos st) size;
    let st1 := set_pos (u16 (st_pos st + size)) (set_buffer b st) in
    if st_pos st1 =? output_len (st_prf st1) then
      st2 ← ottery_st_nextblock_nolock st1; Some (result, st2)
    else Some (result, st1)
  else
    st1 ← ottery_st_nextblock_nolock st;
    result ← INT_ASSIGN_PTR size (st_buffer st1) (st_pos st1);
    b ← CLEARBUF (st_buffer st1) 0 size;
    Some (result, set_pos (u16 (st_pos st1 + size)) (set_buffer b st1)).

(** [for (i = 0; i < m; ++i) st->buffer[i] ^= seed[i];] *)
Definition xor_seed (b : list byte) (m : Z) (seed : list byte) (soff : Z)
  : option (list byte) :=
  x ← mread b 0 m;
  s ← mread seed soff m;
  mwrite b 0 (zip_with byte_xor x s).

(** The [while (n)] loop of [ottery_st_add_seed_impl]; [soff] is how far
    [seed] has advanced. *)
Fixpoint add_seed_loop (fuel : nat) (st : ottery_state)
    (seed : list byte) (soff n : Z) : option ottery_state :=
  if n =? 0 then Some st
  else
    match fuel with
    | O => None
    | S fuel =>
        let half := state_bytes (st_prf st) / 2 in
        let m := if half <? n then half else n in
        st1 ← ottery_st_nextblock_nolock_norekey st;
        b ← xor_seed (st_buffer st1) m seed soff;
        s ← setup (st_prf st1) (st_state st1) b;
        add_seed_loop fuel (set_block_counter 0 (set_state s (set_buffer b st1)))
          seed (soff + m) (n - m)
    end.

(** The body of [ottery_st_add_seed_impl] between its lock and its unlock,
    less the flag updates. *)
Definition mix_seed (st : ottery_state) (seed : list byte) (n : Z)
  : option ottery_state :=
  st1 ← add_seed_loop (Z.to_nat n) st seed 0 n;
  ottery_st_nextblock_nolock st1.

(** [ottery_st_prevent_backtracking_nolock] *)
Definition ottery_st_prevent_backtracking_nolock (st : ottery_state)
  : option ottery_state :=
  if OTTERY_NO_CLEAR_AFTER_YIELD then
    b ← mzero (st_buffer st) 0 (st_pos st); Some (set_buffer b st)
  else Some st.

(** [ottery_memclear_(st, sizeof( *st))] *)
Definition ottery_st_wipe_nolock (st : ottery_state) : ottery_state := zero_state.

End Prng.
