(* ===== verification/Refine.v ===== *)
(** * The generator core implements the abstract generator

    The representation relation between a concrete [ottery_state] and an
    abstract PRNG state, the frame each operation leaves alone, and the
    simulation of every core operation by its abstract counterpart. The lemmas
    are proved for any PRF that implements [PrfSpec] and [PrfSizes]. *)
From S2P Require Import Prelude Words Memory Internal Spec Prng.
Local Open Scope Z_scope.

(** ** The frame: the fields output operations never touch *)

Record same_frame (st st' : ottery_state) : Prop := mk_frame {
  frame_prf : st_prf st' = st_prf st;
  frame_magic : st_magic st' = st_magic st;
  frame_pid : st_pid st' = st_pid st;
  frame_src : st_entropy_src_flags st' = st_entropy_src_flags st;
  frame_last : st_last_entropy_flags st' = st_last_entropy_flags st;
  frame_cfg : st_entropy_config st' = st_entropy_config st;
  frame_ent : st_entropy_state st' = st_entropy_state st;
  frame_mutex : st_mutex st' = st_mutex st;
}.

#[export] Instance same_frame_preorder : PreOrder same_frame.
Proof.
  split; [by intros ?|].
  intros a b c [] []. split; congruence.
Qed.

#[export] Hint Extern 1 (same_frame _ _) => (by constructor) : ottery.

Section Refine.
Context {BC : BuildConfig} {p : ottery_prf} {PS : PrfSpec p} {PZ : PrfSizes p}.

Abbreviation sb := (state_bytes p).
Abbreviation ol := (output_len p).
Abbreviation PRF := (prf_out p).
Abbreviation STIR := (stir_at sb ol PRF).

(** ** Representation *)

(** The state object holds the key [k]; the block counter is any 32-bit value. *)
Record keyed (k : list byte) (st : ottery_state) : Prop := mk_keyed {
  keyed_prf : st_prf st = p;
  keyed_buffer : zlen (st_buffer st) = MAX_OUTPUT_LEN;
  keyed_state : zlen (st_state st) = MAX_STATE_LEN;
  keyed_len : zlen k = sb;
  keyed_holds : prf_holds p k (st_state st);
  keyed_ctr : in_u32 (st_block_counter st);
}.

(** Between operations the counter is 0 and [pos] leaves at least one byte. *)
Record rep (st : ottery_state) (a : prng) : Prop := mk_rep {
  rep_keyed : keyed (K a) st;
  rep_ctr : st_block_counter st = 0;
  rep_pos : sb <= st_pos st < ol;
  rep_buf : BUF a = slice (st_buffer st) (st_pos st) (ol - st_pos st);
}.

(** ** Sizes *)

Lemma sizes_facts : 2 <= sb <= 64 /\ sb + 8 < ol <= 1024 /\ 2 * sb <= ol.
Proof.
  destruct PZ as [H1 H2 H3 H4 H5].
  clia.
Qed.

Lemma rep_zlen_buf st a : rep st a -> zlen (BUF a) = ol - st_pos st.
Proof.
  intros [[? Hb] ? Hp ->]. pose proof sizes_facts. pose proof sizes_output_len.
  apply zlen_slice; clia.
Qed.

Ltac sizes := pose proof sizes_facts.
Ltac run := cbn [mbind option_bind st_buffer st_state st_prf st_block_counter
  st_magic st_pos st_pid st_entropy_src_flags st_last_entropy_flags
  st_entropy_config st_entropy_state st_mutex set_buffer set_state
  set_block_counter set_pos].

(** ** Clearing *)

(** [CLEARBUF] succeeds inside the buffer and leaves every byte outside its
    range alone. *)
Lemma CLEARBUF_ok m off n :
  0 <= off -> 0 <= n -> off + n <= zlen m ->
  exists m', CLEARBUF m off n = Some m' /\ zlen m' = zlen m /\
    (forall o k, off + n <= o -> 0 <= k -> slice m' o k = slice m o k) /\
    (forall o k, 0 <= o -> 0 <= k -> o + k <= off -> slice m' o k = slice m o k).
Proof.
  intros. unfold CLEARBUF. destruct OTTERY_NO_CLEAR_AFTER_YIELD; [by exists m|].
  rewrite mzero_ok by clia. eexists; split; [done|].
  pose proof (zlen_zeros n ltac:(clia)) as Hz. split_and!.
  - apply zlen_splice; clia.
  - intros. apply slice_splice_after; clia.
  - intros. apply slice_splice_before; clia.
Qed.

(** ** One block *)

Lemma wipe_stack_ok : ottery_wipe_stack_ = Some tt.
Proof.
  unfold ottery_wipe_stack_, ottery_memclear_. destruct OTTERY_NO_WIPE_STACK; [done|].
  rewrite zlen_zeros by (unfold WIPE_STACK_LEN; lia).
  by rewrite mzero_ok by (rewrite ?zlen_zeros; unfold WIPE_STACK_LEN; lia).
Qed.

Lemma norekey_ok k st :
  keyed k st ->
  exists st', ottery_st_nextblock_nolock_norekey st = Some st' /\ keyed k st' /\
    st_buffer st' = splice (st_buffer st) 0 (PRF k (st_block_counter st)) /\
    st_block_counter st' = u32 (st_block_counter st + 1) /\
    st_pos st' = st_pos st /\ same_frame st st'.
Proof.
  intros [Hp Hb Hs Hk Hh Hc]. sizes.
  destruct (prf_generate_ok k (st_state st) (st_buffer st) (st_block_counter st))
    as (m' & E & Hm & Hh'); [done..|clia|done|].
  unfold ottery_st_nextblock_nolock_norekey. rewrite Hp, E, wipe_stack_ok. run.
  eexists; split; [done|]. split; [|by auto with ottery].
  pose proof (prf_out_len k (st_block_counter st) Hk).
  split; run; try done; [|apply u32_range]. rewrite zlen_splice; clia.
Qed.

Lemma nextblock_ok k b st :
  keyed k st ->
  exists st', ottery_st_nextblock_nolock st = Some st' /\
    rep st' (STIR (st_block_counter st) (mk_prng k b)) /\
    st_pos st' = sb /\ same_frame st st' /\
    (OTTERY_NO_CLEAR_AFTER_YIELD = false -> slice (st_buffer st') 0 sb = zeros sb).
Proof.
  intros Hk. destruct (norekey_ok k st Hk) as (st1 & E1 & Hk1 & Hb1 & _ & _ & Hf1).
  sizes. pose proof (prf_out_len k (st_block_counter st) (keyed_len _ _ Hk)) as Ho.
  pose proof (keyed_buffer _ _ Hk) as HB.
  destruct Hk1 as [Hp1 HB1 Hs1 Hl1 Hh1 Hc1]. 
  unfold ottery_st_nextblock_nolock. rewrite E1. run. rewrite Hp1.
  destruct (prf_setup_ok (st_state st1) (st_buffer st1)) as (m & E & Hm & Hh);
    [done|clia|]. rewrite E. run.
  destruct (CLEARBUF_ok (st_buffer st1) 0 sb) as (b' & Eb & Hlb & Hafter & _); [clia..|].
  rewrite Eb. run. eexists; split; [done|].
  assert (slice (st_buffer st1) 0 sb = slice (PRF k (st_block_counter st)) 0 sb) as Hkey.
  { rewrite Hb1. apply slice_splice_0; clia. }
  split_and!.
  - split; run; unfold stir_at; cbn [K BUF].
    + split; run; try done; [|rewrite zlen_slice; clia|by rewrite <-Hkey].
      * congruence.
    + done.
    + rewrite u16_small; clia.
    + rewrite u16_small by clia. rewrite Hafter by clia.
      rewrite Hb1. symmetry. apply slice_splice_0; clia.
  - run. apply u16_small; clia.
  - transitivity st1; [done|auto with ottery].
  - intros Hc. run. unfold CLEARBUF in Eb. rewrite Hc in Eb.
    rewrite mzero_ok in Eb by clia. injection Eb as <-.
    apply slice_splice_eq; rewrite ?zlen_zeros; clia.
Qed.

(** ** Buffered output *)

(** Taking [n] buffered bytes: the state with [pos] advanced and any clearing
    of the bytes before it represents the abstract state after [remove]. *)
Lemma remove_ok st a n b' :
  rep st a -> 0 <= n -> n + st_pos st < ol ->
  zlen b' = zlen (st_buffer st) ->
  (forall o k, st_pos st + n <= o -> 0 <= k -> slice b' o k = slice (st_buffer st) o k) ->
  rep (set_pos (u16 (st_pos st + n)) (set_buffer b' st)) (snd (remove n a)) /\
  fst (remove n a) = slice (st_buffer st) (st_pos st) n.
Proof.
  intros [[] Hc Hp HB] ? ? Hl Hafter. sizes. unfold remove. cbn [fst snd]. rewrite HB.
  split; [|apply take_slice; clia].
  split; run; cbn [K BUF]; rewrite ?u16_small by clia; [|done|clia|].
  - split; run; done || congruence.
  - rewrite drop_slice by clia. rewrite Hafter by clia. f_equal. clia.
Qed.

Lemma from_buf_ok st a out off n :
  rep st a -> 0 <= off -> 0 <= n -> off + n <= zlen out ->
  n + st_pos st < 2 * ol - sb ->
  exists st', ottery_st_rand_bytes_from_buf st out off n
      = Some (st', splice out off (fst (small sb ol PRF n a))) /\
    rep st' (snd (small sb ol PRF n a)) /\ same_frame st st' /\
    zlen (fst (small sb ol PRF n a)) = n.
Proof.
  intros Hr Hoff Hn Hout Hlim. pose proof (rep_zlen_buf _ _ Hr) as HBl. sizes.
  pose proof Hr as [Hk Hc Hp HB].
  pose proof (keyed_buffer _ _ Hk) as Hbuf. pose proof (keyed_prf _ _ Hk) as Hprf.
  unfold ottery_st_rand_bytes_from_buf, small. rewrite Hprf, HBl.
  rewrite u64_small by clia. destruct (Z.ltb_spec (n + st_pos st) ol) as [Hlt|Hge].
  - rewrite (proj2 (Z.ltb_lt n _)) by clia. rewrite memcpy_ok by clia. run.
    destruct (CLEARBUF_ok (st_buffer st) (st_pos st) n) as (b' & Eb & Hlb & Haft & _);
      [clia..|]. rewrite Eb. run.
    destruct (remove_ok st a n b') as [Hrep Hbs]; try done.
    rewrite Hbs, zlen_slice by clia. eauto with ottery.
  - rewrite (proj2 (Z.ltb_ge n _)) by clia. rewrite u32_small by clia.
    rewrite memcpy_ok by clia. run. rewrite u64_small by clia.
    destruct (nextblock_ok (K a) (BUF a) st Hk) as (st1 & E1 & Hr1 & Hp1 & Hf1 & _).
    rewrite Hc in Hr1. change (mk_prng (K a) (BUF a)) with (mk_prng (K a) (BUF a)) in Hr1.
    rewrite E1. run. pose proof (rep_keyed _ _ Hr1) as Hk1.
    pose proof (keyed_buffer _ _ Hk1) as Hbuf1.
    pose proof (zlen_slice (st_buffer st) (st_pos st) (ol - st_pos st)) as Hs.
    rewrite memcpy_ok by (rewrite ?zlen_splice; clia). run.
    destruct (CLEARBUF_ok (st_buffer st1) 0 (n - (ol - st_pos st)))
      as (b' & Eb & Hlb & Haft & _); [clia..|]. rewrite Eb. run.
    destruct (remove_ok st1 (STIR 0 (mk_prng (K a) (BUF a))) (n - (ol - st_pos st)) b')
      as [Hrep Hbs]; [done|clia..|done| |].
    { intros. apply Haft; clia. }
    rewrite (frame_prf _ _ Hf1), Hprf, u16_small in * by clia.
    rewrite (proj2 (Z.ltb_lt _ ol)) by clia.
    unfold stir. replace (mk_prng (K a) (BUF a)) with a in * by (by destruct a).
    destruct (remove _ _) as [bs a'] eqn:Erem. cbn [fst snd] in *. subst bs.
    rewrite splice_splice_app by (rewrite ?zlen_slice; clia).
    eexists; split; [by rewrite HB|]. split; [done|]. split.
    + transitivity st1; [done|auto with ottery].
    + rewrite zlen_app, HBl, zlen_slice; clia.
Qed.

(** ** Bulk output *)

Lemma blocks_zlen k c n :
  zlen k = sb -> zlen (blocks PRF k c n) = ol * Z.of_nat n.
Proof.
  intros Hk. revert c. induction n as [|n IH]; intros c; cbn [blocks].
  - rewrite zlen_nil. clia.
  - rewrite zlen_app, IH, prf_out_len by done. clia.
Qed.

Lemma u32_succ c : u32 (u32 c + 1) = u32 (c + 1).
Proof. unfold u32. by rewrite Zplus_mod_idemp_l. Qed.

(** The loop over whole blocks ends and writes the blocks under the current
    key, one counter value each. *)
Lemma whole_blocks_ok fuel k c st out off n :
  keyed k st -> st_block_counter st = u32 c ->
  0 <= n -> 0 <= off -> off + n <= zlen out -> (Z.to_nat (n / ol) < fuel)%nat ->
  exists st', rand_bytes_whole_blocks fuel st out off n
      = Some (st', splice out off (blocks PRF k c (Z.to_nat (n / ol))),
              off + ol * (n / ol), n mod ol) /\
    keyed k st' /\ st_block_counter st' = u32 (c + n / ol) /\ same_frame st st'.
Proof.
  sizes. revert c st out off n. induction fuel as [|fuel IH];
    intros c st out off n Hk Hc Hn Hoff Hout Hfuel; [clia|].
  cbn [rand_bytes_whole_blocks]. rewrite (keyed_prf _ _ Hk).
  destruct (Z.leb_spec ol n) as [Hge|Hlt].
  - destruct (norekey_ok k st Hk) as (st1 & E1 & Hk1 & Hb1 & Hc1 & _ & Hf1).
    rewrite E1. run. pose proof (keyed_buffer _ _ Hk1) as Hbuf1.
    pose proof (prf_out_len k (st_block_counter st) (keyed_len _ _ Hk)) as Hl.
    rewrite memcpy_ok by clia. run.
    assert (n / ol = 1 + (n - ol) / ol) as Hq.
    { replace n with (n - ol + 1 * ol) at 1 by lia. rewrite Z.div_add by lia. lia. }
    assert ((n - ol) mod ol = n mod ol) as Hm.
    { replace (n - ol) with (n + (-1) * ol) by lia. by rewrite Z.mod_add by lia. }
    assert (0 <= (n - ol) / ol) by (apply Z.div_pos; lia).
    assert (slice (st_buffer st1) 0 ol = PRF k (u32 c)) as Hblk.
    { rewrite Hb1, slice_splice_0, slice_all by clia. by rewrite Hc. }
    rewrite Hblk.
    destruct (IH (c + 1) st1 (splice out off (PRF k (u32 c))) (off + ol) (n - ol))
      as (st' & E & Hk' & Hc' & Hf'); try done.
    + by rewrite Hc1, Hc, u32_succ.
    + clia.
    + clia.
    + rewrite zlen_splice; rewrite ?prf_out_len; try apply (keyed_len _ _ Hk); clia.
    + clia.
    + rewrite E, Hm. replace (Z.to_nat (n / ol)) with (S (Z.to_nat ((n - ol) / ol))) by lia.
      cbn [blocks]. rewrite splice_splice_app.
      * eexists. split; [f_equal; f_equal; f_equal; lia|]. split; [done|].
        split; [rewrite Hc'; f_equal; lia|by transitivity st1].
      * clia.
      * rewrite prf_out_len, blocks_zlen by apply (keyed_len _ _ Hk).
        pose proof (Z.mul_div_le (n - ol) ol). clia.
      * by rewrite prf_out_len by apply (keyed_len _ _ Hk).
  - rewrite Z.div_small, Z.mod_small by lia. change (Z.to_nat 0) with O. cbn [blocks].
    rewrite splice_nil, Z.add_0_r. eexists. split; [f_equal; f_equal; f_equal; lia|].
    split_and!; done.
Qed.

(** [ottery_st_rand_bytes_impl] is "Get N Random Bytes": it is defined, writes
    exactly the [n] bytes of the abstract request at [out + off] and nothing
    else, and ends in the representation of the abstract successor. *)
Lemma rand_bytes_impl_ok st a out off n :
  rep st a -> 0 <= off -> 0 <= n < 2 ^ 63 -> off + n <= zlen out ->
  exists st', ottery_st_rand_bytes_impl st out off n
      = Some (st', splice out off (fst (get_bytes sb ol PRF n a))) /\
    rep st' (snd (get_bytes sb ol PRF n a)) /\ same_frame st st' /\
    zlen (fst (get_bytes sb ol PRF n a)) = n.
Proof.
  intros Hr Hoff Hn Hout. pose proof (rep_zlen_buf _ _ Hr) as HBl. sizes.
  pose proof Hr as [Hk Hc Hp HB].
  pose proof (keyed_buffer _ _ Hk) as Hbuf. pose proof (keyed_prf _ _ Hk) as Hprf.
  unfold ottery_st_rand_bytes_impl, get_bytes. rewrite Hprf, HBl.
  rewrite u64_small, u32_small by clia.
  destruct (Z.ltb_spec (n + st_pos st) (ol * 2 - sb - 1)) as [Hlt|Hge].
  { rewrite (proj2 (Z.ltb_lt n _)) by clia. apply from_buf_ok; try done; clia. }
  rewrite (proj2 (Z.ltb_ge n _)) by clia. rewrite u32_small by clia.
  rewrite memcpy_ok by clia. run. rewrite u64_small by clia.
  unfold big. rewrite HBl. set (n1 := n - (ol - st_pos st)).
  pose proof (Z.mod_pos_bound n1 ol ltac:(lia)) as Hmod.
  pose proof (Z.div_mod n1 ol ltac:(lia)) as Hdm.
  assert (0 <= n1 / ol) as Hq by (apply Z.div_pos; lia).
  assert (0 <= ol * (n1 / ol)) as Hprod by (apply Z.mul_nonneg_nonneg; lia).
  pose proof (zlen_slice (st_buffer st) (st_pos st) (ol - st_pos st)) as HA.
  destruct (whole_blocks_ok (S (Z.to_nat (n1 / ol))) (K a) 0 st
    (splice out off (slice (st_buffer st) (st_pos st) (ol - st_pos st)))
    (off + (ol - st_pos st)) n1) as (st2 & E2 & Hk2 & Hc2 & Hf2); try done;
    [clia..|rewrite zlen_splice; clia|clia|].
  rewrite E2. run.
  destruct (nextblock_ok (K a) (BUF a) st2 Hk2) as (st3 & E3 & Hr3 & Hp3 & Hf3 & _).
  rewrite Hc2, Z.add_0_l in Hr3. rewrite E3. run.
  replace (mk_prng (K a) (BUF a)) with a in * by (by destruct a).
  pose proof (blocks_zlen (K a) 0 (Z.to_nat (n1 / ol)) (keyed_len _ _ Hk)) as HBs.
  rewrite Z2Nat.id in HBs by done.
  rewrite splice_splice_app by clia.
  destruct (from_buf_ok st3 (STIR (u32 (n1 / ol)) a)
    (splice out off (slice (st_buffer st) (st_pos st) (ol - st_pos st) ++
      blocks PRF (K a) 0 (Z.to_nat (n1 / ol))))
    (off + (ol - st_pos st) + ol * (n1 / ol)) (n1 mod ol))
    as (st' & E & Hr' & Hf' & Hl'); [done|clia..|rewrite zlen_splice; rewrite ?zlen_app; clia|clia|].
  rewrite E. destruct (small _ _ _ _ _) as [bs a']. cbn [fst snd] in *.
  rewrite splice_splice_app by (rewrite ?zlen_app; clia).
  exists st'. split; [by rewrite HB, <-app_assoc|]. split; [done|]. split.
  - by transitivity st3; [transitivity st2|].
  - rewrite !zlen_app, HBs, HBl. clia.
Qed.

(** ** Integer output *)

Lemma INT_ASSIGN_PTR_ok size m off :
  0 <= off -> 0 <= size -> off + size <= zlen m ->
  INT_ASSIGN_PTR size m off = Some (le_decode (slice m off size)).
Proof. intros. unfold INT_ASSIGN_PTR. by rewrite mread_ok by lia. Qed.

(** [OTTERY_RETURN_RAND_INTTYPE_IMPL] is a "Tiny Request". *)
Lemma rand_inttype_ok st a size :
  rep st a -> 1 <= size <= 8 ->
  exists st', OTTERY_RETURN_RAND_INTTYPE_IMPL size st
      = Some (le_decode (fst (tiny sb ol PRF size a)), st') /\
    rep st' (snd (tiny sb ol PRF size a)) /\ same_frame st st' /\
    zlen (fst (tiny sb ol PRF size a)) = size.
Proof.
  intros Hr Hs. pose proof (rep_zlen_buf _ _ Hr) as HBl. sizes.
  pose proof Hr as [Hk Hc Hp HB].
  pose proof (keyed_buffer _ _ Hk) as Hbuf. pose proof (keyed_prf _ _ Hk) as Hprf.
  unfold OTTERY_RETURN_RAND_INTTYPE_IMPL, tiny. rewrite Hprf, HBl.
  destruct (Z.leb_spec (size + st_pos st) ol) as [Hle|Hgt].
  - rewrite (proj2 (Z.leb_le size _)), INT_ASSIGN_PTR_ok by clia. run.
    destruct (CLEARBUF_ok (st_buffer st) (st_pos st) size) as (b' & Eb & Hlb & Haft & _);
      [clia..|]. rewrite Eb. run. rewrite Hprf, u16_small by clia.
    destruct (Z.eqb_spec (st_pos st + size) ol) as [Heq|Hne].
    + rewrite (proj2 (Z.eqb_eq size _)) by clia.
      set (st1 := set_pos _ _). destruct (nextblock_ok (K a) (drop (Z.to_nat size) (BUF a)) st1)
        as (st2 & E2 & Hr2 & _ & Hf2 & _).
      { destruct Hk. split; unfold st1; run; done || congruence. }
      rewrite E2. run. unfold remove. cbn [fst snd].
      rewrite HB, take_slice, zlen_slice by clia. eexists; split; [done|].
      unfold st1 in Hr2. revert Hr2. run. rewrite Hc, HB. intros Hr2.
      split; [done|]. split; [|done]. transitivity st1; [auto with ottery|done].
    + rewrite (proj2 (Z.eqb_neq size _)) by clia.
      destruct (remove_ok st a size b') as [Hrep Hbs]; [done|clia..|done|done|].
      rewrite u16_small in Hrep by clia.
      destruct (remove size a) as [bs a'] eqn:Erem. cbn [fst snd] in *. subst bs.
      eexists. rewrite zlen_slice by clia. eauto with ottery.
  - rewrite (proj2 (Z.leb_gt size _)) by clia.
    destruct (nextblock_ok (K a) (BUF a) st Hk) as (st1 & E1 & Hr1 & Hp1 & Hf1 & _).
    rewrite Hc in Hr1. rewrite E1. run. pose proof (rep_keyed _ _ Hr1) as Hk1.
    pose proof (keyed_buffer _ _ Hk1) as Hbuf1. rewrite INT_ASSIGN_PTR_ok by clia. run.
    destruct (CLEARBUF_ok (st_buffer st1) 0 size) as (b' & Eb & Hlb & Haft & _);
      [clia..|]. rewrite Eb. run.
    destruct (remove_ok st1 (STIR 0 (mk_prng (K a) (BUF a))) size b')
      as [Hrep Hbs]; [done|clia..|done| |].
    { intros. apply Haft; clia. }
    replace (mk_prng (K a) (BUF a)) with a in * by (by destruct a). unfold stir.
    rewrite Hbs, zlen_slice by clia. eexists. split; [done|]. split; [done|].
    split; [|done]. transitivity st1; [done|auto with ottery].
Qed.

(** ** Adding seed *)

(** The new key from one chunk: the buffer's first bytes with the seed XORed in. *)
Lemma xor_prefix_splice y x :
  zlen y <= zlen x -> xor_prefix y x = splice x 0 (zip_with byte_xor (slice x 0 (zlen y)) y).
Proof.
  intros H.
  change (xor_prefix y x =
    zip_with byte_xor (slice x 0 (zlen y)) y ++
    drop (length (zip_with byte_xor (slice x 0 (zlen y)) y)) x).
  unfold slice. change (drop (Z.to_nat 0) x) with x. unfold zlen in *.
  rewrite Nat2Z.id. unfold xor_prefix. do 2 f_equal.
  rewrite length_zip_with, length_take. lia.
Qed.

Lemma splice_0_0 {A} (m x z : list A) n :
  0 <= n -> n <= zlen x -> zlen z <= zlen x ->
  slice (splice (splice m 0 x) 0 z) 0 n = slice (splice x 0 z) 0 n.
Proof.
  intros. change (splice (splice m 0 x) 0 z) with (z ++ drop (length z) (x ++ drop (length x) m)).
  change (splice x 0 z) with (z ++ drop (length z) x).
  rewrite drop_app_le by (unfold zlen in *; lia). rewrite app_assoc.
  apply slice_app_l; autorewrite with zlen; unfold zlen in *; lia.
Qed.

Lemma add_chunk_ok k st seed soff m :
  keyed k st -> st_block_counter st = 0 ->
  0 <= soff -> 0 <= m <= sb -> soff + m <= zlen seed ->
  exists st1 b s, ottery_st_nextblock_nolock_norekey st = Some st1 /\
    xor_seed (st_buffer st1) m seed soff = Some b /\
    setup (st_prf st1) (st_state st1) b = Some s /\
    keyed (K (add_chunk sb PRF (slice seed soff m) (mk_prng k [])))
      (set_block_counter 0 (set_state s (set_buffer b st1))) /\
    same_frame st st1.
Proof.
  intros Hk Hc Hso Hm Hseed. sizes.
  destruct (norekey_ok k st Hk) as (st1 & E1 & Hk1 & Hb1 & _ & _ & Hf1).
  pose proof (prf_out_len k 0 (keyed_len _ _ Hk)) as Hl. rewrite Hc in Hb1.
  pose proof (keyed_buffer _ _ Hk) as Hbuf. destruct Hk1 as [Hp1 HB1 Hs1 _ _ _].
  exists st1. set (z := zip_with byte_xor (slice (PRF k 0) 0 m) (slice seed soff m)).
  assert (zlen z = m) as Hz.
  { unfold z, zlen. rewrite length_zip_with. pose proof (zlen_slice (PRF k 0) 0 m).
    pose proof (zlen_slice seed soff m). unfold zlen in *. clia. }
  exists (splice (st_buffer st1) 0 z).
  assert (slice (splice (st_buffer st1) 0 z) 0 sb =
          K (add_chunk sb PRF (slice seed soff m) (mk_prng k []))) as Hkey.
  { unfold add_chunk. cbn [K]. rewrite xor_prefix_splice, zlen_slice, Hb1
      by (rewrite ?zlen_slice; clia). fold z. apply splice_0_0; clia. }
  destruct (prf_setup_ok (st_state st1) (splice (st_buffer st1) 0 z)) as (s & Es & Hsl & Hsh);
    [done|rewrite zlen_splice; clia|].
  exists s. split_and!; [done| |by rewrite Hp1| |done].
  - unfold xor_seed. rewrite !mread_ok by clia. run.
    fold z. replace (slice (st_buffer st1) 0 m) with (slice (PRF k 0) 0 m)
      by (rewrite Hb1; symmetry; apply slice_splice_0; clia).
    apply mwrite_ok; clia.
  - rewrite <-Hkey. split; run; try done; try (rewrite ?zlen_splice, ?zlen_slice; clia).
    rewrite zlen_slice; rewrite ?zlen_splice; clia.
Qed.

(** The mixing loop ends and computes the abstract one. *)
Lemma add_seed_loop_ok fuel st k seed soff n :
  keyed k st -> st_block_counter st = 0 ->
  0 <= soff -> 0 <= n -> soff + n <= zlen seed -> (Z.to_nat n <= fuel)%nat ->
  exists st', add_seed_loop fuel st seed soff n = Some st' /\
    keyed (K (add_loop sb PRF fuel (slice seed soff n) (mk_prng k []))) st' /\
    st_block_counter st' = 0 /\ same_frame st st'.
Proof.
  sizes. revert st k soff n. induction fuel as [|fuel IH];
    intros st k soff n Hk Hc Hso Hn Hseed Hfuel; cbn [add_seed_loop].
  { rewrite (proj2 (Z.eqb_eq n 0)) by clia. exists st. by split_and!. }
  destruct (Z.eqb_spec n 0) as [->|Hnz].
  { exists st. rewrite slice_nil. by split_and!. }
  rewrite (keyed_prf _ _ Hk). assert (1 <= sb / 2) as Hhalf by (apply Z.div_le_lower_bound; lia).
  assert (sb / 2 <= sb) as Hhalf' by (apply Z.div_le_upper_bound; lia).
  set (m := if sb / 2 <? n then sb / 2 else n).
  assert (1 <= m <= sb /\ m <= n) as Hm by (unfold m; split_guard; lia).
  destruct (add_chunk_ok k st seed soff m) as (st1 & b & s & E1 & Eb & Es & Hk' & Hf1);
    [done..|clia|clia|]. rewrite E1. run. rewrite Eb. run. rewrite Es. run.
  destruct (IH _ _ (soff + m) (n - m) Hk') as (st' & E' & Hk2 & Hc2 & Hf2); [done|clia..|].
  exists st'. rewrite E'. split; [done|]. split; [|split; [done|]].
  - pose proof (zlen_slice seed soff n ltac:(lia) ltac:(lia) ltac:(lia)) as Hl.
    destruct (slice seed soff n) as [|y ys] eqn:Es'; [rewrite zlen_nil in Hl; clia|].
    cbn [add_loop]. rewrite <-Es'.
    assert (take (Z.to_nat (sb / 2)) (slice seed soff n) = slice seed soff m) as ->.
    { unfold m. destruct (Z.ltb_spec (sb / 2) n); [apply take_slice; clia|].
      apply take_ge. pose proof (zlen_slice seed soff n). unfold zlen in *. lia. }
    assert (drop (Z.to_nat (sb / 2)) (slice seed soff n) = slice seed (soff + m) (n - m)) as ->.
    { unfold m. destruct (Z.ltb_spec (sb / 2) n); [apply drop_slice; clia|].
      rewrite Z.sub_diag, slice_nil. apply drop_ge.
      pose proof (zlen_slice seed soff n). unfold zlen in *. lia. }
    done.
  - transitivity st1; [done|]. etrans; [|exact Hf2]. auto with ottery.
Qed.

(** [mix_seed] is "Add". *)
Lemma mix_seed_ok st a seed n :
  keyed (K a) st -> st_block_counter st = 0 -> 0 <= n <= zlen seed ->
  exists st', mix_seed st seed n = Some st' /\
    rep st' (add sb ol PRF (slice seed 0 n) (mk_prng (K a) [])) /\ same_frame st st'.
Proof.
  intros Hk Hc Hn. unfold mix_seed.
  destruct (add_seed_loop_ok (Z.to_nat n) st (K a) seed 0 n) as (st1 & E1 & Hk1 & Hc1 & Hf1);
    [done..|clia|clia|clia|clia|].
  rewrite E1. run. destruct (nextblock_ok _ [] st1 Hk1) as (st2 & E2 & Hr2 & _ & Hf2 & _).
  exists st2. rewrite E2. split; [done|]. rewrite Hc1 in Hr2. split; [|by transitivity st1].
  unfold add, stir. pose proof (zlen_slice seed 0 n). unfold zlen in *.
  replace (length (slice seed 0 n)) with (Z.to_nat n) by lia. exact Hr2.
Qed.

End Refine.
