(* ===== verification/TestPrf.v ===== *)
(** * The dummy PRF of test/test_deep.c

    The repository tests the generator with a small PRF made of a Vigenere
    cipher on a 512-character text. It is modelled here as a concrete
    implementation of the PRF interface: the instance the witnesses run. *)
From S2P Require Import Prelude Words Memory Internal Spec Prng Refine.
Local Open Scope Z_scope.

(** ** Definitions *)

Definition LOREM : list byte := String.list_byte_of_string
  ("Nor again is there anyone who loves or pursues or desires to obtain pain " ++
   "of itself, because it is pain, but because occasionally circumstances " ++
   "occur in which toil and pain can procure him some great pleasure. To " ++
   "take a trivial example, which of us ever undertakes laborious physical " ++
   "exercise, except to obtain some advantage from it? But who has any right " ++
   "to find fault with a man who chooses to enjoy a pleasure that has no " ++
   "annoying consequences, or one who avoids a pain that produces no " ++
   "resultant pleasure?seb").

(** The <ctype.h> classes in the C locale. *)
Definition isupper (c : Z) : bool := (65 <=? c) && (c <=? 90).
Definition islower (c : Z) : bool := (97 <=? c) && (c <=? 122).
Definition isalpha (c : Z) : bool := isupper c || islower c.

Definition rotate_char (c1 rotation : Z) : Z :=
  if negb (isalpha c1) then
    let r := u8 (32 + rotation) in if 57 <? r then u8 (r - 26) else r
  else if isupper c1 then
    let r := u8 (c1 + rotation) in if 90 <? r then u8 (r - 26) else r
  else
    let r := u8 (c1 + rotation) in if 122 <? r then u8 (r - 26) else r.

(** The rotation for one byte of key. *)
Definition rotation_of (ch : Z) : Z :=
  if islower ch then ch - 97
  else if isupper ch then ch - 65
  else if 32 <=? ch then (ch - 32) mod 26
  else ch.

(** [state->rotation[(i+1) % 4] = r] for i = 0..3, in a state object that
    holds four 32-bit integers. *)
Definition dummy_prf_setup (state bytes : list byte) : option (list byte) :=
  bs ← mread bytes 0 4;
  let r i := rotation_of (Z_of_byte (default x00 (bs !! i))) in
  m1 ← mwrite state 4 (le_encode 4 (r 0%nat));
  m2 ← mwrite m1 8 (le_encode 4 (r 1%nat));
  m3 ← mwrite m2 12 (le_encode 4 (r 2%nat));
  mwrite m3 0 (le_encode 4 (r 3%nat)).

(** One block: 16 turns of the loop over groups of four characters. *)
Fixpoint dummy_block (fuel : nat) (text : list byte) (r0 r1 r2 r3 : Z) : list byte :=
  match fuel, text with
  | S fuel, c0 :: c1 :: c2 :: c3 :: text =>
      byte_of_Z (rotate_char (Z_of_byte c0) r0) ::
      byte_of_Z (rotate_char (Z_of_byte c1) r1) ::
      byte_of_Z (rotate_char (Z_of_byte c2) r2) ::
      byte_of_Z (rotate_char (Z_of_byte c3) r3) ::
      dummy_block fuel text r0 r1 r2 r3
  | _, _ => []
  end.

Definition dummy_prf_generate (state output : list byte) (idx : Z)
  : option (list byte * list byte) :=
  start ← mread LOREM (64 * Z.land idx 7) 64;
  b0 ← mread state 0 4; b1 ← mread state 4 4;
  b2 ← mread state 8 4; b3 ← mread state 12 4;
  output' ← mwrite output 0
    (dummy_block 16 start (le_decode b0) (le_decode b1) (le_decode b2) (le_decode b3));
  Some (state, output').

Definition dummy_prf : ottery_prf := {|
  name := "LoremIpsum"; impl := "LoremIpsum"; flav := "LoremIpsum";
  state_len := 16; state_bytes := 4; output_len := 64; required_cpucap := 0;
  setup := dummy_prf_setup;
  generate := dummy_prf_generate |}.

(** The function the dummy PRF computes. *)
Definition key_rotation (k : list byte) (i : nat) : Z :=
  rotation_of (Z_of_byte (default x00 (k !! i))).

Definition dummy_out (k : list byte) (idx : Z) : list byte :=
  dummy_block 16 (slice LOREM (64 * Z.land idx 7) 64)
    (key_rotation k 3) (key_rotation k 0) (key_rotation k 1) (key_rotation k 2).

Definition dummy_holds (k m : list byte) : Prop :=
  slice m 0 4 = le_encode 4 (key_rotation k 3) /\
  slice m 4 4 = le_encode 4 (key_rotation k 0) /\
  slice m 8 4 = le_encode 4 (key_rotation k 1) /\
  slice m 12 4 = le_encode 4 (key_rotation k 2).

(** ** The dummy PRF implements the interface *)

Lemma zlen_LOREM : zlen LOREM = 512.
Proof. vm_compute. reflexivity. Qed.

Lemma rotation_of_range c : 0 <= c < 2 ^ 8 -> 0 <= rotation_of c < 2 ^ 32.
Proof.
  intros Hc. unfold rotation_of, islower, isupper.
  repeat match goal with |- context [?a <=? ?b] => destruct (Z.leb_spec a b) end; cbn;
    pose proof (Z.mod_pos_bound (c - 32) 26); lia.
Qed.

Lemma dummy_block_zlen n text r0 r1 r2 r3 :
  zlen text = 4 * Z.of_nat n -> zlen (dummy_block n text r0 r1 r2 r3) = 4 * Z.of_nat n.
Proof.
  revert text. induction n as [|n IH]; intros text Hl.
  - destruct text; [done|]. rewrite zlen_cons in Hl. zlen_facts. lia.
  - do 4 (destruct text as [|? text]; [repeat rewrite ?zlen_cons, ?zlen_nil in Hl; lia|]).
    rewrite !zlen_cons in Hl. cbn [dummy_block]. rewrite !zlen_cons, IH; lia.
Qed.

Lemma dummy_out_zlen k i : zlen (dummy_out k i) = 64.
Proof.
  assert (0 <= Z.land i 7 < 8) as Hr.
  { change 7 with (Z.ones 3). rewrite Z.land_ones by lia. by apply Z.mod_pos_bound. }
  unfold dummy_out. rewrite dummy_block_zlen; [done|].
  rewrite zlen_slice; rewrite ?zlen_LOREM; lia.
Qed.

Lemma le_decode_rotation k i : le_decode (le_encode 4 (key_rotation k i)) = key_rotation k i.
Proof.
  rewrite le_decode_encode. apply Z.mod_small, rotation_of_range, Z_of_byte_range.
Qed.

Lemma slice_lookup {A} (m : list A) n (i : nat) : Z.of_nat i < n -> slice m 0 n !! i = m !! i.
Proof.
  intros. unfold slice. change (drop (Z.to_nat 0) m) with m. apply lookup_take_lt. lia.
Qed.

Lemma dummy_setup_ok m bs :
  zlen m = MAX_STATE_LEN -> 4 <= zlen bs ->
  exists m', dummy_prf_setup m bs = Some m' /\ zlen m' = MAX_STATE_LEN /\
    dummy_holds (slice bs 0 4) m'.
Proof.
  intros Hm Hbs. unfold dummy_prf_setup. rewrite mread_ok by lia. cbn [mbind option_bind].
  change (rotation_of (Z_of_byte (default x00 (slice bs 0 4 !! 0%nat)))) with (key_rotation (slice bs 0 4) 0).
  change (rotation_of (Z_of_byte (default x00 (slice bs 0 4 !! 1%nat)))) with (key_rotation (slice bs 0 4) 1).
  change (rotation_of (Z_of_byte (default x00 (slice bs 0 4 !! 2%nat)))) with (key_rotation (slice bs 0 4) 2).
  change (rotation_of (Z_of_byte (default x00 (slice bs 0 4 !! 3%nat)))) with (key_rotation (slice bs 0 4) 3).
  assert (forall r, zlen (le_encode 4 r) = 4) as He by (intros; apply zlen_le_encode).
  destruct (mwrite_step m 4 (le_encode 4 (key_rotation (slice bs 0 4) 0)))
    as (m1 & E1 & L1 & S1 & F1); [lia|rewrite He; clia|].
  destruct (mwrite_step m1 8 (le_encode 4 (key_rotation (slice bs 0 4) 1)))
    as (m2 & E2 & L2 & S2 & F2); [lia|rewrite He; clia|].
  destruct (mwrite_step m2 12 (le_encode 4 (key_rotation (slice bs 0 4) 2)))
    as (m3 & E3 & L3 & S3 & F3); [lia|rewrite He; clia|].
  destruct (mwrite_step m3 0 (le_encode 4 (key_rotation (slice bs 0 4) 3)))
    as (m4 & E4 & L4 & S4 & F4); [lia|rewrite He; clia|].
  rewrite !He in *. rewrite E1. cbn [mbind option_bind]. rewrite E2.
  cbn [mbind option_bind]. rewrite E3. cbn [mbind option_bind].
  exists m4. split; [done|]. split; [congruence|].
  split_and!; [done| | |].
  - by rewrite F4, F3, F2 by lia.
  - by rewrite F4, F3 by lia.
  - by rewrite F4 by lia.
Qed.

Lemma dummy_generate_ok k m out i :
  dummy_holds k m -> zlen m = MAX_STATE_LEN -> 64 <= zlen out ->
  dummy_prf_generate m out i = Some (m, splice out 0 (dummy_out k i)).
Proof.
  intros (H0 & H1 & H2 & H3) Hm Hout.
  assert (0 <= Z.land i 7 < 8) as Hr.
  { change 7 with (Z.ones 3). rewrite Z.land_ones by lia. by apply Z.mod_pos_bound. }
  unfold dummy_prf_generate.
  repeat (rewrite mread_ok by (rewrite ?zlen_LOREM; clia); cbn [mbind option_bind]).
  rewrite H0, H1, H2, H3, !le_decode_rotation.
  change (dummy_block 16 _ _ _ _ _) with (dummy_out k i).
  rewrite mwrite_ok by (rewrite ?dummy_out_zlen; lia). done.
Qed.

#[export] Instance dummy_spec : PrfSpec dummy_prf.
Proof.
  refine {| prf_out := dummy_out; prf_holds := dummy_holds |}.
  - intros k i _. apply dummy_out_zlen.
  - intros m bs. apply dummy_setup_ok.
  - intros k m out i _ Hh Hm Hout _. exists m. split_and!; [|done..].
    by apply dummy_generate_ok.
Defined.

#[export] Instance dummy_sizes : PrfSizes dummy_prf.
Proof. split; cbn; clia. Qed.

(** ** A concrete state: the dummy PRF seeded with zero bytes, as from /dev/zero *)

Definition keyed0 : ottery_state :=
  set_prf dummy_prf
    (set_state (default [] (dummy_prf_setup (zeros MAX_STATE_LEN) (zeros 4))) zero_state).

(** The same state with its first block generated: what
    [ottery_st_initialize] leaves under the dummy PRF and /dev/zero. *)
Definition ready0 : ottery_state :=
  default keyed0 (@ottery_st_nextblock_nolock default_build keyed0).

Definition ready0_prng : prng := stir_at 4 64 dummy_out 0 (mk_prng (zeros 4) []).

Lemma keyed0_ok : keyed (p := dummy_prf) (zeros 4) keyed0.
Proof.
  split; [reflexivity|vm_compute; reflexivity..| |vm_compute; split; [discriminate|reflexivity]].
  split_and!; vm_compute; reflexivity.
Qed.

Lemma ready0_rep : rep (p := dummy_prf) ready0 ready0_prng.
Proof.
  destruct (nextblock_ok (BC := default_build) (zeros 4) [] keyed0 keyed0_ok)
    as (st & E & Hr & _). unfold ready0. by rewrite E.
Qed.

Lemma ready0_clean : slice (st_buffer ready0) 0 (st_pos ready0) = zeros (st_pos ready0).
Proof. vm_compute. reflexivity. Qed.
