(* ===== verification/Session.v ===== *)
(** * Properties of the generator core

    Sequences of requests against the abstract generator, the bytes a request
    writes, what stays in the buffer afterwards, and where the code and
    doc/specification.txt differ. *)
From S2P Require Import Prelude Words Memory Internal Spec Prng Refine TestPrf.
Local Open Scope Z_scope.

(** ** Definitions *)

(** The requests of one session with a generator, and their answers. *)
Inductive request :=
  | RandBytes (n : Z)
  | RandInt (size : Z)
  | AddSeed (seed : list byte)
  | PreventBacktracking.

Inductive answer :=
  | Bytes (bs : list byte)
  | Int (v : Z)
  | Done.

Definition valid_request (r : request) : Prop :=
  match r with
  | RandBytes n => 0 <= n < 2 ^ 63
  | RandInt size => 1 <= size <= 8
  | AddSeed seed => seed <> []
  | PreventBacktracking => True
  end.

(** One request, by the code. *)
Definition code_step {BC : BuildConfig} (st : ottery_state) (r : request)
  : option (answer * ottery_state) :=
  match r with
  | RandBytes n =>
      '(st', out) ← ottery_st_rand_bytes_impl st (zeros n) 0 n; Some (Bytes out, st')
  | RandInt size =>
      '(v, st') ← OTTERY_RETURN_RAND_INTTYPE_IMPL size st; Some (Int v, st')
  | AddSeed seed => st' ← mix_seed st seed (zlen seed); Some (Done, st')
  | PreventBacktracking =>
      st' ← ottery_st_prevent_backtracking_nolock st; Some (Done, st')
  end.

Fixpoint code_session {BC : BuildConfig} (st : ottery_state) (rs : list request)
  : option (list answer * ottery_state) :=
  match rs with
  | [] => Some ([], st)
  | r :: rs =>
      '(x, st1) ← code_step st r;
      '(xs, st2) ← code_session st1 rs;
      Some (x :: xs, st2)
  end.

(** One request, by the abstract generator. *)
Definition spec_step (KEY_LEN BLOCK_LEN : Z) (PRF : list byte -> Z -> list byte)
    (a : prng) (r : request) : answer * prng :=
  match r with
  | RandBytes n =>
      let '(bs, a') := get_bytes KEY_LEN BLOCK_LEN PRF n a in (Bytes bs, a')
  | RandInt size =>
      let '(bs, a') := tiny KEY_LEN BLOCK_LEN PRF size a in (Int (le_decode bs), a')
  | AddSeed seed => (Done, add KEY_LEN BLOCK_LEN PRF seed (mk_prng (K a) []))
  | PreventBacktracking => (Done, a)
  end.

Fixpoint spec_session (KEY_LEN BLOCK_LEN : Z) (PRF : list byte -> Z -> list byte)
    (a : prng) (rs : list request) : list answer * prng :=
  match rs with
  | [] => ([], a)
  | r :: rs =>
      let '(x, a1) := spec_step KEY_LEN BLOCK_LEN PRF a r in
      let '(xs, a2) := spec_session KEY_LEN BLOCK_LEN PRF a1 rs in
      (x :: xs, a2)
  end.

(** One request, by the generator of the document; it has no backtracking
    prevention, which changes no answer. *)
Definition doc_step (KEY_LEN BLOCK_LEN : Z) (PRF : list byte -> Z -> list byte)
    (a : prng) (r : request) : answer * prng :=
  match r with
  | RandBytes n =>
      let '(bs, a') := doc_get_bytes KEY_LEN BLOCK_LEN PRF n a in (Bytes bs, a')
  | RandInt size =>
      let '(bs, a') := doc_tiny KEY_LEN BLOCK_LEN PRF size a in (Int (le_decode bs), a')
  | AddSeed seed => (Done, doc_add KEY_LEN BLOCK_LEN PRF seed a)
  | PreventBacktracking => (Done, a)
  end.

Fixpoint doc_session (KEY_LEN BLOCK_LEN : Z) (PRF : list byte -> Z -> list byte)
    (a : prng) (rs : list request) : list answer * prng :=
  match rs with
  | [] => ([], a)
  | r :: rs =>
      let '(x, a1) := doc_step KEY_LEN BLOCK_LEN PRF a r in
      let '(xs, a2) := doc_session KEY_LEN BLOCK_LEN PRF a1 rs in
      (x :: xs, a2)
  end.

(** Where the code follows the document, as a check on [len], the number of bytes
    the document's generator has buffered: the number afterwards; [None] for a seed
    or a big request that meets an empty buffer, which the code has refilled, and
    for a big request whose last bytes do not fit beside the next key. *)
Definition doc_fits (KEY_LEN BLOCK_LEN len : Z) (r : request) : option Z :=
  let BUF_LEN := BLOCK_LEN - KEY_LEN in
  match r with
  | RandBytes n =>
      if n <? len then Some (len - n)
      else if n <? len + BUF_LEN then Some (BUF_LEN - (n - len))
      else
        let m := (n - len) mod BLOCK_LEN in
        if (len =? 0) || (BUF_LEN <? m) then None
        else Some (if m =? BUF_LEN then BUF_LEN else BUF_LEN - m)
  | RandInt size => Some (if size <=? len then len - size else BUF_LEN - size)
  | AddSeed _ => if len =? 0 then None else Some BUF_LEN
  | PreventBacktracking => Some len
  end.

Fixpoint doc_fits_all (KEY_LEN BLOCK_LEN len : Z) (rs : list request) : bool :=
  match rs with
  | [] => true
  | r :: rs =>
      match doc_fits KEY_LEN BLOCK_LEN len r with
      | Some len => doc_fits_all KEY_LEN BLOCK_LEN len rs
      | None => false
      end
  end.

(** Every byte before [pos] has been cleared. *)
Definition clean (st : ottery_state) : Prop :=
  slice (st_buffer st) 0 (st_pos st) = zeros (st_pos st).

(** ** Lemmas *)

Section Session.
Context {BC : BuildConfig} {p : ottery_prf} {PS : PrfSpec p} {PZ : PrfSizes p}.

Abbreviation sb := (state_bytes p).
Abbreviation ol := (output_len p).
Abbreviation PRF := (prf_out p).

Lemma prevent_ok st a :
  rep st a -> exists st', ottery_st_prevent_backtracking_nolock st = Some st' /\
    rep st' a /\ same_frame st st' /\
    (OTTERY_NO_CLEAR_AFTER_YIELD = true -> clean st').
Proof.
  intros [Hk Hc Hp HB]. pose proof (keyed_buffer _ _ Hk) as Hbuf. pose proof sizes_facts.
  unfold ottery_st_prevent_backtracking_nolock.
  destruct OTTERY_NO_CLEAR_AFTER_YIELD.
  - rewrite mzero_ok by clia. cbn [mbind option_bind]. eexists. split; [done|].
    pose proof (zlen_zeros (st_pos st) ltac:(clia)) as Hz.
    split; [|split; [auto with ottery|]].
    + split; [|done|done|].
      * destruct Hk. split; try done. cbn [set_buffer st_buffer]. rewrite zlen_splice; clia.
      * cbn [set_buffer st_buffer st_pos]. rewrite HB. symmetry. apply slice_splice_after; clia.
    + intros _. unfold clean. cbn [set_buffer st_buffer st_pos].
      apply slice_splice_eq; clia.
  - exists st. by split_and!.
Qed.

Lemma code_step_ok st a r :
  rep st a -> valid_request r ->
  exists st', code_step st r = Some (fst (spec_step sb ol PRF a r), st') /\
    rep st' (snd (spec_step sb ol PRF a r)) /\ same_frame st st'.
Proof.
  intros Hr Hv. destruct r as [n|size|seed|]; cbn [code_step spec_step].
  - destruct Hv as [Hn0 Hn]. pose proof (zlen_zeros n Hn0) as Hz.
    destruct (rand_bytes_impl_ok st a (zeros n) 0 n) as (st' & E & Hr' & Hf & Hl);
      [done|lia..|]. rewrite E. cbn [mbind option_bind].
    destruct (get_bytes _ _ _ _ _) as [bs a']. cbn [fst snd] in *.
    exists st'. split_and!; [|done..]. do 3 f_equal. rewrite splice_all; [done|lia].
  - destruct (rand_inttype_ok st a size Hr Hv) as (st' & E & Hr' & Hf & _).
    rewrite E. cbn [mbind option_bind].
    destruct (tiny _ _ _ _ _) as [bs a']. cbn [fst snd] in *. by exists st'.
  - destruct Hr as [Hk Hc _ _]. pose proof (zlen_nonneg seed).
    destruct (mix_seed_ok st a seed (zlen seed) Hk Hc) as (st' & E & Hr' & Hf); [lia|].
    rewrite E. cbn [mbind option_bind fst snd]. rewrite slice_all in Hr' by done. by exists st'.
  - destruct (prevent_ok st a Hr) as (st' & E & Hr' & Hf & _). rewrite E. by exists st'.
Qed.

Lemma code_session_ok st a rs :
  rep st a -> Forall valid_request rs ->
  exists st', code_session st rs = Some (fst (spec_session sb ol PRF a rs), st') /\
    rep st' (snd (spec_session sb ol PRF a rs)) /\ same_frame st st'.
Proof.
  intros Hr Hv. revert st a Hr. induction Hv as [|r rs Hr0 _ IH]; intros st a Hr.
  { exists st. by split_and!. }
  cbn [code_session spec_session].
  destruct (code_step_ok st a r Hr Hr0) as (st1 & E1 & Hr1 & Hf1). rewrite E1.
  cbn [mbind option_bind]. destruct (spec_step _ _ _ _ _) as [x a1]. cbn [fst snd] in *.
  destruct (IH st1 a1 Hr1) as (st2 & E2 & Hr2 & Hf2). rewrite E2. cbn [mbind option_bind].
  destruct (spec_session _ _ _ _ _) as [xs a2]. cbn [fst snd] in *.
  exists st2. split_and!; [done..|by transitivity st1].
Qed.
End Session.

(** ** What stays in the buffer *)

Section Residue.
Context {BC : BuildConfig} {p : ottery_prf} {PS : PrfSpec p} {PZ : PrfSizes p}.

Abbreviation sb := (state_bytes p).
Abbreviation ol := (output_len p).

Lemma CLEARBUF_clears m off n :
  OTTERY_NO_CLEAR_AFTER_YIELD = false -> 0 <= off -> 0 <= n -> off + n <= zlen m ->
  CLEARBUF m off n = Some (splice m off (zeros n)).
Proof. intros H ???. unfold CLEARBUF. rewrite H. by apply mzero_ok. Qed.

(** Clearing the next bytes keeps all before [pos] clear. *)
Lemma clean_yield st n :
  clean st -> 0 <= st_pos st -> 0 <= n -> st_pos st + n <= zlen (st_buffer st) -> st_pos st + n < 2 ^ 16 ->
  let st' := set_pos (u16 (st_pos st + n)) (set_buffer (splice (st_buffer st) (st_pos st) (zeros n)) st) in
  clean st' /\ st_pos st' = st_pos st + n.
Proof.
  intros Hcl Hp Hn Hl H16 st'. unfold clean, st'. cbn [set_pos set_buffer st_pos st_buffer]. rewrite u16_small by lia.
  split; [|done]. rewrite slice_app_split by lia. rewrite Z.add_0_l.
  pose proof (zlen_zeros n Hn). rewrite slice_splice_before, slice_splice_eq by lia.
  by rewrite Hcl, zeros_app by lia.
Qed.

(** A request that ends inside the current block clears what it yields. *)
Lemma from_buf_clean st a out off n :
  OTTERY_NO_CLEAR_AFTER_YIELD = false -> rep st a -> clean st ->
  0 <= off -> 0 <= n -> off + n <= zlen out -> n + st_pos st < ol ->
  exists st' out', ottery_st_rand_bytes_from_buf st out off n = Some (st', out') /\
    clean st' /\ st_pos st' = st_pos st + n.
Proof.
  intros Hb [Hk Hc Hp HB] Hcl Hoff Hn Hout Hlt. pose proof sizes_facts.
  pose proof (keyed_buffer _ _ Hk) as Hbuf. pose proof (keyed_prf _ _ Hk) as Hprf.
  unfold ottery_st_rand_bytes_from_buf. rewrite Hprf, u64_small by clia.
  rewrite (proj2 (Z.ltb_lt _ _)) by lia.
  rewrite memcpy_ok by clia. cbn [mbind option_bind].
  rewrite CLEARBUF_clears by first [done | clia]. cbn [mbind option_bind].
  do 2 eexists. split; [done|]. apply clean_yield; clia || done.
Qed.

Lemma int_clean st a size :
  OTTERY_NO_CLEAR_AFTER_YIELD = false -> rep st a -> clean st -> 1 <= size <= 8 -> size + st_pos st < ol ->
  exists v st', OTTERY_RETURN_RAND_INTTYPE_IMPL size st = Some (v, st') /\
    clean st' /\ st_pos st' = st_pos st + size.
Proof.
  intros Hb [Hk Hc Hp HB] Hcl Hs Hlt. pose proof sizes_facts.
  pose proof (keyed_buffer _ _ Hk) as Hbuf. pose proof (keyed_prf _ _ Hk) as Hprf.
  unfold OTTERY_RETURN_RAND_INTTYPE_IMPL. rewrite Hprf, (proj2 (Z.leb_le _ _)) by lia.
  rewrite INT_ASSIGN_PTR_ok by clia. cbn [mbind option_bind].
  rewrite CLEARBUF_clears by first [done | clia]. cbn [mbind option_bind].
  destruct (clean_yield st size) as [Hc' Hp']; [done|clia..|]. cbn zeta in Hc', Hp'. rewrite Hp'.
  replace (output_len _) with ol by (cbn [set_pos set_buffer st_prf]; by rewrite Hprf).
  rewrite (proj2 (Z.eqb_neq _ _)) by lia. by do 2 eexists.
Qed.

(** A request that runs into the next block clears [n1] bytes from the start
    of the buffer, and leaves the block from there on as it was generated. *)
Lemma from_buf_residue st a out off n :
  OTTERY_NO_CLEAR_AFTER_YIELD = false -> rep st a ->
  0 <= off -> off + n <= zlen out -> ol <= n + st_pos st < 2 * ol - sb ->
  exists st' out', ottery_st_rand_bytes_from_buf st out off n = Some (st', out') /\
    st_pos st' = sb + (n + st_pos st - ol) /\
    forall r, 0 <= r <= Z.min sb (n + st_pos st - ol) ->
      slice (st_buffer st') (st_pos st' - r) r = slice out' (off + n - r) r.
Proof.
  intros Hb [Hk Hc Hp HB] Hoff Hout Hlim. pose proof sizes_facts.
  pose proof (keyed_buffer _ _ Hk) as Hbuf. pose proof (keyed_prf _ _ Hk) as Hprf.
  unfold ottery_st_rand_bytes_from_buf. rewrite Hprf, u64_small by clia.
  rewrite (proj2 (Z.ltb_ge _ _)), u32_small by clia.
  rewrite memcpy_ok by clia. cbn [mbind option_bind]. rewrite u64_small by clia.
  destruct (nextblock_ok (K a) (BUF a) st Hk) as (st1 & E1 & Hr1 & Hp1 & Hf1 & _).
  rewrite E1. cbn [mbind option_bind].
  pose proof (keyed_buffer _ _ (rep_keyed _ _ Hr1)) as Hbuf1.
  pose proof (zlen_slice (st_buffer st) (st_pos st) (ol - st_pos st)) as HA.
  rewrite memcpy_ok by (rewrite ?zlen_splice; clia). cbn [mbind option_bind].
  rewrite CLEARBUF_clears by first [done | clia]. cbn [mbind option_bind].
  cbn [set_pos set_buffer st_pos st_prf st_buffer].
  rewrite (frame_prf _ _ Hf1), Hprf, Hp1, u16_small by clia.
  rewrite (proj2 (Z.ltb_lt _ _)) by clia.
  set (n1 := n - (ol - st_pos st)).
  do 2 eexists. split; [done|]. cbn [set_pos set_buffer st_pos st_prf st_buffer].
  split; [lia|]. intros r Hr.
  pose proof (zlen_zeros n1 ltac:(lia)) as Hz.
  rewrite slice_splice_after by clia.
  pose proof (zlen_slice (st_buffer st1) sb n1) as HA1.
  rewrite splice_splice_app by clia.
  replace (sb + n1 - r) with (sb + (n1 - r)) by lia.
  rewrite <-(slice_slice (st_buffer st1) sb n1 (n1 - r) r) by clia.
  set (A := slice (st_buffer st) (st_pos st) (ol - st_pos st)) in *.
  set (C := slice (st_buffer st1) sb n1) in *.
  assert (slice (splice out off (A ++ C)) (off + n - n1) n1 = C) as HC.
  { replace (off + n - n1) with (off + zlen A) by (unfold n1 in *; clia).
    rewrite <-(splice_splice_app out A C off (off + zlen A)) by (rewrite ?zlen_app; clia).
    apply slice_splice_eq; rewrite ?zlen_splice; clia. }
  rewrite <-HC at 1. rewrite slice_slice by (unfold n1; clia). f_equal. unfold n1. lia.
Qed.

(** An integer from a fresh block: the same. *)
Lemma int_residue st a size :
  OTTERY_NO_CLEAR_AFTER_YIELD = false -> rep st a -> 1 <= size <= 8 -> ol < size + st_pos st ->
  exists v st', OTTERY_RETURN_RAND_INTTYPE_IMPL size st = Some (v, st') /\
    st_pos st' = sb + size /\
    forall r, 0 <= r <= Z.min sb size ->
      slice (st_buffer st') (st_pos st' - r) r = slice (le_encode (Z.to_nat size) v) (size - r) r.
Proof.
  intros Hb [Hk Hc Hp HB] Hs Hgt. pose proof sizes_facts.
  pose proof (keyed_prf _ _ Hk) as Hprf. unfold OTTERY_RETURN_RAND_INTTYPE_IMPL.
  rewrite Hprf, (proj2 (Z.leb_gt _ _)) by lia.
  destruct (nextblock_ok (K a) (BUF a) st Hk) as (st1 & E1 & Hr1 & Hp1 & _). rewrite E1. cbn [mbind option_bind].
  pose proof (keyed_buffer _ _ (rep_keyed _ _ Hr1)) as Hbuf1. rewrite INT_ASSIGN_PTR_ok by clia.
  cbn [mbind option_bind]. rewrite CLEARBUF_clears by first [done | clia]. cbn [mbind option_bind].
  do 2 eexists. split; [done|]. cbn [set_pos set_buffer st_pos st_buffer]. rewrite Hp1, u16_small by clia.
  split; [done|]. intros r Hr. pose proof (zlen_zeros size ltac:(lia)) as Hz.
  rewrite slice_splice_after by clia.
  assert (zlen (slice (st_buffer st1) sb size) = size) as Hl by (apply zlen_slice; clia).
  replace (Z.to_nat size) with (length (slice (st_buffer st1) sb size)) by (unfold zlen in Hl; clia).
  rewrite le_encode_decode, slice_slice by clia. f_equal. lia.
Qed.
End Residue.

(** ** Seed chunks *)

Lemma zip_xor_inj (x s t : list byte) :
  length s = length x -> length t = length x ->
  zip_with byte_xor x s = zip_with byte_xor x t -> s = t.
Proof.
  revert s t. induction x as [|b x IH]; intros [|c s] [|d t]; try discriminate; [done|].
  cbn. intros [= Hs] [= Ht] [= Hc H]. f_equal; [|by apply IH].
  rewrite <-(byte_xor_involutive c b), <-(byte_xor_involutive d b).
  by rewrite !(byte_xor_comm _ b), Hc.
Qed.

(** ** The document's generator and the code's *)

Section Doc.
Context (KEY_LEN BLOCK_LEN : Z) (PRF : list byte -> Z -> list byte).
Context (HK : 0 < KEY_LEN < BLOCK_LEN)
  (HPRF : forall k i, zlen k = KEY_LEN -> zlen (PRF k i) = BLOCK_LEN).

Lemma doc_big_eq n a :
  zlen (K a) = KEY_LEN -> zlen (BUF a) <= n ->
  (n - zlen (BUF a)) mod BLOCK_LEN + KEY_LEN <= BLOCK_LEN ->
  doc_big KEY_LEN BLOCK_LEN PRF n a = big KEY_LEN BLOCK_LEN PRF n a.
Proof.
  intros Hk Hn Hfit. unfold doc_big, big. set (n1 := n - zlen (BUF a)) in *.
  pose proof (Z.div_mod n1 BLOCK_LEN ltac:(lia)) as Hdm.
  pose proof (Z.mod_pos_bound n1 BLOCK_LEN ltac:(lia)) as Hmod.
  set (q := n1 / BLOCK_LEN) in *. set (m := n1 mod BLOCK_LEN) in *.
  assert (0 <= q) as Hq by (apply Z.div_pos; lia).
  assert ((n + KEY_LEN - zlen (BUF a) + BLOCK_LEN - 1) / BLOCK_LEN = q + 1) as ->.
  { symmetry. apply (Z.div_unique _ _ _ (m + KEY_LEN - 1)); lia. }
  rewrite Z.add_simpl_r.
  assert (forall c j, zlen (blocks PRF (K a) c j) = BLOCK_LEN * Z.of_nat j) as Hb.
  { intros c j. revert c. induction j as [|j IH]; intros c; cbn [blocks].
    - rewrite zlen_nil. lia.
    - rewrite zlen_app, HPRF, IH by done. lia. }
  rewrite Hb, Z2Nat.id by done. replace (n - BLOCK_LEN * q - zlen (BUF a)) with m by lia.
  assert (zlen (BUF (stir_at KEY_LEN BLOCK_LEN PRF (u32 q) a)) = BLOCK_LEN - KEY_LEN) as HB.
  { pose proof (HPRF (K a) (u32 q) Hk). apply zlen_slice; lia. }
  unfold small. rewrite HB. set (a1 := stir_at _ _ _ _ _) in *. unfold remove. cbn [BUF K].
  destruct (Z.ltb_spec m (BLOCK_LEN - KEY_LEN)) as [Hlt|Hge].
  - rewrite (proj2 (Z.eqb_neq _ 0)); [done|]. rewrite zlen_drop. lia.
  - assert (m = BLOCK_LEN - KEY_LEN) as -> by lia. rewrite Z.sub_diag.
    change (Z.to_nat 0) with O. cbn [take drop].
    unfold zlen in HB. rewrite take_ge, drop_ge by lia.
    change (zlen (@nil byte) =? 0) with true. cbv iota.
    unfold stir, stir_at. cbn [K BUF]. rewrite !app_nil_r. done.
Qed.

Abbreviation STIR := (stir KEY_LEN BLOCK_LEN PRF).
Abbreviation BUF_LEN := (BLOCK_LEN - KEY_LEN).

Lemma stir_zlen a : zlen (K a) = KEY_LEN -> zlen (K (STIR a)) = KEY_LEN /\ zlen (BUF (STIR a)) = BUF_LEN.
Proof.
  intros Hk. pose proof (HPRF (K a) 0 Hk). unfold stir, stir_at. cbn [K BUF].
  split; apply zlen_slice; lia.
Qed.

(** The code's threshold for a big request is a byte lower, but there the two
    requests agree. *)
Lemma get_bytes_small n a :
  zlen (K a) = KEY_LEN -> 0 <= n < zlen (BUF a) + BUF_LEN ->
  get_bytes KEY_LEN BLOCK_LEN PRF n a = small KEY_LEN BLOCK_LEN PRF n a.
Proof.
  intros Hk Hn. unfold get_bytes. destruct (Z.ltb_spec n (BUF_LEN + zlen (BUF a) - 1)) as [|Hge]; [done|].
  destruct (stir_zlen a Hk) as [_ Hl]. unfold stir in Hl.
  unfold big, small at 2. rewrite (proj2 (Z.ltb_ge n _)) by lia.
  rewrite Z.div_small, Z.mod_small by lia. unfold small. change (u32 0) with 0.
  rewrite Hl, (proj2 (Z.ltb_lt _ _)) by lia. done.
Qed.

(** *** Padding a seed *)

Lemma zip_xor_zeros (x : list byte) n : (length x <= n)%nat -> zip_with byte_xor x (replicate n x00) = x.
Proof.
  revert n. induction x as [|b x IH]; intros n Hn; [done|]. destruct n as [|n]; cbn [length] in Hn; [lia|].
  cbn [replicate zip_with]. rewrite IH by lia. f_equal. by destruct b.
Qed.

(** Zeros after a chunk change nothing. *)
Lemma xor_prefix_zeros (y x : list byte) n :
  (length y + n <= length x)%nat -> xor_prefix (y ++ replicate n x00) x = xor_prefix y x.
Proof.
  intros Hl. unfold xor_prefix. rewrite length_app, length_replicate.
  rewrite <-(take_take_drop x), zip_with_app by (rewrite length_take; lia).
  rewrite (zip_xor_zeros (take n _)) by (rewrite length_take; lia).
  rewrite <-app_assoc. f_equal. rewrite <-drop_drop. apply take_drop.
Qed.

Context (HK2 : 2 <= KEY_LEN).
Abbreviation h := (Z.to_nat (KEY_LEN / 2)).
Abbreviation PAD := (pad KEY_LEN).

Lemma half_pos : 0 < KEY_LEN / 2 <= KEY_LEN.
Proof. split; [apply Z.div_str_pos|apply Z.div_le_upper_bound]; lia. Qed.

Lemma pad_nil : PAD [] = [].
Proof. unfold pad. change (- zlen []) with 0. rewrite Z.mod_0_l by (pose proof half_pos; lia). done. Qed.

(** The half keys of a padded seed. *)
Lemma pad_halves s :
  exists k, take h (PAD s) = take h s ++ replicate k x00 /\ (length (take h s) + k <= h)%nat /\
    drop h (PAD s) = PAD (drop h s).
Proof.
  pose proof half_pos as Hh. destruct (decide (h <= length s)%nat) as [Hle|Hlt].
  - exists 0%nat. unfold pad. rewrite take_app_le, drop_app_le by done. split; [by rewrite app_nil_r|].
    split; [rewrite length_take; lia|]. do 3 f_equal. unfold zlen. rewrite length_drop, Nat2Z.inj_sub, Z2Nat.id by lia.
    replace (- (Z.of_nat (length s) - KEY_LEN / 2)) with (- Z.of_nat (length s) + 1 * (KEY_LEN / 2)) by lia.
    by rewrite Z.mod_add by lia.
  - destruct s as [|b s].
    { exists 0%nat. rewrite drop_nil, pad_nil, take_nil, drop_nil. cbn. split; [done|]. split; [lia|done]. }
    exists (h - length (b :: s))%nat. unfold pad at 1 2. set (l := b :: s) in *.
    assert ((- zlen l) mod (KEY_LEN / 2) = KEY_LEN / 2 - zlen l) as ->.
    { symmetry. apply (Z.mod_unique _ _ (-1)); unfold zlen, l in *; cbn [length] in *; lia. }
    replace (Z.to_nat (KEY_LEN / 2 - zlen l)) with (h - length l)%nat by (unfold zlen; lia).
    rewrite (take_ge l) by lia. rewrite take_ge, !drop_ge, pad_nil
      by (rewrite ?length_app, ?length_replicate; lia). split; [done|]. split; [lia|done].
Qed.

Lemma add_chunk_key y a :
  zlen (K a) = KEY_LEN -> (length y <= h)%nat -> zlen (K (add_chunk KEY_LEN PRF y a)) = KEY_LEN.
Proof.
  intros Hk Hy. pose proof half_pos. pose proof (HPRF (K a) 0 Hk) as Ho. unfold add_chunk. cbn [K].
  apply zlen_slice; [lia..|]. unfold xor_prefix. rewrite zlen_app, zlen_drop. unfold zlen in *.
  rewrite length_zip_with, length_take. lia.
Qed.

Lemma add_loop_key f : forall s a,
  zlen (K a) = KEY_LEN -> zlen (K (add_loop KEY_LEN PRF f s a)) = KEY_LEN.
Proof.
  induction f as [|f IH]; intros s a Hk; [done|]. destruct s as [|b s]; [done|]. cbn [add_loop].
  apply IH, add_chunk_key; [done|]. rewrite length_take. lia.
Qed.

Lemma add_loop_pad f : forall g s a,
  zlen (K a) = KEY_LEN -> (length s <= f)%nat -> (length (PAD s) <= g)%nat ->
  add_loop KEY_LEN PRF g (PAD s) a = add_loop KEY_LEN PRF f s a.
Proof.
  pose proof half_pos as Hh. induction f as [|f IH]; intros g s a Hk Hf Hg; (destruct s as [|b s];
    [rewrite pad_nil; by destruct g|]); [cbn in Hf; lia|].
  destruct (pad_halves (b :: s)) as (k & Ht & Hl & Hd).
  destruct g as [|g]; [unfold pad in Hg; cbn in Hg; lia|].
  assert (exists x l, PAD (b :: s) = x :: l) as (x & l & E) by (by eexists _, _).
  cbn [add_loop]. rewrite E. cbv iota zeta. rewrite <-E, Ht, Hd.
  assert (add_chunk KEY_LEN PRF (take h (b :: s) ++ replicate k x00) a
    = add_chunk KEY_LEN PRF (take h (b :: s)) a) as ->.
  { pose proof (HPRF (K a) 0 Hk). unfold add_chunk. rewrite xor_prefix_zeros; [done|]. unfold zlen in *. lia. }
  apply IH.
  - apply add_chunk_key; [done|]. rewrite length_take. lia.
  - rewrite length_drop. cbn [length] in *. lia.
  - rewrite <-Hd, length_drop. lia.
Qed.

Lemma doc_add_eq s a :
  zlen (K a) = KEY_LEN -> doc_add KEY_LEN BLOCK_LEN PRF s a = add KEY_LEN BLOCK_LEN PRF s (mk_prng (K a) []).
Proof.
  intros Hk. unfold doc_add, add. rewrite (add_loop_pad (length s)) by done.
  assert (forall f s a b, K a = K b -> STIR (add_loop KEY_LEN PRF f s a) = STIR (add_loop KEY_LEN PRF f s b)) as H.
  { intros f. induction f as [|f IH]; intros s' a' b' E; [unfold stir, stir_at; cbn; by rewrite E|].
    destruct s'; cbn [add_loop]; [unfold stir, stir_at; by rewrite E|]. f_equal. unfold add_chunk. by rewrite E. }
  by apply H.
Qed.

(** The code's construction from one key is the document's; from more it stirs once
    more. *)
Lemma construct_doc s :
  KEY_LEN <= zlen s ->
  construct KEY_LEN BLOCK_LEN PRF s =
    let d := doc_construct KEY_LEN BLOCK_LEN PRF (slice s 0 KEY_LEN) (drop (Z.to_nat KEY_LEN) s) in
    if zlen s =? KEY_LEN then d else STIR d.
Proof.
  intros Hs. unfold construct, doc_construct. rewrite doc_add_eq by (apply zlen_slice; lia). cbv zeta.
  destruct (Z.eqb_spec (zlen s) KEY_LEN) as [E|Hne].
  - rewrite (proj2 (Z.ltb_ge _ _)) by lia. unfold add. rewrite drop_ge by (unfold zlen in E; lia). done.
  - rewrite (proj2 (Z.ltb_lt _ _)) by lia. done.
Qed.

(** *** A session with both *)

Context (HK8 : KEY_LEN + 8 < BLOCK_LEN).

(** The same state, or an empty buffer where the code has stirred already. *)
Inductive doc_sim (d a : prng) : Prop :=
  | doc_same : d = a -> 0 < zlen (BUF d) -> doc_sim d a
  | doc_empty : zlen (BUF d) = 0 -> a = STIR d -> doc_sim d a.

Lemma stir_K a b : K a = K b -> STIR a = STIR b.
Proof. intros E. unfold stir, stir_at. by rewrite E. Qed.

(** Taking bytes, where the code stirs if they are the last. *)
Lemma doc_remove n a :
  zlen (K a) = KEY_LEN -> 0 <= n <= zlen (BUF a) -> 0 < zlen (BUF a) ->
  let d := snd (remove n a) in
  zlen (BUF d) = zlen (BUF a) - n /\ doc_sim d (if n =? zlen (BUF a) then STIR d else d).
Proof.
  intros Hk Hn Hb. cbn. rewrite zlen_drop. split; [lia|].
  destruct (Z.eqb_spec n (zlen (BUF a))); [apply doc_empty|apply doc_same]; cbn [BUF]; rewrite ?zlen_drop; done || lia.
Qed.

(** Fewer bytes than the buffer of a fresh block. *)
Lemma doc_remove_fresh n d :
  zlen (K d) = KEY_LEN -> 0 <= n < BUF_LEN ->
  let d1 := snd (remove n (STIR d)) in
  zlen (BUF d1) = BUF_LEN - n /\ doc_sim d1 d1 /\ zlen (K d1) = KEY_LEN.
Proof.
  intros Hk Hn. destruct (stir_zlen d Hk) as [Hk1 Hb1]. unfold remove. cbn [snd K BUF]. cbv zeta. cbn [K BUF]. rewrite zlen_drop, Hb1.
  split; [lia|]. split; [|done]. apply doc_same; [done|]. cbn [BUF]. rewrite zlen_drop. lia.
Qed.

Lemma doc_tiny_ok d a n :
  zlen (K d) = KEY_LEN -> doc_sim d a -> 1 <= n <= 8 ->
  let r := doc_tiny KEY_LEN BLOCK_LEN PRF n d in let r' := tiny KEY_LEN BLOCK_LEN PRF n a in
  fst r = fst r' /\ doc_sim (snd r) (snd r') /\ zlen (K (snd r)) = KEY_LEN /\
  zlen (BUF (snd r)) = (if n <=? zlen (BUF d) then zlen (BUF d) - n else BUF_LEN - n).
Proof.
  intros Hk Hs Hn. destruct (stir_zlen d Hk) as [Hk1 Hb1].
  destruct (doc_remove_fresh n d Hk) as (Hf1 & Hf2 & Hf3); [lia|]. unfold doc_tiny, tiny.
  destruct (Z.ltb_spec (zlen (BUF d)) n) as [Hlt|Hge].
  - rewrite (proj2 (Z.leb_gt n (zlen (BUF d)))) by lia. cbv zeta. destruct Hs as [<- Hb|Hb ->].
    + by rewrite (proj2 (Z.leb_gt n _)) by lia.
    + rewrite Hb1, (proj2 (Z.leb_le n _)) by lia. unfold remove in *. by rewrite (proj2 (Z.eqb_neq n _)) by lia.
  - rewrite (proj2 (Z.leb_le n (zlen (BUF d)))) by lia. cbv zeta. destruct Hs as [<- Hb|Hb ->]; [|lia].
    rewrite (proj2 (Z.leb_le n _)) by lia. destruct (doc_remove n d Hk) as [Hr1 Hr2]; [lia|lia|].
    unfold remove in *. by split_and!.
Qed.

Lemma doc_small_ok d a n :
  zlen (K d) = KEY_LEN -> doc_sim d a -> 0 <= n < zlen (BUF d) + BUF_LEN ->
  let r := small KEY_LEN BLOCK_LEN PRF n d in let r' := get_bytes KEY_LEN BLOCK_LEN PRF n a in
  fst r = fst r' /\ doc_sim (snd r) (snd r') /\ zlen (K (snd r)) = KEY_LEN /\
  zlen (BUF (snd r)) = (if n <? zlen (BUF d) then zlen (BUF d) - n else BUF_LEN - (n - zlen (BUF d))).
Proof.
  intros Hk Hs Hn. destruct (stir_zlen d Hk) as [Hk1 Hb1].
  destruct Hs as [<- Hb|Hb ->]; cbv zeta; rewrite get_bytes_small by (done || lia); unfold small.
  - destruct (Z.ltb_spec n (zlen (BUF d))) as [Hlt|Hge].
    + destruct (doc_remove n d Hk) as [Hr1 Hr2]; [lia|lia|]. rewrite (proj2 (Z.eqb_neq n _)) in Hr2 by lia.
      by split_and!.
    + destruct (doc_remove_fresh (n - zlen (BUF d)) d Hk) as (Hf1 & Hf2 & Hf3); [lia|].
      unfold remove in *. by split_and!.
  - rewrite Hb in *. rewrite Hb1, (proj2 (Z.ltb_ge n 0)), (proj2 (Z.ltb_lt n BUF_LEN)), Z.sub_0_r by lia.
    assert (BUF d = []) as -> by (destruct (BUF d); [done|unfold zlen in Hb; cbn in Hb; lia]).
    destruct (doc_remove_fresh n d Hk) as (Hf1 & Hf2 & Hf3); [lia|]. unfold remove in *. by split_and!.
Qed.

Lemma doc_big_ok d n :
  zlen (K d) = KEY_LEN -> 0 < zlen (BUF d) -> zlen (BUF d) + BUF_LEN <= n ->
  let m := (n - zlen (BUF d)) mod BLOCK_LEN in m <= BUF_LEN ->
  let r := doc_big KEY_LEN BLOCK_LEN PRF n d in
  r = get_bytes KEY_LEN BLOCK_LEN PRF n d /\ zlen (K (snd r)) = KEY_LEN /\
  zlen (BUF (snd r)) = if m =? BUF_LEN then BUF_LEN else BUF_LEN - m.
Proof.
  intros Hk Hb Hn m Hm r. pose proof (Z.mod_pos_bound (n - zlen (BUF d)) BLOCK_LEN ltac:(lia)) as Hm0.
  assert (r = big KEY_LEN BLOCK_LEN PRF n d) as -> by (apply doc_big_eq; lia).
  unfold get_bytes. rewrite (proj2 (Z.ltb_ge n _)) by lia. split; [done|].
  unfold big. fold m. set (q := (n - zlen (BUF d)) / BLOCK_LEN).
  pose proof (HPRF (K d) (u32 q) Hk) as Ho. set (d1 := stir_at _ _ _ _ _).
  assert (zlen (K d1) = KEY_LEN /\ zlen (BUF d1) = BUF_LEN) as [Hk1 Hb1]
    by (unfold d1, stir_at; cbn [K BUF]; split; apply zlen_slice; lia).
  clearbody d1. unfold small. rewrite Hb1. destruct (Z.eqb_spec m BUF_LEN) as [->|Hne].
  - rewrite Z.ltb_irrefl, Z.sub_diag. destruct (stir_zlen d1 Hk1). cbn. rewrite drop_0. done.
  - rewrite (proj2 (Z.ltb_lt m _)) by lia. cbn. rewrite zlen_drop, Hb1. split; [done|lia].
Qed.

Lemma doc_step_ok d a r len :
  zlen (K d) = KEY_LEN -> doc_sim d a -> valid_request r -> doc_fits KEY_LEN BLOCK_LEN (zlen (BUF d)) r = Some len ->
  let x := doc_step KEY_LEN BLOCK_LEN PRF d r in let x' := spec_step KEY_LEN BLOCK_LEN PRF a r in
  fst x = fst x' /\ doc_sim (snd x) (snd x') /\ zlen (K (snd x)) = KEY_LEN /\ zlen (BUF (snd x)) = len.
Proof.
  intros Hk Hs Hv Hf. destruct r as [n|size|seed|]; cbn [doc_step spec_step doc_fits valid_request] in *; cbv zeta.
  - unfold doc_get_bytes. destruct (Z.leb_spec n (BUF_LEN + zlen (BUF d) - 1)) as [Hle|Hgt].
    + destruct (doc_small_ok d a n Hk Hs) as (H1 & H2 & H3 & H4); [lia|].
      destruct (small _ _ _ _ _) as [bs d1], (get_bytes _ _ _ _ _) as [bs' a1]. cbn [fst snd] in *.
      split; [congruence|]. split; [done|]. split; [done|]. rewrite H4.
      destruct (n <? zlen (BUF d)); [congruence|]. rewrite (proj2 (Z.ltb_lt n _)) in Hf by lia. congruence.
    + rewrite !(proj2 (Z.ltb_ge n _)) in Hf by lia. cbv zeta in Hf.
      destruct (Z.eqb_spec (zlen (BUF d)) 0) as [|Hb]; [done|]. cbn [orb] in Hf.
      destruct (Z.ltb_spec BUF_LEN ((n - zlen (BUF d)) mod BLOCK_LEN)) as [|Hm]; [done|]. injection Hf as <-.
      destruct Hs as [<- Hb'|]; [|lia]. destruct (doc_big_ok d n Hk) as (-> & H2 & H3); [lia|lia|done|].
      destruct (get_bytes _ _ _ _ _) as [bs d1]. cbn [fst snd] in *. split_and!; [done| |done|done].
      apply doc_same; [done|]. rewrite H3. destruct (Z.eqb_spec ((n - zlen (BUF d)) mod BLOCK_LEN) BUF_LEN); lia.
  - destruct (doc_tiny_ok d a size Hk Hs Hv) as (H1 & H2 & H3 & H4).
    destruct (doc_tiny _ _ _ _ _) as [bs d1], (tiny _ _ _ _ _) as [bs' a1]. cbn [fst snd] in *.
    split; [congruence|]. split; [done|]. split; [done|]. rewrite H4. congruence.
  - destruct (Z.eqb_spec (zlen (BUF d)) 0) as [|Hb]; [done|]. injection Hf as <-.
    destruct Hs as [<- _|]; [|done]. rewrite doc_add_eq by done. cbn [fst snd].
    assert (zlen (K (add_loop KEY_LEN PRF (length seed) seed (mk_prng (K d) []))) = KEY_LEN) as Hk1.
    { apply add_loop_key. done. }
    destruct (stir_zlen _ Hk1) as [Hk2 Hb2]. unfold add. split; [done|]. split; [|done].
    apply doc_same; [done|lia].
  - injection Hf as <-. by split_and!.
Qed.

Lemma doc_session_ok rs : forall d a,
  zlen (K d) = KEY_LEN -> doc_sim d a -> Forall valid_request rs ->
  doc_fits_all KEY_LEN BLOCK_LEN (zlen (BUF d)) rs = true ->
  fst (doc_session KEY_LEN BLOCK_LEN PRF d rs) = fst (spec_session KEY_LEN BLOCK_LEN PRF a rs).
Proof.
  induction rs as [|r rs IH]; intros d a Hk Hs Hv Hf; [done|]. apply Forall_cons in Hv as [Hr Hv].
  cbn [doc_fits_all] in Hf. destruct (doc_fits _ _ _ r) as [len|] eqn:E; [|done].
  destruct (doc_step_ok d a r len Hk Hs Hr E) as (H1 & H2 & H3 & H4).
  cbn [doc_session spec_session]. destruct (doc_step _ _ _ d r) as [x d1], (spec_step _ _ _ a r) as [x' a1].
  cbn [fst snd] in *. subst x' len. specialize (IH d1 a1 H3 H2 Hv Hf).
  destruct (doc_session _ _ _ d1 rs), (spec_session _ _ _ a1 rs). cbn [fst] in *. congruence.
Qed.
End Doc.

(** ** The properties *)

(** A build that leaves clearing to [ottery_st_prevent_backtracking]. *)
Definition no_clear_build : BuildConfig := {|
  OTTERY_NO_PID_CHECK := false;
  OTTERY_NO_INIT_CHECK := false;
  OTTERY_NO_LOCKS := false;
  OTTERY_NO_CLEAR_AFTER_YIELD := true;
  OTTERY_NO_WIPE_STACK := false;
  OTTERY_NO_SIMD := false |}.

(** Requests for the witnesses. *)
Definition sample_requests : list request :=
  [RandBytes 17; AddSeed [x61; x62; x63]; RandInt 4; RandBytes 303; PreventBacktracking].

(** C1: any sequence of requests (bytes, integers, added seed, backtracking
    prevention) to a state that represents an abstract generator is defined in
    C (no access outside an object, no failed assertion, every loop ends), gives
    exactly the answers of the code's abstract generator in Spec.v, and ends in a
    state that represents its final state: the block counter is 0, [pos] is
    between the key length and the block length, and nothing but the buffer, the
    PRF state, the counter and [pos] has changed. These are also, byte for byte,
    the answers of the generator of doc/specification.txt as the document words it,
    from the same state or one that has yet to stir, whenever no request is of the
    kinds that [doc_fits] names, where the two differ: a seed or a big request that
    meets the document's generator with an empty buffer, and a big request whose
    last bytes do not fit in a block beside the next key. *)
Theorem session_refines_spec {BC : BuildConfig} {p : ottery_prf} {PS : PrfSpec p}
    {PZ : PrfSizes p} st a rs :
  rep st a -> Forall valid_request rs ->
  let sb := state_bytes p in let ol := output_len p in let PRF := prf_out p in
  exists st', code_session st rs = Some (fst (spec_session sb ol PRF a rs), st') /\
    rep st' (snd (spec_session sb ol PRF a rs)) /\ same_frame st st' /\
    (forall d, zlen (K d) = sb -> doc_sim sb ol PRF d a -> doc_fits_all sb ol (zlen (BUF d)) rs = true ->
       fst (doc_session sb ol PRF d rs) = fst (spec_session sb ol PRF a rs)).
Proof.
  intros Hr Hv sb ol PRF. destruct (code_session_ok st a rs Hr Hv) as (st' & E & Hr' & Hf). exists st'.
  split; [done|]. split; [done|]. split; [done|]. intros d Hk Hs Hd. pose proof sizes_facts.
  pose proof (sizes_state_bytes (p := p)). pose proof (sizes_int (p := p)). unfold sb, ol in *.
  apply doc_session_ok; try done; [lia| |lia..].
  intros k i Hi. by apply prf_out_len.
Qed.

Lemma session_refines_spec_witness :
  let sb := state_bytes dummy_prf in let ol := output_len dummy_prf in let PRF := prf_out dummy_prf in
  exists st', @code_session default_build ready0 sample_requests =
      Some (fst (spec_session sb ol PRF ready0_prng sample_requests), st') /\
    rep (p := dummy_prf) st' (snd (spec_session sb ol PRF ready0_prng sample_requests)) /\
    same_frame ready0 st' /\
    fst (doc_session sb ol PRF ready0_prng sample_requests) =
      fst (spec_session sb ol PRF ready0_prng sample_requests).
Proof.
  destruct (session_refines_spec (BC := default_build) (p := dummy_prf) ready0 ready0_prng sample_requests)
    as (st' & E & Hr & Hf & Hd).
  - exact ready0_rep.
  - repeat constructor; cbn; (lia || discriminate).
  - exists st'. split; [exact E|]. split; [exact Hr|]. split; [exact Hf|]. apply Hd; [reflexivity| |reflexivity].
    apply doc_same; reflexivity.
Defined.

(** C15: [ottery_st_rand_bytes_impl] writes exactly the [n] bytes of the
    abstract request at [out], whatever [n] and [pos], and no other byte of the
    caller's buffer. *)
Theorem rand_bytes_exact {BC : BuildConfig} {p : ottery_prf} {PS : PrfSpec p}
    {PZ : PrfSizes p} st a out off n :
  rep st a -> 0 <= off -> 0 <= n < 2 ^ 63 -> off + n <= zlen out ->
  exists st' out', ottery_st_rand_bytes_impl st out off n = Some (st', out') /\
    zlen out' = zlen out /\
    slice out' off n = fst (get_bytes (state_bytes p) (output_len p) (prf_out p) n a) /\
    (forall o k, 0 <= o -> 0 <= k -> o + k <= off \/ off + n <= o ->
      slice out' o k = slice out o k) /\
    rep st' (snd (get_bytes (state_bytes p) (output_len p) (prf_out p) n a)).
Proof.
  intros Hr Ho Hn Hl.
  destruct (rand_bytes_impl_ok st a out off n Hr Ho Hn Hl) as (st' & E & Hr' & _ & Hz).
  exists st'. eexists. split; [exact E|]. split_and!; [|by apply slice_splice_eq; lia| |done].
  - apply zlen_splice; lia.
  - intros o k ? ? [|]; [apply slice_splice_before|apply slice_splice_after]; lia.
Qed.

Lemma rand_bytes_exact_witness :
  exists st' out', @ottery_st_rand_bytes_impl default_build ready0 (zeros 400) 10 303 =
      Some (st', out') /\
    zlen out' = zlen (zeros 400) /\
    slice out' 10 303 = fst (get_bytes (state_bytes dummy_prf) (output_len dummy_prf)
        (prf_out dummy_prf) 303 ready0_prng) /\
    (forall o k, 0 <= o -> 0 <= k -> o + k <= 10 \/ 10 + 303 <= o ->
      slice out' o k = slice (zeros 400) o k) /\
    rep (p := dummy_prf) st' (snd (get_bytes (state_bytes dummy_prf) (output_len dummy_prf)
        (prf_out dummy_prf) 303 ready0_prng)).
Proof.
  apply (rand_bytes_exact (BC := default_build) (p := dummy_prf) ready0 ready0_prng);
    [exact ready0_rep|lia|lia|vm_compute; discriminate].
Defined.

(** [OTTERY_RETURN_RAND_INTTYPE_IMPL] returns an integer of its type whose
    little-endian bytes are the abstract "Tiny Request". *)
Theorem rand_int_exact {BC : BuildConfig} {p : ottery_prf} {PS : PrfSpec p}
    {PZ : PrfSizes p} st a size :
  rep st a -> 1 <= size <= 8 ->
  exists v st', OTTERY_RETURN_RAND_INTTYPE_IMPL size st = Some (v, st') /\
    0 <= v < 2 ^ (8 * size) /\
    le_encode (Z.to_nat size) v = fst (tiny (state_bytes p) (output_len p) (prf_out p) size a) /\
    rep st' (snd (tiny (state_bytes p) (output_len p) (prf_out p) size a)).
Proof.
  intros Hr Hs. destruct (rand_inttype_ok st a size Hr Hs) as (st' & E & Hr' & _ & Hl).
  do 2 eexists. split; [exact E|]. split_and!; try done.
  - apply le_decode_range.
  - pose proof (le_decode_range (fst (tiny (state_bytes p) (output_len p) (prf_out p) size a)))
      as Hb. rewrite Hl in Hb. apply Hb.
  - replace (Z.to_nat size) with
      (length (fst (tiny (state_bytes p) (output_len p) (prf_out p) size a)))
      by (unfold zlen in Hl; lia). apply le_encode_decode.
Qed.

Lemma rand_int_exact_witness :
  exists v st', @OTTERY_RETURN_RAND_INTTYPE_IMPL default_build 4 ready0 = Some (v, st') /\
    0 <= v < 2 ^ (8 * 4) /\
    le_encode (Z.to_nat 4) v = fst (tiny (state_bytes dummy_prf) (output_len dummy_prf)
        (prf_out dummy_prf) 4 ready0_prng) /\
    rep (p := dummy_prf) st' (snd (tiny (state_bytes dummy_prf) (output_len dummy_prf)
        (prf_out dummy_prf) 4 ready0_prng)).
Proof.
  apply (rand_int_exact (BC := default_build) (p := dummy_prf) ready0 ready0_prng 4);
    [exact ready0_rep|lia].
Defined.


(** Three bytes before the end of its block. *)
Definition late0 : ottery_state :=
  default zero_state (fst <$> ottery_st_rand_bytes_impl (BC := default_build) ready0 (zeros 57) 0 57).

Lemma late0_rep : exists a, rep (p := dummy_prf) late0 a.
Proof.
  destruct (rand_bytes_impl_ok (BC := default_build) (p := dummy_prf) ready0 ready0_prng (zeros 57) 0 57)
    as (st' & E & Hr & _); [exact ready0_rep|lia|lia|vm_compute; discriminate|].
  eexists. unfold late0. rewrite E. exact Hr.
Qed.


(** C27: what a request yields does not stay. In the default build, a request for bytes
    or for an integer that ends inside the current block keeps every byte before [pos]
    zero, those it yielded included. In the OTTERY_NO_CLEAR_AFTER_YIELD build,
    [ottery_st_prevent_backtracking_nolock] zeroes every byte before [pos], from any
    state, and keeps the generator: later output is the same as without it. *)
Theorem yields_cleared {BC : BuildConfig} {p : ottery_prf} {PS : PrfSpec p} {PZ : PrfSizes p} st a :
  rep st a ->
  (OTTERY_NO_CLEAR_AFTER_YIELD = false -> clean st ->
     (forall out off n, 0 <= off -> 0 <= n -> off + n <= zlen out -> n + st_pos st < output_len p ->
        exists st' out', ottery_st_rand_bytes_impl st out off n = Some (st', out') /\
          clean st' /\ st_pos st' = st_pos st + n) /\
     (forall size, 1 <= size <= 8 -> size + st_pos st < output_len p ->
        exists v st', OTTERY_RETURN_RAND_INTTYPE_IMPL size st = Some (v, st') /\
          clean st' /\ st_pos st' = st_pos st + size)) /\
  (OTTERY_NO_CLEAR_AFTER_YIELD = true ->
     exists st', ottery_st_prevent_backtracking_nolock st = Some st' /\
       clean st' /\ rep st' a /\ same_frame st st').
Proof.
  intros Hr. split; intros Hb.
  - intros Hc. split; [|intros size; by apply (int_clean st a)]. intros out off n Ho Hn Hl Hlt.
    pose proof sizes_facts as Hsz. pose proof (keyed_prf _ _ (rep_keyed _ _ Hr)) as Hprf. pose proof (rep_pos _ _ Hr).
    unfold ottery_st_rand_bytes_impl. rewrite Hprf, u64_small, u32_small by lia.
    rewrite (proj2 (Z.ltb_lt _ _)) by lia. by apply (from_buf_clean st a).
  - destruct (prevent_ok st a Hr) as (st' & E & Hr' & Hf & Hc). exists st'. auto.
Qed.

Lemma yields_cleared_witness :
  (exists st' out', @ottery_st_rand_bytes_impl default_build ready0 (zeros 20) 0 20 = Some (st', out') /\
     clean st' /\ st_pos st' = st_pos ready0 + 20) /\
  (exists v st', @OTTERY_RETURN_RAND_INTTYPE_IMPL default_build 8 ready0 = Some (v, st') /\
     clean st' /\ st_pos st' = st_pos ready0 + 8) /\
  (exists st', @ottery_st_prevent_backtracking_nolock no_clear_build ready0 = Some st' /\
     clean st' /\ rep (p := dummy_prf) st' ready0_prng /\ same_frame ready0 st').
Proof.
  destruct (proj1 (yields_cleared (BC := default_build) (p := dummy_prf) ready0 ready0_prng ready0_rep) eq_refl ready0_clean)
    as [H1 H2].
  split; [|split].
  - apply H1; [lia|lia|vm_compute; discriminate|vm_compute; reflexivity].
  - apply H2; [lia|vm_compute; reflexivity].
  - exact (proj2 (yields_cleared (BC := no_clear_build) (p := dummy_prf) ready0 ready0_prng ready0_rep) eq_refl).
Defined.

(** Each step of the seed-mixing loop is injective in the seed: the same
    buffer XORed with two chunks gives the same new key only for equal chunks,
    so no entropy of a chunk is lost. *)
Theorem seed_chunk_injective b m s t so to b1 :
  xor_seed b m s so = Some b1 -> xor_seed b m t to = Some b1 ->
  slice s so m = slice t to m.
Proof.
  unfold xor_seed. intros Hs Ht. inv_bind Hs. inv_bind Hs. inv_bind Ht. inv_bind Ht.
  repeat match goal with H : mread _ _ _ = Some _ |- _ =>
    apply mread_inv in H as (? & ? & ? & ->) end.
  pose proof (zlen_slice b 0 m ltac:(lia) ltac:(lia) ltac:(lia)) as L0.
  pose proof (zlen_slice s so m ltac:(lia) ltac:(lia) ltac:(lia)) as L1.
  pose proof (zlen_slice t to m ltac:(lia) ltac:(lia) ltac:(lia)) as L2.
  apply mwrite_inv in Hs as (_ & Z1 & Es). apply mwrite_inv in Ht as (_ & Z2 & Et).
  apply (zip_xor_inj (slice b 0 m)); [unfold zlen in *; lia..|].
  rewrite <-(slice_splice_eq b (zip_with byte_xor (slice b 0 m) (slice s so m)) 0 m),
    <-(slice_splice_eq b (zip_with byte_xor (slice b 0 m) (slice t to m)) 0 m);
    unfold zlen in *; rewrite ?length_zip_with in *; try lia.
  by rewrite <-Es, <-Et.
Qed.

Lemma seed_chunk_injective_witness :
  slice [x01; x02] 0 2 = slice [x00; x01; x02] 1 2.
Proof.
  apply (seed_chunk_injective [x10; x20; x30] 2 [x01; x02] [x00; x01; x02] 0 1 [x11; x22; x30]);
    vm_compute; reflexivity.
Defined.

(** The code's bulk path computes the document's "Big Request" whenever
    what is left after the whole blocks fits in the block that also holds the
    next key. *)
Theorem big_request_matches_doc {BC : BuildConfig} {p : ottery_prf} {PS : PrfSpec p}
    {PZ : PrfSizes p} st a n :
  rep st a -> 2 * output_len p - state_bytes p - 1 <= n + st_pos st -> n < 2 ^ 63 ->
  (n - (output_len p - st_pos st)) mod output_len p + state_bytes p <= output_len p ->
  exists st', ottery_st_rand_bytes_impl st (zeros n) 0 n =
      Some (st', fst (doc_big (state_bytes p) (output_len p) (prf_out p) n a)) /\
    rep st' (snd (doc_big (state_bytes p) (output_len p) (prf_out p) n a)).
Proof.
  intros Hr Hn Hn' Hfit. pose proof sizes_facts as Hsz. pose proof (rep_pos _ _ Hr) as Hp.
  pose proof (rep_zlen_buf _ _ Hr) as HB. pose proof (zlen_zeros n ltac:(lia)) as Hz.
  destruct (rand_bytes_impl_ok st a (zeros n) 0 n) as (st' & E & Hr' & _ & Hl);
    [done|lia..|]. exists st'. revert E Hr' Hl. unfold get_bytes.
  rewrite HB, (proj2 (Z.ltb_ge _ _)) by lia.
  rewrite <-(doc_big_eq (state_bytes p) (output_len p) (prf_out p)); try (rewrite ?HB; lia || done).
  - intros E Hr' Hl. split; [|done]. rewrite E, splice_all; [done|lia].
  - apply prf_out_len.
  - apply (keyed_len _ _ (rep_keyed _ _ Hr)).
Qed.

Lemma big_request_matches_doc_witness :
  exists st', @ottery_st_rand_bytes_impl default_build ready0 (zeros 130) 0 130 =
      Some (st', fst (doc_big (state_bytes dummy_prf) (output_len dummy_prf)
        (prf_out dummy_prf) 130 ready0_prng)) /\
    rep (p := dummy_prf) st' (snd (doc_big (state_bytes dummy_prf) (output_len dummy_prf)
        (prf_out dummy_prf) 130 ready0_prng)).
Proof.
  apply (big_request_matches_doc (BC := default_build) (p := dummy_prf));
    [exact ready0_rep|vm_compute; discriminate|lia|vm_compute; discriminate].
Defined.

(** In general the document's large requests differ from the code's: for 187 bytes from a fresh block of the test
    PRF, the document's generator and the code return different bytes. *)
Theorem big_request_differs_from_doc :
  exists st' out, @ottery_st_rand_bytes_impl default_build ready0 (zeros 187) 0 187 =
      Some (st', out) /\
    out <> fst (doc_big (state_bytes dummy_prf) (output_len dummy_prf)
      (prf_out dummy_prf) 187 ready0_prng).
Proof.
  destruct (rand_bytes_impl_ok (BC := default_build) (p := dummy_prf) ready0 ready0_prng
    (zeros 187) 0 187) as (st' & E & _); [exact ready0_rep|lia|lia|vm_compute; discriminate|].
  do 2 eexists. split; [exact E|]. vm_compute. discriminate.
Qed.
