(* ===== verification/ChaChaRef.v ===== *)
(** * Reference ChaCha

    The plain block function that the repository validates its C code against
    (test/make_test_vectors.py): a list of 16 words updated in place by index. *)
From S2P Require Import Prelude Words Memory.
Local Open Scope Z_scope.

(** ** Definitions *)

Definition ROTL (n b : Z) : Z :=
  Z.land (Z.lor (Z.shiftl n b) (Z.shiftr n (32 - b))) 0xffffffff.

Definition mask32 (n : Z) : Z := Z.land n 0xffffffff.

(** [qround(A, a, b, c, d)] *)
Definition qround (A : list Z) (a b c d : nat) : list Z :=
  let A := <[a := mask32 (A !!! a + A !!! b)]> A in
  let A := <[d := ROTL (Z.lxor (A !!! d) (A !!! a)) 16]> A in
  let A := <[c := mask32 (A !!! c + A !!! d)]> A in
  let A := <[b := ROTL (Z.lxor (A !!! b) (A !!! c)) 12]> A in
  let A := <[a := mask32 (A !!! a + A !!! b)]> A in
  let A := <[d := ROTL (Z.lxor (A !!! d) (A !!! a)) 8]> A in
  let A := <[c := mask32 (A !!! c + A !!! d)]> A in
  <[b := ROTL (Z.lxor (A !!! b) (A !!! c)) 7]> A.

(** The body of the round loop. *)
Definition double_round (A : list Z) : list Z :=
  let A := qround A 0 4 8 12 in
  let A := qround A 1 5 9 13 in
  let A := qround A 2 6 10 14 in
  let A := qround A 3 7 11 15 in
  let A := qround A 0 5 10 15 in
  let A := qround A 1 6 11 12 in
  let A := qround A 2 7 8 13 in
  qround A 3 4 9 14.

(** [struct.unpack("<L...L", bs)] and [struct.pack]. *)
Fixpoint unpack (bs : list byte) : list Z :=
  match bs with
  | b0 :: b1 :: b2 :: b3 :: bs => le_decode [b0; b1; b2; b3] :: unpack bs
  | _ => []
  end.

Definition pack (ws : list Z) : list byte := ws ≫= le_encode 4.

Definition sigma_bytes : list byte := String.list_byte_of_string "expand 32-byte k".

Definition init_words (position : Z) (nonce key : list byte) : list Z :=
  unpack sigma_bytes ++ unpack key ++
  [mask32 position; Z.shiftr position 32] ++ unpack nonce.

Definition chacha_words (rounds : nat) (orig : list Z) : list Z :=
  zip_with (fun i j => mask32 (i + j)) orig (Nat.iter (rounds / 2) double_round orig).

Definition chacha_block (position : Z) (nonce key : list byte) (nRounds : nat) : list byte :=
  pack (chacha_words nRounds (init_words position nonce key)).

(** The keystream of [n] blocks from a block position, under a 40-byte PRF
    key: 32 bytes of ChaCha key and 8 of nonce. *)
Definition keystream (rounds : nat) (k : list byte) (position : Z) (n : nat) : list byte :=
  seqZ position (Z.of_nat n) ≫=
    fun pos => chacha_block pos (slice k 32 8) (slice k 0 32) rounds.

(** ** Lemmas *)

Lemma mask32_u32 n : mask32 n = u32 n.
Proof. unfold mask32, u32. change 0xffffffff with (Z.ones 32). by rewrite Z.land_ones. Qed.

(** The four words one quarter round replaces. *)
Definition qr4 (a b c d : Z) : Z * Z * Z * Z :=
  let a := u32 (a + b) in let d := ROTL (Z.lxor d a) 16 in
  let c := u32 (c + d) in let b := ROTL (Z.lxor b c) 12 in
  let a := u32 (a + b) in let d := ROTL (Z.lxor d a) 8 in
  let c := u32 (c + d) in let b := ROTL (Z.lxor b c) 7 in
  (a, b, c, d).

Lemma list_total_insert_eq (l : list Z) i x : (i < length l)%nat -> <[i:=x]> l !!! i = x.
Proof. intros. apply list_lookup_total_correct. by apply list_lookup_insert_eq. Qed.

Lemma list_total_insert_ne (l : list Z) i j x : i <> j -> <[i:=x]> l !!! j = l !!! j.
Proof. intros. by apply list_lookup_total_insert_ne. Qed.

Lemma qround_qr4 A a b c d :
  NoDup [a; b; c; d] -> Forall (fun i => (i < length A)%nat) [a; b; c; d] ->
  qround A a b c d =
    let '(a', b', c', d') := qr4 (A !!! a) (A !!! b) (A !!! c) (A !!! d) in
    <[b:=b']> (<[c:=c']> (<[d:=d']> (<[a:=a']> A))).
Proof.
  intros Hnd Hin. apply NoDup_ListNoDup in Hnd.
  assert (a <> b /\ a <> c /\ a <> d /\ b <> c /\ b <> d /\ c <> d) as (?&?&?&?&?&?).
  { inversion_clear Hnd as [|?? N1 H1]. inversion_clear H1 as [|?? N2 H2].
    inversion_clear H2 as [|?? N3 H3]. cbn in *. intuition congruence. }
  rewrite !Forall_cons in Hin. destruct Hin as (Ha & Hb & Hc & Hd & _).
  apply list_eq. intros i. unfold qround, qr4. rewrite !mask32_u32.
  repeat first [ rewrite list_total_insert_eq by (rewrite ?length_insert; done)
               | rewrite list_total_insert_ne by done ].
  repeat first
    [ done
    | rewrite list_lookup_insert_eq by (rewrite ?length_insert; done)
    | rewrite list_lookup_insert_ne by done
    | match goal with
      | |- <[?j := _]> _ !! i = _ =>
          lazymatch goal with
          | _ : i <> j |- _ => fail
          | _ => destruct (decide (i = j)); [subst i|]
          end
      end ].
Qed.

(** ** Words of a key *)

(** The 16 input words for a 40-byte PRF key and a 32-bit block counter. *)
Definition key_words (k : list byte) (c : Z) : list Z :=
  (unpack sigma_bytes ++ unpack (slice k 0 32)) ++ c :: 0 :: unpack (slice k 32 8).

Lemma unpack_app4 a l : length a = 4%nat -> unpack (a ++ l) = le_decode a :: unpack l.
Proof. destruct a as [|? [|? [|? [|? [|]]]]]; done. Qed.

Lemma unpack_slice bs off n :
  0 <= off -> off + 4 * Z.of_nat n <= zlen bs ->
  unpack (slice bs off (4 * Z.of_nat n)) =
    (fun i => le_decode (slice bs (off + 4 * Z.of_nat i) 4)) <$> seq 0 n.
Proof.
  revert off. induction n as [|n IH]; intros off Hoff Hl.
  - replace (4 * Z.of_nat 0) with 0 by lia. by rewrite slice_nil.
  - replace (4 * Z.of_nat (S n)) with (4 + 4 * Z.of_nat n) by lia.
    rewrite slice_app_split by lia. rewrite unpack_app4.
    + rewrite IH by lia. cbn [seq fmap list_fmap]. f_equal.
      * f_equal. f_equal. lia.
      * rewrite <-fmap_S_seq, <-list_fmap_compose. apply list_fmap_ext. intros i j _.
        cbn [compose]. f_equal. f_equal. lia.
    + pose proof (zlen_slice bs off 4). unfold zlen in *. lia.
Qed.

Lemma init_words_key k c :
  in_u32 c -> init_words c (slice k 32 8) (slice k 0 32) = key_words k c.
Proof.
  intros Hc. unfold init_words, key_words. rewrite mask32_u32, u32_small by done.
  assert (Z.shiftr c 32 = 0) as ->.
  { rewrite Z.shiftr_div_pow2 by lia. by apply Z.div_small. }
  by rewrite <-app_assoc.
Qed.

Lemma pack_app a b : pack (a ++ b) = pack a ++ pack b.
Proof. apply bind_app. Qed.

(** Whole words survive unpacking and packing. *)
Lemma pack_unpack bs : (exists n, length bs = 4 * n)%nat -> pack (unpack bs) = bs.
Proof.
  intros [n Hn]. revert bs Hn. induction n as [|n IH]; intros bs Hn.
  - by destruct bs.
  - destruct bs as [|a [|b [|c [|d bs]]]]; try (cbn in Hn; lia). cbn [unpack].
    change (pack (?w :: ?ws)) with (le_encode 4 w ++ pack ws).
    rewrite IH by (cbn in Hn; lia). change 4%nat with (length [a; b; c; d]) at 1.
    by rewrite le_encode_decode.
Qed.

Lemma length_unpack_key k off n :
  0 <= off -> off + 4 * Z.of_nat n <= zlen k ->
  length (unpack (slice k off (4 * Z.of_nat n))) = n.
Proof. intros. rewrite unpack_slice by done. by rewrite length_fmap, length_seq. Qed.

Lemma length_key_prefix k :
  zlen k = 40 -> length (unpack sigma_bytes ++ unpack (slice k 0 32)) = 12%nat.
Proof.
  intros Hk. rewrite length_app. change 32 with (4 * Z.of_nat 8).
  rewrite length_unpack_key by lia. reflexivity.
Qed.

Lemma key_words_counter k c c' :
  zlen k = 40 -> <[12%nat := c']> (key_words k c) = key_words k c'.
Proof.
  intros Hk. unfold key_words. pose proof (length_key_prefix k Hk).
  by rewrite insert_app_r_alt, H by lia.
Qed.

Lemma length_key_words k c : zlen k = 40 -> length (key_words k c) = 16%nat.
Proof.
  intros Hk. unfold key_words. rewrite length_app, length_key_prefix by done.
  cbn [length]. change 8 with (4 * Z.of_nat 2). by rewrite length_unpack_key by lia.
Qed.

Lemma unpack_u32 bs : Forall in_u32 (unpack bs).
Proof.
  induction bs as [bs IH] using (induction_ltof1 _ length). unfold ltof in IH.
  destruct bs as [|a [|b [|c [|d bs]]]]; try apply Forall_nil_2.
  cbn [unpack]. apply Forall_cons_2; [|apply IH; cbn [length]; lia].
  apply (le_decode_range [a; b; c; d]).
Qed.

Lemma key_words_u32 k c : in_u32 c -> Forall in_u32 (key_words k c).
Proof.
  intros Hc. unfold key_words. rewrite !Forall_app, !Forall_cons.
  split_and!; try apply unpack_u32; try apply Hc; unfold in_u32; lia.
Qed.

Lemma length_qround A a b c d : length (qround A a b c d) = length A.
Proof. unfold qround. by rewrite !length_insert. Qed.

Lemma length_double_round A : length (double_round A) = length A.
Proof. unfold double_round. by rewrite !length_qround. Qed.

Lemma zlen_pack ws : zlen (pack ws) = 4 * zlen ws.
Proof.
  induction ws as [|w ws IH]; [done|].
  change (pack (w :: ws)) with (le_encode 4 w ++ pack ws).
  rewrite zlen_app, zlen_cons, zlen_le_encode. lia.
Qed.

Lemma chacha_block_zlen c k rounds :
  zlen k = 40 -> in_u32 c ->
  zlen (chacha_block c (slice k 32 8) (slice k 0 32) rounds) = 64.
Proof.
  intros Hk Hc. unfold chacha_block. rewrite zlen_pack, init_words_key by done.
  unfold chacha_words, zlen. rewrite length_zip_with, length_key_words by done.
  assert (forall n A, length (Nat.iter n double_round A) = length A) as Hi.
  { intros n A. induction n as [|n IH]; [done|]. cbn. by rewrite length_double_round. }
  rewrite Hi, length_key_words by done. reflexivity.
Qed.

Lemma keystream_zlen rounds k c n :
  zlen k = 40 -> 0 <= c -> c + Z.of_nat n <= 2 ^ 32 ->
  zlen (keystream rounds k c n) = 64 * Z.of_nat n.
Proof.
  intros Hk. unfold keystream. revert c. induction n as [|n IH]; intros c Hc Hn; [done|].
  rewrite Nat2Z.inj_succ, seqZ_cons, Z.pred_succ by lia. rewrite bind_cons, zlen_app.
  rewrite <-Z.add_1_r, IH, chacha_block_zlen; unfold in_u32; lia || done.
Qed.
