(* ===== verification/ChaChaMerged.v ===== *)
(** * The portable ChaCha PRF: src/chacha_merged.c

    Key and nonce setup, the block loop with its local variables, and the
    three [struct ottery_prf] values; then the proof that they compute the
    reference keystream and implement the PRF interface. *)
From S2P Require Import Prelude Words Memory Internal ChaChaRef.
Local Open Scope Z_scope.

(** ** Definitions *)

Definition ROTATE (v c : Z) : Z := ROTL32 v c.
Definition XOR (v w : Z) : Z := Z.lxor v w.
Definition PLUS (v w : Z) : Z := U32V (v + w).
Definition PLUSONE (v : Z) : Z := PLUS v 1.

Definition QUARTERROUND (a b c d : Z) : Z * Z * Z * Z :=
  let a := PLUS a b in let d := ROTATE (XOR d a) 16 in
  let c := PLUS c d in let b := ROTATE (XOR b c) 12 in
  let a := PLUS a b in let d := ROTATE (XOR d a) 8 in
  let c := PLUS c d in let b := ROTATE (XOR b c) 7 in
  (a, b, c, d).

(** [char sigma[16]] *)
Definition sigma : list byte := String.list_byte_of_string "expand 32-byte k".

(** [U8TO32_LITTLE(p + off)] and the word array of an [ECRYPT_ctx]. *)
Definition load_U8TO32_LITTLE (p : list byte) (off : Z) : option Z :=
  bs ← mread p off 4;
  match bs with
  | [p0; p1; p2; p3] => Some (U8TO32_LITTLE p0 p1 p2 p3)
  | _ => None
  end.

Definition ctx_get (x : list byte) (i : Z) : option Z :=
  bs ← mread x (4 * i) 4; Some (le_decode bs).

Definition ctx_set (x : list byte) (i v : Z) : option (list byte) :=
  mwrite x (4 * i) (le_encode 4 v).

(** [x->input[i] = U8TO32_LITTLE(p + off)] *)
Definition set_input (x : list byte) (i : Z) (p : list byte) (off : Z)
  : option (list byte) :=
  v ← load_U8TO32_LITTLE p off; ctx_set x i v.

Definition ECRYPT_keysetup (x k : list byte) (koff : Z) : option (list byte) :=
  x ← set_input x 4 k (koff + 0);
  x ← set_input x 5 k (koff + 4);
  x ← set_input x 6 k (koff + 8);
  x ← set_input x 7 k (koff + 12);
  let koff := koff + 16 in
  let constants := sigma in
  x ← set_input x 8 k (koff + 0);
  x ← set_input x 9 k (koff + 4);
  x ← set_input x 10 k (koff + 8);
  x ← set_input x 11 k (koff + 12);
  x ← set_input x 0 constants 0;
  x ← set_input x 1 constants 4;
  x ← set_input x 2 constants 8;
  set_input x 3 constants 12.

Definition ECRYPT_ivsetup (x iv : list byte) (ivoff : Z) : option (list byte) :=
  x ← ctx_set x 12 0;
  x ← ctx_set x 13 0;
  x ← set_input x 14 iv (ivoff + 0);
  set_input x 15 iv (ivoff + 4).

Definition IDX_STEP : Z := 16.
Definition OUTPUT_LEN : Z := IDX_STEP * 64.

(** The sixteen local words [x0 .. x15] (or [j0 .. j15]). *)
Record regs := mk_regs {
  x0 : Z; x1 : Z; x2 : Z; x3 : Z; x4 : Z; x5 : Z; x6 : Z; x7 : Z;
  x8 : Z; x9 : Z; x10 : Z; x11 : Z; x12 : Z; x13 : Z; x14 : Z; x15 : Z }.

(** The body of the round loop. *)
Definition round_body (r : regs) : regs :=
  let '(mk_regs x0 x1 x2 x3 x4 x5 x6 x7 x8 x9 x10 x11 x12 x13 x14 x15) := r in
  let '(x0, x4, x8, x12) := QUARTERROUND x0 x4 x8 x12 in
  let '(x1, x5, x9, x13) := QUARTERROUND x1 x5 x9 x13 in
  let '(x2, x6, x10, x14) := QUARTERROUND x2 x6 x10 x14 in
  let '(x3, x7, x11, x15) := QUARTERROUND x3 x7 x11 x15 in
  let '(x0, x5, x10, x15) := QUARTERROUND x0 x5 x10 x15 in
  let '(x1, x6, x11, x12) := QUARTERROUND x1 x6 x11 x12 in
  let '(x2, x7, x8, x13) := QUARTERROUND x2 x7 x8 x13 in
  let '(x3, x4, x9, x14) := QUARTERROUND x3 x4 x9 x14 in
  mk_regs x0 x1 x2 x3 x4 x5 x6 x7 x8 x9 x10 x11 x12 x13 x14 x15.

(** [for (i = chacha_rounds; i > 0; i -= 2)], [i] unsigned. *)
Fixpoint round_loop (fuel : nat) (i : Z) (r : regs) : option regs :=
  if 0 <? i then
    match fuel with
    | O => None
    | S fuel => round_loop fuel (u32 (i - 2)) (round_body r)
    end
  else Some r.

(** [x_i = PLUS(x_i, j_i)] for every word. *)
Definition add_regs (x j : regs) : list Z :=
  [ PLUS (x0 x) (x0 j); PLUS (x1 x) (x1 j); PLUS (x2 x) (x2 j); PLUS (x3 x) (x3 j);
    PLUS (x4 x) (x4 j); PLUS (x5 x) (x5 j); PLUS (x6 x) (x6 j); PLUS (x7 x) (x7 j);
    PLUS (x8 x) (x8 j); PLUS (x9 x) (x9 j); PLUS (x10 x) (x10 j); PLUS (x11 x) (x11 j);
    PLUS (x12 x) (x12 j); PLUS (x13 x) (x13 j); PLUS (x14 x) (x14 j); PLUS (x15 x) (x15 j) ].

(** [U32TO8_LITTLE(c + off, w)] for consecutive words. *)
Fixpoint store_words (c : list byte) (off : Z) (ws : list Z) : option (list byte) :=
  match ws with
  | [] => Some c
  | w :: ws => c ← mwrite c off (U32TO8_LITTLE w); store_words c (off + 4) ws
  end.

Definition set_x12 (v : Z) (r : regs) : regs :=
  mk_regs (x0 r) (x1 r) (x2 r) (x3 r) (x4 r) (x5 r) (x6 r) (x7 r)
    (x8 r) (x9 r) (x10 r) (x11 r) v (x13 r) (x14 r) (x15 r).

(** The loop over blocks: [n] blocks left, [c] advanced to [off]. *)
Fixpoint block_loop (chacha_rounds : Z) (n : nat) (j : regs) (c : list byte) (off : Z)
  : option (list byte) :=
  match n with
  | O => Some c
  | S n =>
      x ← round_loop (Z.to_nat chacha_rounds) chacha_rounds j;
      let ws := add_regs x j in
      let j := set_x12 (PLUSONE (x12 j)) j in
      c ← store_words c off ws;
      block_loop chacha_rounds n j c (off + 64)
  end.

Definition chacha_merged_getblocks (chacha_rounds : Z) (x c : list byte)
  : option (list byte) :=
  j0 ← ctx_get x 0; j1 ← ctx_get x 1; j2 ← ctx_get x 2; j3 ← ctx_get x 3;
  j4 ← ctx_get x 4; j5 ← ctx_get x 5; j6 ← ctx_get x 6; j7 ← ctx_get x 7;
  j8 ← ctx_get x 8; j9 ← ctx_get x 9; j10 ← ctx_get x 10; j11 ← ctx_get x 11;
  j12 ← ctx_get x 12; j13 ← ctx_get x 13; j14 ← ctx_get x 14; j15 ← ctx_get x 15;
  block_loop chacha_rounds (Z.to_nat IDX_STEP)
    (mk_regs j0 j1 j2 j3 j4 j5 j6 j7 j8 j9 j10 j11 j12 j13 j14 j15) c 0.

Definition STATE_LEN : Z := 64.
Definition STATE_BYTES : Z := 40.

Definition chacha_merged_state_setup (state_ bytes : list byte) : option (list byte) :=
  x ← ECRYPT_keysetup state_ bytes 0;
  ECRYPT_ivsetup x bytes 32.

(** [chacha8_merged_generate], [chacha12_merged_generate] and
    [chacha20_merged_generate] differ in the number of rounds only. *)
Definition chacha_merged_generate (chacha_rounds : Z) (state_ output : list byte) (idx : Z)
  : option (list byte * list byte) :=
  x ← ctx_set state_ 12 (u32 (idx * IDX_STEP));
  out ← chacha_merged_getblocks chacha_rounds x output;
  Some (x, out).

Definition chacha8_merged_generate := chacha_merged_generate 8.
Definition chacha12_merged_generate := chacha_merged_generate 12.
Definition chacha20_merged_generate := chacha_merged_generate 20.

(** [PRF_CHACHA(r)] *)
Definition PRF_CHACHA (r : string)
    (gen : list byte -> list byte -> Z -> option (list byte * list byte)) : ottery_prf := {|
  name := "CHACHA" ++ r;
  impl := "CHACHA" ++ r ++ "-NOSIMD";
  flav := "CHACHA" ++ r ++ "-NOSIMD-DEFAULT";
  state_len := STATE_LEN; state_bytes := STATE_BYTES; output_len := OUTPUT_LEN;
  required_cpucap := 0;
  setup := chacha_merged_state_setup;
  generate := gen |}.

Definition ottery_prf_chacha8_merged_ : ottery_prf := PRF_CHACHA "8" chacha8_merged_generate.
Definition ottery_prf_chacha12_merged_ : ottery_prf := PRF_CHACHA "12" chacha12_merged_generate.
Definition ottery_prf_chacha20_merged_ : ottery_prf := PRF_CHACHA "20" chacha20_merged_generate.

(** ** The word macros *)

Lemma lor_shiftl_add a b n : 0 <= n -> 0 <= a < 2 ^ n -> Z.lor a (Z.shiftl b n) = a + 2 ^ n * b.
Proof.
  intros Hn Ha. assert (Z.land a (Z.shiftl b n) = 0) as H0.
  { apply Z.bits_inj'. intros i Hi. rewrite Z.land_spec, Z.bits_0, Z.shiftl_spec by lia.
    destruct (Z.lt_ge_cases i n).
    - rewrite (Z.testbit_neg_r b) by lia. apply andb_false_r.
    - by rewrite (testbit_high a n i). }
  rewrite <-Z.lxor_lor, <-Z.add_nocarry_lxor, Z.shiftl_mul_pow2 by done. lia.
Qed.

Lemma U8TO32_LITTLE_decode p0 p1 p2 p3 :
  U8TO32_LITTLE p0 p1 p2 p3 = le_decode [p0; p1; p2; p3].
Proof.
  unfold U8TO32_LITTLE. cbn [le_decode].
  pose proof (Z_of_byte_range p0). pose proof (Z_of_byte_range p1).
  pose proof (Z_of_byte_range p2). pose proof (Z_of_byte_range p3).
  rewrite !(u32_small (Z.shiftl _ _)) by (rewrite Z.shiftl_mul_pow2 by lia; lia).
  rewrite (lor_shiftl_add (Z_of_byte p0)) by lia.
  rewrite (lor_shiftl_add _ (Z_of_byte p2)) by lia.
  rewrite lor_shiftl_add by lia. lia.
Qed.

Lemma U32TO8_LITTLE_encode w : U32TO8_LITTLE w = le_encode 4 w.
Proof.
  unfold U32TO8_LITTLE. rewrite !U8V_u8, !byte_of_Z_u8, !Z.shiftr_div_pow2 by lia.
  cbn [le_encode]. rewrite !Z.div_div by lia. done.
Qed.

(** The C rotation is the reference one on 32-bit words. *)
Lemma ROTL32_ROTL v n : in_u32 v -> 0 < n < 32 -> ROTL32 v n = ROTL v n.
Proof.
  intros Hv Hn. unfold ROTL32, ROTL. rewrite U32V_u32, u32_idemp.
  change 0xffffffff with (Z.ones 32). rewrite Z.land_lor_distr_l.
  rewrite !Z.land_ones by lia. f_equal. symmetry. apply Z.mod_small.
  rewrite Z.shiftr_div_pow2 by lia. unfold in_u32 in Hv.
  split; [apply Z.div_pos; lia|]. apply Z.div_lt_upper_bound; [lia|].
  assert (1 <= 2 ^ (32 - n)) by (apply (Z.pow_le_mono_r 2 0); lia). nia.
Qed.

Lemma ROTL_range v n : in_u32 (ROTL v n).
Proof.
  unfold in_u32, ROTL. change 0xffffffff with (Z.ones 32).
  rewrite Z.land_ones by lia. by apply Z.mod_pos_bound.
Qed.

Lemma lxor_u32 a b : in_u32 a -> in_u32 b -> in_u32 (Z.lxor a b).
Proof. apply lxor_lt_pow2. lia. Qed.

#[local] Hint Resolve ROTL_range lxor_u32 : ottery.

Lemma quarter_step a b c d :
  in_u32 a -> in_u32 b -> in_u32 c -> in_u32 d ->
  exists a' b' c' d', QUARTERROUND a b c d = (a', b', c', d') /\
    qr4 a b c d = (a', b', c', d') /\ in_u32 a' /\ in_u32 b' /\ in_u32 c' /\ in_u32 d'.
Proof.
  intros. unfold QUARTERROUND, qr4, ROTATE, XOR, PLUS. rewrite !U32V_u32.
  repeat rewrite ROTL32_ROTL by first [lia | auto 8 with ottery].
  do 4 eexists. split_and!; [done|done|auto with ottery..].
Qed.

(** ** Rounds *)

Definition regs_list (r : regs) : list Z :=
  [ x0 r; x1 r; x2 r; x3 r; x4 r; x5 r; x6 r; x7 r;
    x8 r; x9 r; x10 r; x11 r; x12 r; x13 r; x14 r; x15 r ].

Definition regs_ok (r : regs) : Prop := Forall in_u32 (regs_list r).

(** One quarter round on both sides of the goal. *)
Ltac quarter :=
  match goal with
  | |- context [qround (?h :: ?t) ?i ?j ?k ?l] =>
      rewrite (qround_qr4 (h :: t) i j k l)
        by (apply (bool_decide_unpack _); vm_compute; exact I)
  end;
  match goal with
  | |- regs_list (match QUARTERROUND ?a ?b ?c ?d with _ => _ end) = _ /\ _ =>
      let a' := fresh "w" in let b' := fresh "w" in let c' := fresh "w" in
      let d' := fresh "w" in let E := fresh "E" in let E' := fresh "E" in
      destruct (quarter_step a b c d) as (a' & b' & c' & d' & E & E' & ? & ? & ? & ?);
        [assumption..|];
      rewrite E;
      match goal with |- context [qr4 ?p ?q ?r ?s] =>
        change (qr4 p q r s) with (qr4 a b c d) end;
      rewrite E'; cbn [insert list_insert]; clear E E'
  end.

Lemma round_body_ref r :
  regs_ok r ->
  regs_list (round_body r) = double_round (regs_list r) /\ regs_ok (round_body r).
Proof.
  destruct r as [a0 a1 a2 a3 a4 a5 a6 a7 a8 a9 a10 a11 a12 a13 a14 a15].
  unfold regs_ok at 1. unfold regs_list at 1 3. cbn [x0 x1 x2 x3 x4 x5 x6 x7 x8 x9 x10 x11 x12 x13 x14 x15].
  rewrite !Forall_cons.
  intros (?&?&?&?&?&?&?&?&?&?&?&?&?&?&?&?&_). unfold round_body, double_round.
  do 8 quarter. split; [done|].
  unfold regs_ok, regs_list. repeat (apply Forall_cons_2; [assumption|]). apply Forall_nil_2.
Qed.

(** The round loop runs [rounds / 2] double rounds and ends. *)
Lemma round_loop_ref n fuel r :
  regs_ok r -> (2 * n <= fuel)%nat -> 2 * Z.of_nat n < 2 ^ 32 ->
  exists r', round_loop fuel (2 * Z.of_nat n) r = Some r' /\
    regs_list r' = Nat.iter n double_round (regs_list r) /\ regs_ok r'.
Proof.
  revert fuel r. induction n as [|n IH]; intros fuel r Hr Hf Hn.
  - exists r. destruct fuel; by split_and!.
  - destruct fuel as [|fuel]; [lia|]. cbn [round_loop].
    rewrite (proj2 (Z.ltb_lt 0 _)) by lia.
    replace (2 * Z.of_nat (S n) - 2) with (2 * Z.of_nat n) by lia.
    rewrite u32_small by lia. destruct (round_body_ref r Hr) as [E Hr1].
    destruct (IH fuel (round_body r)) as (r' & E' & Hl & Hr'); [done|lia..|].
    exists r'. split; [done|]. split; [|done]. rewrite Hl, E.
    symmetry. apply Nat.iter_succ_r.
Qed.

Lemma add_regs_ref x j :
  add_regs x j = zip_with (fun i k => mask32 (i + k)) (regs_list j) (regs_list x).
Proof.
  unfold add_regs, regs_list, PLUS. cbn [zip_with]. rewrite !U32V_u32, !mask32_u32.
  repeat (apply f_equal2; [f_equal; lia|]). done.
Qed.

Lemma store_words_ok ws c off :
  0 <= off -> off + 4 * zlen ws <= zlen c ->
  store_words c off ws = Some (splice c off (pack ws)).
Proof.
  revert c off. induction ws as [|w ws IH]; intros c off Hoff Hc; cbn [store_words].
  - change (pack []) with (@nil byte). by rewrite splice_nil.
  - change (pack (w :: ws)) with (le_encode 4 w ++ pack ws). rewrite U32TO8_LITTLE_encode. rewrite zlen_cons in Hc.
    pose proof (zlen_le_encode 4 w) as Hw. pose proof (zlen_pack ws). zlen_facts.
    rewrite mwrite_ok by lia. cbn [mbind option_bind].
    rewrite IH by (rewrite ?zlen_splice; lia).
    rewrite splice_splice_app by lia. done.
Qed.

(** ** Blocks *)

Lemma regs_list_inj_length r : length (regs_list r) = 16%nat.
Proof. reflexivity. Qed.

(** [n] turns of the block loop from the words of key [k] at position [c]
    write the reference keystream of [n] blocks. *)
Lemma block_loop_ref h n j c k out off :
  zlen k = 40 -> regs_list j = key_words k (u32 c) ->
  0 <= c -> c + Z.of_nat n <= 2 ^ 32 -> 2 * Z.of_nat h < 2 ^ 32 ->
  0 <= off -> off + 64 * Z.of_nat n <= zlen out ->
  block_loop (2 * Z.of_nat h) n j out off =
    Some (splice out off (keystream (2 * h) k c n)).
Proof.
  intros Hk. revert j c out off. induction n as [|n IH];
    intros j c out off Hj Hc Hn Hh Hoff Hout.
  { change (keystream (2 * h) k c 0) with (@nil byte). by rewrite splice_nil. }
  cbn [block_loop]. assert (in_u32 c) as Hcu by (unfold in_u32; lia).
  assert (regs_ok j) as Hok by (unfold regs_ok; rewrite Hj; apply key_words_u32, in_u32_u32).
  destruct (round_loop_ref h (Z.to_nat (2 * Z.of_nat h)) j) as (x & E & Hx & _);
    [done|lia|done|]. rewrite E. cbn [mbind option_bind].
  assert (pack (add_regs x j) = chacha_block c (slice k 32 8) (slice k 0 32) (2 * h)) as Hb.
  { unfold chacha_block, chacha_words. rewrite add_regs_ref, Hx, Hj, init_words_key by done.
    rewrite u32_small by done. do 4 f_equal. rewrite Nat.mul_comm. by rewrite Nat.div_mul. }
  pose proof (chacha_block_zlen c k (2 * h) Hk Hcu) as Hl.
  rewrite store_words_ok; [|done|]; cycle 1.
  { assert (zlen (add_regs x j) = 16) as -> by done. lia. }
  cbn [mbind option_bind]. rewrite Hb. rewrite (IH _ (c + 1)).
  - rewrite splice_splice_app by (rewrite ?keystream_zlen; lia). f_equal. f_equal.
    unfold keystream. rewrite Nat2Z.inj_succ, (seqZ_cons c), Z.pred_succ by lia.
    rewrite bind_cons. by rewrite <-Z.add_1_r.
  - change (regs_list (set_x12 _ j)) with (<[12%nat := PLUSONE (x12 j)]> (regs_list j)).
    rewrite Hj, key_words_counter by done. f_equal. unfold PLUSONE, PLUS. rewrite U32V_u32.
    assert (x12 j = u32 c) as ->.
    { change (x12 j) with (regs_list j !!! 12%nat). rewrite Hj.
      rewrite <-(key_words_counter k (u32 c) (u32 c) Hk).
      apply list_total_insert_eq. rewrite length_key_words; done || lia. }
    unfold u32. by rewrite Zplus_mod_idemp_l.
  - lia.
  - lia.
  - done.
  - lia.
  - rewrite zlen_splice; lia.
Qed.

(** ** The context structure *)

(** The words of the [ECRYPT_ctx] stored in a state object. *)
Definition ctx_words (m : list byte) : list Z :=
  (fun i => le_decode (slice m (4 * Z.of_nat i) 4)) <$> seq 0 16.

Lemma ctx_get_ok m i :
  zlen m = MAX_STATE_LEN -> 0 <= i < 16 -> ctx_get m i = Some (le_decode (slice m (4 * i) 4)).
Proof. intros. unfold ctx_get. by rewrite mread_ok by clia. Qed.

Lemma ctx_words_lookup m i :
  (i < 16)%nat -> ctx_words m !! i = Some (le_decode (slice m (4 * Z.of_nat i) 4)).
Proof. intros. unfold ctx_words. rewrite list_lookup_fmap, lookup_seq_lt by done. done. Qed.

Lemma ctx_set_ok m i v :
  zlen m = MAX_STATE_LEN -> 0 <= i < 16 -> in_u32 v ->
  exists m', ctx_set m i v = Some m' /\ zlen m' = MAX_STATE_LEN /\
    ctx_words m' = <[Z.to_nat i := v]> (ctx_words m).
Proof.
  intros Hm Hi Hv. unfold ctx_set.
  assert (zlen (le_encode 4 v) = 4) as Hl by apply zlen_le_encode.
  destruct (mwrite_step m (4 * i) (le_encode 4 v)) as (m' & E & Hm' & Hs & Hf); [clia..|].
  exists m'. split; [done|]. split; [congruence|]. rewrite Hl in *.
  apply list_eq. intros n. destruct (decide (n < 16)%nat) as [Hn|Hn].
  - rewrite ctx_words_lookup by done. destruct (decide (n = Z.to_nat i)) as [->|Hne].
    + rewrite list_lookup_insert_eq by (unfold ctx_words; by rewrite length_fmap).
      rewrite Z2Nat.id, Hs, le_decode_encode by lia. f_equal. by apply Z.mod_small.
    + rewrite list_lookup_insert_ne, ctx_words_lookup by done. by rewrite Hf by lia.
  - rewrite !lookup_ge_None_2; rewrite ?length_insert; unfold ctx_words;
      rewrite ?length_fmap, ?length_seq; lia || done.
Qed.

Lemma load_U8TO32_ok p off :
  0 <= off -> off + 4 <= zlen p ->
  load_U8TO32_LITTLE p off = Some (le_decode (slice p off 4)) /\
  in_u32 (le_decode (slice p off 4)).
Proof.
  intros. unfold load_U8TO32_LITTLE. rewrite mread_ok by lia. cbn [mbind option_bind].
  pose proof (zlen_slice p off 4 ltac:(lia) ltac:(lia) ltac:(lia)) as Hl.
  pose proof (le_decode_range (slice p off 4)) as Hr. rewrite Hl in Hr. unfold zlen in Hl.
  destruct (slice p off 4) as [|a [|b [|c [|d [|]]]]]; try (cbn in Hl; lia).
  rewrite U8TO32_LITTLE_decode. done.
Qed.

Lemma set_input_ok x i p off :
  zlen x = MAX_STATE_LEN -> 0 <= i < 16 -> 0 <= off -> off + 4 <= zlen p ->
  exists x', set_input x i p off = Some x' /\ zlen x' = MAX_STATE_LEN /\
    ctx_words x' = <[Z.to_nat i := le_decode (slice p off 4)]> (ctx_words x).
Proof.
  intros Hx Hi Ho Hp. unfold set_input. destruct (load_U8TO32_ok p off Ho Hp) as [E Hv].
  rewrite E. cbn [mbind option_bind]. by apply ctx_set_ok.
Qed.

(** The state object holds the key [k], at any block counter. *)
Definition merged_holds (k m : list byte) : Prop := exists c, ctx_words m = key_words k c.

(** Follow one store of the setup code. *)
Ltac setup_step :=
  match goal with
  | |- context [set_input ?x ?i ?p ?o] =>
      let x' := fresh "x" in let E := fresh "E" in let L := fresh "L" in
      let W := fresh "W" in
      destruct (set_input_ok x i p o) as (x' & E & L & W);
        [assumption|lia|lia|first [lia | vm_compute; congruence]|];
      rewrite E; cbn [mbind option_bind]
  | |- context [ctx_set ?x ?i ?v] =>
      let x' := fresh "x" in let E := fresh "E" in let L := fresh "L" in
      let W := fresh "W" in
      destruct (ctx_set_ok x i v) as (x' & E & L & W);
        [assumption|lia|unfold in_u32; lia|];
      rewrite E; cbn [mbind option_bind]
  end.

Lemma merged_setup_words m bs :
  zlen m = MAX_STATE_LEN -> 40 <= zlen bs ->
  exists m', chacha_merged_state_setup m bs = Some m' /\ zlen m' = MAX_STATE_LEN /\
    ctx_words m' = key_words (slice bs 0 40) 0.
Proof.
  intros Hm Hbs. unfold chacha_merged_state_setup, ECRYPT_keysetup.
  do 12 setup_step. unfold ECRYPT_ivsetup. do 4 setup_step.
  eexists. split; [done|]. split; [done|]. unfold key_words.
  rewrite !slice_slice by lia. change 32 with (4 * Z.of_nat 8) at 1.
  change (slice bs (0 + 32) 8) with (slice bs 32 (4 * Z.of_nat 2)).
  rewrite !unpack_slice by lia. repeat match goal with H : ctx_words _ = _ |- _ => rewrite H; clear H end.
  reflexivity.
Qed.

Lemma merged_setup_ok m bs :
  zlen m = MAX_STATE_LEN -> 40 <= zlen bs ->
  exists m', chacha_merged_state_setup m bs = Some m' /\ zlen m' = MAX_STATE_LEN /\
    merged_holds (slice bs 0 40) m'.
Proof.
  intros Hm Hbs. destruct (merged_setup_words m bs Hm Hbs) as (m' & E & Hm' & Hw).
  exists m'. split; [done|]. split; [done|]. by exists 0.
Qed.

Lemma words_get k c m i :
  zlen m = MAX_STATE_LEN -> ctx_words m = key_words k c -> 0 <= i < 16 ->
  ctx_get m i = Some (key_words k c !!! Z.to_nat i).
Proof.
  intros Hm Hw Hi. rewrite ctx_get_ok by done. f_equal. rewrite <-Hw. symmetry.
  apply list_lookup_total_correct. rewrite ctx_words_lookup by lia.
  by rewrite Z2Nat.id by lia.
Qed.

(** Any 16 words are the locals loaded from them. *)
Lemma regs_of_words l :
  length l = 16%nat ->
  regs_list (mk_regs (l !!! 0%nat) (l !!! 1%nat) (l !!! 2%nat) (l !!! 3%nat)
    (l !!! 4%nat) (l !!! 5%nat) (l !!! 6%nat) (l !!! 7%nat)
    (l !!! 8%nat) (l !!! 9%nat) (l !!! 10%nat) (l !!! 11%nat)
    (l !!! 12%nat) (l !!! 13%nat) (l !!! 14%nat) (l !!! 15%nat)) = l.
Proof. intros H. do 16 (destruct l as [|? l]; [discriminate|]). by destruct l. Qed.

(** What [generate] for [2 * h] rounds writes from call number [idx]. *)
Definition merged_out (rounds : nat) (k : list byte) (idx : Z) : list byte :=
  keystream rounds k (u32 (idx * IDX_STEP)) (Z.to_nat IDX_STEP).

(** A multiple of 16 below 2^32 leaves room for 16 more blocks. *)
Lemma block_position_room idx : u32 (idx * IDX_STEP) + 16 <= 2 ^ 32.
Proof.
  unfold u32, IDX_STEP. change (2 ^ 32) with (268435456 * 16) at 1.
  rewrite Z.mul_mod_distr_r by lia. pose proof (Z.mod_pos_bound idx 268435456). lia.
Qed.

Lemma merged_out_zlen rounds k idx :
  zlen k = STATE_BYTES -> zlen (merged_out rounds k idx) = OUTPUT_LEN.
Proof.
  intros Hk. pose proof (block_position_room idx). unfold merged_out.
  rewrite keystream_zlen; [done|done| |].
  - unfold u32. apply Z.mod_pos_bound. lia.
  - done.
Qed.

Lemma merged_generate_ok h k m out idx :
  2 * Z.of_nat h < 2 ^ 32 -> zlen k = STATE_BYTES -> merged_holds k m ->
  zlen m = MAX_STATE_LEN -> OUTPUT_LEN <= zlen out ->
  exists m', chacha_merged_generate (2 * Z.of_nat h) m out idx =
      Some (m', splice out 0 (merged_out (2 * h) k idx)) /\
    zlen m' = MAX_STATE_LEN /\ merged_holds k m'.
Proof.
  intros Hh Hk [c0 Hc] Hm Hout. unfold chacha_merged_generate.
  set (c := u32 (idx * IDX_STEP)). assert (in_u32 c) as Hcu by apply in_u32_u32.
  destruct (ctx_set_ok m 12 c) as (m' & E & Hm' & Hw); [done|lia|done|].
  rewrite E. cbn [mbind option_bind]. change (Z.to_nat 12) with 12%nat in Hw.
  rewrite Hc, key_words_counter in Hw by done.
  exists m'. split; [|split; [done|by exists c]]. unfold chacha_merged_getblocks.
  do 16 (erewrite words_get by first [eassumption | lia]; cbn [mbind option_bind]).
  match goal with |- context [block_loop _ _ ?j _ _] =>
    assert (regs_list j = key_words k (u32 c)) as Hj end.
  { rewrite u32_small by done. apply regs_of_words. by apply length_key_words. }
  rewrite (block_loop_ref h _ _ c k); [done|done|done|apply Hcu| |done|lia|exact Hout].
  exact (block_position_room idx).
Qed.

(** ** The PRF interface *)

Lemma merged_spec_setup m bs :
  zlen m = MAX_STATE_LEN -> STATE_BYTES <= zlen bs ->
  exists m', chacha_merged_state_setup m bs = Some m' /\ zlen m' = MAX_STATE_LEN /\
    merged_holds (slice bs 0 STATE_BYTES) m'.
Proof. apply merged_setup_ok. Qed.

#[export] Instance merged8_spec : PrfSpec ottery_prf_chacha8_merged_ := {
  prf_out := merged_out 8;
  prf_holds := merged_holds;
  prf_out_len := merged_out_zlen 8;
  prf_setup_ok := merged_spec_setup;
  prf_generate_ok k m out i Hk Hh Hm Ho _ :=
    merged_generate_ok 4 k m out i ltac:(done) Hk Hh Hm Ho }.

#[export] Instance merged12_spec : PrfSpec ottery_prf_chacha12_merged_ := {
  prf_out := merged_out 12;
  prf_holds := merged_holds;
  prf_out_len := merged_out_zlen 12;
  prf_setup_ok := merged_spec_setup;
  prf_generate_ok k m out i Hk Hh Hm Ho _ :=
    merged_generate_ok 6 k m out i ltac:(done) Hk Hh Hm Ho }.

#[export] Instance merged20_spec : PrfSpec ottery_prf_chacha20_merged_ := {
  prf_out := merged_out 20;
  prf_holds := merged_holds;
  prf_out_len := merged_out_zlen 20;
  prf_setup_ok := merged_spec_setup;
  prf_generate_ok k m out i Hk Hh Hm Ho _ :=
    merged_generate_ok 10 k m out i ltac:(done) Hk Hh Hm Ho }.

#[export] Instance merged8_sizes : PrfSizes ottery_prf_chacha8_merged_.
Proof. split; done. Qed.
#[export] Instance merged12_sizes : PrfSizes ottery_prf_chacha12_merged_.
Proof. split; done. Qed.
#[export] Instance merged20_sizes : PrfSizes ottery_prf_chacha20_merged_.
Proof. split; done. Qed.

(** ** The properties *)

(** C16: [chacha_merged_state_setup] followed by any [generate] call of an even
    number of rounds writes at the start of the output buffer exactly the 16
    blocks of reference ChaCha under the 32-byte key and 8-byte nonce it was
    given, from block [16 * idx] (32-bit), nothing past them, and leaves the
    state ready for the next call. *)
Theorem merged_computes_chacha h m bs out idx :
  2 * Z.of_nat h < 2 ^ 32 -> zlen m = MAX_STATE_LEN -> STATE_BYTES <= zlen bs ->
  OUTPUT_LEN <= zlen out ->
  exists m1 m2, chacha_merged_state_setup m bs = Some m1 /\
    chacha_merged_generate (2 * Z.of_nat h) m1 out idx =
      Some (m2, splice out 0 (keystream (2 * h) (slice bs 0 40) (u32 (idx * 16)) 16)) /\
    merged_holds (slice bs 0 40) m2.
Proof.
  intros Hh Hm Hbs Hout. destruct (merged_setup_ok m bs Hm Hbs) as (m1 & E1 & L1 & H1).
  assert (zlen (slice bs 0 40) = STATE_BYTES) as Hk
    by (unfold STATE_BYTES in *; apply zlen_slice; lia).
  destruct (merged_generate_ok h (slice bs 0 40) m1 out idx Hh Hk H1 L1 Hout)
    as (m2 & E2 & _ & H2).
  exists m1, m2. split_and!; [done|exact E2|done].
Qed.

Lemma merged_computes_chacha_witness :
  exists m1 m2, chacha_merged_state_setup (zeros MAX_STATE_LEN) (zeros 40) = Some m1 /\
    chacha_merged_generate 20 m1 (zeros 1024) 3 =
      Some (m2, splice (zeros 1024) 0 (keystream 20 (slice (zeros 40) 0 40) (u32 (3 * 16)) 16)) /\
    merged_holds (slice (zeros 40) 0 40) m2.
Proof.
  apply (merged_computes_chacha 10); [reflexivity|reflexivity|vm_compute; discriminate..].
Defined.

(** [idx * IDX_STEP] wraps at 32 bits, so calls 2^28 apart under one key
    write the same block: a single request of 2^28 blocks (256 GiB), which
    never stirs, repeats its keystream. *)
Theorem merged_generate_repeats h k m out idx :
  2 * Z.of_nat h < 2 ^ 32 -> zlen k = STATE_BYTES -> merged_holds k m ->
  zlen m = MAX_STATE_LEN -> OUTPUT_LEN <= zlen out ->
  snd <$> chacha_merged_generate (2 * Z.of_nat h) m out (idx + 2 ^ 28) =
    snd <$> chacha_merged_generate (2 * Z.of_nat h) m out idx.
Proof.
  intros Hh Hk Hm Hl Ho.
  destruct (merged_generate_ok h k m out idx Hh Hk Hm Hl Ho) as (m1 & E1 & _).
  destruct (merged_generate_ok h k m out (idx + 2 ^ 28) Hh Hk Hm Hl Ho) as (m2 & E2 & _).
  rewrite E1, E2. cbn [fmap option_fmap option_map snd]. unfold merged_out.
  replace (u32 ((idx + 2 ^ 28) * IDX_STEP)) with (u32 (idx * IDX_STEP)); [done|].
  unfold u32, IDX_STEP. replace ((idx + 2 ^ 28) * 16) with (idx * 16 + 1 * 2 ^ 32) by lia.
  by rewrite Z.mod_add.
Qed.

(** A state that holds the all-zero key. *)
Definition zero_ctx : list byte :=
  default [] (chacha_merged_state_setup (zeros MAX_STATE_LEN) (zeros 40)).

Lemma merged_generate_repeats_witness :
  snd <$> chacha_merged_generate 8 zero_ctx (zeros 1024) (1 + 2 ^ 28) =
    snd <$> chacha_merged_generate 8 zero_ctx (zeros 1024) 1.
Proof.
  apply (merged_generate_repeats 4 (zeros 40)); [reflexivity|reflexivity| |
    vm_compute; reflexivity|vm_compute; discriminate].
  exists 0. vm_compute. reflexivity.
Defined.

(** C36: what the cipher reads with U8TO32_LITTLE it writes back with
    U32TO8_LITTLE: storing the sixteen words of the context that key and nonce
    setup made gives the constants, the 32 key bytes, a zero counter and the 8
    nonce bytes that were loaded; so different keys or nonces never make the
    same context. *)
Theorem merged_key_roundtrip m bs :
  zlen m = MAX_STATE_LEN -> STATE_BYTES <= zlen bs ->
  exists m', chacha_merged_state_setup m bs = Some m' /\
    store_words (zeros 64) 0 (ctx_words m') =
      Some (sigma ++ slice bs 0 32 ++ zeros 8 ++ slice bs 32 8).
Proof.
  intros Hm Hbs. unfold STATE_BYTES in Hbs.
  destruct (merged_setup_words m bs Hm Hbs) as (m' & E & _ & Hw). exists m'. split; [exact E|].
  pose proof (zlen_slice bs 0 40 ltac:(lia) ltac:(lia) ltac:(lia)) as Hk.
  rewrite Hw, store_words_ok; [|lia|unfold zlen at 1; rewrite length_key_words by done; vm_compute; discriminate].
  assert (pack (key_words (slice bs 0 40) 0) = sigma ++ slice bs 0 32 ++ zeros 8 ++ slice bs 32 8) as Hp.
  { unfold key_words. rewrite !slice_slice by lia.
    change (0 :: 0 :: unpack (slice bs (0 + 32) 8)) with ([0; 0] ++ unpack (slice bs (0 + 32) 8)).
    rewrite !pack_app, !pack_unpack; [by rewrite <-app_assoc|..].
    - exists 2%nat. apply Nat2Z.inj. fold (zlen (slice bs (0 + 32) 8)). rewrite zlen_slice; lia.
    - exists 8%nat. apply Nat2Z.inj. fold (zlen (slice bs (0 + 0) 32)). rewrite zlen_slice; lia.
    - by exists 4%nat. }
  rewrite Hp. f_equal. apply splice_all. rewrite !zlen_app, !zlen_slice by lia. reflexivity.
Qed.

Lemma merged_key_roundtrip_witness :
  exists m', chacha_merged_state_setup (zeros MAX_STATE_LEN) (zeros 40) = Some m' /\
    store_words (zeros 64) 0 (ctx_words m') =
      Some (sigma ++ slice (zeros 40) 0 32 ++ zeros 8 ++ slice (zeros 40) 32 8).
Proof. apply merged_key_roundtrip; [reflexivity|vm_compute; discriminate]. Defined.
