(* ===== verification/Ecrypt.v ===== *)
(** * Byte order in src/chacha_merged_ecrypt.h

    The header has three forms of the macros that load and store little-endian
    words: a plain access on a little-endian machine, an access and [SWAP32] on
    a big-endian one, and shifts of bytes where the byte order is unknown. The
    cipher of ChaChaMerged.v uses the third, which is the one the header selects:
    it looks at the macros for the byte order before it defines them from the
    architecture, so unless the command line defines them they are unset. Here
    all three are shown to be the same where they apply, so that the choice does
    not change the stream. *)
From S2P Require Import Prelude Words Memory Internal ChaChaRef ChaChaMerged.
Local Open Scope Z_scope.

(** Which macro is defined where the header looks. *)
Inductive ecrypt_order := ECRYPT_LITTLE_ENDIAN | ECRYPT_BIG_ENDIAN | ECRYPT_UNKNOWN.

(** The predefined macros the header tells architectures by. *)
Inductive arch_macro :=
  | Ultrix | Alpha | I386 | I386_ | X86_64 | M_IX86 | MSC_VER | INTEL_COMPILER
  | Sparc | PowerPC | Ppc | Hppa | AIX | Aux | Dgux | Sgi.

(** Its choice, for the first of them that is defined. *)
Definition ecrypt_detect (a : option arch_macro) : ecrypt_order :=
  match a with
  | Some (Ultrix | Alpha | I386 | I386_ | X86_64 | M_IX86 | MSC_VER | INTEL_COMPILER) =>
      ECRYPT_LITTLE_ENDIAN
  | Some (Sparc | PowerPC | Ppc | Hppa) => ECRYPT_BIG_ENDIAN
  | Some (AIX | Aux | Dgux | Sgi) | None => ECRYPT_UNKNOWN
  end.

Definition SWAP32 (v : Z) : Z :=
  Z.lor (Z.land (ROTL32 v 8) 0x00FF00FF) (Z.land (ROTL32 v 24) 0xFF00FF00).

(** Undefined in the unknown case. *)
Definition U32TO32_LITTLE (e : ecrypt_order) : option (Z -> Z) :=
  match e with
  | ECRYPT_LITTLE_ENDIAN => Some (fun v => v)
  | ECRYPT_BIG_ENDIAN => Some SWAP32
  | ECRYPT_UNKNOWN => None
  end.

(** An access to a [u32] object, on a machine that stores the high byte first
    ([big]) or last. *)
Definition native_load (big : bool) (p : list byte) : Z := le_decode (if big then rev p else p).

Definition native_store (big : bool) (v : Z) : list byte :=
  if big then rev (le_encode 4 v) else le_encode 4 v.

(** [U8TO32_LITTLE(p)] and [U32TO8_LITTLE(p, v)] in the form [e] selects. *)
Definition U8TO32_LITTLE_as (e : ecrypt_order) (big : bool) (p0 p1 p2 p3 : byte) : Z :=
  match U32TO32_LITTLE e with
  | Some f => f (native_load big [p0; p1; p2; p3])
  | None => U8TO32_LITTLE p0 p1 p2 p3
  end.

Definition U32TO8_LITTLE_as (e : ecrypt_order) (big : bool) (v : Z) : list byte :=
  match U32TO32_LITTLE e with
  | Some f => native_store big (f v)
  | None => U32TO8_LITTLE v
  end.

(** A form that fits the machine. *)
Definition fits (e : ecrypt_order) (big : bool) : bool :=
  match e with
  | ECRYPT_LITTLE_ENDIAN => negb big
  | ECRYPT_BIG_ENDIAN => big
  | ECRYPT_UNKNOWN => true
  end.

(** ** Lemmas *)

(** The bytes of a word, from the lowest. *)
Lemma testbit_le_decode bs i :
  0 <= i -> Z.testbit (le_decode bs) i = Z.testbit (Z_of_byte (nth (Z.to_nat (i / 8)) bs x00)) (i mod 8).
Proof.
  revert i. induction bs as [|b bs IH]; intros i Hi; cbn [le_decode].
  { destruct (Z.to_nat (i / 8)); cbn [nth]; change (Z_of_byte x00) with 0; by rewrite !Z.bits_0. }
  pose proof (Z_of_byte_range b) as Hb. rewrite Z.add_comm, (Z.mul_comm (2 ^ 8)).
  destruct (Z.lt_ge_cases i 8) as [Hlt|Hge].
  - rewrite Z.div_small, Z.mod_small by lia. cbn [Z.to_nat nth].
    rewrite <- (Z.mod_pow2_bits_low _ 8) by lia. f_equal.
    rewrite Z.add_comm, Z.mod_add by lia. by apply Z.mod_small.
  - replace i with (i - 8 + 8) at 1 by lia. rewrite <- Z.div_pow2_bits by lia.
    rewrite Z.div_add_l, Z.div_small, Z.add_0_r, IH by lia.
    assert (i / 8 = (i - 8) / 8 + 1) as -> by (rewrite <- Z.div_add by lia; f_equal; lia).
    pose proof (Z.div_pos (i - 8) 8). rewrite Z2Nat.inj_add by lia.
    assert (i mod 8 = (i - 8) mod 8) as -> by (rewrite <- (Z.mod_add (i - 8) 1 8) by lia; f_equal; lia).
    by rewrite Nat.add_comm.
Qed.

Lemma ROTL32_testbit v n i :
  in_u32 v -> 0 < n < 32 -> 0 <= i < 32 ->
  Z.testbit (ROTL32 v n) i = Z.testbit v ((i - n) mod 32).
Proof.
  intros Hv Hn Hi. unfold ROTL32. rewrite U32V_u32, u32_idemp. unfold u32.
  rewrite Z.lor_spec, Z.mod_pow2_bits_low, Z.shiftl_spec, Z.shiftr_spec by lia.
  destruct (Z.lt_ge_cases i n) as [Hlt|Hge].
  - rewrite (Z.testbit_neg_r v (i - n)) by lia. rewrite orb_false_l. f_equal.
    rewrite <- (Z.mod_add (i - n) 1 32), Z.mod_small by lia. lia.
  - rewrite (testbit_high v 32 (i + _)) by (done || lia). rewrite orb_false_r, Z.mod_small by lia. done.
Qed.

(** Swapping reads the bytes from the other end. *)
Lemma SWAP32_decode p0 p1 p2 p3 :
  SWAP32 (le_decode [p3; p2; p1; p0]) = le_decode [p0; p1; p2; p3].
Proof.
  pose proof (le_decode_range [p3; p2; p1; p0]) as Hv.
  pose proof (le_decode_range [p0; p1; p2; p3]) as Hw.
  change (8 * zlen _) with 32 in Hv, Hw. apply Z.bits_inj'. intros i Hi.
  destruct (Z.lt_ge_cases i 32) as [Hlt|Hge].
  - unfold SWAP32. rewrite Z.lor_spec, !Z.land_spec, !ROTL32_testbit by (done || lia).
    rewrite !testbit_le_decode by (try apply Z.mod_pos_bound; lia).
    assert (In i (seqZ 0 32)) as Hin by (apply list_elem_of_In, elem_of_seqZ; lia).
    set (bit := fun b k => Z.testbit (Z_of_byte b) k).
    repeat change (Z.testbit (Z_of_byte ?b) ?k) with (bit b k). clearbody bit. clear Hv Hw Hi Hlt.
    cbn in Hin. repeat destruct Hin as [<-|Hin]; try done; vm_compute; by repeat destruct (bit _ _).
  - rewrite (testbit_high (le_decode _) 32) by (done || lia).
    unfold SWAP32. rewrite Z.lor_spec, !Z.land_spec.
    rewrite (testbit_high 0x00FF00FF 32), (testbit_high 0xFF00FF00 32) by lia.
    by rewrite !andb_false_r.
Qed.

(** ** The forms agree *)

(** Whatever form of the byte-order macros fits the machine, loading and storing
    a word is what the shifts of bytes do, so that the cipher's stream is the
    same on every machine. *)
Theorem word_access_portable e big p0 p1 p2 p3 v :
  fits e big = true -> in_u32 v ->
  U8TO32_LITTLE_as e big p0 p1 p2 p3 = U8TO32_LITTLE p0 p1 p2 p3 /\
  U32TO8_LITTLE_as e big v = U32TO8_LITTLE v.
Proof.
  intros Hf Hv. rewrite U8TO32_LITTLE_decode, U32TO8_LITTLE_encode.
  unfold U8TO32_LITTLE_as, U32TO8_LITTLE_as. destruct e; cbn [U32TO32_LITTLE].
  - by destruct big.
  - destruct big; [|done]. cbn [native_load native_store rev app]. split; [apply SWAP32_decode|].
    rewrite <- (u32_small v Hv), <- (le_decode_encode 4 v) at 1.
    destruct (le_encode 4 v) as [|a [|b [|c [|d [|]]]]] eqn:E;
      try (apply (f_equal length) in E; rewrite length_le_encode in E; discriminate E).
    rewrite SWAP32_decode. change 4%nat with (length [d; c; b; a]). by rewrite le_encode_decode.
  - by rewrite U8TO32_LITTLE_decode, U32TO8_LITTLE_encode.
Qed.

Lemma word_access_portable_witness :
  (fits ECRYPT_BIG_ENDIAN true = true /\ in_u32 0x01020304) /\
  U8TO32_LITTLE_as ECRYPT_BIG_ENDIAN true x01 x02 x03 x04 = U8TO32_LITTLE x01 x02 x03 x04 /\
  U32TO8_LITTLE_as ECRYPT_BIG_ENDIAN true 0x01020304 = U32TO8_LITTLE 0x01020304.
Proof.
  assert (in_u32 0x01020304) as H by (unfold in_u32; lia).
  split; [by split|]. by apply (word_access_portable ECRYPT_BIG_ENDIAN true).
Defined.
