(* ===== verification/ChaChaKrovetz.v ===== *)
(** * The vector ChaCha PRF: src/chacha_krovetz.c

    The 16-byte vectors and the intrinsics the file uses on SSE2, SSSE3 and
    Neon, the block loop for every (VBPI, GPR_TOO) it is compiled with, and the
    [struct ottery_prf] values; then the proof that every variant computes the
    reference blocks and implements the PRF interface. AltiVec is not modelled:
    the file refuses to compile there. *)
From S2P Require Import Prelude Words Memory Internal ChaChaRef ChaChaMerged.
Local Open Scope Z_scope.

(** ** Definitions: compilation targets *)

(** The preprocessor branches: the architecture, the compiler, and whether
    [__SSSE3__] is defined. *)
Inductive target := NEON (clang : bool) | SSE2 (clang ssse3 : bool).

Definition GPR_TOO (t : target) : nat :=
  match t with NEON _ => 1 | SSE2 _ _ => 0 end.

Definition VBPI (t : target) : nat :=
  match t with NEON _ => 2 | SSE2 true _ => 4 | SSE2 false _ => 3 end.

(** Blocks computed per loop iteration. *)
Definition BPI (t : target) : nat := VBPI t + GPR_TOO t.

(** ** Definitions: vectors of four 32-bit words *)

Record vec := mk_vec { l0 : Z; l1 : Z; l2 : Z; l3 : Z }.

Definition lanes (x : vec) : list Z := [l0 x; l1 x; l2 x; l3 x].

Definition vmap (f : Z -> Z) (x : vec) : vec :=
  mk_vec (f (l0 x)) (f (l1 x)) (f (l2 x)) (f (l3 x)).

Definition vmap2 (f : Z -> Z -> Z) (x y : vec) : vec :=
  mk_vec (f (l0 x) (l0 y)) (f (l1 x) (l1 y)) (f (l2 x) (l2 y)) (f (l3 x) (l3 y)).

(** The operators [+] and [^] on vectors. *)
Definition vadd : vec -> vec -> vec := vmap2 (fun a b => u32 (a + b)).
Definition vxor : vec -> vec -> vec := vmap2 Z.lxor.

(** Loads and stores, on a little-endian machine. *)
Definition vec_load (m : list byte) (off : Z) : option vec :=
  bs ← mread m off 16;
  Some (mk_vec (le_decode (slice bs 0 4)) (le_decode (slice bs 4 4))
               (le_decode (slice bs 8 4)) (le_decode (slice bs 12 4))).

Definition vec_store (m : list byte) (off : Z) (x : vec) : option (list byte) :=
  mwrite m off (pack (lanes x)).

(** SSE2 and SSSE3 intrinsics. *)
Definition mm_slli_epi32 (x : vec) (n : Z) : vec := vmap (fun a => u32 (Z.shiftl a n)) x.
Definition mm_srli_epi32 (x : vec) (n : Z) : vec := vmap (fun a => Z.shiftr a n) x.

Definition MM_SHUFFLE (z y x w : Z) : Z :=
  Z.lor (Z.lor (Z.shiftl z 6) (Z.shiftl y 4)) (Z.lor (Z.shiftl x 2) w).

Definition lane (x : vec) (i : Z) : Z := nth (Z.to_nat i) (lanes x) 0.

Definition mm_shuffle_epi32 (x : vec) (imm : Z) : vec :=
  mk_vec (lane x (Z.land imm 3)) (lane x (Z.land (Z.shiftr imm 2) 3))
         (lane x (Z.land (Z.shiftr imm 4) 3)) (lane x (Z.land (Z.shiftr imm 6) 3)).

(** [_mm_set_epi8] lists its bytes from the highest. *)
Definition mm_set_epi8 (e15 e14 e13 e12 e11 e10 e9 e8 e7 e6 e5 e4 e3 e2 e1 e0 : Z) : list Z :=
  [e0; e1; e2; e3; e4; e5; e6; e7; e8; e9; e10; e11; e12; e13; e14; e15].

Definition shuffle_byte (bs : list byte) (e : Z) : byte :=
  if Z.testbit e 7 then x00 else nth (Z.to_nat (Z.land e 15)) bs x00.

Definition mm_shuffle_epi8 (x : vec) (mask : list Z) : vec :=
  let bs := shuffle_byte (pack (lanes x)) <$> mask in
  mk_vec (le_decode (slice bs 0 4)) (le_decode (slice bs 4 4))
         (le_decode (slice bs 8 4)) (le_decode (slice bs 12 4)).

(** Neon intrinsics. *)
Definition vextq_u32 (x y : vec) (n : nat) : vec :=
  let l := drop n (lanes x ++ lanes y) in
  mk_vec (nth 0 l 0) (nth 1 l 0) (nth 2 l 0) (nth 3 l 0).

Definition vrev32q_u16 (x : vec) : vec :=
  vmap (fun a => Z.lor (Z.shiftl (Z.land a 0xffff) 16) (Z.shiftr a 16)) x.

Definition vshlq_n_u32 (x : vec) (n : Z) : vec := vmap (fun a => u32 (Z.shiftl a n)) x.

(** Shift right and insert: the high [n] bits of [x] stay. *)
Definition vsriq_n_u32 (x y : vec) (n : Z) : vec :=
  vmap2 (fun a b => Z.lor (Z.ldiff a (Z.shiftr 0xffffffff n)) (Z.shiftr b n)) x y.

(** [(x << n) ^ (x >> (32 - n))] on vectors. *)
Definition shift_xor (x : vec) (n : Z) : vec :=
  vxor (mm_slli_epi32 x n) (mm_srli_epi32 x (32 - n)).

(** ** Definitions: the per-target macros *)

Definition ONE : vec := mk_vec 1 0 0 0.

(** [NONCE(ctr, p)]: the counter, 64 bits wide, then the two nonce words. *)
Definition NONCE (ctr : Z) (m : list byte) (off : Z) : option vec :=
  bs ← mread m off 8;
  Some (mk_vec (u32 ctr) (Z.shiftr ctr 32) (le_decode (slice bs 0 4)) (le_decode (slice bs 4 4))).

Definition ROTV1 (t : target) (x : vec) : vec :=
  match t with
  | NEON _ => vextq_u32 x x 1
  | SSE2 _ _ => mm_shuffle_epi32 x (MM_SHUFFLE 0 3 2 1)
  end.

Definition ROTV2 (t : target) (x : vec) : vec :=
  match t with
  | NEON _ => vextq_u32 x x 2
  | SSE2 _ _ => mm_shuffle_epi32 x (MM_SHUFFLE 1 0 3 2)
  end.

Definition ROTV3 (t : target) (x : vec) : vec :=
  match t with
  | NEON _ => vextq_u32 x x 3
  | SSE2 _ _ => mm_shuffle_epi32 x (MM_SHUFFLE 2 1 0 3)
  end.

Definition ROTW16 (t : target) (x : vec) : vec :=
  match t with
  | NEON _ => vrev32q_u16 x
  | SSE2 _ true => mm_shuffle_epi8 x (mm_set_epi8 13 12 15 14 9 8 11 10 5 4 7 6 1 0 3 2)
  | SSE2 _ false => shift_xor x 16
  end.

Definition ROTW12 (t : target) (x : vec) : vec :=
  match t with
  | NEON true => shift_xor x 12
  | NEON false => vsriq_n_u32 (vshlq_n_u32 x 12) x 20
  | SSE2 _ _ => shift_xor x 12
  end.

Definition ROTW8 (t : target) (x : vec) : vec :=
  match t with
  | NEON true => shift_xor x 8
  | NEON false => vsriq_n_u32 (vshlq_n_u32 x 8) x 24
  | SSE2 _ true => mm_shuffle_epi8 x (mm_set_epi8 14 13 12 15 10 9 8 11 6 5 4 7 2 1 0 3)
  | SSE2 _ false => shift_xor x 8
  end.

Definition ROTW7 (t : target) (x : vec) : vec :=
  match t with
  | NEON true => shift_xor x 7
  | NEON false => vsriq_n_u32 (vshlq_n_u32 x 7) x 25
  | SSE2 _ _ => shift_xor x 7
  end.

(** ** Definitions: rounds *)

(** Four vectors [va, vb, vc, vd]: the variables of one block. *)
Record quad := mk_quad { qa : vec; qb : vec; qc : vec; qd : vec }.

Definition DQROUND_VECTORS (t : target) (q : quad) : quad :=
  let '(mk_quad a b c d) := q in
  let a := vadd a b in let d := vxor d a in let d := ROTW16 t d in
  let c := vadd c d in let b := vxor b c in let b := ROTW12 t b in
  let a := vadd a b in let d := vxor d a in let d := ROTW8 t d in
  let c := vadd c d in let b := vxor b c in let b := ROTW7 t b in
  let b := ROTV1 t b in let c := ROTV2 t c in let d := ROTV3 t d in
  let a := vadd a b in let d := vxor d a in let d := ROTW16 t d in
  let c := vadd c d in let b := vxor b c in let b := ROTW12 t b in
  let a := vadd a b in let d := vxor d a in let d := ROTW8 t d in
  let c := vadd c d in let b := vxor b c in let b := ROTW7 t b in
  let b := ROTV3 t b in let c := ROTV2 t c in let d := ROTV1 t d in
  mk_quad a b c d.

(** [d << n | d >> (32 - n)] on [unsigned]. *)
Definition rotate_word (d n : Z) : Z := Z.lor (u32 (Z.shiftl d n)) (Z.shiftr d (32 - n)).

Definition QROUND_WORDS (a b c d : Z) : Z * Z * Z * Z :=
  let a := u32 (a + b) in let d := rotate_word (Z.lxor d a) 16 in
  let c := u32 (c + d) in let b := rotate_word (Z.lxor b c) 12 in
  let a := u32 (a + b) in let d := rotate_word (Z.lxor d a) 8 in
  let c := u32 (c + d) in let b := rotate_word (Z.lxor b c) 7 in
  (a, b, c, d).

(** The general-purpose-register block: the eight [QROUND_WORDS] of one turn. *)
Definition dround_words (r : regs) : regs :=
  let '(mk_regs x0 x1 x2 x3 x4 x5 x6 x7 x8 x9 x10 x11 x12 x13 x14 x15) := r in
  let '(x0, x4, x8, x12) := QROUND_WORDS x0 x4 x8 x12 in
  let '(x1, x5, x9, x13) := QROUND_WORDS x1 x5 x9 x13 in
  let '(x2, x6, x10, x14) := QROUND_WORDS x2 x6 x10 x14 in
  let '(x3, x7, x11, x15) := QROUND_WORDS x3 x7 x11 x15 in
  let '(x0, x5, x10, x15) := QROUND_WORDS x0 x5 x10 x15 in
  let '(x1, x6, x11, x12) := QROUND_WORDS x1 x6 x11 x12 in
  let '(x2, x7, x8, x13) := QROUND_WORDS x2 x7 x8 x13 in
  let '(x3, x4, x9, x14) := QROUND_WORDS x3 x4 x9 x14 in
  mk_regs x0 x1 x2 x3 x4 x5 x6 x7 x8 x9 x10 x11 x12 x13 x14 x15.

(** [for (i = chacha_rounds/2; i; i--)] over the vector blocks and the word
    block (which only targets with [GPR_TOO] compute). *)
Fixpoint rounds_loop (t : target) (i : nat) (qs : list quad) (r : regs) : list quad * regs :=
  match i with
  | O => (qs, r)
  | S i => rounds_loop t i (DQROUND_VECTORS t <$> qs)
             (if GPR_TOO t is O then r else dround_words r)
  end.

(** [v0..v3], [v4..v7], ...: each block's [d] vector is one counter further. *)
Fixpoint start_blocks (n : nat) (s0 s1 s2 v3 : vec) : list quad :=
  match n with
  | O => []
  | S n => mk_quad s0 s1 s2 v3 :: start_blocks n s0 s1 s2 (vadd v3 ONE)
  end.

(** [WRITE(op, d, v0, v1, v2, v3)], [op] at byte [off]. *)
Definition WRITE (out : list byte) (off d : Z) (v0 v1 v2 v3 : vec) : option (list byte) :=
  out ← vec_store out (off + 4 * (d + 0)) v0;
  out ← vec_store out (off + 4 * (d + 4)) v1;
  out ← vec_store out (off + 4 * (d + 8)) v2;
  vec_store out (off + 4 * (d + 12)) v3.

(** The [WRITE]s of an iteration, each followed by [s3 += ONE]. *)
Fixpoint write_blocks (out : list byte) (off d : Z) (qs : list quad) (s0 s1 s2 s3 : vec)
  : option (list byte * vec) :=
  match qs with
  | [] => Some (out, s3)
  | q :: qs =>
      out ← WRITE out off d (vadd (qa q) s0) (vadd (qb q) s1) (vadd (qc q) s2) (vadd (qd q) s3);
      write_blocks out off (d + 16) qs s0 s1 s2 (vadd s3 ONE)
  end.

Definition chacha_const : list Z := [0x61707865; 0x3320646E; 0x79622D32; 0x6B206574].

(** The words of a 32-bit array in memory. *)
Definition word (m : list byte) (off i : Z) : option Z :=
  bs ← mread m (off + 4 * i) 4; Some (le_decode bs).

(** The word block's [x0 .. x15]; [kp] is at offset 0 of the state and [np] at
    offset 32. *)
Definition start_words (st : list byte) (x_ctr : Z) : option regs :=
  k0 ← word st 0 0; k1 ← word st 0 1; k2 ← word st 0 2; k3 ← word st 0 3;
  k4 ← word st 0 4; k5 ← word st 0 5; k6 ← word st 0 6; k7 ← word st 0 7;
  n0 ← word st 32 0; n1 ← word st 32 1;
  Some (mk_regs (nth 0 chacha_const 0) (nth 1 chacha_const 0)
                (nth 2 chacha_const 0) (nth 3 chacha_const 0)
                k0 k1 k2 k3 k4 k5 k6 k7
                (Z.land x_ctr 0xffffffff) (Z.shiftr x_ctr 32) n0 n1).

(** The loop over [j]: [n] iterations left, output at byte [off]. Targets
    without [GPR_TOO] do not use the word block [x]. *)
Fixpoint blocks_loop (t : target) (chacha_rounds : Z) (n : nat) (j block_idx : Z)
    (st : list byte) (s0 s1 s2 s3 : vec) (out : list byte) (off : Z)
  : option (list byte) :=
  match n with
  | O => Some out
  | S n =>
      let bpi := Z.of_nat (BPI t) in
      let vs := start_blocks (VBPI t) s0 s1 s2 s3 in
      let x_ctr := u32 (block_idx + bpi * j + (bpi - 1)) in
      x ← start_words st x_ctr;
      let '(vs, x') := rounds_loop t (Z.to_nat (chacha_rounds / 2)) vs x in
      '(out, s3) ← write_blocks out off 0 vs s0 s1 s2 s3;
      let off := off + 4 * (Z.of_nat (VBPI t) * 16) in
      match GPR_TOO t with
      | O => blocks_loop t chacha_rounds n (j + 1) block_idx st s0 s1 s2 s3 out off
      | S _ =>
          out ← store_words out off (add_regs x' x);
          blocks_loop t chacha_rounds n (j + 1) block_idx st s0 s1 s2 (vadd s3 ONE)
            out (off + 64)
      end
  end.

Definition LOOP_ITERATIONS : nat := 4.

Definition ottery_blocks_chacha_krovetz (t : target) (chacha_rounds : Z)
    (out : list byte) (block_idx : Z) (st : list byte) : option (list byte) :=
  s1 ← vec_load st 0;
  s2 ← vec_load st 16;
  s3 ← NONCE block_idx st 32;
  let s0 := mk_vec (nth 0 chacha_const 0) (nth 1 chacha_const 0)
                   (nth 2 chacha_const 0) (nth 3 chacha_const 0) in
  blocks_loop t chacha_rounds LOOP_ITERATIONS 0 block_idx st s0 s1 s2 s3 out 0.

(** ** Definitions: the PRFs *)

(** [sizeof(struct chacha_state_krovetz)]: 40 bytes aligned to 16. *)
Definition STATE_LEN : Z := 48.
Definition STATE_BYTES : Z := 40.
Definition IDX_STEP (t : target) : Z := Z.of_nat (BPI t * LOOP_ITERATIONS).
Definition OUTPUT_LEN (t : target) : Z := IDX_STEP t * 64.

Definition chacha_krovetz_state_setup (state bytes : list byte) : option (list byte) :=
  state ← memcpy state 0 bytes 0 32;
  memcpy state 32 bytes 32 8.

Definition chacha_krovetz_generate (t : target) (chacha_rounds : Z)
    (state output : list byte) (idx : Z) : option (list byte * list byte) :=
  out ← ottery_blocks_chacha_krovetz t chacha_rounds output (u32 (idx * IDX_STEP t)) state;
  Some (state, out).

Definition chacha8_krovetz_generate (t : target) := chacha_krovetz_generate t 8.
Definition chacha12_krovetz_generate (t : target) := chacha_krovetz_generate t 12.
Definition chacha20_krovetz_generate (t : target) := chacha_krovetz_generate t 20.

Definition has_ssse3 (t : target) : bool := if t is SSE2 _ true then true else false.

Definition NEED_CPUCAP (t : target) : Z :=
  if has_ssse3 t then Z.lor OTTERY_CPUCAP_SSSE3 OTTERY_CPUCAP_SIMD else OTTERY_CPUCAP_SIMD.

Definition FLAV (t : target) : string :=
  if has_ssse3 t then "-SSSE3" else "-DEFAULT".

Definition PRF_CHACHA (t : target) (r : string)
    (gen : list byte -> list byte -> Z -> option (list byte * list byte)) : ottery_prf := {|
  name := "CHACHA" ++ r;
  impl := "CHACHA" ++ r ++ "-SIMD";
  flav := "CHACHA" ++ r ++ "-SIMD" ++ FLAV t;
  state_len := STATE_LEN; state_bytes := STATE_BYTES; output_len := OUTPUT_LEN t;
  required_cpucap := NEED_CPUCAP t;
  setup := chacha_krovetz_state_setup;
  generate := gen |}.

(** The same source is built twice, for the targets of SIMD1 and SIMD2. *)
Definition ottery_prf_chacha8_krovetz_ (t : target) : ottery_prf :=
  PRF_CHACHA t "8" (chacha8_krovetz_generate t).
Definition ottery_prf_chacha12_krovetz_ (t : target) : ottery_prf :=
  PRF_CHACHA t "12" (chacha12_krovetz_generate t).
Definition ottery_prf_chacha20_krovetz_ (t : target) : ottery_prf :=
  PRF_CHACHA t "20" (chacha20_krovetz_generate t).

(** ** Rotations *)

Definition vec_ok (x : vec) : Prop := Forall in_u32 (lanes x).

Lemma vec_ok_lanes a b c d :
  vec_ok (mk_vec a b c d) <-> in_u32 a /\ in_u32 b /\ in_u32 c /\ in_u32 d.
Proof.
  unfold vec_ok, lanes. cbn [l0 l1 l2 l3]. rewrite !Forall_cons. pose proof (Forall_nil_2 in_u32).
  tauto.
Qed.

Lemma ROTL_lor v n :
  in_u32 v -> 0 < n < 32 -> ROTL v n = Z.lor (u32 (Z.shiftl v n)) (Z.shiftr v (32 - n)).
Proof. intros. rewrite <-ROTL32_ROTL by done. unfold ROTL32. by rewrite U32V_u32, u32_idemp. Qed.

Lemma shifted_low_bits v n i :
  0 < n < 32 -> 0 <= i < n -> Z.testbit (u32 (Z.shiftl v n)) i = false.
Proof.
  intros. unfold u32. rewrite Z.mod_pow2_bits_low, Z.shiftl_spec by lia.
  apply Z.testbit_neg_r. lia.
Qed.

Lemma shifts_disjoint v n :
  in_u32 v -> 0 < n < 32 -> Z.land (u32 (Z.shiftl v n)) (Z.shiftr v (32 - n)) = 0.
Proof.
  intros Hv Hn. apply Z.bits_inj'. intros i Hi. rewrite Z.land_spec, Z.bits_0.
  destruct (Z.lt_ge_cases i n); [by rewrite shifted_low_bits by lia|].
  rewrite Z.shiftr_spec by lia. rewrite (testbit_high v 32); [apply andb_false_r|done|lia].
Qed.

Lemma rotate_word_ROTL v n : in_u32 v -> 0 < n < 32 -> rotate_word v n = ROTL v n.
Proof. intros. symmetry. by apply ROTL_lor. Qed.

Lemma xor_rotate v n :
  in_u32 v -> 0 < n < 32 -> Z.lxor (u32 (Z.shiftl v n)) (Z.shiftr v (32 - n)) = ROTL v n.
Proof. intros. rewrite ROTL_lor by done. apply Z.lxor_lor. by apply shifts_disjoint. Qed.

Lemma insert_rotate v n :
  in_u32 v -> 0 < n < 32 ->
  Z.lor (Z.ldiff (u32 (Z.shiftl v n)) (Z.shiftr 0xffffffff (32 - n))) (Z.shiftr v (32 - n)) =
    ROTL v n.
Proof.
  intros Hv Hn. rewrite ROTL_lor by done. f_equal. apply Z.bits_inj'. intros i Hi.
  rewrite Z.ldiff_spec. destruct (Z.lt_ge_cases i n); [by rewrite shifted_low_bits by lia|].
  rewrite Z.shiftr_spec by lia. rewrite (testbit_high 0xffffffff 32); [apply andb_true_r|done|lia].
Qed.

Lemma ROTL_add v n :
  in_u32 v -> 0 < n < 32 -> ROTL v n = u32 (v * 2 ^ n) + v / 2 ^ (32 - n).
Proof.
  intros Hv Hn. pose proof (shifts_disjoint v n Hv Hn) as Hd.
  rewrite ROTL_lor, <-Z.lxor_lor, <-Z.add_nocarry_lxor by done.
  by rewrite Z.shiftl_mul_pow2, Z.shiftr_div_pow2 by lia.
Qed.

Lemma swap_rotate v :
  in_u32 v -> Z.lor (Z.shiftl (Z.land v 0xffff) 16) (Z.shiftr v 16) = ROTL v 16.
Proof.
  intros Hv. rewrite ROTL_lor by (done || lia). f_equal.
  change 0xffff with (Z.ones 16). rewrite Z.land_ones, !Z.shiftl_mul_pow2 by lia.
  unfold u32. change (2 ^ 32) with (2 ^ 16 * 2 ^ 16). by rewrite Z.mul_mod_distr_r.
Qed.

(** Rotations by whole bytes permute them. *)
Lemma ROTL_bytes b0 b1 b2 b3 :
  ROTL (le_decode [b0; b1; b2; b3]) 8 = le_decode [b3; b0; b1; b2] /\
  ROTL (le_decode [b0; b1; b2; b3]) 16 = le_decode [b2; b3; b0; b1].
Proof.
  pose proof (le_decode_range [b0; b1; b2; b3] : in_u32 _) as Hv.
  rewrite !ROTL_add by (done || lia). unfold u32. cbn [le_decode].
  pose proof (Z_of_byte_range b0). pose proof (Z_of_byte_range b1).
  pose proof (Z_of_byte_range b2). pose proof (Z_of_byte_range b3).
  change (2 ^ (32 - 8)) with 16777216. change (2 ^ (32 - 16)) with 65536.
  change (2 ^ 8) with 256 in *. change (2 ^ 16) with 65536. change (2 ^ 32) with 4294967296.
  split; Z.div_mod_to_equations; lia.
Qed.

Lemma u32_bytes v :
  in_u32 v -> exists b0 b1 b2 b3, v = le_decode [b0; b1; b2; b3].
Proof.
  intros Hv. pose proof (le_decode_encode 4 v) as E. pose proof (zlen_le_encode 4 v) as L.
  apply Nat2Z.inj in L. destruct (le_encode 4 v) as [|b0 [|b1 [|b2 [|b3 [|]]]]]; try discriminate L.
  exists b0, b1, b2, b3. rewrite E. symmetry. by apply Z.mod_small.
Qed.

Lemma le_encode_4 b0 b1 b2 b3 : le_encode 4 (le_decode [b0; b1; b2; b3]) = [b0; b1; b2; b3].
Proof. exact (le_encode_decode [b0; b1; b2; b3]). Qed.

(** The byte shuffles, by evaluation on symbolic bytes. *)
Lemma shuffle_rotate x :
  vec_ok x ->
  mm_shuffle_epi8 x (mm_set_epi8 14 13 12 15 10 9 8 11 6 5 4 7 2 1 0 3) =
    vmap (fun a => ROTL a 8) x /\
  mm_shuffle_epi8 x (mm_set_epi8 13 12 15 14 9 8 11 10 5 4 7 6 1 0 3 2) =
    vmap (fun a => ROTL a 16) x.
Proof.
  destruct x as [a b c d]. rewrite vec_ok_lanes. intros (Ha & Hb & Hc & Hd).
  destruct (u32_bytes a Ha) as (a0 & a1 & a2 & a3 & ->).
  destruct (u32_bytes b Hb) as (b0 & b1 & b2 & b3 & ->).
  destruct (u32_bytes c Hc) as (c0 & c1 & c2 & c3 & ->).
  destruct (u32_bytes d Hd) as (d0 & d1 & d2 & d3 & ->).
  unfold vmap. cbn [l0 l1 l2 l3].
  rewrite !(proj1 (ROTL_bytes _ _ _ _)), !(proj2 (ROTL_bytes _ _ _ _)).
  unfold mm_shuffle_epi8, lanes, pack. cbn [l0 l1 l2 l3]. rewrite !bind_cons.
  rewrite !le_encode_4.
  split; reflexivity.
Qed.

(** ** The macros of each target *)

Lemma vec_ok_vadd x y : vec_ok (vadd x y).
Proof. apply vec_ok_lanes. refine (conj _ (conj _ (conj _ _))); apply in_u32_u32. Qed.

Lemma vec_ok_vxor x y : vec_ok x -> vec_ok y -> vec_ok (vxor x y).
Proof.
  destruct x, y. rewrite !vec_ok_lanes. intros (?&?&?&?) (?&?&?&?).
  apply vec_ok_lanes. refine (conj _ (conj _ (conj _ _))); by apply lxor_u32.
Qed.

Lemma vec_ok_rot x n : vec_ok (vmap (fun a => ROTL a n) x).
Proof. apply vec_ok_lanes. refine (conj _ (conj _ (conj _ _))); apply ROTL_range. Qed.

#[local] Hint Resolve vec_ok_vadd vec_ok_vxor vec_ok_rot : ottery.

(** A lane-wise operation that rotates in-range words rotates the vector. *)
Lemma vmap_rot (f : Z -> Z) n x :
  (forall a, in_u32 a -> f a = ROTL a n) -> vec_ok x -> vmap f x = vmap (fun a => ROTL a n) x.
Proof.
  destruct x. rewrite vec_ok_lanes. intros Hf (?&?&?&?). unfold vmap. cbn [l0 l1 l2 l3].
  by rewrite !Hf.
Qed.

Lemma shift_xor_rot x n :
  0 < n < 32 -> vec_ok x -> shift_xor x n = vmap (fun a => ROTL a n) x.
Proof. intros. 
  apply (vmap_rot (fun a => Z.lxor (u32 (Z.shiftl a n)) (Z.shiftr a (32 - n))) n x); [|done].
  intros. by apply xor_rotate. Qed.

Lemma vsri_rot x n :
  0 < n < 32 -> vec_ok x -> vsriq_n_u32 (vshlq_n_u32 x n) x (32 - n) = vmap (fun a => ROTL a n) x.
Proof. intros. 
  apply (vmap_rot (fun a => Z.lor (Z.ldiff (u32 (Z.shiftl a n)) (Z.shiftr 0xffffffff (32 - n)))
    (Z.shiftr a (32 - n))) n x); [|done].
  intros. by apply insert_rotate. Qed.

Lemma ROTW16_ok t x : vec_ok x -> ROTW16 t x = vmap (fun a => ROTL a 16) x.
Proof.
  intros Hx. destruct t as [?|? []]; cbn [ROTW16].
  - apply vmap_rot; [|done]. intros. by apply swap_rotate.
  - exact (proj2 (shuffle_rotate x Hx)).
  - by apply shift_xor_rot.
Qed.

Lemma ROTW12_ok t x : vec_ok x -> ROTW12 t x = vmap (fun a => ROTL a 12) x.
Proof.
  intros Hx. destruct t as [[]|]; cbn [ROTW12]; first [by apply shift_xor_rot | by apply (vsri_rot x 12)].
Qed.

Lemma ROTW8_ok t x : vec_ok x -> ROTW8 t x = vmap (fun a => ROTL a 8) x.
Proof.
  intros Hx. destruct t as [[]|? []]; cbn [ROTW8].
  - by apply shift_xor_rot.
  - by apply (vsri_rot x 8).
  - exact (proj1 (shuffle_rotate x Hx)).
  - by apply shift_xor_rot.
Qed.

Lemma ROTW7_ok t x : vec_ok x -> ROTW7 t x = vmap (fun a => ROTL a 7) x.
Proof.
  intros Hx. destruct t as [[]|]; cbn [ROTW7]; first [by apply shift_xor_rot | by apply (vsri_rot x 7)].
Qed.

Lemma ROTV_ok t a b c d :
  ROTV1 t (mk_vec a b c d) = mk_vec b c d a /\
  ROTV2 t (mk_vec a b c d) = mk_vec c d a b /\
  ROTV3 t (mk_vec a b c d) = mk_vec d a b c.
Proof. destruct t; split_and!; reflexivity. Qed.

(** ** A quarter round on four columns at once *)

(** Half of [DQROUND_VECTORS], before its lane rotations. *)
Definition half_round (t : target) (q : quad) : quad :=
  let '(mk_quad a b c d) := q in
  let a := vadd a b in let d := vxor d a in let d := ROTW16 t d in
  let c := vadd c d in let b := vxor b c in let b := ROTW12 t b in
  let a := vadd a b in let d := vxor d a in let d := ROTW8 t d in
  let c := vadd c d in let b := vxor b c in let b := ROTW7 t b in
  mk_quad a b c d.

Definition quad_ok (q : quad) : Prop :=
  vec_ok (qa q) /\ vec_ok (qb q) /\ vec_ok (qc q) /\ vec_ok (qd q).

Lemma DQROUND_halves t q :
  DQROUND_VECTORS t q =
    let q1 := half_round t q in
    let q2 := half_round t (mk_quad (qa q1) (ROTV1 t (qb q1)) (ROTV2 t (qc q1)) (ROTV3 t (qd q1))) in
    mk_quad (qa q2) (ROTV3 t (qb q2)) (ROTV2 t (qc q2)) (ROTV1 t (qd q2)).
Proof. by destruct q. Qed.

Lemma half_round_cols t a0 a1 a2 a3 b0 b1 b2 b3 c0 c1 c2 c3 d0 d1 d2 d3 :
  quad_ok (mk_quad (mk_vec a0 a1 a2 a3) (mk_vec b0 b1 b2 b3)
                   (mk_vec c0 c1 c2 c3) (mk_vec d0 d1 d2 d3)) ->
  half_round t (mk_quad (mk_vec a0 a1 a2 a3) (mk_vec b0 b1 b2 b3)
                        (mk_vec c0 c1 c2 c3) (mk_vec d0 d1 d2 d3)) =
  let '(a0, b0, c0, d0) := qr4 a0 b0 c0 d0 in
  let '(a1, b1, c1, d1) := qr4 a1 b1 c1 d1 in
  let '(a2, b2, c2, d2) := qr4 a2 b2 c2 d2 in
  let '(a3, b3, c3, d3) := qr4 a3 b3 c3 d3 in
  mk_quad (mk_vec a0 a1 a2 a3) (mk_vec b0 b1 b2 b3)
          (mk_vec c0 c1 c2 c3) (mk_vec d0 d1 d2 d3).
Proof.
  intros (Ha & Hb & Hc & Hd). cbn [qa qb qc qd] in *. unfold half_round.
  rewrite ROTW16_ok by auto with ottery.
  rewrite ROTW12_ok by auto with ottery.
  rewrite ROTW8_ok by auto with ottery.
  rewrite ROTW7_ok by auto with ottery. reflexivity.
Qed.

(** ** A block's four vectors and the reference's sixteen words *)

Definition quad_list (q : quad) : list Z :=
  lanes (qa q) ++ lanes (qb q) ++ lanes (qc q) ++ lanes (qd q).

(** One quarter round of the reference on a list of explicit words: name its
    results and update the list. *)
Ltac ref_quarter :=
  match goal with
  | |- context [qround (?h :: ?t) ?i ?j ?k ?l] =>
      rewrite (qround_qr4 (h :: t) i j k l)
        by (apply (bool_decide_unpack _); vm_compute; exact I)
  end;
  match goal with
  | |- context [qr4 ((?h :: ?t) !!! ?i) ?b ?c ?d] =>
      let a' := eval cbn in ((h :: t) !!! i) in
      let b' := eval cbn in b in
      let c' := eval cbn in c in
      let d' := eval cbn in d in
      change (qr4 ((h :: t) !!! i) b c d) with (qr4 a' b' c' d');
      destruct (qr4 a' b' c' d') as [[[? ?] ?] ?] eqn:?;
      cbn [insert list_insert]
  end.

Lemma qr4_u32 a b c d a' b' c' d' :
  qr4 a b c d = (a', b', c', d') -> in_u32 a' /\ in_u32 b' /\ in_u32 c' /\ in_u32 d'.
Proof.
  unfold qr4. intros [= <- <- <- <-].
  refine (conj _ (conj _ (conj _ _))); auto using in_u32_u32, ROTL_range.
Qed.

Lemma DQROUND_ref t q :
  quad_ok q ->
  quad_list (DQROUND_VECTORS t q) = double_round (quad_list q) /\ quad_ok (DQROUND_VECTORS t q).
Proof.
  destruct q as [[a0 a1 a2 a3] [b0 b1 b2 b3] [c0 c1 c2 c3] [d0 d1 d2 d3]]. intros Hq.
  rewrite DQROUND_halves, half_round_cols by done. clear Hq.
  unfold quad_list at 2. unfold double_round. cbn [lanes l0 l1 l2 l3 qa qb qc qd app].
  do 4 ref_quarter. cbv zeta. cbn [qa qb qc qd].
  rewrite (proj1 (ROTV_ok t _ _ _ _)), (proj1 (proj2 (ROTV_ok t _ _ _ _))),
    (proj2 (proj2 (ROTV_ok t _ _ _ _))).
  repeat match goal with H : qr4 _ _ _ _ = _ |- _ => apply qr4_u32 in H as (? & ? & ? & ?) end.
  rewrite half_round_cols by (unfold quad_ok; cbn [qa qb qc qd]; rewrite !vec_ok_lanes; tauto).
  do 4 ref_quarter. cbn [qa qb qc qd].
  rewrite (proj1 (ROTV_ok t _ _ _ _)), (proj1 (proj2 (ROTV_ok t _ _ _ _))),
    (proj2 (proj2 (ROTV_ok t _ _ _ _))).
  split; [reflexivity|].
  repeat match goal with H : qr4 _ _ _ _ = _ |- _ => apply qr4_u32 in H as (? & ? & ? & ?) end.
  unfold quad_ok; cbn [qa qb qc qd]; rewrite !vec_ok_lanes; tauto.
Qed.

(** ** Rounds over all the blocks of an iteration *)

Lemma QROUND_QUARTER a b c d : QROUND_WORDS a b c d = QUARTERROUND a b c d.
Proof.
  assert (forall v n, rotate_word v n = ROTATE v n) as Hr.
  { intros. unfold ROTATE, ROTL32, rotate_word. by rewrite U32V_u32, u32_idemp. }
  unfold QROUND_WORDS, QUARTERROUND, XOR, PLUS. by rewrite !U32V_u32, !Hr.
Qed.

Lemma dround_round_body r : dround_words r = round_body r.
Proof.
  destruct r. unfold dround_words, round_body.
  do 8 (rewrite QROUND_QUARTER;
        match goal with |- context [QUARTERROUND ?a ?b ?c ?d] =>
          destruct (QUARTERROUND a b c d) as [[[? ?] ?] ?] end).
  reflexivity.
Qed.

Lemma rounds_loop_ref t h qs r :
  Forall quad_ok qs ->
  exists qs' r', rounds_loop t h qs r = (qs', r') /\
    Forall2 (fun q q' => quad_list q' = Nat.iter h double_round (quad_list q)) qs qs' /\
    (GPR_TOO t <> O -> regs_ok r -> regs_list r' = Nat.iter h double_round (regs_list r)).
Proof.
  revert qs r. induction h as [|h IH]; intros qs r Hqs.
  { exists qs, r. split; [done|]. split; [|done]. by apply Forall_Forall2_diag, Forall_true. }
  cbn [rounds_loop].
  destruct (IH (DQROUND_VECTORS t <$> qs) (if GPR_TOO t is O then r else dround_words r))
    as (qs' & r' & E & Hq & Hr).
  { apply Forall_fmap. eapply Forall_impl; [exact Hqs|]. intros q. apply DQROUND_ref. }
  exists qs', r'. split; [done|]. split.
  - apply Forall2_fmap_l in Hq. revert Hqs. clear -Hq. induction Hq as [|q q' qs qs' H ? IHq];
      intros Hqs; [constructor|]. inversion_clear Hqs as [|?? Hok Hoks].
    constructor; [|by apply IHq].
    change (quad_list q' = Nat.iter h double_round (quad_list (DQROUND_VECTORS t q))) in H.
    rewrite H, (proj1 (DQROUND_ref t q Hok)). symmetry. apply Nat.iter_succ_r.
  - intros Ht Hok. destruct (round_body_ref r Hok) as [E1 Hok1].
    destruct (GPR_TOO t) as [|]; [destruct (Ht eq_refl)|]. rewrite dround_round_body in Hr.
    rewrite (Hr Ht Hok1), E1. symmetry. apply Nat.iter_succ_r.
Qed.

(** ** Starting words *)

Lemma key_words_explicit k c :
  zlen k = 40 ->
  key_words k c = chacha_const ++
    ((fun i => le_decode (slice k (0 + 4 * Z.of_nat i) 4)) <$> seq 0 8) ++
    c :: 0 :: ((fun i => le_decode (slice k (32 + 4 * Z.of_nat i) 4)) <$> seq 0 2).
Proof.
  intros Hk. unfold key_words.
  change (slice k 0 32) with (slice k 0 (4 * Z.of_nat 8)).
  change (slice k 32 8) with (slice k 32 (4 * Z.of_nat 2)).
  rewrite !unpack_slice by lia. rewrite <-app_assoc. reflexivity.
Qed.

(** The state object holds the key and nonce as its first 40 bytes. *)
Definition krovetz_holds (k m : list byte) : Prop := slice m 0 40 = k.

(** The start vectors at block position [c]. *)
Definition starts (k : list byte) (c : Z) (s : quad) : Prop :=
  quad_list s = key_words k (u32 c).

Lemma starts_ok k c s : zlen k = 40 -> starts k c s -> quad_ok s.
Proof.
  intros Hk Hs. pose proof (key_words_u32 k (u32 c) (in_u32_u32 c)) as H.
  rewrite <-Hs in H. unfold quad_list in H. rewrite !Forall_app in H.
  unfold quad_ok, vec_ok. tauto.
Qed.

Lemma starts_next k c s0 s1 s2 s3 :
  zlen k = 40 -> starts k c (mk_quad s0 s1 s2 s3) ->
  starts k (c + 1) (mk_quad s0 s1 s2 (vadd s3 ONE)).
Proof.
  intros Hk Hs. pose proof (starts_ok k c _ Hk Hs) as (_ & _ & _ & H3).
  unfold starts in *. destruct s3 as [p0 p1 p2 p3]. cbn [qd] in H3.
  rewrite vec_ok_lanes in H3. destruct H3 as (? & ? & ? & ?).
  assert (vadd (mk_vec p0 p1 p2 p3) ONE = mk_vec (u32 (p0 + 1)) p1 p2 p3) as ->.
  { unfold vadd, vmap2. cbn [l0 l1 l2 l3 ONE]. by rewrite !Z.add_0_r, !(u32_small p1),
      !(u32_small p2), !(u32_small p3). }
  change (quad_list (mk_quad s0 s1 s2 (mk_vec (u32 (p0 + 1)) p1 p2 p3)))
    with (<[12%nat := u32 (p0 + 1)]> (quad_list (mk_quad s0 s1 s2 (mk_vec p0 p1 p2 p3)))).
  assert (p0 = u32 c) as ->.
  { change p0 with (quad_list (mk_quad s0 s1 s2 (mk_vec p0 p1 p2 p3)) !!! 12%nat). rewrite Hs.
    rewrite <-(key_words_counter k (u32 c) (u32 c) Hk).
    apply list_total_insert_eq. rewrite length_key_words; done || lia. }
  rewrite Hs, key_words_counter by done. f_equal. unfold u32. by rewrite Zplus_mod_idemp_l.
Qed.

Lemma start_blocks_ref k c n s0 s1 s2 s3 :
  zlen k = 40 -> starts k c (mk_quad s0 s1 s2 s3) ->
  Forall2 (fun q i => starts k i q) (start_blocks n s0 s1 s2 s3) (seqZ c (Z.of_nat n)).
Proof.
  intros Hk. revert c s3. induction n as [|n IH]; intros c s3 Hs; cbn [start_blocks].
  { constructor. }
  rewrite Nat2Z.inj_succ, seqZ_cons, Z.pred_succ by lia. constructor; [done|].
  rewrite <-Z.add_1_r. apply IH. by apply starts_next.
Qed.

(** ** Writing the blocks *)

(** The reference block at position [c] under a 40-byte key. *)
Definition ref_block (rounds : nat) (k : list byte) (c : Z) : list byte :=
  chacha_block (u32 c) (slice k 32 8) (slice k 0 32) rounds.

Definition ref_blocks (rounds : nat) (k : list byte) (c : Z) (n : nat) : list byte :=
  seqZ c (Z.of_nat n) ≫= ref_block rounds k.

Lemma ref_block_zlen rounds k c : zlen k = 40 -> zlen (ref_block rounds k c) = 64.
Proof. intros. apply chacha_block_zlen; [done|apply in_u32_u32]. Qed.

Lemma ref_blocks_S rounds k c n :
  ref_blocks rounds k c (S n) = ref_block rounds k c ++ ref_blocks rounds k (c + 1) n.
Proof.
  unfold ref_blocks. rewrite Nat2Z.inj_succ, seqZ_cons, Z.pred_succ, bind_cons by lia.
  by rewrite <-Z.add_1_r.
Qed.

Lemma ref_blocks_app rounds k c n m :
  ref_blocks rounds k c (n + m) =
    ref_blocks rounds k c n ++ ref_blocks rounds k (c + Z.of_nat n) m.
Proof.
  unfold ref_blocks. rewrite Nat2Z.inj_add, seqZ_app by lia. by rewrite bind_app.
Qed.

Lemma ref_blocks_zlen rounds k c n :
  zlen k = 40 -> zlen (ref_blocks rounds k c n) = 64 * Z.of_nat n.
Proof.
  intros Hk. revert c. induction n as [|n IH]; intros c; [done|].
  rewrite ref_blocks_S, zlen_app, IH, ref_block_zlen by done. lia.
Qed.

(** The words of [h] double rounds over the start words, added to them. *)
Lemma ref_block_words k c h s :
  zlen k = 40 -> starts k c s ->
  ref_block (2 * h) k c =
    pack (zip_with (fun i j => u32 (i + j)) (quad_list s)
            (Nat.iter h double_round (quad_list s))).
Proof.
  intros Hk Hs. unfold ref_block, chacha_block, chacha_words.
  rewrite init_words_key, <-Hs by apply in_u32_u32.
  rewrite Nat.mul_comm, Nat.div_mul by done. f_equal.
  assert (forall u v, zip_with (fun i j => mask32 (i + j)) u v =
    zip_with (fun i j => u32 (i + j)) u v) as Hz; [|apply Hz].
  induction u as [|x u IH]; intros [|y v]; [done..|]. cbn [zip_with]. by rewrite mask32_u32, IH.
Qed.

Lemma WRITE_ok out off d v0 v1 v2 v3 :
  0 <= off + 4 * d -> off + 4 * d + 64 <= zlen out ->
  WRITE out off d v0 v1 v2 v3 =
    Some (splice out (off + 4 * d) (pack (quad_list (mk_quad v0 v1 v2 v3)))).
Proof.
  intros H0 H1. unfold WRITE, vec_store, quad_list. cbn [qa qb qc qd].
  assert (forall v, zlen (pack (lanes v)) = 16) as Hl by (intros; by rewrite zlen_pack).
  rewrite Z.add_0_r, mwrite_ok by (rewrite ?Hl; lia). cbn [mbind option_bind].
  do 3 (rewrite mwrite_splice by (rewrite ?zlen_app, ?Hl; lia); cbn [mbind option_bind]).
  rewrite !pack_app, <-!app_assoc. done.
Qed.

Lemma vadd_quad q s :
  quad_list (mk_quad (vadd (qa q) (qa s)) (vadd (qb q) (qb s)) (vadd (qc q) (qc s))
                     (vadd (qd q) (qd s))) =
    zip_with (fun i j => u32 (i + j)) (quad_list s) (quad_list q).
Proof.
  unfold quad_list, lanes, vadd, vmap2. cbn [qa qb qc qd l0 l1 l2 l3 app zip_with].
  repeat (apply f_equal2; [f_equal; lia|]). done.
Qed.

Lemma write_blocks_ok h k c n qs out off d s0 s1 s2 s3 :
  zlen k = 40 -> starts k c (mk_quad s0 s1 s2 s3) ->
  Forall2 (fun q i => forall s, starts k i s ->
    quad_list q = Nat.iter h double_round (quad_list s)) qs (seqZ c (Z.of_nat n)) ->
  0 <= off -> 0 <= d -> off + 4 * d + 64 * Z.of_nat n <= zlen out ->
  exists s3', write_blocks out off d qs s0 s1 s2 s3 =
      Some (splice out (off + 4 * d) (ref_blocks (2 * h) k c n), s3') /\
    starts k (c + Z.of_nat n) (mk_quad s0 s1 s2 s3').
Proof.
  intros Hk. revert c qs out d s3. induction n as [|n IH];
    intros c qs out d s3 Hs Hq Hoff Hd Hout.
  { inversion_clear Hq. exists s3. cbn [write_blocks].
    change (ref_blocks (2 * h) k c 0) with (@nil byte). rewrite splice_nil, Z.add_0_r. done. }
  rewrite Nat2Z.inj_succ, seqZ_cons, Z.pred_succ, <-Z.add_1_r in Hq by lia.
  inversion_clear Hq as [|q ? qs' ? Hq0 Hqs]. cbn [write_blocks].
  rewrite WRITE_ok by lia. cbn [mbind option_bind].
  change s0 with (qa (mk_quad s0 s1 s2 s3)) at 1. change s1 with (qb (mk_quad s0 s1 s2 s3)) at 2.
  change s2 with (qc (mk_quad s0 s1 s2 s3)) at 3. change s3 with (qd (mk_quad s0 s1 s2 s3)) at 4.
  rewrite vadd_quad, (Hq0 _ Hs), <-(ref_block_words k c h) by done.
  pose proof (ref_block_zlen (2 * h) k c Hk) as Hb.
  pose proof (ref_blocks_zlen (2 * h) k (c + 1) n Hk) as Hbs.
  destruct (IH (c + 1) qs' (splice out (off + 4 * d) (ref_block (2 * h) k c)) (d + 16)
    (vadd s3 ONE)) as (s3' & E & Hs'); [by apply starts_next|done|done|lia|
      rewrite zlen_splice; lia|].
  rewrite E. exists s3'. split.
  - rewrite ref_blocks_S, splice_splice_app by lia. done.
  - by replace (c + Z.of_nat (S n)) with (c + 1 + Z.of_nat n) by lia.
Qed.

(** ** The block loop *)

Lemma word_ok k m off i :
  zlen m = MAX_STATE_LEN -> krovetz_holds k m -> 0 <= off -> 0 <= i -> off + 4 * i + 4 <= 40 ->
  word m off i = Some (le_decode (slice k (off + 4 * i) 4)).
Proof.
  intros Hm <- ???. unfold word. rewrite mread_ok by clia. cbn [mbind option_bind].
  by rewrite slice_slice, Z.add_0_l by lia.
Qed.

Lemma start_words_ok k m c :
  zlen k = 40 -> zlen m = MAX_STATE_LEN -> krovetz_holds k m ->
  exists x, start_words m (u32 c) = Some x /\ regs_list x = key_words k (u32 c).
Proof.
  intros Hk Hm Hh. unfold start_words.
  do 10 (erewrite word_ok by first [eassumption | lia]; cbn [mbind option_bind]).
  eexists. split; [reflexivity|]. rewrite key_words_explicit by done.
  pose proof (u32_range c) as Hc. change 0xffffffff with (Z.ones 32).
  rewrite Z.land_ones, Z.mod_small by lia.
  assert (Z.shiftr (u32 c) 32 = 0) as ->.
  { rewrite Z.shiftr_div_pow2 by lia. apply Z.div_small. lia. }
  reflexivity.
Qed.

Lemma krovetz_iteration t h k c s0 s1 s2 s3 :
  zlen k = 40 -> starts k c (mk_quad s0 s1 s2 s3) ->
  forall r, exists vs r', rounds_loop t h (start_blocks (VBPI t) s0 s1 s2 s3) r = (vs, r') /\
    Forall2 (fun q i => forall s, starts k i s ->
      quad_list q = Nat.iter h double_round (quad_list s)) vs (seqZ c (Z.of_nat (VBPI t))) /\
    (GPR_TOO t <> O -> regs_ok r -> regs_list r' = Nat.iter h double_round (regs_list r)).
Proof.
  intros Hk Hs r. pose proof (start_blocks_ref k c (VBPI t) s0 s1 s2 s3 Hk Hs) as Hb.
  destruct (rounds_loop_ref t h (start_blocks (VBPI t) s0 s1 s2 s3) r) as (vs & r' & E & Hv & Hr).
  { clear -Hb Hk. induction Hb; constructor; [|done]. by eapply starts_ok. }
  exists vs, r'. split; [done|]. split; [|done]. revert Hb. clear -Hv.
  generalize (seqZ c (Z.of_nat (VBPI t))). induction Hv as [|q q' qs qs' H ? IH]; intros l Hb;
    inversion_clear Hb as [|? i ? l' Hi Hl]; constructor.
  - intros s Hs. rewrite H. unfold starts in *. by rewrite Hi, Hs.
  - by apply IH.
Qed.

(** The word block is stored after the vector blocks of its iteration. *)
Lemma word_block_ok t h k c x x' out off :
  GPR_TOO t = 1%nat -> zlen k = 40 -> 0 <= off -> off + 64 * Z.of_nat (BPI t) <= zlen out ->
  regs_list x = key_words k (u32 (c + (Z.of_nat (BPI t) - 1))) ->
  regs_list x' = Nat.iter h double_round (regs_list x) ->
  store_words (splice out off (ref_blocks (2 * h) k c (VBPI t)))
      (off + 4 * (Z.of_nat (VBPI t) * 16)) (add_regs x' x) =
    Some (splice out off (ref_blocks (2 * h) k c (BPI t))).
Proof.
  intros Hg Hk Hoff Hout Hx Hr. assert (BPI t = VBPI t + 1)%nat as HB by (by rewrite <-Hg).
  pose proof (ref_blocks_zlen (2 * h) k c (VBPI t) Hk) as Hl.
  pose proof (ref_block_zlen (2 * h) k (c + Z.of_nat (VBPI t)) Hk) as Hb.
  rewrite store_words_ok, add_regs_ref;
    [|lia|change (zlen (add_regs x' x)) with 16; rewrite zlen_splice; lia].
  rewrite Hr, HB, ref_blocks_app, Hx. change 1%nat with (S 0). rewrite ref_blocks_S.
  change (ref_blocks _ _ _ 0) with (@nil byte). rewrite app_nil_r.
  match goal with |- context [pack ?ws] =>
    assert (pack ws = ref_block (2 * h) k (c + Z.of_nat (VBPI t))) as -> end.
  { unfold ref_block, chacha_block, chacha_words. rewrite init_words_key by apply in_u32_u32.
    rewrite (Nat.mul_comm 2 h), Nat.div_mul by done.
    replace (Z.of_nat (BPI t) - 1) with (Z.of_nat (VBPI t))
      by (rewrite HB, Nat2Z.inj_add; lia). reflexivity. }
  by rewrite splice_splice_app by lia.
Qed.

Lemma blocks_loop_ok t h k m n j b s0 s1 s2 s3 out off :
  zlen k = 40 -> zlen m = MAX_STATE_LEN -> krovetz_holds k m ->
  starts k (b + Z.of_nat (BPI t) * j) (mk_quad s0 s1 s2 s3) ->
  0 <= off -> off + 64 * Z.of_nat (BPI t * n) <= zlen out ->
  blocks_loop t (2 * Z.of_nat h) n j b m s0 s1 s2 s3 out off =
    Some (splice out off (ref_blocks (2 * h) k (b + Z.of_nat (BPI t) * j) (BPI t * n))).
Proof.
  intros Hk Hm Hh. revert j s3 out off. induction n as [|n IH]; intros j s3 out off Hs Hoff Hout.
  { rewrite Nat.mul_0_r. change (ref_blocks (2 * h) k _ 0) with (@nil byte).
    by rewrite splice_nil. }
  set (c := b + Z.of_nat (BPI t) * j) in *.
  assert (BPI t = VBPI t + GPR_TOO t)%nat as HB by done.
  rewrite Nat.mul_succ_r, Nat.add_comm in Hout |- *. rewrite ref_blocks_app.
  remember (BPI t * n)%nat as bn.
  cbn [blocks_loop]. fold c.
  replace (b + Z.of_nat (BPI t) * j + (Z.of_nat (BPI t) - 1))
    with (c + (Z.of_nat (BPI t) - 1)) by done.
  destruct (start_words_ok k m (c + (Z.of_nat (BPI t) - 1)) Hk Hm Hh) as (x & Ex & Hx).
  rewrite Ex. cbn [mbind option_bind].
  replace (Z.to_nat (2 * Z.of_nat h / 2)) with h
    by (rewrite Z.mul_comm, Z.div_mul by lia; lia).
  destruct (krovetz_iteration t h k c s0 s1 s2 s3 Hk Hs x) as (vs & x' & E & Hv & Hr).
  rewrite E.
  destruct (write_blocks_ok h k c (VBPI t) vs out off 0 s0 s1 s2 s3) as (s3' & Ew & Hs');
    [done..|lia|lia|]. rewrite Ew. cbn [mbind option_bind].
  rewrite Z.mul_0_r, Z.add_0_r.
  pose proof (ref_blocks_zlen (2 * h) k c (VBPI t) Hk) as Hl.
  pose proof (ref_blocks_zlen (2 * h) k c (BPI t) Hk) as Hlb.
  pose proof (ref_blocks_zlen (2 * h) k (c + Z.of_nat (BPI t)) bn Hk) as Hln.
  assert (c + Z.of_nat (BPI t) = b + Z.of_nat (BPI t) * (j + 1)) as Hj by (unfold c; lia).
  destruct (GPR_TOO t) as [|[|]] eqn:Hg; [| |by destruct t].
  - rewrite Nat.add_0_r in HB. rewrite HB in *.
    rewrite IH; [..|lia|rewrite zlen_splice; lia].
    + rewrite <-Hj, splice_splice_app by lia. done.
    + by rewrite <-Hj.
  - rewrite (word_block_ok t h k c x x' out off Hg Hk Hoff) by first
      [done|lia|apply Hr; [done|]; unfold regs_ok; rewrite Hx; apply key_words_u32, in_u32_u32].
    cbn [mbind option_bind].
    rewrite IH; [..|lia|rewrite zlen_splice; lia].
    + rewrite <-Hj, splice_splice_app by lia. done.
    + rewrite <-Hj, HB, Nat2Z.inj_add, Z.add_assoc. by apply starts_next.
Qed.

(** ** The PRF interface *)

(** What [generate] for [2 * h] rounds writes from call number [idx]. *)
Definition krovetz_out (t : target) (rounds : nat) (k : list byte) (idx : Z) : list byte :=
  ref_blocks rounds k (u32 (idx * IDX_STEP t)) (BPI t * LOOP_ITERATIONS).

Lemma krovetz_out_zlen t rounds k idx :
  zlen k = STATE_BYTES -> zlen (krovetz_out t rounds k idx) = OUTPUT_LEN t.
Proof.
  intros Hk. unfold krovetz_out, OUTPUT_LEN, IDX_STEP.
  rewrite ref_blocks_zlen by done. lia.
Qed.

Lemma krovetz_setup_ok m bs :
  zlen m = MAX_STATE_LEN -> STATE_BYTES <= zlen bs ->
  exists m', chacha_krovetz_state_setup m bs = Some m' /\ zlen m' = MAX_STATE_LEN /\
    krovetz_holds (slice bs 0 STATE_BYTES) m'.
Proof.
  unfold STATE_BYTES. intros Hm Hbs. unfold chacha_krovetz_state_setup.
  pose proof (zlen_slice bs 0 32 ltac:(lia) ltac:(lia) ltac:(lia)) as H1.
  pose proof (zlen_slice bs 32 8 ltac:(lia) ltac:(lia) ltac:(lia)) as H2.
  rewrite memcpy_ok by clia. cbn [mbind option_bind].
  rewrite memcpy_ok by (rewrite ?zlen_splice; clia).
  rewrite splice_splice_app by clia. eexists. split; [done|].
  rewrite zlen_splice by (rewrite ?zlen_app; clia). split; [done|].
  unfold krovetz_holds. change 32 with (0 + 32) at 2. rewrite <-(slice_app_split bs 0 32 8) by lia.
  rewrite slice_splice_0 by (rewrite ?zlen_slice; clia). by rewrite slice_slice by lia.
Qed.

Lemma krovetz_blocks_ok t h k m out b :
  zlen k = STATE_BYTES -> krovetz_holds k m -> zlen m = MAX_STATE_LEN ->
  OUTPUT_LEN t <= zlen out -> in_u32 b ->
  ottery_blocks_chacha_krovetz t (2 * Z.of_nat h) out b m =
    Some (splice out 0 (ref_blocks (2 * h) k b (BPI t * LOOP_ITERATIONS))).
Proof.
  intros Hk Hh Hm Hout Hb. unfold ottery_blocks_chacha_krovetz, vec_load, NONCE.
  rewrite !mread_ok by clia. cbn [mbind option_bind].
  rewrite (blocks_loop_ok t h k); [by rewrite Z.mul_0_r, Z.add_0_r|done..| |lia|].
  - unfold starts. rewrite Z.mul_0_r, Z.add_0_r, key_words_explicit by done.
    rewrite !slice_slice by lia. rewrite (u32_small b) by done.
    assert (Z.shiftr b 32 = 0) as ->.
    { rewrite Z.shiftr_div_pow2 by lia. by apply Z.div_small. }
    rewrite <-Hh. cbn [seq fmap list_fmap]. rewrite !slice_slice by lia. reflexivity.
  - unfold OUTPUT_LEN, IDX_STEP in Hout. lia.
Qed.

Lemma krovetz_generate_ok t h k m out idx :
  zlen k = STATE_BYTES -> krovetz_holds k m -> zlen m = MAX_STATE_LEN ->
  OUTPUT_LEN t <= zlen out ->
  exists m', chacha_krovetz_generate t (2 * Z.of_nat h) m out idx =
      Some (m', splice out 0 (krovetz_out t (2 * h) k idx)) /\
    zlen m' = MAX_STATE_LEN /\ krovetz_holds k m'.
Proof.
  intros Hk Hh Hm Hout. unfold chacha_krovetz_generate.
  rewrite (krovetz_blocks_ok t h k) by (done || apply in_u32_u32). cbn [mbind option_bind].
  by exists m.
Qed.

#[export] Instance krovetz8_spec t : PrfSpec (ottery_prf_chacha8_krovetz_ t) := {
  prf_out := krovetz_out t 8;
  prf_holds := krovetz_holds;
  prf_out_len := krovetz_out_zlen t 8;
  prf_setup_ok := krovetz_setup_ok;
  prf_generate_ok k m out i Hk Hh Hm Ho _ := krovetz_generate_ok t 4 k m out i Hk Hh Hm Ho }.

#[export] Instance krovetz12_spec t : PrfSpec (ottery_prf_chacha12_krovetz_ t) := {
  prf_out := krovetz_out t 12;
  prf_holds := krovetz_holds;
  prf_out_len := krovetz_out_zlen t 12;
  prf_setup_ok := krovetz_setup_ok;
  prf_generate_ok k m out i Hk Hh Hm Ho _ := krovetz_generate_ok t 6 k m out i Hk Hh Hm Ho }.

#[export] Instance krovetz20_spec t : PrfSpec (ottery_prf_chacha20_krovetz_ t) := {
  prf_out := krovetz_out t 20;
  prf_holds := krovetz_holds;
  prf_out_len := krovetz_out_zlen t 20;
  prf_setup_ok := krovetz_setup_ok;
  prf_generate_ok k m out i Hk Hh Hm Ho _ := krovetz_generate_ok t 10 k m out i Hk Hh Hm Ho }.

#[export] Instance krovetz8_sizes t : PrfSizes (ottery_prf_chacha8_krovetz_ t).
Proof. destruct t as [|[]]; split; done. Qed.
#[export] Instance krovetz12_sizes t : PrfSizes (ottery_prf_chacha12_krovetz_ t).
Proof. destruct t as [|[]]; split; done. Qed.
#[export] Instance krovetz20_sizes t : PrfSizes (ottery_prf_chacha20_krovetz_ t).
Proof. destruct t as [|[]]; split; done. Qed.

(** ** The stream of successive calls *)

(** [n] calls of a [generate] function from call number [idx], each into a
    fresh buffer of [len] bytes. *)
Fixpoint call_stream (gen : list byte -> list byte -> Z -> option (list byte * list byte))
    (len : Z) (m : list byte) (idx : Z) (n : nat) : option (list byte) :=
  match n with
  | O => Some []
  | S n =>
      '(m', out) ← gen m (zeros len) idx;
      rest ← call_stream gen len m' (idx + 1) n;
      Some (out ++ rest)
  end.

Section Stream.
Context (gen : list byte -> list byte -> Z -> option (list byte * list byte)).
Context (outf : Z -> list byte) (holds : list byte -> Prop) (len : Z).
Context (Hlen : forall i, zlen (outf i) = len).
Context (Hgen : forall m o i, holds m -> zlen m = MAX_STATE_LEN -> len <= zlen o ->
  exists m', gen m o i = Some (m', splice o 0 (outf i)) /\ zlen m' = MAX_STATE_LEN /\ holds m').

Lemma call_stream_ok m idx n :
  holds m -> zlen m = MAX_STATE_LEN ->
  call_stream gen len m idx n = Some (seqZ idx (Z.of_nat n) ≫= outf).
Proof.
  revert m idx. induction n as [|n IH]; intros m idx Hh Hm; [done|].
  cbn [call_stream]. rewrite Nat2Z.inj_succ, seqZ_cons, Z.pred_succ, bind_cons by lia.
  pose proof (zlen_nonneg (outf 0)) as H0. rewrite Hlen in H0.
  pose proof (zlen_zeros len H0) as Hz.
  destruct (Hgen m (zeros len) idx Hh Hm) as (m' & E & Hm' & Hh'); [lia|]. rewrite E.
  cbn [mbind option_bind]. rewrite IH by done. cbn [mbind option_bind].
  rewrite splice_all by (rewrite Hlen; lia). by rewrite <-Z.add_1_r.
Qed.
End Stream.

Lemma ref_block_u32 rounds k c : ref_block rounds k (u32 c) = ref_block rounds k c.
Proof. unfold ref_block. by rewrite u32_idemp. Qed.

Lemma ref_blocks_u32 rounds k c n : ref_blocks rounds k (u32 c) n = ref_blocks rounds k c n.
Proof.
  assert (forall c c', u32 c = u32 c' -> ref_blocks rounds k c n = ref_blocks rounds k c' n) as H.
  { induction n as [|n IH]; intros c1 c2 E; [done|]. rewrite !ref_blocks_S. f_equal.
    - by rewrite <-ref_block_u32, E, ref_block_u32.
    - apply IH. unfold u32 in *. rewrite <-Zplus_mod_idemp_l, E. apply Zplus_mod_idemp_l. }
  apply H, u32_idemp.
Qed.

(** Calls of [step] blocks each write consecutive blocks. *)
Lemma ref_blocks_calls rounds k step i n :
  seqZ i (Z.of_nat n) ≫= (fun j => ref_blocks rounds k (u32 (j * Z.of_nat step)) step) =
    ref_blocks rounds k (i * Z.of_nat step) (n * step).
Proof.
  revert i. induction n as [|n IH]; intros i; [done|].
  rewrite Nat2Z.inj_succ, seqZ_cons, Z.pred_succ, bind_cons, <-Z.add_1_r, IH by lia.
  rewrite ref_blocks_u32. cbn [Nat.mul]. rewrite ref_blocks_app. do 2 f_equal. lia.
Qed.

Lemma merged_out_blocks rounds k idx :
  merged_out rounds k idx = ref_blocks rounds k (u32 (idx * 16)) 16.
Proof.
  unfold merged_out, keystream, ref_blocks, ChaChaMerged.IDX_STEP.
  pose proof (block_position_room idx) as Hr. unfold ChaChaMerged.IDX_STEP in Hr.
  pose proof (u32_range (idx * 16)). change (Z.to_nat 16) with 16%nat.
  generalize dependent (u32 (idx * 16)). intros c Hr Hc.
  assert (Forall (fun i => in_u32 i) (seqZ c (Z.of_nat 16))) as Hf.
  { apply Forall_seqZ. intros. unfold in_u32. lia. }
  induction Hf as [|i l Hi ? IH]; [done|]. rewrite !bind_cons, IH. f_equal.
  unfold ref_block. by rewrite u32_small.
Qed.

(** ** The properties *)

(** C2: on every target the vector code (byte shuffles, shift-insert rotations,
    lane rotations, two to four blocks side by side, a block in general
    registers) writes exactly the reference ChaCha blocks of its key and nonce,
    from block [idx * IDX_STEP], each position taken modulo 2^32. *)
Theorem krovetz_computes_chacha t h m bs out idx :
  zlen m = MAX_STATE_LEN -> STATE_BYTES <= zlen bs -> OUTPUT_LEN t <= zlen out ->
  exists m1 m2, chacha_krovetz_state_setup m bs = Some m1 /\
    chacha_krovetz_generate t (2 * Z.of_nat h) m1 out idx =
      Some (m2, splice out 0 (seqZ (u32 (idx * IDX_STEP t)) (IDX_STEP t) ≫= fun c =>
        chacha_block (u32 c) (slice (slice bs 0 40) 32 8) (slice (slice bs 0 40) 0 32) (2 * h))).
Proof.
  intros Hm Hbs Hout. destruct (krovetz_setup_ok m bs Hm Hbs) as (m1 & E1 & L1 & H1).
  assert (zlen (slice bs 0 40) = STATE_BYTES) as Hk
    by (unfold STATE_BYTES in *; apply zlen_slice; lia).
  destruct (krovetz_generate_ok t h (slice bs 0 40) m1 out idx Hk H1 L1 Hout) as (m2 & E2 & _).
  exists m1, m2. by split.
Qed.

Lemma krovetz_computes_chacha_witness :
  exists m1 m2, chacha_krovetz_state_setup (zeros MAX_STATE_LEN) (zeros 40) = Some m1 /\
    chacha_krovetz_generate (SSE2 false true) 20 m1 (zeros 1024) 7 =
      Some (m2, splice (zeros 1024) 0
        (seqZ (u32 (7 * IDX_STEP (SSE2 false true))) (IDX_STEP (SSE2 false true)) ≫= fun c =>
        chacha_block (u32 c) (slice (slice (zeros 40) 0 40) 32 8)
          (slice (slice (zeros 40) 0 40) 0 32) (2 * 10))).
Proof.
  apply (krovetz_computes_chacha (SSE2 false true) 10);
    [reflexivity|vm_compute; discriminate..].
Defined.

(** C28: the portable and the vector implementations are interchangeable: from
    the same seed bytes, calls 0, 1, ... of the two [generate] functions give
    the same byte stream, though a call writes 1024 bytes in one and 768 or
    1024 in the other. *)
Theorem simd_stream_is_portable_stream t h m bs n n' :
  2 * Z.of_nat h < 2 ^ 32 -> zlen m = MAX_STATE_LEN -> STATE_BYTES <= zlen bs ->
  (n * 16 = n' * (BPI t * LOOP_ITERATIONS))%nat ->
  exists m1 m2 stream, chacha_merged_state_setup m bs = Some m1 /\
    chacha_krovetz_state_setup m bs = Some m2 /\
    call_stream (chacha_merged_generate (2 * Z.of_nat h)) 1024 m1 0 n = Some stream /\
    call_stream (chacha_krovetz_generate t (2 * Z.of_nat h)) (OUTPUT_LEN t) m2 0 n' = Some stream /\
    zlen stream = 1024 * Z.of_nat n.
Proof.
  intros Hh Hm Hbs Hn. set (k := slice bs 0 40).
  assert (zlen k = STATE_BYTES) as Hk by (unfold k, STATE_BYTES in *; apply zlen_slice; lia).
  destruct (merged_setup_ok m bs Hm Hbs) as (m1 & E1 & L1 & H1).
  destruct (krovetz_setup_ok m bs Hm Hbs) as (m2 & E2 & L2 & H2).
  exists m1, m2, (ref_blocks (2 * h) k 0 (n * 16)). split_and!; [done|done|..].
  - rewrite (call_stream_ok _ (merged_out (2 * h) k) (merged_holds k)); try done.
    + pose proof (ref_blocks_calls (2 * h) k 16 0 n) as Hc. rewrite Z.mul_0_l in Hc.
      f_equal. rewrite <-Hc.
      generalize (seqZ 0 (Z.of_nat n)). intros l.
      induction l as [|i l IH]; [done|]. by rewrite !bind_cons, IH, merged_out_blocks.
    + intros. by apply merged_out_zlen.
    + intros m0 o i Hm0 Hl Ho. by apply merged_generate_ok.
  - rewrite (call_stream_ok _ (krovetz_out t (2 * h) k) (krovetz_holds k)); try done.
    + pose proof (ref_blocks_calls (2 * h) k (BPI t * LOOP_ITERATIONS) 0 n') as Hc.
      rewrite Z.mul_0_l in Hc. by rewrite Hn, <-Hc.
    + intros. by apply krovetz_out_zlen.
    + intros m0 o i Hm0 Hl Ho. by apply krovetz_generate_ok.
  - rewrite ref_blocks_zlen by done. lia.
Qed.

Lemma simd_stream_is_portable_stream_witness :
  exists m1 m2 stream, chacha_merged_state_setup (zeros MAX_STATE_LEN) (zeros 40) = Some m1 /\
    chacha_krovetz_state_setup (zeros MAX_STATE_LEN) (zeros 40) = Some m2 /\
    call_stream (chacha_merged_generate 8) 1024 m1 0 3 = Some stream /\
    call_stream (chacha_krovetz_generate (NEON false) 8) (OUTPUT_LEN (NEON false)) m2 0 4 =
      Some stream /\
    zlen stream = 1024 * Z.of_nat 3.
Proof.
  apply (simd_stream_is_portable_stream (NEON false) 4 (zeros MAX_STATE_LEN) (zeros 40) 3 4);
    [reflexivity|reflexivity|vm_compute; discriminate|reflexivity].
Defined.
