(* ===== verification/ChaChaPrf.v ===== *)
(** * The PRFs of the table as one cipher

    Every PRF of [ALL_PRFS] is ChaCha with 8, 12 or 20 rounds, in calls of a
    number of 64-byte blocks that depends on the implementation. [ChaChaPrf] is
    what the models of the repository's tests are proved against. *)
From S2P Require Import Prelude Words Memory Internal Spec Prng Refine ChaChaRef ChaChaMerged ChaChaKrovetz.
Local Open Scope Z_scope.

(** Call number [i] of [generate] yields [step] blocks of [rounds]-round ChaCha
    from block [step * i], the block number wrapping at 2^32. *)
Class ChaChaPrf (p : ottery_prf) {PS : PrfSpec p} (rounds : nat) (step : Z) : Prop := {
  chacha_step : 0 < step <= 16;
  chacha_state_bytes : state_bytes p = 40;
  chacha_output_len : output_len p = 64 * step;
  chacha_out : forall k i, zlen k = 40 -> 0 <= i ->
    prf_out p k (u32 i) = seqZ (step * i) step ≫= ref_block rounds k;
}.

(** ** Lemmas *)

Lemma u32_add_l a b : u32 (u32 a + b) = u32 (a + b).
Proof. unfold u32. by rewrite Zplus_mod_idemp_l. Qed.

(** A run of blocks from a wrapped block number. *)
Lemma ref_blocks_wrap rounds k c n :
  0 <= n -> seqZ (u32 c) n ≫= ref_block rounds k = seqZ c n ≫= ref_block rounds k.
Proof.
  intros Hn. rewrite <-(Z2Nat.id n) by done. generalize (Z.to_nat n). intros m. revert c.
  induction m as [|m IH]; intros c; [done|].
  rewrite Nat2Z.inj_succ, (seqZ_cons (u32 c)), (seqZ_cons c), Z.pred_succ, !bind_cons, ref_block_u32 by lia.
  f_equal. rewrite <-!Z.add_1_r, <-(IH (u32 c + 1)), u32_add_l. apply IH.
Qed.

Lemma u32_mul_step i s : u32 (u32 i * s) = u32 (s * i).
Proof. unfold u32. by rewrite Zmult_mod_idemp_l, Z.mul_comm. Qed.

(** ** Runs of calls *)

Lemma blocks_add PRF k c n m :
  blocks PRF k c (n + m) = blocks PRF k c n ++ blocks PRF k (c + Z.of_nat n) m.
Proof.
  revert c. induction n as [|n IH]; intros c; [by rewrite Z.add_0_r|].
  cbn [blocks Nat.add]. rewrite IH, <-app_assoc. do 3 f_equal. lia.
Qed.

(** The calls of a ChaCha implementation run through the blocks of the stream. *)
Lemma blocks_ref {p} {PS : PrfSpec p} {rounds step} {CC : ChaChaPrf p rounds step} k c m :
  zlen k = 40 -> 0 <= c ->
  blocks (prf_out p) k c m = ref_blocks rounds k (step * c) (Z.to_nat step * m).
Proof.
  intros Hk. pose proof chacha_step. revert c. induction m as [|m IH]; intros c Hc.
  { by rewrite Nat.mul_0_r. }
  cbn [blocks]. rewrite IH, chacha_out by (done || lia).
  rewrite Nat.mul_succ_r, Nat.add_comm, ref_blocks_app. unfold ref_blocks.
  rewrite Z2Nat.id by lia. do 3 f_equal. lia.
Qed.

(** ** The instances *)

Lemma merged_chacha rounds k i :
  merged_out rounds k (u32 i) = seqZ (16 * i) 16 ≫= ref_block rounds k.
Proof.
  unfold merged_out, keystream, ChaChaMerged.IDX_STEP. rewrite u32_mul_step, <-ref_blocks_wrap by lia.
  change (Z.of_nat (Z.to_nat 16)) with 16.
  pose proof (block_position_room i) as Hr. unfold ChaChaMerged.IDX_STEP in Hr. rewrite Z.mul_comm in Hr.
  pose proof (u32_range (16 * i)). apply Forall_bind_ext. apply Forall_forall. intros c Hc.
  apply elem_of_seqZ in Hc. unfold ref_block. by rewrite u32_small by lia.
Qed.

Lemma krovetz_chacha t rounds k i :
  krovetz_out t rounds k (u32 i) =
    seqZ (Z.of_nat (BPI t * LOOP_ITERATIONS) * i) (Z.of_nat (BPI t * LOOP_ITERATIONS))
      ≫= ref_block rounds k.
Proof.
  unfold krovetz_out, ref_blocks, ChaChaKrovetz.IDX_STEP.
  by rewrite u32_mul_step, ref_blocks_wrap by lia.
Qed.

Lemma BPI_range t : 0 < Z.of_nat (BPI t * LOOP_ITERATIONS) <= 16.
Proof. by destruct t as [|[] []]. Qed.

#[export] Instance merged8_chacha : ChaChaPrf _ (PS := merged8_spec) 8 16.
Proof. split; [lia|reflexivity|reflexivity|]. intros k i _ _. exact (merged_chacha 8 k i). Qed.
#[export] Instance merged12_chacha : ChaChaPrf _ (PS := merged12_spec) 12 16.
Proof. split; [lia|reflexivity|reflexivity|]. intros k i _ _. exact (merged_chacha 12 k i). Qed.
#[export] Instance merged20_chacha : ChaChaPrf _ (PS := merged20_spec) 20 16.
Proof. split; [lia|reflexivity|reflexivity|]. intros k i _ _. exact (merged_chacha 20 k i). Qed.

Abbreviation krovetz_step t := (Z.of_nat (BPI t * LOOP_ITERATIONS)).

Lemma krovetz_is_chacha t p (PS : PrfSpec p) rounds :
  state_bytes p = 40 -> output_len p = ChaChaKrovetz.OUTPUT_LEN t ->
  (forall k i, prf_out p k i = krovetz_out t rounds k i) -> ChaChaPrf p rounds (krovetz_step t).
Proof.
  intros Hs Ho Hp. split; [apply BPI_range|done| |].
  - rewrite Ho. unfold ChaChaKrovetz.OUTPUT_LEN, ChaChaKrovetz.IDX_STEP. lia.
  - intros. rewrite Hp. apply krovetz_chacha.
Qed.

#[export] Instance krovetz8_chacha t : ChaChaPrf _ (PS := krovetz8_spec t) 8 (krovetz_step t).
Proof. apply krovetz_is_chacha; reflexivity. Qed.
#[export] Instance krovetz12_chacha t : ChaChaPrf _ (PS := krovetz12_spec t) 12 (krovetz_step t).
Proof. apply krovetz_is_chacha; reflexivity. Qed.
#[export] Instance krovetz20_chacha t : ChaChaPrf _ (PS := krovetz20_spec t) 20 (krovetz_step t).
Proof. apply krovetz_is_chacha; reflexivity. Qed.
