(* ===== verification/Os.v ===== *)
(** * The process the library runs in

    What the library calls but does not define: the operating system, the CPU
    and the C library's lock primitives, as a class of functions over an
    abstract world; the library's own process-wide variables; and the monad in
    which its stateful functions are written. A computation ends by returning,
    by [abort()], by undefined behaviour (an access outside an object, a failed
    assertion, misuse of a lock), or, in the one retry loop that random draws
    control, by running out of the turns it was given. *)
From S2P Require Import Prelude Words Memory Internal ChaChaKrovetz.
Local Open Scope Z_scope.

(** ** The operating system and the CPU *)

(** The result of [fstat]: the fields the library reads. *)
Record stat := mk_stat { st_mode : Z; st_ino : Z }.

(** The primitives the library calls. Integer results are those of the C
    functions; [os_read] also gives the bytes it stored, [os_rdrand] the
    register and the carry flag, [os_cpuid] eax, ebx, ecx and edx. *)
Class OS (W : Type) := {
  os_getpid : W -> Z;
  os_open : string -> W -> Z * W;
  os_fstat : Z -> W -> Z * stat * W;
  os_read : Z -> Z -> W -> Z * list byte * W;
  os_write : Z -> list byte -> W -> Z * W;
  os_close : Z -> W -> W;
  os_socket : Z -> W -> Z * W;
  os_connect : Z -> sockaddr -> Z -> W -> Z * W;
  os_CryptAcquireContext : W -> Z * Z * W;
  os_CryptGenRandom : Z -> Z -> W -> Z * list byte * W;
  os_CryptReleaseContext : Z -> W -> W;
  os_rdrand : W -> Z * Z * W;
  os_cpuid : Z -> W -> Z * Z * Z * Z;
  os_pthread_mutex_init : W -> Z * W;
  os_InitializeCriticalSection : W -> Z * W;
}.

(** What the documentation of these primitives promises. *)
Class OSLaws {W} (OS0 : OS W) : Prop := {
  os_read_law : forall fd n w r bs w',
    0 <= n -> os_read fd n w = (r, bs, w') ->
    -1 <= r <= n /\ (0 < r -> zlen bs = r);
  os_crypt_law : forall pr n w r bs w',
    0 <= n -> os_CryptGenRandom pr n w = (r, bs, w') -> r <> 0 -> zlen bs = n;
}.

(** ** The platform *)

(** The macros by which the sources tell the processor and the compiler. *)
Inductive cpu_macro :=
  i386 | __i386 | __M_IX86 | _M_IX86 | __x86_64 | _M_AMD64 | __INTEL_COMPILER | __arm__ | _M_ARM | _MSC_VER.

(** Preprocessor facts about the target that are not OTTERY_NO_ options of
    [BuildConfig]; the targets are those chacha_krovetz.c is compiled for. *)
Class Platform := {
  plat_defined : cpu_macro -> bool;
  plat_win32 : bool;
  plat_apple : bool;
  HAVE_PTHREAD : bool;
  OTTERY_NO_SPINLOCKS : bool;
  HAVE_SIMD_CHACHA : option target;
  HAVE_SIMD_CHACHA_2 : option target;
  sizeof_ottery_state : Z;
  sizeof_ottery_config : Z;
}.

(** The lock implementation that src/ottery-threading.h selects. *)
Inductive lock_kind := PTHREADS | CRITICAL_SECTION | OSATOMIC_LOCKS | NO_LOCKS.

Definition lock_impl {BC : BuildConfig} {PL : Platform} : lock_kind :=
  if OTTERY_NO_LOCKS then NO_LOCKS
  else if plat_apple && negb OTTERY_NO_SPINLOCKS then OSATOMIC_LOCKS
  else if plat_win32 then CRITICAL_SECTION
  else if HAVE_PTHREAD then PTHREADS
  else NO_LOCKS.

(** ** The process *)

(** The world, [disabled_cpu_capabilities] of src/ottery_cpuinfo.c and
    [ottery_fatal_handler] of src/ottery.c. A handler is a user function: it
    may change the world, and returns. *)
Record process (W : Type) := mk_process {
  world : W;
  disabled_cpu_capabilities : Z;
  ottery_fatal_handler : option (Z -> W -> W);
}.
Arguments mk_process {W} _ _ _.
Arguments world {W} _.
Arguments disabled_cpu_capabilities {W} _.
Arguments ottery_fatal_handler {W} _.

Definition set_world {W} (w : W) (s : process W) : process W :=
  mk_process w (disabled_cpu_capabilities s) (ottery_fatal_handler s).

(** ** The monad *)

Inductive outcome (A : Type) := Ret (a : A) | Aborted | Undefined | NoFuel.
Arguments Ret {A} _.
Arguments Aborted {A}.
Arguments Undefined {A}.
Arguments NoFuel {A}.

Definition M (W A : Type) : Type := process W -> outcome (A * process W).

Definition ret {W A} (a : A) : M W A := fun s => Ret (a, s).

Definition bind {W A B} (m : M W A) (f : A -> M W B) : M W B := fun s =>
  match m s with
  | Ret (a, s') => f a s'
  | Aborted => Aborted
  | Undefined => Undefined
  | NoFuel => NoFuel
  end.

Notation "'do' x <- m ; k" := (bind m (fun x => k))
  (at level 10, x name, m at level 100, k at level 200) : ottery_scope.
Notation "'do' ' x <- m ; k" := (bind m (fun x => k))
  (at level 10, x strict pattern, m at level 100, k at level 200) : ottery_scope.
Notation "'do_' m ; k" := (bind m (fun _ => k))
  (at level 10, m at level 100, k at level 200) : ottery_scope.

Definition abort {W A} : M W A := fun _ => Aborted.

(** A computation on buffers, whose [None] is undefined behaviour. *)
Definition lift {W A} (x : option A) : M W A := fun s =>
  match x with Some a => Ret (a, s) | None => Undefined end.

(** A call of an OS primitive. *)
Definition sys {W A} (f : W -> A * W) : M W A := fun s =>
  let '(a, w) := f (world s) in Ret (a, set_world w s).

Definition sys_ {W} (f : W -> W) : M W unit := fun s => Ret (tt, set_world (f (world s)) s).

Definition gets {W A} (f : process W -> A) : M W A := fun s => Ret (f s, s).

Definition getpid {W} {OS0 : OS W} : M W Z := gets (fun s => os_getpid (world s)).

(** ** Locks: src/ottery-threading.h *)

Section Locks.
Context {W : Type} {OS0 : OS W} {BC : BuildConfig} {PL : Platform}.

(** [INIT_LOCK]: whether it failed, and the lock. *)
Definition INIT_LOCK (l : lock_state) : M W (bool * lock_state) :=
  match lock_impl with
  | PTHREADS => bind (sys os_pthread_mutex_init) (fun r =>
      ret (negb (r =? 0), if r =? 0 then LockFree else l))
  | CRITICAL_SECTION => bind (sys os_InitializeCriticalSection) (fun r =>
      ret (r =? 0, if r =? 0 then l else LockFree))
  | OSATOMIC_LOCKS => ret (false, LockFree)
  | NO_LOCKS => ret (false, l)
  end.

(** Locking a lock that is not free, or unlocking one that is not held, is a
    misuse; zeroed memory is a free spin lock. *)
Definition ACQUIRE_LOCK (l : lock_state) : M W lock_state :=
  match lock_impl, l with
  | NO_LOCKS, _ => ret l
  | _, LockFree | OSATOMIC_LOCKS, LockUninit => ret LockHeld
  | _, _ => lift None
  end.

Definition RELEASE_LOCK (l : lock_state) : M W lock_state :=
  match lock_impl, l with
  | NO_LOCKS, _ => ret l
  | _, LockHeld => ret LockFree
  | _, _ => lift None
  end.

Definition DESTROY_LOCK (l : lock_state) : M W lock_state :=
  match lock_impl, l with
  | (NO_LOCKS | OSATOMIC_LOCKS), _ => ret l
  | _, LockFree => ret LockUninit
  | _, _ => lift None
  end.

Definition LOCK (st : ottery_state) : M W ottery_state :=
  bind (ACQUIRE_LOCK (st_mutex st)) (fun l => ret (set_mutex l st)).

Definition UNLOCK (st : ottery_state) : M W ottery_state :=
  bind (RELEASE_LOCK (st_mutex st)) (fun l => ret (set_mutex l st)).

End Locks.

(** ** Running computations *)

Lemma bind_Ret {W A B} (m : M W A) (f : A -> M W B) s a s' :
  m s = Ret (a, s') -> bind m f s = f a s'.
Proof. intros H. unfold bind. by rewrite H. Qed.

Lemma bind_ret {W A B} (a : A) (f : A -> M W B) s : bind (ret a) f s = f a s.
Proof. reflexivity. Qed.

Lemma bind_lift_Some {W A B} (a : A) (f : A -> M W B) s :
  bind (lift (Some a)) f s = f a s.
Proof. reflexivity. Qed.

Lemma bind_gets {W A B} (g : process W -> A) (f : A -> M W B) s :
  bind (gets g) f s = f (g s) s.
Proof. reflexivity. Qed.

Lemma bind_sys {W A B} (f : W -> A * W) (k : A -> M W B) s :
  bind (sys f) k s = k (fst (f (world s))) (set_world (snd (f (world s))) s).
Proof. unfold bind, sys. by destruct (f (world s)). Qed.

Lemma bind_sys_ {W B} (f : W -> W) (k : unit -> M W B) s :
  bind (sys_ f) k s = k tt (set_world (f (world s)) s).
Proof. reflexivity. Qed.

Lemma bind_assoc {W A B C} (m : M W A) (f : A -> M W B) (g : B -> M W C) s :
  bind (bind m f) g s = bind m (fun a => bind (f a) g) s.
Proof. unfold bind. by destruct (m s) as [[]| | |]. Qed.

(** Only the world differs. *)
Record same_process {W} (s s' : process W) : Prop := mk_same_process {
  sp_disabled : disabled_cpu_capabilities s' = disabled_cpu_capabilities s;
  sp_handler : ottery_fatal_handler s' = ottery_fatal_handler s;
}.

#[export] Instance same_process_preorder {W} : PreOrder (@same_process W).
Proof. split; [by intros ?|]. intros a b c [] []. split; congruence. Qed.

Lemma same_process_world {W} (s s' : process W) w :
  same_process s s' -> same_process s (set_world w s').
Proof. by intros []. Qed.

#[export] Hint Resolve same_process_world : ottery.
#[export] Hint Extern 1 (same_process _ _) => reflexivity : ottery.

(** A bind that returned: its first part returned. *)
Lemma bind_inv {W A B} (m : M W A) (f : A -> M W B) s b s' :
  bind m f s = Ret (b, s') -> exists a s1, m s = Ret (a, s1) /\ f a s1 = Ret (b, s').
Proof. unfold bind. destruct (m s) as [[a s1]| | |]; try discriminate. eauto. Qed.

Lemma lift_inv {W A} (x : option A) (s : process W) a s' :
  lift x s = Ret (a, s') -> x = Some a /\ s' = s.
Proof. unfold lift. destruct x; [|discriminate]. by intros [= <- <-]. Qed.
