(* ===== verification/CpuInfo.v ===== *)
(** * CPU capabilities: src/ottery_cpuinfo.c *)
From S2P Require Import Prelude Words Memory Internal Os.
Local Open Scope Z_scope.

(** ** The machine, and how it executes cpuid *)

Section Machine.
Context (defined : cpu_macro -> bool).

Definition X86_32 : bool := defined i386 || defined __i386 || defined __M_IX86 || defined _M_IX86.
Definition X86_64 : bool := negb X86_32 && (defined __x86_64 || defined _M_AMD64).
Definition X86 : bool := X86_32 || X86_64.
Definition ARM : bool := defined __arm__ || defined _M_ARM.

(** The registers the assembly names: the four of cpuid, and the one the
    compiler chooses for operand 1. *)
Record cpu_regs := mk_cpu_regs { eax : Z; ebx : Z; ecx : Z; edx : Z; operand1 : Z }.

Context {W : Type} {OS0 : OS W}.

(** The instruction: the leaf is in eax. *)
Definition cpuid_insn (w : W) (r : cpu_regs) : cpu_regs :=
  let '(a, b, c, d) := os_cpuid (eax r) w in mk_cpu_regs a b c d (operand1 r).

Definition xchgl_ebx_operand1 (r : cpu_regs) : cpu_regs :=
  mk_cpu_regs (eax r) (operand1 r) (ecx r) (edx r) (ebx r).

Definition load_eax (index : Z) (r : cpu_regs) : cpu_regs :=
  mk_cpu_regs index (ebx r) (ecx r) (edx r) (operand1 r).

(** [cpuid(index, regs)], from the registers [r]: what it stores and the
    registers it leaves. [ebx_free] is the compiler's choice, where ebx is not
    reserved, of ebx itself for operand 1. *)
Definition cpuid (ebx_free : bool) (w : W) (index : Z) (r : cpu_regs) : (Z * Z * Z * Z) * cpu_regs :=
  if defined _MSC_VER then (os_cpuid index w, r)
  else if X86_64 then
    let r := cpuid_insn w (load_eax index r) in ((eax r, ebx r, ecx r, edx r), r)
  else if ebx_free then
    let r := cpuid_insn w (load_eax index r) in ((eax r, ebx r, ecx r, edx r), r)
  else
    let r := xchgl_ebx_operand1 (cpuid_insn w (xchgl_ebx_operand1 (load_eax index r))) in
    ((eax r, operand1 r, ecx r, edx r), r).

(** However it is executed, the result is that of the instruction. *)
Lemma cpuid_result ebx_free w index r : fst (cpuid ebx_free w index r) = os_cpuid index w.
Proof.
  unfold cpuid, cpuid_insn, xchgl_ebx_operand1, load_eax. cbn [eax ebx ecx edx operand1].
  destruct (os_cpuid index w) as [[[a b] c] d]. by destruct (defined _MSC_VER), X86_64, ebx_free.
Qed.

(** The 32-bit sequence leaves ebx, the register of position-independent code,
    as it found it. *)
Lemma cpuid_keeps_ebx w index r :
  X86_64 = false -> ebx (snd (cpuid false w index r)) = ebx r.
Proof.
  intros Hx. unfold cpuid, cpuid_insn, xchgl_ebx_operand1, load_eax. rewrite Hx.
  cbn [eax ebx ecx edx operand1]. destruct (os_cpuid index w) as [[[a b] c] d].
  by destruct (defined _MSC_VER).
Qed.

End Machine.

(** ** Capabilities *)

Section CpuInfo.
Context {W : Type} {OS0 : OS W} {PL : Platform}.

Definition ottery_disable_cpu_capabilities_ (disable : Z) : M W unit := fun s =>
  Ret (tt, mk_process (world s) (Z.lor (disabled_cpu_capabilities s) disable)
             (ottery_fatal_handler s)).

(** The capabilities of the CPU, whatever has been disabled. *)
Definition cpu_capabilities (w : W) : Z :=
  if X86 plat_defined then
    let '(_, _, ecx, edx) := os_cpuid 1 w in
    let cap := 0 in
    let cap := if negb (Z.land edx (Z.shiftl 1 26) =? 0) then Z.lor cap OTTERY_CPUCAP_SIMD else cap in
    let cap := if negb (Z.land ecx (Z.shiftl 1 9) =? 0) then Z.lor cap OTTERY_CPUCAP_SSSE3 else cap in
    let cap := if negb (Z.land ecx (Z.shiftl 1 25) =? 0) then Z.lor cap OTTERY_CPUCAP_AES else cap in
    if negb (Z.land ecx (Z.shiftl 1 30) =? 0) then Z.lor cap OTTERY_CPUCAP_RAND else cap
  else OTTERY_CPUCAP_SIMD.

Definition ottery_get_cpu_capabilities_ : M W Z :=
  gets (fun s => Z.ldiff (cpu_capabilities (world s)) (disabled_cpu_capabilities s)).

End CpuInfo.
