(* ===== verification/Entropy.v ===== *)
(** * Entropy sources: src/ottery_entropy.c and the files it includes

    The four sources (CryptGenRandom, a random device, EGD, RDRAND), each with
    its flags, the table the platform selects, and [ottery_get_entropy_], which
    runs them in turn. A source writes at an offset of the caller's buffer. *)
From S2P Require Import Prelude Words Memory Internal Os CpuInfo.
Local Open Scope Z_scope.
Local Open Scope ottery_scope.

Section Entropy.
Context {W : Type} {OS0 : OS W} {PL : Platform}.

(** The outcome of a source: its error code, the entropy state and the buffer. *)
Definition source_result : Type := Z * option ottery_entropy_state * list byte.

(** ** ottery_entropy_cryptgenrandom.c *)

Definition ottery_get_entropy_cryptgenrandom (cfg : option ottery_entropy_config)
    (state : option ottery_entropy_state) (out : list byte) (off outlen : Z)
  : M W source_result :=
  do '(ok, provider) <- sys os_CryptAcquireContext;
  if ok =? 0 then ret (OTTERY_ERR_INIT_STRONG_RNG, state, out)
  else
    do '(ok, bs) <- sys (os_CryptGenRandom provider outlen);
    if ok =? 0 then
      do_ sys_ (os_CryptReleaseContext provider);
      ret (OTTERY_ERR_ACCESS_STRONG_RNG, state, out)
    else
      do out' <- lift (mwrite out off bs);
      do_ sys_ (os_CryptReleaseContext provider);
      ret (0, state, out').

(** ** ottery_entropy_urandom.c *)

(** The [while (n)] loop: [o] is where [outp] points. *)
Fixpoint read_n_bytes_loop (fuel : nat) (fd : Z) (out : list byte) (o n : Z)
  : M W (list byte * Z) :=
  if n =? 0 then ret (out, o)
  else
    match fuel with
    | O => fun _ => NoFuel
    | S fuel =>
        do '(r, bs) <- sys (os_read fd n);
        if (r <=? 0) || (n <? r) then ret (out, o)
        else
          do out' <- lift (mwrite out o bs);
          read_n_bytes_loop fuel fd out' (o + r) (n - r)
    end.

Definition ottery_read_n_bytes_from_file_ (fd : Z) (out : list byte) (off n : Z)
  : M W (list byte * Z) :=
  do '(out', o) <- read_n_bytes_loop (Z.to_nat n) fd out off n;
  ret (out', o - off).

Definition S_IFCHR : Z := 0x2000.

Definition ottery_get_entropy_urandom (cfg : option ottery_entropy_config)
    (state : option ottery_entropy_state) (out : list byte) (off outlen : Z)
  : M W source_result :=
  let check_device :=
    match cfg with None => true | Some c => negb (allow_nondev_urandom c) end in
  let user_fd :=
    match cfg with
    | Some c => if urandom_fd_is_set c && (0 <=? urandom_fd c) then Some (urandom_fd c) else None
    | None => None
    end in
  do '(fd, own_fd) <-
    match user_fd with
    | Some fd => ret (fd, false)
    | None =>
        let urandom_fname :=
          match cfg with
          | Some c => default "/dev/urandom"%string (urandom_fname c)
          | None => "/dev/urandom"%string
          end in
        do fd <- sys (os_open urandom_fname); ret (fd, true)
    end;
  if own_fd && (fd <? 0) then ret (OTTERY_ERR_INIT_STRONG_RNG, state, out)
  else
    (* label end *)
    let finish (result : Z) (state : option ottery_entropy_state) (out : list byte) :=
      do_ (if own_fd then sys_ (os_close fd) else ret tt);
      ret (result, state, out) in
    do '(r, st) <- sys (os_fstat fd);
    if r <? 0 then finish OTTERY_ERR_INIT_STRONG_RNG state out
    else if check_device && (Z.land (st_mode st) S_IFCHR =? 0) then
      finish OTTERY_ERR_INIT_STRONG_RNG state out
    else
      let ino := u64 (st_ino st) in
      let changed :=
        match state with
        | Some es => check_device && negb (urandom_fd_inode es =? 0)
                       && negb (ino =? urandom_fd_inode es)
        | None => false
        end in
      if changed then
        do_ sys_ (os_close fd);
        ret (OTTERY_ERR_ACCESS_STRONG_RNG, state, out)
      else
        let state' :=
          match state with
          | Some es =>
              if check_device && (urandom_fd_inode es =? 0)
              then Some (mk_entropy_state ino) else Some es
          | None => None
          end in
        do '(out', n) <- ottery_read_n_bytes_from_file_ fd out off outlen;
        finish (if (n <? 0) || negb (n =? outlen) then OTTERY_ERR_ACCESS_STRONG_RNG else 0)
          state' out'.

(** ** ottery_entropy_egd.c *)

Definition ottery_get_entropy_egd (cfg : option ottery_entropy_config)
    (state : option ottery_entropy_state) (out : list byte) (off outlen : Z)
  : M W source_result :=
  match cfg with
  | Some (mk_entropy_config _ _ _ (Some egd_sockaddr) egd_socklen _ _ _) =>
      if egd_socklen =? 0 then ret (OTTERY_ERR_INIT_STRONG_RNG, state, out)
      else if 255 <? outlen then ret (OTTERY_ERR_ACCESS_STRONG_RNG, state, out)
      else
        do sock <- sys (os_socket (sa_family egd_sockaddr));
        if sock <? 0 then ret (OTTERY_ERR_INIT_STRONG_RNG, state, out)
        else
          (* label out *)
          let finish (result : Z) (out : list byte) :=
            do_ sys_ (os_close sock); ret (result, state, out) in
          do r <- sys (os_connect sock egd_sockaddr egd_socklen);
          if r <? 0 then finish OTTERY_ERR_INIT_STRONG_RNG out
          else
            let msg := [x01; byte_of_Z outlen] in
            do r <- sys (os_write sock msg);
            if negb (r =? 2) then finish OTTERY_ERR_ACCESS_STRONG_RNG out
            else
              do '(r, bs) <- sys (os_read sock 1);
              if negb (r =? 1) then finish OTTERY_ERR_ACCESS_STRONG_RNG out
              else
                do msg <- lift (mwrite msg 0 bs);
                if negb (le_decode (take 1 msg) =? outlen)
                then finish OTTERY_ERR_ACCESS_STRONG_RNG out
                else
                  do '(out', n) <- ottery_read_n_bytes_from_file_ sock out off outlen;
                  if (n <? 0) || negb (n =? outlen)
                  then finish OTTERY_ERR_ACCESS_STRONG_RNG out'
                  else finish 0 out'
  | _ => ret (OTTERY_ERR_INIT_STRONG_RNG, state, out)
  end.

(** ** ottery_entropy_rdrand.c *)

(** [rdrand(up)]: the register, and 0 or an error. *)
Definition rdrand : M W (Z * Z) :=
  do '(therand, status) <- sys os_rdrand;
  ret (therand, if status =? 1 then 0 else OTTERY_ERR_INIT_STRONG_RNG).

(** The [while (outlen >= 4)] loop; [up] is an offset. *)
Fixpoint rdrand_loop (fuel : nat) (out : list byte) (up outlen : Z)
  : M W (Z * list byte * Z * Z) :=
  if outlen <? 4 then ret (0, out, up, outlen)
  else
    match fuel with
    | O => fun _ => NoFuel
    | S fuel =>
        do '(v, err) <- rdrand;
        do out' <- lift (mwrite out up (le_encode 4 v));
        if err =? 0 then rdrand_loop fuel out' (up + 4) (outlen - 4)
        else ret (err, out', up, outlen)
    end.

Definition ottery_get_entropy_rdrand (cfg : option ottery_entropy_config)
    (state : option ottery_entropy_state) (out : list byte) (off outlen : Z)
  : M W source_result :=
  do cap <- ottery_get_cpu_capabilities_;
  if Z.land cap OTTERY_CPUCAP_RAND =? 0 then ret (OTTERY_ERR_INIT_STRONG_RNG, state, out)
  else
    do '(err, out', up, rest) <- rdrand_loop (Z.to_nat outlen) out off outlen;
    if negb (err =? 0) then ret (err, state, out')
    else if negb (rest =? 0) then
      do '(tmp, err) <- rdrand;
      if negb (err =? 0) then ret (err, state, out')
      else
        do out'' <- lift (memcpy out' up (le_encode 4 tmp) 0 rest);
        ret (0, state, out'')
    else ret (0, state, out').

(** ** ottery_entropy.c *)

Record ottery_randbytes_source := mk_source {
  fn : option ottery_entropy_config -> option ottery_entropy_state ->
       list byte -> Z -> Z -> M W source_result;
  flags : Z }.

Definition ENTROPY_SOURCE_CRYPTGENRANDOM : ottery_randbytes_source :=
  mk_source ottery_get_entropy_cryptgenrandom
    (Z.lor (Z.lor OTTERY_ENTROPY_SRC_CRYPTGENRANDOM OTTERY_ENTROPY_DOM_OS) OTTERY_ENTROPY_FL_STRONG).
Definition ENTROPY_SOURCE_URANDOM : ottery_randbytes_source :=
  mk_source ottery_get_entropy_urandom
    (Z.lor (Z.lor OTTERY_ENTROPY_SRC_RANDOMDEV OTTERY_ENTROPY_DOM_OS) OTTERY_ENTROPY_FL_STRONG).
Definition ENTROPY_SOURCE_EGD : ottery_randbytes_source :=
  mk_source ottery_get_entropy_egd
    (Z.lor (Z.lor OTTERY_ENTROPY_SRC_EGD OTTERY_ENTROPY_DOM_EGD) OTTERY_ENTROPY_FL_STRONG).
Definition ENTROPY_SOURCE_RDRAND : ottery_randbytes_source :=
  mk_source ottery_get_entropy_rdrand
    (Z.lor (Z.lor (Z.lor OTTERY_ENTROPY_SRC_RDRAND OTTERY_ENTROPY_DOM_CPU)
              OTTERY_ENTROPY_FL_FAST) OTTERY_ENTROPY_FL_STRONG).

(** The macros under which the file compiles its source. *)
Definition rdrand_compiled : bool :=
  plat_defined i386 || plat_defined __i386 || plat_defined __x86_64 || plat_defined __M_IX86 ||
  plat_defined _M_IX86 || plat_defined __INTEL_COMPILER.

(** The table, less its null terminator. *)
Definition RAND_SOURCES : list ottery_randbytes_source :=
  (if plat_win32 then [ENTROPY_SOURCE_CRYPTGENRANDOM] else []) ++
  (if plat_win32 then [] else [ENTROPY_SOURCE_URANDOM]) ++
  (if plat_win32 then [] else [ENTROPY_SOURCE_EGD]) ++
  (if rdrand_compiled then [ENTROPY_SOURCE_RDRAND] else []).

Definition ottery_get_entropy_bufsize_ (n : Z) : Z := u64 (n * zlen RAND_SOURCES).

(** The local variables of [ottery_get_entropy_] that its loop changes. *)
Record entropy_vars := mk_vars {
  ev_state : option ottery_entropy_state;
  ev_bytes : list byte;
  ev_next : Z;
  ev_got : Z;
  ev_last_err : Z }.

(** [for (i=0; RAND_SOURCES[i].fn; ++i)] *)
Fixpoint entropy_loop (config : option ottery_entropy_config) (select_sources n buflen : Z)
    (srcs : list ottery_randbytes_source) (v : entropy_vars) : M W entropy_vars :=
  match srcs with
  | [] => ret v
  | src :: srcs =>
      let disabled := match config with Some c => disabled_sources c | None => 0 end in
      let fl := flags src in
      if negb (Z.land fl disabled =? 0) then
        entropy_loop config select_sources n buflen srcs v
      else if negb (Z.land fl select_sources =? select_sources) then
        entropy_loop config select_sources n buflen srcs v
      else if negb (Z.land fl (Z.land (ev_got v) OTTERY_ENTROPY_DOM_MASK) =? 0) then
        entropy_loop config select_sources n buflen srcs v
      else if buflen <? ev_next v + n then ret v
      else
        do '(err, state', bytes') <- fn src config (ev_state v) (ev_bytes v) (ev_next v) n;
        let v' :=
          if err =? 0 then
            let fl' :=
              match config with
              | Some c =>
                  if negb (Z.land fl (weak_sources c) =? 0)
                  then Z.ldiff fl OTTERY_ENTROPY_FL_STRONG else fl
              | None => fl
              end in
            mk_vars state' bytes' (ev_next v + n) (Z.lor (ev_got v) fl') (ev_last_err v)
          else mk_vars state' bytes' (ev_next v) (ev_got v) err in
        entropy_loop config select_sources n buflen srcs v'
  end.

(** What [ottery_get_entropy_] returns and leaves behind its pointers. *)
Record entropy_result := mk_entropy_result {
  er_err : Z;
  er_state : option ottery_entropy_state;
  er_bytes : list byte;
  er_buflen : Z;
  er_flags_out : Z }.

Definition ottery_get_entropy_ (config : option ottery_entropy_config)
    (state : option ottery_entropy_state) (select_sources : Z) (bytes : list byte)
    (n buflen : Z) : M W entropy_result :=
  do bytes <- lift (mzero bytes 0 buflen);
  do v <- entropy_loop config select_sources n buflen RAND_SOURCES (mk_vars state bytes 0 0 0);
  if Z.land (ev_got v) OTTERY_ENTROPY_FL_STRONG =? 0 then
    ret (mk_entropy_result
           (if ev_last_err v =? 0 then OTTERY_ERR_INIT_STRONG_RNG else ev_last_err v)
           (ev_state v) (ev_bytes v) buflen 0)
  else ret (mk_entropy_result 0 (ev_state v) (ev_bytes v) (ev_next v) (ev_got v)).

End Entropy.
Arguments ottery_randbytes_source W : clear implicits.

(** ** Where the bytes come from *)

Section OsBytes.
Context {W : Type} {OS0 : OS W}.

(** The reads of [n] bytes from a descriptor: the bytes obtained until all have
    come or a read fails, and the world afterwards. *)
Inductive reads (fd : Z) : Z -> W -> list byte -> W -> Prop :=
  | reads_done w : reads fd 0 w [] w
  | reads_stop n w r bs w' :
      0 < n -> os_read fd n w = (r, bs, w') -> r <= 0 -> reads fd n w [] w'
  | reads_more n w r bs w1 rest w' :
      0 < n -> os_read fd n w = (r, bs, w1) -> 0 < r -> reads fd (n - r) w1 rest w' ->
      reads fd n w (bs ++ rest) w'.

(** Successful executions of the rdrand instruction, and what they gave. *)
Inductive rdrands : W -> list Z -> W -> Prop :=
  | rdrands_nil w : rdrands w [] w
  | rdrands_cons w v w1 vs w' :
      os_rdrand w = (v, 1, w1) -> rdrands w1 vs w' -> rdrands w (v :: vs) w'.

(** The random device: the caller's descriptor if there is one; else the name
    configured, or /dev/urandom. *)
Definition callers_fd (cfg : option ottery_entropy_config) : option Z :=
  match cfg with
  | Some c => if urandom_fd_is_set c && (0 <=? urandom_fd c) then Some (urandom_fd c) else None
  | None => None
  end.

Definition urandom_name (cfg : option ottery_entropy_config) : string :=
  match cfg with
  | Some c => default "/dev/urandom"%string (urandom_fname c)
  | None => "/dev/urandom"%string
  end.

Inductive device_fd (cfg : option ottery_entropy_config) (w : W) : Z -> bool -> W -> Prop :=
  | device_callers fd : callers_fd cfg = Some fd -> device_fd cfg w fd false w
  | device_opened fd w1 :
      callers_fd cfg = None -> os_open (urandom_name cfg) w = (fd, w1) -> 0 <= fd -> device_fd cfg w fd true w1.

(** Unless the configuration allows other files, the device is a character device,
    and the one that the entropy state remembers, if it remembers one. *)
Definition device_passes (cfg : option ottery_entropy_config) (st : option ottery_entropy_state)
    (info : stat) : Prop :=
  match cfg with Some c => allow_nondev_urandom c = true | None => False end \/
  Z.land (st_mode info) S_IFCHR <> 0 /\
  forall es, st = Some es -> urandom_fd_inode es = 0 \/ urandom_fd_inode es = u64 (st_ino info).

(** [os_bytes cfg st n kind w bs w']: the source of that kind, run from [w] to [w']
    with the entropy state [st], obtained the [n] bytes [bs] from the operating
    system or the CPU. *)
Inductive os_bytes (cfg : option ottery_entropy_config) (st : option ottery_entropy_state) (n : Z)
  : Z -> W -> list byte -> W -> Prop :=
  | os_bytes_crypt w ok provider w1 ok' bs w2 :
      os_CryptAcquireContext w = (ok, provider, w1) -> ok <> 0 ->
      os_CryptGenRandom provider n w1 = (ok', bs, w2) -> ok' <> 0 ->
      os_bytes cfg st n OTTERY_ENTROPY_SRC_CRYPTGENRANDOM w bs (os_CryptReleaseContext provider w2)
  | os_bytes_device w fd (own : bool) w1 r info w2 bs w3 :
      device_fd cfg w fd own w1 -> os_fstat fd w1 = (r, info, w2) -> 0 <= r ->
      device_passes cfg st info ->
      reads fd n w2 bs w3 ->
      os_bytes cfg st n OTTERY_ENTROPY_SRC_RANDOMDEV w bs (if own then os_close fd w3 else w3)
  | os_bytes_egd w c addr sock w1 r1 w2 w3 hd w4 bs w5 :
      cfg = Some c -> egd_sockaddr c = Some addr ->
      os_socket (sa_family addr) w = (sock, w1) -> 0 <= sock ->
      os_connect sock addr (egd_socklen c) w1 = (r1, w2) -> 0 <= r1 ->
      os_write sock [x01; byte_of_Z n] w2 = (2, w3) ->
      os_read sock 1 w3 = (1, hd, w4) -> le_decode hd = n -> n <= 255 ->
      reads sock n w4 bs w5 ->
      os_bytes cfg st n OTTERY_ENTROPY_SRC_EGD w bs (os_close sock w5)
  | os_bytes_rdrand w vs w' :
      rdrands w vs w' -> os_bytes cfg st n OTTERY_ENTROPY_SRC_RDRAND w
        (take (Z.to_nat n) (vs ≫= le_encode 4)) w'.

(** The kind of a source. *)
Definition kind (src : ottery_randbytes_source W) : Z :=
  Z.land (flags src) OTTERY_ENTROPY_ALL_SOURCES.

(** [bs] are [n] bytes that the source [src] obtained. *)
Definition yielded (cfg : option ottery_entropy_config) (n : Z)
    (src : ottery_randbytes_source W) (bs : list byte) : Prop :=
  zlen bs = n /\ exists st w w', os_bytes cfg st n (kind src) w bs w'.

(** The run of the sources [used] within one call, from the entropy state [st] and
    the world [w] to [st'] and [w']: each obtained its chunk of [n] bytes where the
    one before it, or others that failed in between, left state and world. *)
Inductive gathers (cfg : option ottery_entropy_config) (n : Z)
  : option ottery_entropy_state -> process W -> list (ottery_randbytes_source W) -> list (list byte) ->
    option ottery_entropy_state -> process W -> Prop :=
  | gathers_nil st s : gathers cfg n st s [] [] st s
  | gathers_failed st s src out off err st1 out1 s1 used chunks st' s' :
      fn src cfg st out off n s = Ret (err, st1, out1, s1) -> err <> 0 ->
      gathers cfg n st1 s1 used chunks st' s' -> gathers cfg n st s used chunks st' s'
  | gathers_used st s src out off st1 out1 s1 bs used chunks st' s' :
      fn src cfg st out off n s = Ret (0, st1, out1, s1) -> slice out1 off n = bs -> zlen bs = n ->
      os_bytes cfg st n (kind src) (world s) bs (world s1) ->
      gathers cfg n st1 s1 used chunks st' s' -> gathers cfg n st s (src :: used) (bs :: chunks) st' s'.

Lemma rdrands_app w vs w1 ws w2 :
  rdrands w vs w1 -> rdrands w1 ws w2 -> rdrands w (vs ++ ws) w2.
Proof. induction 1 as [|w v w0 vs w1 E _ IH]; [done|]. intros Hw. by econstructor; [|apply IH]. Qed.

End OsBytes.

(** ** Every source returns, and writes only where it may *)

Section EntropyLaws.
Context {W : Type} {OS0 : OS W} {PL : Platform} {OL : OSLaws OS0}.

(** The outcome of a source of kind [k] started in process [s] on state [st]
    with room for [n] bytes at [off]: it returns an error code, changes nothing
    else of the buffer, keeps the entropy state's presence, and on success has
    written the [n] bytes it obtained. *)
Definition source_post (k : Z) (cfg : option ottery_entropy_config)
    (st : option ottery_entropy_state) (out : list byte) (off n : Z)
    (s : process W) (r : outcome (source_result * process W)) : Prop :=
  exists err st' out' s', r = Ret (err, st', out', s') /\
    wrote off n out out' /\ same_process s s' /\
    (err = 0 \/ err = OTTERY_ERR_INIT_STRONG_RNG \/ err = OTTERY_ERR_ACCESS_STRONG_RNG) /\
    (is_Some st -> is_Some st') /\
    (err = 0 -> exists bs, zlen bs = n /\ out' = splice out off bs /\
       os_bytes cfg st n k (world s) bs (world s')).

Definition source_ok (k : Z) (f : option ottery_entropy_config -> option ottery_entropy_state ->
    list byte -> Z -> Z -> M W source_result) : Prop :=
  forall cfg st out off n s, 0 <= off -> 0 <= n -> off + n <= zlen out ->
  source_post k cfg st out off n s (f cfg st out off n s).

(** What a read yields is determined. *)
Lemma reads_det fd n w bs w' :
  reads fd n w bs w' -> forall bs2 w2, reads fd n w bs2 w2 -> bs2 = bs /\ w2 = w'.
Proof.
  induction 1 as [w|n w r bs w' Hn E Hr|n w r bs w1 rest w' Hn E Hr _ IH]; intros bs2 w2 H2;
    inversion H2; subst; try lia; try done; rewrite E in *; simplify_eq; try lia; try done.
  destruct (IH _ _ ltac:(eassumption)) as [-> ->]. done.
Qed.

(** Follow one monadic step of the goal. *)
Ltac mstep :=
  first
    [ rewrite bind_sys | rewrite bind_sys_ | rewrite bind_ret
    | rewrite bind_lift_Some | rewrite bind_gets | rewrite bind_assoc ];
  cbv beta.

Lemma read_n_bytes_loop_ok fuel fd out o n (s : process W) :
  0 <= o -> 0 <= n -> o + n <= zlen out -> (Z.to_nat n <= fuel)%nat ->
  exists bs w', reads fd n (world s) bs w' /\ zlen bs <= n /\
    read_n_bytes_loop fuel fd out o n s = Ret (splice out o bs, o + zlen bs, set_world w' s).
Proof.
  revert out o n s. induction fuel as [|fuel IH]; intros out o n s Ho Hn Hout Hf;
    cbn [read_n_bytes_loop].
  - assert (n = 0) as -> by lia. exists [], (world s). split; [constructor|].
    rewrite zlen_nil, splice_nil, Z.add_0_r. split; [lia|]. by destruct s.
  - destruct (Z.eqb_spec n 0) as [->|Hnz].
    { exists [], (world s). split; [constructor|].
      rewrite zlen_nil, splice_nil, Z.add_0_r. split; [lia|]. by destruct s. }
    rewrite bind_sys. destruct (os_read fd n (world s)) as [[r bs] w] eqn:E. cbn [fst snd].
    destruct (os_read_law fd n (world s) r bs w Hn E) as [Hr Hbs].
    destruct (Z.leb_spec r 0) as [Hle|Hgt]; cbn [orb].
    { exists [], w. split; [by apply (reads_stop fd n (world s) r bs w); [lia|..]|].
      rewrite zlen_nil, splice_nil, Z.add_0_r. split; [lia|done]. }
    rewrite (proj2 (Z.ltb_ge n r)) by lia. rewrite mwrite_ok by lia. rewrite bind_lift_Some.
    destruct (IH (splice out o bs) (o + r) (n - r) (set_world w s)) as (rest & w' & Hrd & Hl & E');
      [lia|lia|rewrite zlen_splice; lia|lia|].
    exists (bs ++ rest), w'. split; [by apply (reads_more fd n (world s) r bs w); [lia|..]|].
    rewrite zlen_app. split; [lia|]. rewrite E', splice_splice_app by lia.
    f_equal. f_equal. f_equal. lia.
Qed.

Lemma read_n_bytes_ok fd out off n (s : process W) :
  0 <= off -> 0 <= n -> off + n <= zlen out ->
  exists bs w', reads fd n (world s) bs w' /\ zlen bs <= n /\
    ottery_read_n_bytes_from_file_ fd out off n s =
      Ret (splice out off bs, zlen bs, set_world w' s).
Proof.
  intros Ho Hn Hout. unfold ottery_read_n_bytes_from_file_.
  destruct (read_n_bytes_loop_ok (Z.to_nat n) fd out off n s) as (bs & w' & Hr & Hl & E);
    [done..|]. exists bs, w'. split; [done|]. split; [done|].
  rewrite (bind_Ret _ _ _ _ _ E). unfold ret. do 3 f_equal. lia.
Qed.

Lemma source_post_ret k cfg st out off n s err st' out' s' :
  wrote off n out out' -> same_process s s' ->
  (err = 0 \/ err = OTTERY_ERR_INIT_STRONG_RNG \/ err = OTTERY_ERR_ACCESS_STRONG_RNG) ->
  (is_Some st -> is_Some st') ->
  (err = 0 -> exists bs, zlen bs = n /\ out' = splice out off bs /\
     os_bytes cfg st n k (world s) bs (world s')) ->
  source_post k cfg st out off n s (ret (err, st', out') s').
Proof. intros. by exists err, st', out', s'. Qed.

(** Close a failing return: the side conditions are routine. *)
Ltac source_fail :=
  apply source_post_ret;
    [ first [assumption | reflexivity]
    | first [assumption | repeat apply same_process_world; first [assumption | reflexivity]]
    | auto
    | auto
    | first [discriminate | congruence] ].

Lemma cryptgenrandom_ok :
  source_ok OTTERY_ENTROPY_SRC_CRYPTGENRANDOM ottery_get_entropy_cryptgenrandom.
Proof.
  intros cfg st out off n s Ho Hn Hout. unfold ottery_get_entropy_cryptgenrandom. mstep.
  destruct (os_CryptAcquireContext (world s)) as [[ok pr] w] eqn:E0. cbn [fst snd].
  destruct (Z.eqb_spec ok 0) as [|Hok]; [source_fail|]. mstep. cbn [set_world world].
  destruct (os_CryptGenRandom pr n w) as [[ok' bs] w'] eqn:E. cbn [fst snd].
  destruct (Z.eqb_spec ok' 0) as [|Hnz]; [mstep; source_fail|].
  pose proof (os_crypt_law pr n w ok' bs w' Hn E Hnz) as Hl.
  rewrite mwrite_ok by lia. repeat mstep.
  apply source_post_ret; [apply wrote_splice; lia|by repeat apply same_process_world|auto..].
  intros _. exists bs. split; [done|]. split; [done|]. by eapply os_bytes_crypt.
Qed.

(** The choice of a descriptor at the start of the device source. *)
Lemma device_fd_ok (cfg : option ottery_entropy_config) (s : process W) :
  exists fd own w1, (match (match cfg with
       | Some c => if urandom_fd_is_set c && (0 <=? urandom_fd c) then Some (urandom_fd c) else None
       | None => None end) with
     | Some fd => ret (fd, false)
     | None => bind (sys (os_open match cfg with
          | Some c => default "/dev/urandom"%string (urandom_fname c)
          | None => "/dev/urandom"%string end)) (fun fd => ret (fd, true))
     end : M W (Z * bool)) s = Ret (fd, own, set_world w1 s) /\
    (own && (fd <? 0) = false -> device_fd cfg (world s) fd own w1).
Proof.
  fold (urandom_name cfg) (callers_fd cfg).
  assert (callers_fd cfg = None -> exists fd own w1, bind (sys (os_open (urandom_name cfg))) (fun fd => ret (fd, true)) s =
    Ret (fd, own, set_world w1 s) /\ (own && (fd <? 0) = false ->
      device_fd cfg (world s) fd own w1)) as Hopen.
  { intros Hn. rewrite bind_sys. destruct (os_open (urandom_name cfg) (world s)) as [fd w1] eqn:E.
    exists fd, true, w1. split; [done|]. intros Hf%Z.ltb_ge. by eapply device_opened. }
  destruct (callers_fd cfg) as [fd|] eqn:Hc; [|by apply Hopen].
  exists fd, false, (world s). split; [by destruct s|]. intros _. by apply device_callers.
Qed.

Lemma device_passes_ok (cfg : option ottery_entropy_config) (st : option ottery_entropy_state) info :
  let check := match cfg with None => true | Some c => negb (allow_nondev_urandom c) end in
  check && (Z.land (st_mode info) S_IFCHR =? 0) = false ->
  match st with
  | Some es => check && negb (urandom_fd_inode es =? 0) && negb (u64 (st_ino info) =? urandom_fd_inode es)
  | None => false
  end = false -> device_passes cfg st info.
Proof.
  intros check. unfold device_passes. destruct check eqn:Hc; unfold check in Hc.
  - cbn [andb]. intros Hm%Z.eqb_neq Hi. right. split; [done|]. intros es ->.
    destruct (Z.eqb_spec (urandom_fd_inode es) 0); [by left|].
    destruct (Z.eqb_spec (u64 (st_ino info)) (urandom_fd_inode es)); [by right|done].
  - intros _ _. left. destruct cfg as [c|]; [by destruct (allow_nondev_urandom c)|done].
Qed.

Lemma urandom_ok : source_ok OTTERY_ENTROPY_SRC_RANDOMDEV ottery_get_entropy_urandom.
Proof.
  intros cfg st out off n s Ho Hn Hout. unfold ottery_get_entropy_urandom. cbv zeta.
  destruct (device_fd_ok cfg s) as (fd & own & w1 & E1 & Hfd).
  rewrite (bind_Ret _ _ _ _ _ E1). clear E1.
  destruct (own && (fd <? 0)); [source_fail|]. specialize (Hfd eq_refl).
  assert (forall r st' out' w2, wrote off n out out' ->
    (r = 0 \/ r = OTTERY_ERR_INIT_STRONG_RNG \/ r = OTTERY_ERR_ACCESS_STRONG_RNG) ->
    (is_Some st -> is_Some st') ->
    (r = 0 -> exists bs, zlen bs = n /\ out' = splice out off bs /\
      os_bytes cfg st n OTTERY_ENTROPY_SRC_RANDOMDEV (world s) bs (if own then os_close fd w2 else w2)) ->
    source_post OTTERY_ENTROPY_SRC_RANDOMDEV cfg st out off n s
      (bind (if own then sys_ (os_close fd) else ret tt) (fun _ => ret (r, st', out'))
        (set_world w2 s))) as finish.
  { intros r st' out' w2 Hw Hr Hs Hb. destruct own; mstep; apply source_post_ret; auto;
      by repeat apply same_process_world. }
  mstep. cbn [set_world world]. destruct (os_fstat fd w1) as [[r info] w] eqn:Est. cbn [fst snd].
  destruct (Z.ltb_spec r 0) as [|Hr];
    [apply (finish _ _ _ w); auto; first [reflexivity|discriminate]|].
  destruct (_ && (Z.land _ _ =? 0)) eqn:Hmode;
    [apply (finish _ _ _ w); auto; first [reflexivity|discriminate]|].
  match goal with |- context [if ?c then bind (sys_ _) _ else _] => destruct c eqn:Hino end;
    [mstep; source_fail|].
  assert (device_passes cfg st info) as Hpass by (by apply device_passes_ok).
  destruct (read_n_bytes_ok fd out off n (set_world w s) Ho Hn Hout) as (bs & w3 & Hrd & Hl & E).
  cbn [world set_world] in Hrd. rewrite (bind_Ret _ _ _ _ _ E).
  apply (finish _ _ _ w3); [apply wrote_splice; lia| | |].
  - destruct ((zlen bs <? 0) || _); auto.
  - intros Hs. destruct st as [es|]; [|by destruct Hs]. match goal with |- is_Some (if ?b then _ else _) => destruct b end; by eapply mk_is_Some.
  - destruct (Z.eqb_spec (zlen bs) n) as [Hbs|]; [|by rewrite orb_true_r].
    intros _. exists bs. split; [done|]. split; [done|]. by eapply os_bytes_device.
Qed.

Lemma egd_ok : source_ok OTTERY_ENTROPY_SRC_EGD ottery_get_entropy_egd.
Proof.
  intros cfg st out off n s Ho Hn Hout. unfold ottery_get_entropy_egd.
  destruct cfg as [c|]; [|source_fail].
  destruct c as [? ? ? [addr|] socklen ? ? ?] eqn:Ec; [|source_fail].
  destruct (socklen =? 0); [source_fail|]. destruct (Z.ltb_spec 255 n); [source_fail|].
  mstep. destruct (os_socket (sa_family addr) (world s)) as [sock w1] eqn:E1. cbn [fst snd].
  destruct (Z.ltb_spec sock 0); [source_fail|]. cbv zeta. mstep. cbn [set_world world].
  destruct (os_connect sock addr socklen w1) as [r1 w2] eqn:E2. cbn [fst snd].
  destruct (Z.ltb_spec r1 0); [mstep; source_fail|]. mstep. cbn [set_world world].
  destruct (os_write sock _ w2) as [r2 w3] eqn:Ew. cbn [fst snd].
  destruct (Z.eqb_spec r2 2) as [->|]; cbn [negb]; [|mstep; source_fail].
  mstep. cbn [set_world world].
  destruct (os_read sock 1 w3) as [[r3 bs] w4] eqn:E3. cbn [fst snd].
  destruct (Z.eqb_spec r3 1) as [->|]; cbn [negb]; [|mstep; source_fail].
  destruct (os_read_law sock 1 w3 1 bs w4 ltac:(lia) E3) as [_ Hbs]. specialize (Hbs ltac:(lia)).
  rewrite mwrite_ok by (rewrite ?Hbs; first [lia | vm_compute; discriminate]). mstep.
  assert (take 1 (splice [x01; byte_of_Z n] 0 bs) = bs) as ->.
  { destruct bs as [|b [|]]; [discriminate|done|]. rewrite !zlen_cons in Hbs. zlen_facts. lia. }
  destruct (Z.eqb_spec (le_decode bs) n) as [Hhd|]; cbn [negb]; [|mstep; source_fail].
  match goal with |- context [bind (ottery_read_n_bytes_from_file_ _ _ _ _) _ ?s0] =>
    destruct (read_n_bytes_ok sock out off n s0 Ho Hn Hout) as (bs' & w5 & Hrd & Hl & E) end.
  cbn [world set_world] in Hrd. rewrite (bind_Ret _ _ _ _ _ E).
  assert (wrote off n out (splice out off bs')) as Hw by (apply wrote_splice; lia).
  destruct (Z.eqb_spec (zlen bs') n) as [Hlb|]; [|rewrite orb_true_r; mstep; source_fail].
  rewrite (proj2 (Z.ltb_ge (zlen bs') 0)) by lia. cbn [orb negb]. mstep.
  apply source_post_ret; [done|by repeat apply same_process_world|auto..].
  intros _. exists bs'. split; [done|]. split; [done|].
  eapply (os_bytes_egd _ _ _ _ _ addr); [reflexivity|reflexivity|exact E1|done|exact E2|done|exact Ew|exact E3|done..].
Qed.

(** The words that the rdrand loop stores. *)
Lemma rdrand_loop_ok fuel out up n (s : process W) :
  0 <= up -> 0 <= n -> up + n <= zlen out -> (Z.to_nat n <= fuel)%nat ->
  exists err out' up' rest s', rdrand_loop fuel out up n s = Ret (err, out', up', rest, s') /\
    wrote up n out out' /\ same_process s s' /\
    (err = 0 \/ err = OTTERY_ERR_INIT_STRONG_RNG) /\
    (err = 0 -> 0 <= rest < 4 /\ up' + rest = up + n /\ exists vs,
       rdrands (world s) vs (world s') /\ out' = splice out up (vs ≫= le_encode 4) /\
       zlen (vs ≫= le_encode 4) = up' - up).
Proof.
  revert out up n s. induction fuel as [|fuel IH]; intros out up n s Ho Hn Hout Hf;
    cbn [rdrand_loop].
  all: destruct (Z.ltb_spec n 4) as [Hlt|Hge]; [|try lia].
  1,2: exists 0, out, up, n, s; split_and!; try done; [by left|]; intros _;
    split; [lia|]; split; [lia|]; exists []; split; [constructor|];
    cbn; rewrite splice_nil, zlen_nil; split; [done|lia].
  unfold rdrand. do 2 mstep. destruct (os_rdrand (world s)) as [[v status] w] eqn:E0. cbn [fst snd].
  mstep. pose proof (zlen_le_encode 4 v : zlen (le_encode 4 v) = 4) as Hl.
  rewrite mwrite_ok by lia. mstep.
  assert (wrote up n out (splice out up (le_encode 4 v))) as Hw1 by (apply wrote_splice; lia).
  destruct (Z.eqb_spec status 1) as [->|]; cbn [Z.eqb].
  - destruct (IH (splice out up (le_encode 4 v)) (up + 4) (n - 4) (set_world w s))
      as (err & out' & up' & rest & s' & E & Hw & Hp & He & Hok);
      [lia|lia|rewrite zlen_splice; lia|lia|].
    exists err, out', up', rest, s'. split_and!; [done| | |done|].
    + transitivity (splice out up (le_encode 4 v)); [done|].
      apply (wrote_mono _ _ _ _ _ _ Hw); lia.
    + etransitivity; [|exact Hp]. by apply same_process_world.
    + intros He0. destruct (Hok He0) as (H1 & H2 & vs & Hv & Ho' & Hlv).
      split; [done|]. split; [lia|]. exists (v :: vs). split; [by eapply rdrands_cons|].
      cbn [mbind list_bind]. rewrite Ho', zlen_app. split; [|lia].
      apply splice_splice_app; lia.
  - exists OTTERY_ERR_INIT_STRONG_RNG. do 4 eexists. split; [reflexivity|].
    split_and!; try done. by right.
Qed.

Lemma rdrand_ok : source_ok OTTERY_ENTROPY_SRC_RDRAND ottery_get_entropy_rdrand.
Proof.
  intros cfg st out off n s Ho Hn Hout.
  unfold ottery_get_entropy_rdrand, ottery_get_cpu_capabilities_. mstep.
  destruct (_ =? 0); [source_fail|].
  destruct (rdrand_loop_ok (Z.to_nat n) out off n s) as
    (err & out' & up & rest & s' & E & Hw & Hp & He & Hok); [done..|].
  rewrite (bind_Ret _ _ _ _ _ E).
  destruct (Z.eqb_spec err 0) as [->|Hne]; cbn [negb]; [|source_fail; tauto].
  destruct (Hok eq_refl) as (H4 & Hu & vs & Hv & -> & Hlv).
  destruct (Z.eqb_spec rest 0) as [Hr0|Hr0]; cbn [negb].
  { apply source_post_ret; [done|done|auto..]. intros _. exists (vs ≫= le_encode 4).
    split; [lia|]. split; [done|].
    rewrite <-(take_ge (vs ≫= le_encode 4) (Z.to_nat n)) by (unfold zlen in Hlv; lia).
    by apply os_bytes_rdrand. }
  unfold rdrand. do 2 mstep. destruct (os_rdrand (world s')) as [[tmp status] w] eqn:E1. cbn [fst snd].
  mstep. destruct (Z.eqb_spec status 1) as [->|]; cbn [negb Z.eqb]; [|source_fail].
  pose proof (zlen_le_encode 4 tmp : zlen (le_encode 4 tmp) = 4) as Hl.
  pose proof (wrote_len _ _ _ _ Hw). pose proof (zlen_nonneg (vs ≫= le_encode 4)).
  rewrite memcpy_ok by lia. mstep.
  assert (zlen (slice (le_encode 4 tmp) 0 rest) = rest) as Hls by (apply zlen_slice; lia).
  rewrite splice_splice_app by lia.
  apply source_post_ret; [apply wrote_splice; [lia|rewrite ?zlen_app; lia..]|by apply same_process_world|auto..].
  intros _. eexists. split; [|split; [reflexivity|]]; [rewrite zlen_app; lia|].
  replace ((vs ≫= le_encode 4) ++ slice (le_encode 4 tmp) 0 rest)
    with (take (Z.to_nat n) ((vs ++ [tmp]) ≫= le_encode 4)).
  { apply os_bytes_rdrand. apply (rdrands_app _ _ _ _ _ Hv). by repeat econstructor. }
  rewrite bind_app, take_app_ge by (unfold zlen in Hlv; lia). f_equal.
  cbn [mbind list_bind]. rewrite app_nil_r. unfold slice. f_equal. unfold zlen in Hlv. lia.
Qed.

Lemma RAND_SOURCES_ok : Forall (fun src => source_ok (kind src) (fn src)) RAND_SOURCES.
Proof.
  unfold RAND_SOURCES. rewrite !Forall_app.
  destruct plat_win32, rdrand_compiled; repeat split; repeat apply Forall_cons_2; try apply Forall_nil_2;
    first [exact cryptgenrandom_ok | exact urandom_ok | exact egd_ok | exact rdrand_ok].
Qed.

Lemma bufsize_small n : 0 <= n < 2 ^ 62 -> ottery_get_entropy_bufsize_ (W := W) n = n * zlen (RAND_SOURCES (W := W)).
Proof.
  intros Hn. unfold ottery_get_entropy_bufsize_. apply u64_small. unfold RAND_SOURCES, zlen.
  destruct plat_win32, rdrand_compiled; cbn [app length]; lia.
Qed.

(** ** The loop over the sources *)

(** The flags a successful source contributes. *)
Definition effective_flags (config : option ottery_entropy_config)
    (src : ottery_randbytes_source W) : Z :=
  match config with
  | Some c =>
      if negb (Z.land (flags src) (weak_sources c) =? 0)
      then Z.ldiff (flags src) OTTERY_ENTROPY_FL_STRONG else flags src
  | None => flags src
  end.

Definition domain (src : ottery_randbytes_source W) : Z :=
  Z.land (flags src) OTTERY_ENTROPY_DOM_MASK.

(** A source the configuration and the selection let run. *)
Definition allowed (config : option ottery_entropy_config) (select : Z)
    (src : ottery_randbytes_source W) : Prop :=
  Z.land (flags src) (match config with Some c => disabled_sources c | None => 0 end) = 0 /\
  Z.land (flags src) select = select.

Definition all_flags (config : option ottery_entropy_config)
    (used : list (ottery_randbytes_source W)) (got : Z) : Z :=
  fold_left (fun g src => Z.lor g (effective_flags config src)) used got.

(** [effective_flags] keeps the domain. *)
Lemma effective_domain config src :
  Z.land (effective_flags config src) OTTERY_ENTROPY_DOM_MASK = domain src.
Proof.
  unfold effective_flags, domain. destruct config as [c|]; [|done].
  destruct (negb _); [|done]. apply Z.bits_inj'. intros i Hi.
  rewrite !Z.land_spec, Z.ldiff_spec.
  destruct (Z.testbit OTTERY_ENTROPY_DOM_MASK i) eqn:Hm; [|by rewrite !andb_false_r].
  destruct (Z.eq_dec i 0) as [->|Hne]; [discriminate|].
  assert (Z.testbit OTTERY_ENTROPY_FL_STRONG i = false) as ->.
  { change OTTERY_ENTROPY_FL_STRONG with (2 ^ 0). apply Z.pow2_bits_false. lia. }
  by rewrite andb_true_r.
Qed.

(** The sources that a run used, and what it left. *)
Record loop_post (config : option ottery_entropy_config) (select n buflen : Z)
    (srcs : list (ottery_randbytes_source W)) (v v' : entropy_vars)
    (used : list (ottery_randbytes_source W)) (chunks : list (list byte)) : Prop := mk_loop_post {
  lp_used : used `sublist_of` srcs;
  lp_allowed : Forall (allowed config select) used;
  lp_fresh : Forall (fun src => Z.land (domain src) (ev_got v) = 0) used;
  lp_domains : ForallOrdPairs (fun x y => Z.land (domain y) (domain x) = 0) used;
  lp_got : ev_got v' = all_flags config used (ev_got v);
  lp_next : ev_next v' = ev_next v + n * zlen used;
  lp_room : ev_next v' <= Z.max (ev_next v) buflen;
  lp_len : zlen (ev_bytes v') = zlen (ev_bytes v);
  lp_err : ev_last_err v' = ev_last_err v \/ ev_last_err v' = OTTERY_ERR_INIT_STRONG_RNG \/
           ev_last_err v' = OTTERY_ERR_ACCESS_STRONG_RNG;
  lp_state : is_Some (ev_state v) -> is_Some (ev_state v');
  lp_frame : slice (ev_bytes v') 0 (ev_next v) = slice (ev_bytes v) 0 (ev_next v);
  lp_yielded : Forall2 (yielded config n) used chunks;
  lp_bytes : slice (ev_bytes v') (ev_next v) (n * zlen used) = mjoin chunks;
}.

Lemma loop_post_nil config select n buflen srcs v :
  loop_post config select n buflen srcs v v [] [].
Proof.
  split; [apply sublist_nil_l|constructor..|done|rewrite zlen_nil; lia|lia|done|by left|done|done|constructor|].
  rewrite zlen_nil, Z.mul_0_r. apply slice_nil.
Qed.

Lemma loop_post_skip config select n buflen src srcs v v' used chunks :
  loop_post config select n buflen srcs v v' used chunks ->
  loop_post config select n buflen (src :: srcs) v v' used chunks.
Proof. intros []. split; try done. by apply sublist_cons. Qed.

(** A source that failed left the bytes below [ev_next] alone. *)
Lemma loop_post_fail config select n buflen src srcs v v' used chunks st out err :
  0 <= n -> 0 <= ev_next v -> wrote (ev_next v) n (ev_bytes v) out ->
  (is_Some (ev_state v) -> is_Some st) ->
  err = OTTERY_ERR_INIT_STRONG_RNG \/ err = OTTERY_ERR_ACCESS_STRONG_RNG ->
  loop_post config select n buflen srcs (mk_vars st out (ev_next v) (ev_got v) err) v' used chunks ->
  loop_post config select n buflen (src :: srcs) v v' used chunks.
Proof.
  intros Hn Hnx [Hl Hw] Hst Herr [P1 P2 P3 P4 P5 P6 P7 P8 P9 P10 P11 P12 P13]. apply loop_post_skip.
  cbn [ev_state ev_bytes ev_next ev_got ev_last_err] in *.
  split; try done; try lia; try tauto.
  rewrite P11. apply Hw; lia.
Qed.

(** A source that yields adds itself to the sources used, its bytes at the
    front of theirs. *)
Lemma loop_post_use config select n buflen src srcs v v' used chunks st bs :
  0 <= n -> 0 <= ev_next v ->
  Z.land (flags src) (match config with Some c => disabled_sources c | None => 0 end) = 0 ->
  Z.land (flags src) select = select ->
  Z.land (flags src) (Z.land (ev_got v) OTTERY_ENTROPY_DOM_MASK) = 0 ->
  ev_next v + n <= buflen -> buflen <= zlen (ev_bytes v) ->
  (is_Some (ev_state v) -> is_Some st) -> yielded config n src bs ->
  loop_post config select n buflen srcs (mk_vars st (splice (ev_bytes v) (ev_next v) bs)
    (ev_next v + n) (Z.lor (ev_got v) (effective_flags config src)) (ev_last_err v)) v' used chunks ->
  loop_post config select n buflen (src :: srcs) v v' (src :: used) (bs :: chunks).
Proof.
  intros Hn Hnx Hd Hsel Hdom Hroom Hb Hst Hy [P1 P2 P3 P4 P5 P6 P7 P8 P9 P10 P11 P12 P13].
  assert (Z.land (domain src) (ev_got v) = 0) as Hfresh.
  { unfold domain. rewrite <-Hdom, <-Z.land_assoc. f_equal. apply Z.land_comm. }
  pose proof Hy as [Hlb _]. pose proof (zlen_nonneg used).
  cbn [ev_state ev_bytes ev_next ev_got ev_last_err] in *. rewrite zlen_splice in P8 by lia.
  assert (forall o k, 0 <= o -> 0 <= k -> o + k <= ev_next v + n -> slice (ev_bytes v') o k =
    slice (splice (ev_bytes v) (ev_next v) bs) o k) as Hbelow.
  { intros o k Ho Hk Hok. rewrite <-(Z.add_0_l o), <-!(slice_slice _ 0 (ev_next v + n)) by lia.
    by rewrite P11. }
  split; [by apply sublist_skip|by constructor| | |done|rewrite zlen_cons; lia|lia|lia|done|tauto| | |].
  - constructor; [done|]. eapply Forall_impl; [exact P3|]. cbn. intros x Hx.
    rewrite Z.land_lor_distr_r in Hx. by apply Z.lor_eq_0_iff in Hx as [? _].
  - constructor; [|done]. eapply Forall_impl; [exact P3|]. cbn. intros x Hx.
    rewrite Z.land_lor_distr_r in Hx. apply Z.lor_eq_0_iff in Hx as [_ Hx].
    rewrite <-(effective_domain config src).
    unfold domain in *. rewrite (Z.land_comm (effective_flags _ _)), Z.land_assoc.
    rewrite <-(Z.land_assoc (flags x)), Z.land_diag. done.
  - rewrite Hbelow by lia. apply slice_splice_before; lia.
  - by constructor.
  - rewrite zlen_cons, Z.mul_add_distr_l, Z.mul_1_r, slice_app_split by nia.
    rewrite P13, Hbelow, slice_splice_eq by lia. done.
Qed.

Lemma entropy_loop_ok config select n buflen srcs v s :
  Forall (fun src => source_ok (kind src) (fn src)) srcs ->
  0 <= n -> 0 <= ev_next v -> buflen <= zlen (ev_bytes v) ->
  exists v' used chunks s', entropy_loop config select n buflen srcs v s = Ret (v', s') /\
    loop_post config select n buflen srcs v v' used chunks /\ same_process s s' /\
    gathers config n (ev_state v) s used chunks (ev_state v') s'.
Proof.
  intros Hok Hn. revert v s. induction Hok as [|src srcs Hsrc _ IH]; intros v s Hnx Hb.
  { exists v, [], [], s. split_and!; [done|apply loop_post_nil|done|constructor]. }
  cbn [entropy_loop].
  assert (exists v' used chunks s', entropy_loop config select n buflen srcs v s = Ret (v', s') /\
    loop_post config select n buflen (src :: srcs) v v' used chunks /\ same_process s s' /\
    gathers config n (ev_state v) s used chunks (ev_state v') s') as Hskip.
  { destruct (IH v s Hnx Hb) as (v' & used & chunks & s' & E & Hp & Hs & Hg).
    exists v', used, chunks, s'. split_and!; [done|by apply loop_post_skip|done|done]. }
  destruct (Z.eqb_spec (Z.land (flags src)
    (match config with Some c => disabled_sources c | None => 0 end)) 0) as [Hd|];
    cbn [negb]; [|exact Hskip].
  destruct (Z.eqb_spec (Z.land (flags src) select) select) as [Hsel|]; cbn [negb]; [|exact Hskip].
  destruct (Z.eqb_spec (Z.land (flags src) (Z.land (ev_got v) OTTERY_ENTROPY_DOM_MASK)) 0)
    as [Hdom|]; cbn [negb]; [|exact Hskip].
  destruct (Z.ltb_spec buflen (ev_next v + n)) as [|Hroom].
  { exists v, [], [], s. split_and!; [done|apply loop_post_nil|done|constructor]. }
  destruct (Hsrc config (ev_state v) (ev_bytes v) (ev_next v) n s)
    as (err & st' & out' & s1 & E & Hw & Hp1 & He & Hst & Hy); [lia..|].
  rewrite (bind_Ret _ _ _ _ _ E). pose proof (wrote_len _ _ _ _ Hw) as Hl.
  destruct (Z.eqb_spec err 0) as [->|Hne].
  - destruct (Hy eq_refl) as (bs & Hlb & -> & Hob).
    destruct (IH (mk_vars st' (splice (ev_bytes v) (ev_next v) bs) (ev_next v + n)
      (Z.lor (ev_got v) (effective_flags config src)) (ev_last_err v)) s1)
      as (v' & used & chunks & s' & E' & Hp & Hs & Hg); [cbn; lia|cbn; lia|].
    exists v', (src :: used), (bs :: chunks), s'. split; [exact E'|]. split; [|split; [by transitivity s1|]].
    + apply (loop_post_use config select n buflen src srcs v v' used chunks st' bs); try done.
      split; [done|]. by do 3 eexists.
    + eapply gathers_used; [exact E|apply slice_splice_eq; lia|done|done|exact Hg].
  - destruct (IH (mk_vars st' out' (ev_next v) (ev_got v) err) s1)
      as (v' & used & chunks & s' & E' & Hp & Hs & Hg); [cbn; lia|cbn; lia|].
    exists v', used, chunks, s'. split; [exact E'|]. split; [|split; [by transitivity s1|]].
    + apply (loop_post_fail config select n buflen src srcs v v' used chunks st' out' err); tauto.
    + by eapply gathers_failed; [exact E| |exact Hg].
Qed.

(** Sources that are disabled are not run. *)
Lemma entropy_loop_disabled c select n buflen srcs v (s : process W) :
  Forall (fun src => (Z.land (flags src) (disabled_sources c) =? 0) = false) srcs ->
  entropy_loop (Some c) select n buflen srcs v s = Ret (v, s).
Proof.
  intros H. induction H as [|src srcs Hsrc _ IH]; [done|]. cbn [entropy_loop]. by rewrite Hsrc.
Qed.

(** With every other source disabled, what happens is up to the one that is not. *)
Lemma entropy_loop_only c n buflen pre src post st bytes (s : process W) :
  Forall (fun src => (Z.land (flags src) (disabled_sources c) =? 0) = false) pre ->
  Forall (fun src => (Z.land (flags src) (disabled_sources c) =? 0) = false) post ->
  Z.land (flags src) (disabled_sources c) = 0 -> weak_sources c = 0 -> n <= buflen ->
  entropy_loop (Some c) 0 n buflen (pre ++ src :: post) (mk_vars st bytes 0 0 0) s =
  (do '(err, st', bytes') <- fn src (Some c) st bytes 0 n;
   ret (if err =? 0 then mk_vars st' bytes' n (flags src) 0 else mk_vars st' bytes' 0 0 err)) s.
Proof.
  intros Hpre Hpost Hd Hw Hn. induction Hpre as [|src0 pre Hsrc _ IH]; cbn [app entropy_loop].
  2:{ rewrite Hsrc. exact IH. }
  rewrite Hd, Hw. cbn [ev_next ev_state ev_bytes ev_got ev_last_err].
  rewrite ?Z.land_0_l, !Z.land_0_r, Z.lor_0_l, Z.add_0_l. cbn [Z.eqb negb].
  rewrite (proj2 (Z.ltb_ge buflen _)) by lia. unfold bind.
  destruct (fn src (Some c) st bytes 0 n s) as [[[[err st'] bytes'] s']| | |]; try done.
  rewrite entropy_loop_disabled by done. by destruct (err =? 0).
Qed.

Lemma entropy_only c n buflen pre src post st bytes (s : process W) err st' buf s' :
  RAND_SOURCES = pre ++ src :: post ->
  Forall (fun src => (Z.land (flags src) (disabled_sources c) =? 0) = false) pre ->
  Forall (fun src => (Z.land (flags src) (disabled_sources c) =? 0) = false) post ->
  Z.land (flags src) (disabled_sources c) = 0 -> weak_sources c = 0 ->
  Z.land (flags src) OTTERY_ENTROPY_FL_STRONG <> 0 -> 0 <= n <= buflen -> zlen bytes = buflen ->
  fn src (Some c) st (zeros buflen) 0 n s = Ret (err, st', buf, s') ->
  ottery_get_entropy_ (Some c) st 0 bytes n buflen s =
  Ret (if err =? 0 then mk_entropy_result 0 st' buf n (flags src)
       else mk_entropy_result err st' buf buflen 0, s').
Proof.
  intros Hsrc Hpre Hpost Hd Hw Hst Hn Hb E. unfold ottery_get_entropy_. rewrite Hsrc.
  rewrite mzero_ok, bind_lift_Some, splice_all by (rewrite ?zlen_zeros; lia).
  unfold bind at 1. rewrite entropy_loop_only by (done || lia). rewrite (bind_Ret _ _ _ _ _ E).
  unfold ret at 1. destruct (Z.eqb_spec err 0) as [->|He]; cbn [ev_got ev_last_err ev_state ev_bytes ev_next].
  - by rewrite (proj2 (Z.eqb_neq _ 0) Hst).
  - rewrite Z.land_0_l. cbn [Z.eqb]. by rewrite (proj2 (Z.eqb_neq err 0) He).
Qed.

(** What [ottery_get_entropy_] leaves on success: the sources it used. *)
Record entropy_success (config : option ottery_entropy_config) (select n buflen : Z)
    (er : entropy_result) (used : list (ottery_randbytes_source W)) : Prop :=
  mk_entropy_success {
  es_err : er_err er = 0;
  es_used : used `sublist_of` RAND_SOURCES;
  es_allowed : Forall (allowed config select) used;
  es_domains : ForallOrdPairs (fun x y => Z.land (domain y) (domain x) = 0) used;
  es_flags : er_flags_out er = all_flags config used 0;
  es_buflen : er_buflen er = n * zlen used;
  es_room : er_buflen er <= buflen;
  es_strong : Exists (fun src =>
    Z.land (effective_flags config src) OTTERY_ENTROPY_FL_STRONG <> 0) used;
  es_bytes : exists chunks, Forall2 (yielded config n) used chunks /\
    slice (er_bytes er) 0 (er_buflen er) = mjoin chunks;
}.

Record entropy_failure (buflen : Z) (er : entropy_result) : Prop := mk_entropy_failure {
  ef_err : er_err er = OTTERY_ERR_INIT_STRONG_RNG \/ er_err er = OTTERY_ERR_ACCESS_STRONG_RNG;
  ef_flags : er_flags_out er = 0;
  ef_buflen : er_buflen er = buflen;
}.

Lemma all_flags_strong config used got :
  Z.land (all_flags config used got) OTTERY_ENTROPY_FL_STRONG <> 0 ->
  Z.land got OTTERY_ENTROPY_FL_STRONG <> 0 \/
  Exists (fun src => Z.land (effective_flags config src) OTTERY_ENTROPY_FL_STRONG <> 0) used.
Proof.
  unfold all_flags. revert got. induction used as [|src used IH]; intros got; cbn [fold_left].
  { by left. }
  intros [H|H]%IH; [|right; by constructor].
  rewrite Z.land_lor_distr_l in H.
  destruct (Z.eq_dec (Z.land got OTTERY_ENTROPY_FL_STRONG) 0) as [E|]; [|by left].
  right. constructor. intros E'. apply H. by rewrite E, E'.
Qed.

Lemma get_entropy_ok config st select bytes n buflen s :
  0 <= n -> 0 <= buflen <= zlen bytes ->
  exists er s', ottery_get_entropy_ config st select bytes n buflen s = Ret (er, s') /\
    same_process s s' /\ zlen (er_bytes er) = zlen bytes /\
    (is_Some st -> is_Some (er_state er)) /\
    ((exists used, entropy_success config select n buflen er used /\
        exists chunks, gathers config n st s used chunks (er_state er) s' /\
          slice (er_bytes er) 0 (er_buflen er) = mjoin chunks) \/ entropy_failure buflen er).
Proof.
  intros Hn Hb. unfold ottery_get_entropy_. rewrite mzero_ok, bind_lift_Some by lia.
  pose proof (zlen_zeros buflen ltac:(lia)) as Hz.
  assert (zlen (splice bytes 0 (zeros buflen)) = zlen bytes) as Hl by (apply zlen_splice; lia).
  destruct (entropy_loop_ok config select n buflen RAND_SOURCES
    (mk_vars st (splice bytes 0 (zeros buflen)) 0 0 0) s RAND_SOURCES_ok Hn)
    as (v & used & chunks & s' & E & Hp & Hs & Hg); [cbn; lia|cbn; lia|].
  rewrite (bind_Ret _ _ _ _ _ E). destruct Hp as [P1 P2 P3 P4 P5 P6 P7 P8 P9 P10 _ P12 P13].
  cbn [ev_state ev_bytes ev_next ev_got ev_last_err] in *.
  destruct (Z.eqb_spec (Z.land (ev_got v) OTTERY_ENTROPY_FL_STRONG) 0) as [|Hst].
  - do 2 eexists. split; [reflexivity|]. cbn [er_bytes er_state]. split_and!; [done|congruence|done|].
    right. split; [|done|done]. cbn [er_err].
    destruct (Z.eqb_spec (ev_last_err v) 0); [by left|]. destruct P9 as [|]; [done|tauto].
  - do 2 eexists. split; [reflexivity|]. cbn [er_bytes er_state]. split_and!; [done|congruence|done|].
    left. assert (slice (ev_bytes v) 0 (ev_next v) = mjoin chunks) as Hj by (by rewrite P6).
    exists used. split; [|by exists chunks].
    split; cbn [er_err er_flags_out er_buflen er_bytes]; try done; try lia; [|by exists chunks].
    rewrite P5 in Hst. apply all_flags_strong in Hst as [Hst|]; [|done]. by rewrite Z.land_0_l in Hst.
Qed.
End EntropyLaws.
