(* ===== verification/TestOs.v ===== *)
(** * A concrete world for the witnesses

    A deterministic operating system and an x86 platform: a random device and
    an EGD server that yield a fixed byte, an RDRAND that yields a fixed word,
    and a record of the descriptors closed. *)
From S2P Require Import Prelude Words Memory Internal ChaChaKrovetz Os.
Local Open Scope Z_scope.

Record tworld := mk_tworld {
  tw_pid : Z;
  tw_ino : Z;
  tw_mode : Z;
  tw_byte : byte;
  tw_ecx : Z;
  tw_closed : list Z;
  tw_errors : list Z;
}.

Definition tworld0 : tworld := mk_tworld 77 12 0x21b6 x2a (2 ^ 30 + 2 ^ 9) [] [].

#[export] Instance test_os : OS tworld := {|
  os_getpid := tw_pid;
  os_open _ w := (3, w);
  os_fstat _ w := (0, mk_stat (tw_mode w) (tw_ino w), w);
  os_read _ n w := (Z.max 0 n, replicate (Z.to_nat n) (tw_byte w), w);
  os_write _ bs w := (zlen bs, w);
  os_close fd w := mk_tworld (tw_pid w) (tw_ino w) (tw_mode w) (tw_byte w) (tw_ecx w)
    (fd :: tw_closed w) (tw_errors w);
  os_socket _ w := (4, w);
  os_connect _ _ _ w := (0, w);
  os_CryptAcquireContext w := (1, 5, w);
  os_CryptGenRandom _ n w := (1, replicate (Z.to_nat n) (tw_byte w), w);
  os_CryptReleaseContext _ w := w;
  os_rdrand w := (0x12345678, 1, w);
  os_cpuid _ w := (0, 0, tw_ecx w, 2 ^ 26);
  os_pthread_mutex_init w := (0, w);
  os_InitializeCriticalSection w := (1, w) |}.

#[export] Instance test_os_laws : OSLaws test_os.
Proof.
  split.
  - intros fd n w r bs w' Hn [= <- <- <-]. split; [lia|]. intros _. rewrite zlen_replicate. lia.
  - intros pr n w r bs w' Hn [= <- <- <-] _. rewrite zlen_replicate. lia.
Qed.

#[export] Instance test_platform : Platform := {|
  plat_defined m := if m is __x86_64 then true else false;
  plat_win32 := false;
  plat_apple := false;
  HAVE_PTHREAD := true;
  OTTERY_NO_SPINLOCKS := false;
  HAVE_SIMD_CHACHA := Some (SSE2 false false);
  HAVE_SIMD_CHACHA_2 := Some (SSE2 false true);
  sizeof_ottery_state := 1440;
  sizeof_ottery_config := 64 |}.

(** A process with no fatal handler, and one whose handler records errors. *)
Definition proc0 : process tworld := mk_process tworld0 0 None.

Definition record_error (e : Z) (w : tworld) : tworld :=
  mk_tworld (tw_pid w) (tw_ino w) (tw_mode w) (tw_byte w) (tw_ecx w) (tw_closed w)
    (e :: tw_errors w).

Definition proc_handler : process tworld := mk_process tworld0 0 (Some record_error).
