(* ===== verification/TestVectors.v ===== *)
(** * The test vectors: test/streams.c, test/test_vectors.c, test/make_test_vectors.py

    The stream generator that the tests build from a PRF, the program that
    prints streams of the C implementations, and the Python script that prints
    the expected ones; then the proof that [test_vector_cmp.sh] finds the files
    equal, whichever implementations the program is told to use. *)
From stdpp Require Import pretty.
From S2P Require Import Prelude Words Memory Internal Spec Prng Refine ChaChaRef ChaChaMerged ChaChaKrovetz.
From S2P Require Import ChaChaPrf Os.
Local Open Scope Z_scope.

(** ** test/streams.c *)

(** The contents of a local array of [n] bytes before it is written. *)
Class Uninit := {
  uninit : Z -> list byte;
  uninit_len : forall n, 0 <= n -> zlen (uninit n) = n;
}.

#[export] Instance zeroed_locals : Uninit := {| uninit := zeros; uninit_len := zlen_zeros |}.

(** [struct stream] *)
Record stream := mk_stream { stream_state : list byte; stream_prf : ottery_prf }.

Section Streams.
Context {UN : Uninit}.

(** The caller's object has [MAX_STATE_LEN] bytes of state. *)
Definition stream_setup (prf : ottery_prf) (key : list byte) (keylen : Z)
    (nonce : list byte) (noncelen : Z) (s : list byte) : option stream :=
  guard (keylen + noncelen = state_bytes prf);;
  let input := uninit MAX_STATE_BYTES in
  input ← memcpy input 0 key 0 keylen;
  input ← memcpy input keylen nonce 0 noncelen;
  state ← setup prf s input;
  Some (mk_stream state prf).

(** The [while (output_len)] loop. [off] is how far [output] has moved. *)
Fixpoint stream_loop (fuel : nat) (st : stream) (buf output : list byte) (off output_len_ : Z)
    (skip_bytes counter : Z) : option (stream * list byte) :=
  if output_len_ =? 0 then Some (st, output) else
  match fuel with
  | O => None
  | S fuel =>
      let prf := stream_prf st in
      '(state, buf) ← generate prf (stream_state st) buf counter;
      let st := mk_stream state prf in
      let counter := u32 (counter + 1) in
      if output_len_ <? output_len prf - skip_bytes then
        output ← memcpy output off buf skip_bytes output_len_;
        stream_loop fuel st buf output off 0 skip_bytes counter
      else
        let n := output_len prf - skip_bytes in
        output ← memcpy output off buf skip_bytes n;
        stream_loop fuel st buf output (off + n) (output_len_ - n) 0 counter
  end.

Definition stream_generate (st : stream) (output : list byte) (output_len_ skip_bytes : Z)
  : option (stream * list byte) :=
  let buf := uninit MAX_OUTPUT_LEN in
  let counter := skip_bytes / output_len (stream_prf st) in
  let skip_bytes := u32 (skip_bytes - counter * output_len (stream_prf st)) in
  stream_loop (Z.to_nat output_len_) st buf output 0 output_len_ skip_bytes counter.

End Streams.

(** ** test/test_vectors.c *)

Definition newline : string := String (Ascii.ascii_of_nat 10) EmptyString.

(** [puts] and [print]. *)
Definition puts (s : string) : string := s ++ newline.

Definition hex_digit (d : Z) : string :=
  match String.get (Z.to_nat d) "0123456789abcdef" with
  | Some c => String c EmptyString
  | None => EmptyString
  end.

(** [printf("%02x", b)] *)
Definition hex2 (b : byte) : string :=
  hex_digit (Z_of_byte b / 16) ++ hex_digit (Z_of_byte b mod 16).

(** [printf("%d", n)] of an unsigned [n]. *)
Definition print_d (n : Z) : string := pretty (if n <? 2 ^ 31 then n else n - 2 ^ 32).

(** The [while (n--)] loop of [dumphex]. *)
Fixpoint dumphex_loop (m : nat) (bytes : list byte) : string :=
  match bytes with
  | [] => EmptyString
  | b :: bytes =>
      let m := S m in
      hex2 b ++
      (if (m mod 32 =? 0)%nat && negb (bool_decide (bytes = [])) then newline else EmptyString) ++
      dumphex_loop m bytes
  end.

Definition dumphex (label : option string) (bytes : list byte) : string :=
  match label with Some l => l ++ ": " | None => EmptyString end ++
  dumphex_loop 0 bytes ++ puts EmptyString.

Definition rule : string := "================================================================".

Definition experiment {UN : Uninit} (key nonce : list byte) (skip : Z) (prf : ottery_prf)
  : option string :=
  state ← stream_setup prf key 32 nonce 8 (uninit MAX_STATE_LEN);
  let bytes := zeros 512 in
  r ← stream_generate state bytes 512 skip;
  Some (puts rule ++
    "cipher: " ++ name prf ++ newline ++
    dumphex (Some "   key") (slice key 0 32) ++
    dumphex (Some " nonce") (slice nonce 0 8) ++
    "offset: " ++ print_d skip ++ newline ++
    dumphex None r.2)%string.

(** A string literal of C, without the null byte at its end. *)
Definition text (s : string) : list byte := String.list_byte_of_string s.

(** The arguments of the eight uses of [X]. *)
Definition vectors : list (list byte * list byte * Z) :=
  [ (text "helloworld!helloworld!helloworld", text "!hellowo", 0);
    (zeros 32, zeros 8, 0);
    (text "helloworld!helloworld!helloworld", text "!hellowo", 8192);
    (zeros 32, zeros 8, 8192);
    (text "Zombie ipsum reversus ab viral i", text "nferno, ", 128);
    (text "nam rick grimes malum cerebro. D", text "e carne ", 512);
    (text "lumbering animata corpora quaeri", text "tis. Sum", 640);
    (text "mus brains sit, morbo vel malefi", text "cia? De ", 704) ].

Section Vectors.
Context {UN : Uninit} {PL : Platform}.

Definition prfs_no_simd : list ottery_prf :=
  [ottery_prf_chacha8_merged_; ottery_prf_chacha12_merged_; ottery_prf_chacha20_merged_].

Definition prfs_midrange : list ottery_prf :=
  match HAVE_SIMD_CHACHA with
  | Some t => [ottery_prf_chacha8_krovetz_ t; ottery_prf_chacha12_krovetz_ t;
               ottery_prf_chacha20_krovetz_ t]
  | None => prfs_no_simd
  end.

Definition prfs_best : list ottery_prf :=
  match HAVE_SIMD_CHACHA_2 with
  | Some t => [ottery_prf_chacha8_krovetz_ t; ottery_prf_chacha12_krovetz_ t;
               ottery_prf_chacha20_krovetz_ t]
  | None => prfs_midrange
  end.

(** The choice [main] makes from its first argument. *)
Definition choose_prfs (arg : option string) : list ottery_prf :=
  let prfs := prfs_best in
  let prfs := if decide (arg = Some "no-simd") then prfs_no_simd else prfs in
  if decide (arg = Some "midrange") then prfs_midrange else prfs.

(** [X(key, nonce, skip)] *)
Definition X (prfs : list ottery_prf) (v : list byte * list byte * Z) : option string :=
  let '(key, nonce, skip) := v in
  out ← mapM (experiment key nonce skip) prfs; Some (String.concat "" out).

(** What [main] prints. *)
Definition test_vectors_main (arg : option string) : option string :=
  out ← mapM (X (choose_prfs arg)) vectors; Some (String.concat "" out).

End Vectors.

(** ** test/make_test_vectors.py *)

(** [chacha_block] with its assertions. *)
Definition py_chacha_block (position : Z) (nonce key : list byte) (nRounds : nat)
  : option (list byte) :=
  guard (zlen nonce = 8);; guard (zlen key = 32);; guard (nRounds ∈ [8; 12; 20]%nat);;
  Some (chacha_block position nonce key nRounds).

(** [binascii.b2a_hex(bs).decode()] *)
Definition b2a_hex (bs : list byte) : string := String.concat "" (hex2 <$> bs).

(** The loop that prints 32 bytes a line. *)
Fixpoint py_lines (n : nat) (out : list byte) : string :=
  match n, out with
  | S n, _ :: _ => puts (b2a_hex (take 32 out)) ++ py_lines n (drop 32 out)
  | _, _ => EmptyString
  end.

Definition py_experiment (key nonce : list byte) (skip : Z) (rounds : nat) : option string :=
  let p := skip / 64 in
  blocks ← mapM (fun r => py_chacha_block (p + r) nonce key rounds) (seqZ 0 8);
  let out := mjoin blocks in
  Some (puts rule ++
    puts ("cipher: CHACHA" ++ pretty (Z.of_nat rounds)) ++
    puts ("   key: " ++ b2a_hex key) ++
    puts (" nonce: " ++ b2a_hex nonce) ++
    puts ("offset: " ++ pretty skip) ++
    py_lines (length out) out)%string.

Definition py_X (v : list byte * list byte * Z) : option string :=
  let '(key, nonce, skip) := v in
  out ← mapM (py_experiment key nonce skip) [8; 12; 20]%nat; Some (String.concat "" out).

(** The arguments of the script's calls of [X]. *)
Definition py_vectors : list (list byte * list byte * Z) :=
  [ (text "helloworld!helloworld!helloworld", text "!hellowo", 0);
    (replicate 32 x00, replicate 8 x00, 0);
    (text "helloworld!helloworld!helloworld", text "!hellowo", 8192);
    (replicate 32 x00, replicate 8 x00, 8192);
    (text "Zombie ipsum reversus ab viral i", text "nferno, ", 128);
    (text "nam rick grimes malum cerebro. D", text "e carne ", 512);
    (text "lumbering animata corpora quaeri", text "tis. Sum", 640);
    (text "mus brains sit, morbo vel malefi", text "cia? De ", 704) ].

(** What the script prints. *)
Definition make_test_vectors : option string :=
  out ← mapM py_X py_vectors; Some (String.concat "" out).

(** ** Lemmas: the bytes of a stream *)

(** The outputs of [m] calls of [generate] from call number [c]. *)
Abbreviation calls p k c m := (blocks (prf_out p) k c m).

Section Stream.
Context {UN : Uninit} {p : ottery_prf} {PS : PrfSpec p} {SZ : PrfSizes p} {k : list byte}.
Hypothesis Hk : zlen k = state_bytes p.

(** The loop writes the bytes that follow [skip] in the calls still to come. *)
Lemma stream_loop_ok m : forall fuel s buf output off n skip c,
  n <= Z.of_nat fuel -> 0 <= n -> 0 <= skip < output_len p ->
  skip + n <= output_len p * Z.of_nat m ->
  0 <= off -> off + n <= zlen output -> zlen buf = MAX_OUTPUT_LEN ->
  prf_holds p k s -> zlen s = MAX_STATE_LEN ->
  exists s', zlen s' = MAX_STATE_LEN /\ prf_holds p k s' /\
    stream_loop fuel (mk_stream s p) buf output off n skip (u32 c) =
      Some (mk_stream s' p, splice output off (slice (calls p k c m) skip n)).
Proof.
  induction m as [|m IH]; intros fuel s buf output off n skip c Hf Hn Hskip Hm Hoff Ho Hb Hs Hl.
  { assert (n = 0) as -> by lia. exists s. rewrite slice_nil, splice_nil. by destruct fuel. }
  destruct (Z.eq_dec n 0) as [->|Hn0].
  { exists s. rewrite slice_nil, splice_nil. by destruct fuel. }
  destruct fuel as [|fuel]; [lia|]. cbn [stream_loop stream_prf stream_state].
  rewrite (proj2 (Z.eqb_neq n 0)) by done. pose proof sizes_output_len as Hsz.
  destruct (prf_generate_ok k s buf (u32 c) Hk Hs Hl) as (s1 & -> & Hl1 & Hs1);
    [lia|apply in_u32_u32|]. cbn [mbind option_bind].
  pose proof (prf_out_len k (u32 c) Hk) as Hlen.
  assert (zlen (splice buf 0 (prf_out p k (u32 c))) = MAX_OUTPUT_LEN) as Hb'.
  { rewrite zlen_splice; lia. }
  cbn [blocks]. rewrite u32_add_l. destruct (Z.ltb_spec n (output_len p - skip)) as [Hlt|Hge].
  - rewrite memcpy_ok, slice_splice_0 by lia. cbn [mbind option_bind].
    exists s1. rewrite slice_app_l by lia. by destruct fuel.
  - rewrite memcpy_ok, slice_splice_0 by lia. cbn [mbind option_bind].
    set (a := slice (prf_out p k (u32 c)) skip (output_len p - skip)).
    assert (zlen a = output_len p - skip) as Ha by (apply zlen_slice; lia).
    destruct (IH fuel s1 (splice buf 0 (prf_out p k (u32 c))) (splice output off a)
      (off + (output_len p - skip)) (n - (output_len p - skip)) 0 (c + 1))
      as (s2 & Hl2 & Hs2 & ->); rewrite ?zlen_splice by lia; [lia..|done|done|].
    exists s2. split_and!; [done..|]. do 2 f_equal.
    rewrite splice_splice_app; [|lia| |lia].
    2: { rewrite zlen_slice; rewrite ?blocks_zlen by done; lia. }
    f_equal. replace n with ((output_len p - skip) + (n - (output_len p - skip))) at 2 by lia.
    rewrite slice_app_split by lia. rewrite slice_app_l by lia. fold a. f_equal.
    replace (skip + (output_len p - skip)) with (zlen (prf_out p k (u32 c)) + 0) by lia.
    unfold slice. rewrite Z.add_0_r. unfold zlen.
    rewrite Nat2Z.id. change (Z.to_nat 0) with O. by rewrite drop_app_length.
Qed.

(** Setting up: the key and the nonce are the PRF's key. *)
Lemma stream_setup_ok key nonce s :
  zlen key + zlen nonce = state_bytes p -> k = key ++ nonce -> zlen s = MAX_STATE_LEN ->
  exists s', stream_setup p key (zlen key) nonce (zlen nonce) s = Some (mk_stream s' p) /\
    zlen s' = MAX_STATE_LEN /\ prf_holds p k s'.
Proof.
  intros Hl -> Hs. pose proof sizes_state_bytes as Hsb. unfold stream_setup.
  rewrite option_guard_True by done. cbn [mbind option_bind].
  pose proof (uninit_len MAX_STATE_BYTES) as Hu. zlen_facts.
  unfold MAX_STATE_BYTES in *. specialize (Hu ltac:(lia)).
  rewrite memcpy_ok by lia. cbn [mbind option_bind]. rewrite slice_all by done.
  rewrite memcpy_ok by (rewrite ?zlen_splice; lia). cbn [mbind option_bind].
  rewrite slice_all, splice_splice_app by (done || lia).
  destruct (prf_setup_ok s (splice (uninit 64) 0 (key ++ nonce)) Hs) as (s' & -> & Hl' & Hh).
  { rewrite zlen_splice; rewrite ?zlen_app; lia. }
  exists s'. split_and!; [done..|].
  rewrite slice_splice_0, slice_all in Hh by (rewrite ?zlen_app; lia). done.
Qed.

(** Skipping bytes is starting at a later call, then dropping the rest. *)
Lemma calls_skip c n m o l :
  0 <= o -> slice (calls p k c (n + m)) (output_len p * Z.of_nat n + o) l =
    slice (calls p k (c + Z.of_nat n) m) o l.
Proof.
  intros Ho. rewrite blocks_add. unfold slice. pose proof (blocks_zlen k c n Hk) as Hl. unfold zlen in Hl.
  f_equal. pose proof sizes_int. pose proof sizes_state_bytes.
  rewrite Z2Nat.inj_add by nia. rewrite <-Hl, Nat2Z.id.
  by rewrite <-drop_drop, drop_app_length.
Qed.

End Stream.

(** Streams written by [stream_generate] are slices of one keystream. *)
Lemma stream_generate_ok {UN : Uninit} p {PS : PrfSpec p} {SZ : PrfSizes p} k s output n skip m :
  zlen k = state_bytes p -> prf_holds p k s -> zlen s = MAX_STATE_LEN ->
  in_u32 skip -> 0 <= n <= zlen output -> skip + n <= output_len p * Z.of_nat m ->
  exists s', zlen s' = MAX_STATE_LEN /\ prf_holds p k s' /\
    stream_generate (mk_stream s p) output n skip =
      Some (mk_stream s' p, splice output 0 (slice (calls p k 0 m) skip n)).
Proof.
  intros Hk Hs Hl Hskip Hn Hm. pose proof (sizes_int (p := p)). pose proof (sizes_state_bytes (p := p)).
  unfold stream_generate. cbn [stream_prf].
  set (q := skip / output_len p). set (r := skip - q * output_len p).
  pose proof (Z.div_mod skip (output_len p)) as Hd. fold q in Hd.
  pose proof (Z.mod_pos_bound skip (output_len p)) as Hr.
  assert (0 <= q) as Hq by (apply Z.div_pos; lia || apply Hskip).
  assert (0 <= r < output_len p /\ r <= skip /\ q <= skip) as (? & ? & ?) by (unfold r; nia).
  rewrite (u32_small r) by clia. rewrite <-(u32_small q) by clia.
  assert (q <= Z.of_nat m) as Hqm by nia.
  replace m with (Z.to_nat q + (m - Z.to_nat q))%nat by lia.
  replace skip with (output_len p * Z.of_nat (Z.to_nat q) + r) by (unfold r; nia).
  rewrite calls_skip, Z2Nat.id, Z.add_0_l by (done || lia).
  apply stream_loop_ok; try (done || lia).
  - unfold r. nia.
  - apply uninit_len. unfold MAX_OUTPUT_LEN. lia.
Qed.

(** ** The stream of a ChaCha implementation *)

Section ChaCha.
Context {UN : Uninit} {p : ottery_prf} {PS : PrfSpec p} {SZ : PrfSizes p} {rounds : nat} {step : Z}.
Context {CC : ChaChaPrf p rounds step} {k : list byte}.
Hypothesis Hk : zlen k = 40.

(** From a whole number of blocks on, the stream is the reference blocks. *)
Lemma calls_slice b n m :
  0 <= b -> (b + Z.of_nat n) <= step * Z.of_nat m ->
  slice (calls p k 0 m) (64 * b) (64 * Z.of_nat n) = ref_blocks rounds k b n.
Proof.
  intros Hb Hm. rewrite (blocks_ref k 0 m Hk), Z.mul_0_r by lia. pose proof chacha_step.
  replace (Z.to_nat step * m)%nat
    with (Z.to_nat b + (n + (Z.to_nat step * m - Z.to_nat b - n)))%nat by nia.
  rewrite !ref_blocks_app, Z2Nat.id, Z.add_0_l by lia.
  pose proof (ref_blocks_zlen rounds k 0 (Z.to_nat b) Hk) as H1.
  pose proof (ref_blocks_zlen rounds k b n Hk) as H2. unfold zlen in *.
  unfold slice. rewrite drop_app_length' by lia. by rewrite take_app_length' by lia.
Qed.

End ChaCha.

(** ** The printed text *)

Lemma string_app_cons c (s t : string) : (String c s ++ t)%string = String c (s ++ t).
Proof. reflexivity. Qed.

Lemma string_app_nil_r (s : string) : (s ++ "")%string = s.
Proof. induction s as [|c s IH]; [done|]. by rewrite string_app_cons, IH. Qed.

Lemma string_app_assoc (s t u : string) : ((s ++ t) ++ u)%string = (s ++ t ++ u)%string.
Proof. induction s as [|c s IH]; [done|]. by rewrite !string_app_cons, IH. Qed.

Lemma concat_cons (s : string) l : String.concat "" (s :: l) = (s ++ String.concat "" l)%string.
Proof. destruct l; [|done]. symmetry. apply string_app_nil_r. Qed.

Lemma b2a_hex_cons b bs : b2a_hex (b :: bs) = (hex2 b ++ b2a_hex bs)%string.
Proof. apply concat_cons. Qed.

(** One line of [dumphex]. *)
Lemma dumphex_line l : forall m rest,
  l <> [] -> (m mod 32 + length l <= 32)%nat ->
  (rest <> [] -> m mod 32 + length l = 32)%nat ->
  dumphex_loop m (l ++ rest) =
    (b2a_hex l ++ match rest with [] => "" | _ => newline ++ dumphex_loop (m + length l) rest end)%string.
Proof.
  induction l as [|b l IH]; intros m rest Hne Hle Hfull; [done|].
  rewrite b2a_hex_cons. cbn [app dumphex_loop]. rewrite string_app_assoc. f_equal.
  pose proof (Nat.mod_upper_bound m 32). destruct l as [|b' l].
  - destruct rest as [|r rest]; [by rewrite andb_false_r|]. cbn [length] in *.
    specialize (Hfull ltac:(done)). rewrite Nat.add_1_r.
    replace (S m mod 32)%nat with 0%nat; [done|].
    rewrite <-Nat.add_1_r, Nat.Div0.add_mod. by replace (m mod 32)%nat with 31%nat by lia.
  - cbn [length] in *. assert (S m mod 32 = S (m mod 32))%nat as Hs.
    { rewrite <-Nat.add_1_r, Nat.Div0.add_mod, (Nat.mod_small 1) by lia.
      rewrite Nat.mod_small by lia. lia. }
    rewrite (IH (S m) rest), Hs; [|done|lia|intros Hr; specialize (Hfull Hr); lia].
    rewrite Nat.add_succ_comm. done.
Qed.

Lemma dumphex_lines n : forall m bs,
  bs <> [] -> (length bs <= n)%nat -> (m mod 32 = 0)%nat ->
  (dumphex_loop m bs ++ newline)%string = py_lines n bs.
Proof.
  induction n as [|n IH]; intros m bs Hne Hl Hm; [destruct bs; [done|cbn in Hl; lia]|].
  assert (py_lines (S n) bs = puts (b2a_hex (take 32 bs)) +:+ py_lines n (drop 32 bs)) as ->.
  { by destruct bs. }
  rewrite <-(take_drop 32 bs) at 1. rewrite dumphex_line.
  2: { by destruct bs. }
  2: { rewrite length_take, Hm. lia. }
  2: { intros Hd. rewrite length_take, Hm. destruct (decide (32 <= length bs)%nat); [lia|].
       destruct Hd. apply drop_ge. lia. }
  unfold puts. rewrite !string_app_assoc. f_equal. destruct (drop 32 bs) as [|r rest] eqn:Ed.
  - by destruct n.
  - rewrite string_app_assoc. f_equal. assert (length bs - 32 = length (r :: rest))%nat as Hr.
    { by rewrite <-Ed, length_drop. }
    cbn [length] in Hr. apply IH; [done|cbn [length]; lia|].
    rewrite length_take, Nat.min_l by lia. rewrite Nat.Div0.add_mod, Hm. done.
Qed.

Lemma dumphex_bytes bs :
  bs <> [] -> dumphex None bs = py_lines (length bs) bs.
Proof.
  intros. unfold dumphex. rewrite <-(dumphex_lines (length bs) 0) by done.
  change (puts "") with newline. done.
Qed.

Lemma dumphex_short label bs :
  bs <> [] -> (length bs <= 32)%nat -> dumphex (Some label) bs = puts (label ++ ": " ++ b2a_hex bs).
Proof.
  intros. unfold dumphex. rewrite <-(app_nil_r bs) at 1. rewrite dumphex_line by done.
  rewrite string_app_nil_r. unfold puts. by rewrite !string_app_assoc.
Qed.

(** ** The two programs agree *)

Lemma py_blocks key nonce b rounds :
  zlen key = 32 -> zlen nonce = 8 -> rounds ∈ [8; 12; 20]%nat -> 0 <= b -> b + 8 <= 2 ^ 32 ->
  mapM (fun r => py_chacha_block (b + r) nonce key rounds) (seqZ 0 8) =
    Some ((ref_block rounds (key ++ nonce) ∘ Z.add b) <$> seqZ 0 8).
Proof.
  intros Hk Hn Hr Hb Hb'. apply mapM_pure, Forall_forall. intros r Hr'%elem_of_seqZ.
  unfold py_chacha_block, ref_block, compose. rewrite !option_guard_True by done.
  rewrite u32_small by clia. cbn [mbind option_bind]. rewrite (slice_app_l key nonce 0 32), slice_all by lia.
  rewrite <-Hk, <-Hn at 1. by rewrite slice_app_r.
Qed.

Lemma py_out key nonce b rounds :
  mjoin ((ref_block rounds (key ++ nonce) ∘ Z.add b) <$> seqZ 0 8) = ref_blocks rounds (key ++ nonce) b 8.
Proof.
  rewrite list_fmap_compose, mjoin_fmap, fmap_add_seqZ, Z.add_0_r. done.
Qed.

(** The stream that [experiment] dumps. *)
Lemma experiment_stream {UN : Uninit} p {PS : PrfSpec p} {SZ : PrfSizes p} rounds {step}
    {CC : ChaChaPrf p rounds step} key nonce b n :
  zlen key = 32 -> zlen nonce = 8 -> 0 <= b -> in_u32 (64 * b) ->
  exists s s',
    stream_setup p key 32 nonce 8 (uninit MAX_STATE_LEN) = Some s /\
    stream_generate s (zeros (64 * Z.of_nat n)) (64 * Z.of_nat n) (64 * b) =
      Some (s', ref_blocks rounds (key ++ nonce) b n).
Proof.
  intros Hk Hn Hb Hb'. pose proof chacha_step as Hstep.
  pose proof (chacha_state_bytes (p := p)) as Hsb. pose proof (chacha_output_len (p := p)) as Hol.
  assert (zlen (key ++ nonce) = 40) as Hkn by (rewrite zlen_app; lia).
  destruct (stream_setup_ok (p := p) (k := key ++ nonce) ltac:(lia) key nonce (uninit MAX_STATE_LEN))
    as (s & Es & Hl & Hs); [lia|done|by apply uninit_len|]. rewrite Hk, Hn in Es.
  pose proof (zlen_zeros (64 * Z.of_nat n) ltac:(lia)) as Hz.
  destruct (stream_generate_ok p (key ++ nonce) s (zeros (64 * Z.of_nat n)) (64 * Z.of_nat n) (64 * b)
    (Z.to_nat b + n)) as (s' & _ & _ & E); [lia|done|done|done|lia|nia|].
  exists (mk_stream s p), (mk_stream s' p). split; [done|].
  rewrite E, calls_slice by (done || nia).
  pose proof (ref_blocks_zlen rounds (key ++ nonce) b n Hkn) as Hout.
  by rewrite splice_all by lia.
Qed.

(** Its text. *)
Lemma experiment_text key nonce skip rounds out :
  zlen key = 32 -> zlen nonce = 8 -> zlen out = 512 -> skip < 2 ^ 31 ->
  (puts rule ++ "cipher: " ++ ("CHACHA" ++ pretty (Z.of_nat rounds)) ++ newline ++
    dumphex (Some "   key") key ++ dumphex (Some " nonce") nonce ++
    "offset: " ++ print_d skip ++ newline ++ dumphex None out)%string =
  (puts rule ++ puts ("cipher: CHACHA" ++ pretty (Z.of_nat rounds)) ++
    puts ("   key: " ++ b2a_hex key) ++ puts (" nonce: " ++ b2a_hex nonce) ++
    puts ("offset: " ++ pretty skip) ++ py_lines (length out) out)%string.
Proof.
  intros Hk Hn Ho Hs. assert (forall (l : list byte), 0 < zlen l -> l <> []) as Hne by (by intros []).
  rewrite dumphex_bytes by (apply Hne; lia).
  rewrite !dumphex_short by first [apply Hne; lia | unfold zlen in *; lia].
  unfold print_d, puts. rewrite (proj2 (Z.ltb_lt _ _) Hs), !string_app_assoc. reflexivity.
Qed.

Lemma experiment_agrees {UN : Uninit} p {PS : PrfSpec p} {SZ : PrfSizes p} rounds {step}
    {CC : ChaChaPrf p rounds step} key nonce b :
  name p = ("CHACHA" ++ pretty (Z.of_nat rounds))%string -> rounds ∈ [8; 12; 20]%nat ->
  zlen key = 32 -> zlen nonce = 8 -> 0 <= b -> 64 * b < 2 ^ 31 ->
  experiment key nonce (64 * b) p = py_experiment key nonce (64 * b) rounds.
Proof.
  intros Hname Hr Hk Hn Hb Hb'. unfold experiment, py_experiment.
  rewrite (Z.mul_comm 64 b), Z.div_mul, py_blocks, (Z.mul_comm b 64) by (done || clia).
  destruct (experiment_stream p rounds key nonce b 8 Hk Hn Hb) as (s & s' & -> & E); [clia|].
  change (64 * Z.of_nat 8) with 512 in E.
  rewrite !bind_Some, E, bind_Some, py_out, Hname. cbn [snd].
  rewrite !slice_all by done. f_equal. apply experiment_text; [done|done| |done].
  rewrite ref_blocks_zlen; [done|]. rewrite zlen_app. lia.
Qed.

(** What the script and the program both assume of a line of [vectors]. *)
Definition good_vector (v : list byte * list byte * Z) : Prop :=
  let '(key, nonce, skip) := v in
  zlen key = 32 /\ zlen nonce = 8 /\ exists b, skip = 64 * b /\ 0 <= b /\ 64 * b < 2 ^ 31.

Lemma vectors_good : Forall good_vector vectors.
Proof.
  assert (forall b key nonce l, zlen key = 32 -> zlen nonce = 8 -> 0 <= b -> 64 * b < 2 ^ 31 ->
    Forall good_vector l -> Forall good_vector ((key, nonce, 64 * b) :: l)) as Hcons.
  { intros b key nonce l ????. apply Forall_cons_2. do 2 (split; [done|]). by exists b. }
  apply (Hcons 0), (Hcons 0), (Hcons 128), (Hcons 128), (Hcons 2), (Hcons 8), (Hcons 10), (Hcons 11),
    Forall_nil_2; done.
Qed.

(** A PRF whose experiments print what the script prints. *)
Definition agrees {UN : Uninit} (p : ottery_prf) (rounds : nat) : Prop :=
  forall key nonce b, zlen key = 32 -> zlen nonce = 8 -> 0 <= b -> 64 * b < 2 ^ 31 ->
    experiment key nonce (64 * b) p = py_experiment key nonce (64 * b) rounds.

Lemma chacha_agrees {UN : Uninit} p {PS : PrfSpec p} {SZ : PrfSizes p} rounds {step}
    {CC : ChaChaPrf p rounds step} :
  name p = ("CHACHA" ++ pretty (Z.of_nat rounds))%string -> rounds ∈ [8; 12; 20]%nat ->
  agrees p rounds.
Proof. intros ?? key nonce b ????. by apply (experiment_agrees p rounds (PS := PS) (step := step)). Qed.

Lemma X_agrees {UN : Uninit} prfs v :
  Forall2 agrees prfs [8; 12; 20]%nat -> good_vector v -> X prfs v = py_X v.
Proof.
  destruct v as [[key nonce] skip]. intros HF (Hk & Hn & b & -> & Hb & Hb'). unfold X, py_X.
  enough (mapM (experiment key nonce (64 * b)) prfs =
    mapM (py_experiment key nonce (64 * b)) [8; 12; 20]%nat) as -> by done.
  generalize dependent [8; 12; 20]%nat. intros rs HF.
  induction HF as [|p r ps rs Hp _ IH]; [done|]. cbn. by rewrite Hp, IH.
Qed.

Lemma no_simd_agrees {UN : Uninit} : Forall2 agrees prfs_no_simd [8; 12; 20]%nat.
Proof.
  apply Forall2_cons_2, Forall2_cons_2, Forall2_cons_2, Forall2_nil_2.
  - refine (@chacha_agrees UN _ merged8_spec merged8_sizes 8 16 merged8_chacha eq_refl _).
    by apply (bool_decide_unpack _).
  - refine (@chacha_agrees UN _ merged12_spec merged12_sizes 12 16 merged12_chacha eq_refl _).
    by apply (bool_decide_unpack _).
  - refine (@chacha_agrees UN _ merged20_spec merged20_sizes 20 16 merged20_chacha eq_refl _).
    by apply (bool_decide_unpack _).
Qed.

Lemma krovetz_agrees {UN : Uninit} t :
  Forall2 agrees [ottery_prf_chacha8_krovetz_ t; ottery_prf_chacha12_krovetz_ t;
    ottery_prf_chacha20_krovetz_ t] [8; 12; 20]%nat.
Proof.
  apply Forall2_cons_2, Forall2_cons_2, Forall2_cons_2, Forall2_nil_2.
  - refine (@chacha_agrees UN _ (krovetz8_spec t) (krovetz8_sizes t) 8 _ (krovetz8_chacha t) eq_refl _).
    by apply (bool_decide_unpack _).
  - refine (@chacha_agrees UN _ (krovetz12_spec t) (krovetz12_sizes t) 12 _ (krovetz12_chacha t) eq_refl _).
    by apply (bool_decide_unpack _).
  - refine (@chacha_agrees UN _ (krovetz20_spec t) (krovetz20_sizes t) 20 _ (krovetz20_chacha t) eq_refl _).
    by apply (bool_decide_unpack _).
Qed.

Lemma choose_agrees {UN : Uninit} {PL : Platform} arg :
  Forall2 agrees (choose_prfs arg) [8; 12; 20]%nat.
Proof.
  assert (Forall2 agrees prfs_midrange [8; 12; 20]%nat) as Hmid.
  { unfold prfs_midrange. destruct HAVE_SIMD_CHACHA; [apply krovetz_agrees|apply no_simd_agrees]. }
  assert (Forall2 agrees prfs_best [8; 12; 20]%nat) as Hbest.
  { unfold prfs_best. destruct HAVE_SIMD_CHACHA_2; [apply krovetz_agrees|apply Hmid]. }
  unfold choose_prfs. pose proof no_simd_agrees. repeat case_decide; done.
Qed.

Lemma py_X_prints v : good_vector v -> is_Some (py_X v).
Proof.
  destruct v as [[key nonce] skip]. intros (Hk & Hn & b & -> & Hb & Hb'). unfold py_X.
  assert (is_Some (mapM (py_experiment key nonce (64 * b)) [8; 12; 20]%nat)) as [out ->]; [|by eexists].
  apply mapM_is_Some_2, Forall_forall. intros rounds Hr. unfold compose, py_experiment.
  rewrite (Z.mul_comm 64 b), Z.div_mul, py_blocks by (done || clia). by eexists.
Qed.

(** Both programs list the same arguments. *)
Lemma py_vectors_eq : py_vectors = vectors.
Proof. reflexivity. Qed.

Lemma make_test_vectors_prints : is_Some make_test_vectors.
Proof.
  unfold make_test_vectors. rewrite py_vectors_eq. assert (is_Some (mapM py_X vectors)) as [out ->]; [|by eexists].
  apply mapM_is_Some_2, (Forall_impl _ _ _ vectors_good). intros v. apply py_X_prints.
Qed.

(** C17: [test_vector_cmp.sh] passes: whatever the argument of the program, the
    platform's vector units and the contents of its uninitialised locals, the
    text it prints is the text of the Python script. So the streams of the
    portable and the vector implementations of ChaCha8, ChaCha12 and ChaCha20 at
    the tested keys and offsets are those of the plain block function. *)
Theorem test_vectors_agree {UN : Uninit} {PL : Platform} (arg : option string) :
  test_vectors_main arg = make_test_vectors /\ is_Some make_test_vectors.
Proof.
  split; [|apply make_test_vectors_prints]. unfold test_vectors_main, make_test_vectors. rewrite py_vectors_eq.
  rewrite (mapM_congr (X (choose_prfs arg)) py_X); [done|].
  apply (Forall_impl _ _ _ vectors_good). intros v Hv. apply X_agrees; [apply choose_agrees|done].
Qed.
