(* ===== verification/CString.v ===== *)
(** * Strings of the C library

    The functions of string.h and stdlib.h that the test programs call on their
    arguments, for strings without null bytes. *)
From S2P Require Import Prelude Words.
Local Open Scope Z_scope.

(** [!strncmp(a, b, n)] *)
Fixpoint strncmp_eq (n : nat) (a b : string) : bool :=
  match n with
  | O => true
  | S n =>
      match a, b with
      | EmptyString, EmptyString => true
      | String c a, String d b => Ascii.eqb c d && strncmp_eq n a b
      | _, _ => false
      end
  end.

(** [strchr(s, c)], as an offset. *)
Fixpoint strchr (s : string) (c : Ascii.ascii) : option nat :=
  match s with
  | EmptyString => None
  | String d s => if Ascii.eqb d c then Some O else S <$> strchr s c
  end.

(** [s + n] *)
Fixpoint str_drop (n : nat) (s : string) : string :=
  match n, s with
  | S n, String _ s => str_drop n s
  | _, _ => s
  end.

(** [strstr(s, t)], as an offset. *)
Fixpoint strstr (s t : string) : option nat :=
  if String.prefix t s then Some O
  else match s with EmptyString => None | String _ s => S <$> strstr s t end.

(** ** Lemmas *)

(** A character found is inside the string. *)
Lemma strchr_lt s c i : strchr s c = Some i -> (i < String.length s)%nat.
Proof.
  revert i. induction s as [|d s IH]; intros i; cbn; [done|].
  destruct (Ascii.eqb d c); [intros [= <-]; lia|].
  intros (j & E & ->)%fmap_Some. specialize (IH j E). lia.
Qed.

Lemma strstr_le s t i : strstr s t = Some i -> (i <= String.length s)%nat.
Proof.
  revert i. induction s as [|d s IH]; intros i; cbn.
  - destruct t; cbn; [|done]. intros [= <-]. lia.
  - destruct (match t with EmptyString => _ | _ => _ end); [intros [= <-]; lia|].
    intros (j & E & ->)%fmap_Some. specialize (IH j E). lia.
Qed.

(** Comparing more characters than the shorter string has is comparing the strings. *)
Lemma strncmp_eq_all n a b :
  (String.length a < n)%nat -> strncmp_eq n a b = String.eqb a b.
Proof.
  revert a b. induction n as [|n IH]; intros a b Hn; [lia|].
  destruct a as [|c a], b as [|d b]; cbn in *; try done.
  rewrite IH by lia. destruct (Ascii.eqb_spec c d) as [->|]; [|done]. done.
Qed.

Lemma substring_short n s : (String.length s <= n)%nat -> String.substring 0 n s = s.
Proof.
  revert n. induction s as [|c s IH]; intros [|n] Hn; cbn in *; try done; [lia|]. by rewrite IH by lia.
Qed.

Lemma strncmp_substring n a b :
  (n <= String.length b)%nat -> strncmp_eq n a b = String.prefix (String.substring 0 n b) a.
Proof.
  revert a b. induction n as [|n IH]; intros a b Hn; cbn; [by destruct b, a|].
  destruct b as [|d b]; [cbn in Hn; lia|]. cbn in *. destruct a as [|c a]; [done|].
  rewrite IH by lia. cbn. destruct (Ascii.eqb_spec c d) as [->|Hne]; [by destruct (Ascii.ascii_dec d d)|].
  destruct (Ascii.ascii_dec d c); [congruence|done].
Qed.

Lemma strncmp_eq_spec n a b :
  strncmp_eq n a b = true <-> String.substring 0 n a = String.substring 0 n b.
Proof.
  revert a b. induction n as [|n IH]; intros a b; cbn; [by destruct a, b|].
  destruct a as [|c a], b as [|d b]; cbn; try done.
  rewrite andb_true_iff, Ascii.eqb_eq, IH. split; [by intros [-> ->]|by intros [= -> ->]].
Qed.
