(* ===== verification/Tinytest.v ===== *)
(** * The test driver: test/tinytest.c

    The framework that the repository's test programs run under: how the command
    line selects tests, how a test runs in the program or in a forked child, and
    how the results are counted. A test is code that acts on the memory of its
    process and on the world, tells the framework of failures, prints, and may die
    or run for ever, in which case a parent that waits for its report waits for ever.
    The branch for Windows, which starts the program anew in place of [fork], is
    left out; so are a [pipe] that fails and a [read] that fails other than by
    finding the pipe closed. *)
From Stdlib Require Import Ascii.
From stdpp Require Import pretty.
From S2P Require Import Prelude Words Memory TestVectors CString.
Local Open Scope string_scope.
Local Open Scope Z_scope.

(** ** Tests: test/tinytest.h *)

Definition TT_FORK : Z := Z.shiftl 1 0.
Definition TT_SKIP : Z := Z.shiftl 1 1.
Definition TT_ENABLED_ : Z := Z.shiftl 1 2.
Definition TT_OFF_BY_DEFAULT : Z := Z.shiftl 1 3.
Definition TT_FIRST_USER_FLAG : Z := Z.shiftl 1 4.

Definition LONGEST_TEST_NAME : nat := Z.to_nat 16384.

(** [enum outcome] *)
Inductive tt_outcome := SKIP | OK | FAIL.

#[export] Instance tt_outcome_eq_dec : EqDecision tt_outcome.
Proof. solve_decision. Defined.

(** What a test calls and prints, in order: [tinytest_set_test_failed_],
    [tinytest_set_test_skipped_], [printf]. *)
Inductive event := SetFailed | SetSkipped | Print (text : string).

(** What [setup_fn] returns: null, [(void* )TT_SKIP], or an environment, which it
    leaves in memory. *)
Inductive setup_result := SetupNull | SetupSkip | SetupEnv.

Section Tinytest.
(** The memory of a process, less the framework's variables, and the world. *)
Context {Mem World : Type}.

(** What becomes of code of the test program: it finishes, with its result and the
    memory it leaves, its process dies, or it never ends. *)
Inductive fate (A : Type) := Finishes (a : A) (m : Mem) | Killed | Hangs.
#[local] Arguments Finishes {A} _ _.
#[local] Arguments Killed {A}.
#[local] Arguments Hangs {A}.

Definition fate_map {A B} (f : A -> B) (r : fate A) : fate B :=
  match r with Finishes a m => Finishes (f a) m | Killed => Killed | Hangs => Hangs end.

(** Code of the test program: its events, the world it leaves or, if it never ends,
    leads to, and what becomes of it. *)
Definition code (A : Type) : Type := Mem -> World -> list event * World * fate A.

(** [struct testcase_t]; the set-up functions see the flags. *)
Record testcase_t := mk_testcase {
  tc_name : string;
  tc_fn : code unit;
  tc_flags : Z;
  tc_setup : option ((Z -> code setup_result) * (Z -> code bool)) }.

Record testgroup_t := mk_testgroup { tg_prefix : string; tg_cases : list testcase_t }.

(** [struct testlist_alias_t] *)
Record testlist_alias_t := mk_alias { al_name : string; al_tests : list string }.

(** The result of [fork], and of the child's [write] to the pipe. *)
Class Forks := { fork_ok : World -> bool; write_ok : World -> bool }.

(** ** The framework's variables *)

Record vars := mk_vars {
  n_ok : Z; n_bad : Z; n_skipped : Z;
  opt_forked : bool; opt_nofork : bool; opt_verbosity : Z;
  cur_test_outcome : tt_outcome;
  cur_test_prefix : string; cur_test_name : option string;
  out : string }.

(** A process, and how a computation in it ends: it returns, calls [exit], is
    killed, or never ends. *)
Record proc := mk_proc { pvars : vars; pmem : Mem; pworld : World }.

Inductive ending (A : Type) :=
  Returns (a : A) (s : proc) | Exits (status : Z) (s : proc) | Dies (s : proc) | Never (s : proc).
#[local] Arguments Returns {A} _ _.
#[local] Arguments Exits {A} _ _.
#[local] Arguments Dies {A} _.
#[local] Arguments Never {A} _.

Definition T (A : Type) : Type := proc -> ending A.

Definition tret {A} (a : A) : T A := fun s => Returns a s.

Definition tbind {A B} (m : T A) (k : A -> T B) : T B := fun s =>
  match m s with Returns a s => k a s | Exits n s => Exits n s | Dies s => Dies s | Never s => Never s end.

Notation "'do' x <- m ; k" := (tbind m (fun x => k)) (at level 10, x name, m at level 100, k at level 200).
Notation "'do_' m ; k" := (tbind m (fun _ => k)) (at level 10, m at level 100, k at level 200).

Definition set_vars (v : vars) (s : proc) : proc := mk_proc v (pmem s) (pworld s).

Definition modify (f : vars -> vars) : T unit := fun s => Returns tt (set_vars (f (pvars s)) s).
Definition var {A} (f : vars -> A) : T A := fun s => Returns (f (pvars s)) s.
Definition texit {A} (status : Z) : T A := fun s => Exits status s.

Definition set_out (t : string) (v : vars) : vars :=
  mk_vars (n_ok v) (n_bad v) (n_skipped v) (opt_forked v) (opt_nofork v) (opt_verbosity v)
    (cur_test_outcome v) (cur_test_prefix v) (cur_test_name v) t.
Definition printf (t : string) (v : vars) : vars := set_out (out v ++ t) v.
Definition set_outcome (o : tt_outcome) (v : vars) : vars :=
  mk_vars (n_ok v) (n_bad v) (n_skipped v) (opt_forked v) (opt_nofork v) (opt_verbosity v)
    o (cur_test_prefix v) (cur_test_name v) (out v).
Definition set_current (prefix : string) (name : option string) (v : vars) : vars :=
  mk_vars (n_ok v) (n_bad v) (n_skipped v) (opt_forked v) (opt_nofork v) (opt_verbosity v)
    (cur_test_outcome v) prefix name (out v).
Definition set_counts (ok bad skipped : Z) (v : vars) : vars :=
  mk_vars ok bad skipped (opt_forked v) (opt_nofork v) (opt_verbosity v)
    (cur_test_outcome v) (cur_test_prefix v) (cur_test_name v) (out v).
Definition set_options (forked nofork : bool) (verbosity : Z) (v : vars) : vars :=
  mk_vars (n_ok v) (n_bad v) (n_skipped v) forked nofork verbosity
    (cur_test_outcome v) (cur_test_prefix v) (cur_test_name v) (out v).

(** As the C program starts. *)
Definition initial_vars : vars := mk_vars 0 0 0 false false 1 FAIL "" None "".

(** ** Telling the framework *)

Definition tinytest_set_test_failed_ (v : vars) : vars :=
  let v :=
    match cur_test_name v with
    | Some name =>
        if opt_verbosity v <=? 0 then
          let v := if opt_verbosity v =? 0 then printf (puts "") v else v in
          let v := printf (cur_test_prefix v ++ name ++ ": ") v in
          set_current (cur_test_prefix v) None v
        else v
    | None => v
    end in
  set_outcome FAIL v.

Definition tinytest_set_test_skipped_ (v : vars) : vars :=
  if cur_test_outcome v is OK then set_outcome SKIP v else v.

Definition handle (e : event) (v : vars) : vars :=
  match e with
  | SetFailed => tinytest_set_test_failed_ v
  | SetSkipped => tinytest_set_test_skipped_ v
  | Print t => printf t v
  end.

(** Running code of the test program. *)
Definition run_code {A} (c : code A) : T A := fun s =>
  let '(evs, w, r) := c (pmem s) (pworld s) in
  let v := fold_left (fun v e => handle e v) evs (pvars s) in
  match r with
  | Finishes a m => Returns a (mk_proc v m w)
  | Killed => Dies (mk_proc v (pmem s) w)
  | Hangs => Never (mk_proc v (pmem s) w)
  end.

(** ** Running a test *)

(** The second half of [testcase_run_bare_], once there is an environment. *)
Definition run_in_env (testcase : testcase_t) : T tt_outcome :=
  do_ modify (set_outcome OK);
  do_ run_code (tc_fn testcase);
  do outcome <- var cur_test_outcome;
  match tc_setup testcase with
  | Some (_, cleanup_fn) =>
      do ok <- run_code (cleanup_fn (tc_flags testcase));
      tret (if ok : bool then outcome else FAIL)
  | None => tret outcome
  end.

Definition testcase_run_bare_ (testcase : testcase_t) : T tt_outcome :=
  match tc_setup testcase with
  | Some (setup_fn, _) =>
      do env <- run_code (setup_fn (tc_flags testcase));
      match env with
      | SetupNull => tret FAIL
      | SetupSkip => tret SKIP
      | SetupEnv => run_in_env testcase
      end
  | None => run_in_env testcase
  end.

(** The byte the child writes: ["NYS"[test_r]]. *)
Definition outcome_char (o : tt_outcome) : Ascii.ascii :=
  match o with FAIL => "N" | OK => "Y" | SKIP => "S" end%char.

(** What the parent makes of it. *)
Definition outcome_of_char (c : Ascii.ascii) : tt_outcome :=
  if Ascii.eqb c "Y"%char then OK else if Ascii.eqb c "S"%char then SKIP else FAIL.

Context {FK : Forks}.

(** The child starts as a copy of the parent; the parent sees what it did to the
    world and printed, and the byte in the pipe, if it got that far. It waits for
    that byte or for the child to end. *)
Definition testcase_run_forked_ (testcase : testcase_t) : T tt_outcome :=
  do verbosity <- var opt_verbosity;
  do_ modify (if 0 <? verbosity then printf "[forking] " else id);
  fun s =>
    let parent (child : proc) := mk_proc (set_out (out (pvars child)) (pvars s)) (pmem s) (pworld child) in
    let hear (b : option Ascii.ascii) (child : proc) :=
      match b with
      | None => Returns FAIL (set_vars (printf "[Lost connection!] " (pvars (parent child))) (parent child))
      | Some b => Returns (outcome_of_char b) (parent child)
      end in
    if fork_ok (pworld s) then
      match testcase_run_bare_ testcase s with
      | Returns test_r c => hear (if write_ok (pworld c) then Some (outcome_char test_r) else None) c
      | Exits _ c | Dies c => hear None c
      | Never c => Never (parent c)
      end
    else hear None s.

Definition MAGIC_EXITCODE : Z := 42.

Definition count (o : tt_outcome) (v : vars) : vars :=
  match o with
  | OK => set_counts (n_ok v + 1) (n_bad v) (n_skipped v) v
  | SKIP => set_counts (n_ok v) (n_bad v) (n_skipped v + 1) v
  | FAIL => set_counts (n_ok v) (n_bad v + 1) (n_skipped v) v
  end.

Definition has (flags mask : Z) : bool := negb (Z.land flags mask =? 0).

(** What is printed after a test. *)
Definition report (loud quiet : bool) (testcase : testcase_t) (outcome : tt_outcome) (v : vars) : vars :=
  match outcome with
  | OK => if loud then printf (puts (if opt_verbosity v =? 1 then "OK" else "")) v else v
  | SKIP => if loud then printf (puts "SKIPPED") v else v
  | FAIL => if negb quiet then printf (newline ++ puts ("  [" ++ tc_name testcase ++ " FAILED]")) v else v
  end.

Definition testcase_run_one (prefix : string) (testcase : testcase_t) : T tt_outcome :=
  do v0 <- var id;
  let quiet := opt_forked v0 in
  let loud := (0 <? opt_verbosity v0) && negb quiet in
  if has (tc_flags testcase) (Z.lor TT_SKIP TT_OFF_BY_DEFAULT) then
    do_ modify (fun v =>
      if 0 <? opt_verbosity v then
        printf (puts (prefix ++ tc_name testcase ++ ": " ++
          if has (tc_flags testcase) TT_SKIP then "SKIPPED" else "DISABLED")) v
      else v);
    do_ modify (count SKIP);
    tret SKIP
  else
    do_ modify (fun v =>
      if loud then printf (prefix ++ tc_name testcase ++ ": ") v
      else set_current prefix (Some (tc_name testcase))
             (if opt_verbosity v =? 0 then printf "." v else v));
    do outcome <-
      (if has (tc_flags testcase) TT_FORK && negb (opt_forked v0 || opt_nofork v0)
       then testcase_run_forked_ testcase
       else testcase_run_bare_ testcase);
    do_ modify (count outcome);
    do_ modify (report loud quiet testcase outcome);
    if opt_forked v0 then
      texit (match outcome with OK => 0 | SKIP => MAGIC_EXITCODE | FAIL => 1 end)
    else tret outcome.

(** ** Selecting tests *)

(** [snprintf(fullname, sizeof(fullname), ...)] *)
Definition fullname (prefix name : string) : string :=
  String.substring 0 (LONGEST_TEST_NAME - 1) (prefix ++ name).

Definition with_flags (flags : Z) (t : testcase_t) : testcase_t :=
  mk_testcase (tc_name t) (tc_fn t) flags (tc_setup t).

(** [!strncmp(fullname, arg, length)] *)
Definition matches (arg full : string) : bool :=
  strncmp_eq (default LONGEST_TEST_NAME (strstr arg "..")) full arg.

(** The body of the loops of [tinytest_set_flag_]: the testcase, whether it was
    found, and what is printed. *)
Definition set_flag_one (arg : string) (set : bool) (flag : Z) (prefix : string) (t : testcase_t)
  : testcase_t * Z * string :=
  let full := fullname prefix (tc_name t) in
  let text :=
    if flag =? 0 then
      "    " ++ full ++
      puts (if has (tc_flags t) TT_OFF_BY_DEFAULT then "   (Off by default)"
            else if has (tc_flags t) TT_SKIP then "  (DISABLED)" else "")
    else "" in
  if matches arg full then
    (with_flags (if set then Z.lor (tc_flags t) flag else Z.ldiff (tc_flags t) flag) t, 1, text)
  else (t, 0, text).

Fixpoint set_flag_cases (arg : string) (set : bool) (flag : Z) (prefix : string) (cases : list testcase_t)
  : list testcase_t * Z * string :=
  match cases with
  | [] => ([], 0, "")
  | t :: cases =>
      let '(t, n, text) := set_flag_one arg set flag prefix t in
      let '(cases, m, text') := set_flag_cases arg set flag prefix cases in
      (t :: cases, n + m, text ++ text')
  end.

Fixpoint tinytest_set_flag_ (groups : list testgroup_t) (arg : string) (set : bool) (flag : Z)
  : list testgroup_t * Z * string :=
  match groups with
  | [] => ([], 0, "")
  | g :: groups =>
      let '(cases, n, text) := set_flag_cases arg set flag (tg_prefix g) (tg_cases g) in
      let '(groups, m, text') := tinytest_set_flag_ groups arg set flag in
      (mk_testgroup (tg_prefix g) cases :: groups, n + m, text ++ text')
  end.

Definition usage_text (groups : list testgroup_t) (list_groups : bool) : string :=
  puts "Options are: [--verbose|--quiet|--terse] [--no-fork]" ++
  puts "  Specify tests by name, or using a prefix ending with '..'" ++
  puts "  To skip a test, prefix its name with a colon." ++
  puts "  To enable a disabled test, prefix its name with a plus." ++
  puts "  Use --list-tests for a list of tests." ++
  (if list_groups then puts "Known tests are:" ++ (tinytest_set_flag_ groups ".." true 0).2 else "").

Context (cfg_aliases : list testlist_alias_t).

(** What processing an option gives: the groups, its result, and what is printed. *)
Definition option_result : Type := list testgroup_t * Z * string.

(** The loop over the tests of an alias. *)
Fixpoint alias_loop (process : list testgroup_t -> string -> option option_result)
    (groups : list testgroup_t) (n : Z) (tests : list string) : option option_result :=
  match tests with
  | [] => Some (groups, n, "")
  | test :: tests =>
      '(groups, r, text) ← process groups test;
      if r <? 0 then Some (groups, -1, text)
      else
        '(groups, r', text') ← alias_loop process groups (n + r) tests;
        Some (groups, r', text ++ text')
  end.

(** [process_test_option] and [process_test_alias] call each other: [None] when
    they are deeper than [depth]. *)
Fixpoint process_test_option (depth : nat) (groups : list testgroup_t) (test : string)
  : option option_result :=
  let enable (groups : list testgroup_t) (test : string) (n flag : Z) :=
    let '(groups, found, text) := tinytest_set_flag_ groups test true flag in
    if found =? 0 then (groups, -1, text ++ puts ("No such test as " ++ test ++ "!"))
    else (groups, n, text) in
  match test with
  | String "@" alias =>
      match depth with
      | O => None
      | S depth =>
          (* process_test_alias *)
          match List.find (fun a => String.eqb (al_name a) alias) cfg_aliases with
          | Some a => alias_loop (process_test_option depth) groups 0 (al_tests a)
          | None => Some (groups, -1, "No such test alias as @" ++ alias ++ "!")
          end
      end
  | String ":" test => Some (enable groups test 0 TT_SKIP)
  | String "+" test =>
      let '(groups, found, text) := tinytest_set_flag_ groups test false TT_OFF_BY_DEFAULT in
      if found =? 0 then Some (groups, -1, text ++ puts ("No such test as " ++ test ++ "!"))
      else
        let '(groups, r, text') := enable groups test 1 TT_ENABLED_ in
        Some (groups, r, text ++ text')
  | _ => Some (enable groups test 1 TT_ENABLED_)
  end.

(** ** The program *)

(** The loop over the arguments: the groups and the number of tests asked for, or
    [None] for the result -1. *)
Fixpoint args_loop (depth : nat) (argv : list string) (groups : list testgroup_t) (n : Z)
  : T (option (list testgroup_t * Z)) :=
  match argv with
  | [] => tret (Some (groups, n))
  | arg :: argv =>
      if String.prefix "-" arg then
        let set f v g := do_ modify (fun x => set_options (f x) (v x) (g x) x); args_loop depth argv groups n in
        if String.eqb arg "--RUNNING-FORKED" then set (fun _ => true) opt_nofork opt_verbosity
        else if String.eqb arg "--no-fork" then set opt_forked (fun _ => true) opt_verbosity
        else if String.eqb arg "--quiet" then set opt_forked opt_nofork (fun _ => -1)
        else if String.eqb arg "--verbose" then set opt_forked opt_nofork (fun _ => 2)
        else if String.eqb arg "--terse" then set opt_forked opt_nofork (fun _ => 0)
        else if String.eqb arg "--help" then
          do_ modify (printf (usage_text groups false)); texit 0
        else if String.eqb arg "--list-tests" then
          do_ modify (printf (usage_text groups true)); texit 0
        else
          do_ modify (printf (puts ("Unknown option " ++ arg ++ ".  Try --help"))); tret None
      else
        match process_test_option depth groups arg with
        | None => fun s => Dies s
        | Some (groups, r, text) =>
            do_ modify (printf text);
            if r <? 0 then tret None else args_loop depth argv groups (n + r)
        end
  end.

Fixpoint run_cases (prefix : string) (cases : list testcase_t) : T unit :=
  match cases with
  | [] => tret tt
  | t :: cases =>
      do_ (if has (tc_flags t) TT_ENABLED_
           then (do_ testcase_run_one prefix t; tret tt) else tret tt);
      run_cases prefix cases
  end.

Fixpoint run_groups (groups : list testgroup_t) : T unit :=
  match groups with
  | [] => tret tt
  | g :: groups => do_ run_cases (tg_prefix g) (tg_cases g); run_groups groups
  end.

(** What is printed at the end. *)
Definition summary (v : vars) : vars :=
  let v := if opt_verbosity v =? 0 then printf (puts "") v else v in
  if negb (n_bad v =? 0) then
    printf (puts (pretty (n_bad v) ++ "/" ++ pretty (n_bad v + n_ok v) ++ " TESTS FAILED. (" ++
      pretty (n_skipped v) ++ " skipped)")) v
  else if 1 <=? opt_verbosity v then
    printf (puts (pretty (n_ok v) ++ " tests ok.  (" ++ pretty (n_skipped v) ++ " skipped)")) v
  else v.

(** [tinytest_main], on the arguments after the name of the program. Recursion
    deeper than [depth] exhausts the stack. *)
Definition tinytest_main (depth : nat) (argv : list string) (groups : list testgroup_t) : T Z :=
  do r <- args_loop depth argv groups 0;
  match r with
  | None => tret (-1)
  | Some (groups, n) =>
      let groups := if n =? 0 then (tinytest_set_flag_ groups ".." true TT_ENABLED_).1.1 else groups in
      do_ run_groups groups;
      do_ modify summary;
      do bad <- var n_bad;
      tret (if bad =? 0 then 0 else 1)
  end.

(** ** What a test comes to *)

(** The outcome of the events of a test: failure wins, then a skip. *)
Definition mark (o : tt_outcome) (e : event) : tt_outcome :=
  match e, o with
  | SetFailed, _ => FAIL
  | SetSkipped, OK => SKIP
  | _, _ => o
  end.

(** The verdict of a test run in a process with the memory [m], with the memory it
    leaves, unless it dies or never ends, and the world; the same whatever ran
    before and is printed. *)
Definition env_verdict (t : testcase_t) (m : Mem) (w : World) : fate tt_outcome * World :=
  let '(evs, w, r) := tc_fn t m w in
  let o := fold_left mark evs OK in
  match r, tc_setup t with
  | Finishes _ m, Some (_, cleanup_fn) =>
      let '(_, w, r) := cleanup_fn (tc_flags t) m w in (fate_map (fun ok : bool => if ok then o else FAIL) r, w)
  | _, _ => (fate_map (fun _ => o) r, w)
  end.

Definition bare_verdict (t : testcase_t) (m : Mem) (w : World) : fate tt_outcome * World :=
  match tc_setup t with
  | None => env_verdict t m w
  | Some (setup_fn, _) =>
      let '(_, w, r) := setup_fn (tc_flags t) m w in
      match r with
      | Finishes SetupEnv m => env_verdict t m w
      | _ => (fate_map (fun e => if e is SetupSkip then SKIP else FAIL) r, w)
      end
  end.

(** In a child, a test that dies or cannot report has failed; for one that never
    ends, there is no verdict. *)
Definition forked_verdict (t : testcase_t) (m : Mem) (w : World) : option tt_outcome * World :=
  if fork_ok w then
    let '(r, w) := bare_verdict t m w in
    (match r with
     | Finishes o _ => Some (if write_ok w then o else FAIL)
     | Killed => Some FAIL
     | Hangs => None
     end, w)
  else (Some FAIL, w).

Definition skipped (t : testcase_t) : bool := has (tc_flags t) (Z.lor TT_SKIP TT_OFF_BY_DEFAULT).

(** What tests come to: their outcomes, the memory of the program, unless one has
    killed it or holds it up for ever, and the world. *)
Definition tally : Type := list tt_outcome * fate unit * World.

Definition then_ (r : tally) (k : Mem -> World -> tally) : tally :=
  let '(os, m, w) := r in
  match m with
  | Finishes _ m => let '(os', m, w) := k m w in ((os ++ os')%list, m, w)
  | _ => (os, m, w)
  end.

Definition one_verdict (t : testcase_t) (m : Mem) (w : World) : tally :=
  if skipped t then ([SKIP], Finishes tt m, w)
  else if has (tc_flags t) TT_FORK then
    let '(o, w) := forked_verdict t m w in
    match o with Some o => ([o], Finishes tt m, w) | None => ([], Hangs, w) end
  else
    let '(r, w) := bare_verdict t m w in
    (match r with Finishes o _ => [o] | _ => [] end, fate_map (fun _ => tt) r, w).

(** Tests run one after the other. *)
Fixpoint verdicts (ts : list testcase_t) (m : Mem) (w : World) : tally :=
  match ts with
  | [] => ([], Finishes tt m, w)
  | t :: ts => then_ (one_verdict t m w) (verdicts ts)
  end.

(** The tests that [main] runs. *)
Definition enabled (groups : list testgroup_t) : list testcase_t :=
  List.filter (fun t => has (tc_flags t) TT_ENABLED_) (groups ≫= tg_cases).

Definition number (o : tt_outcome) (os : list tt_outcome) : Z := zlen (filter (eq o) os).

(** Two sets of variables that count and choose alike. *)
Record same_settings (v v' : vars) : Prop := {
  ss_forked : opt_forked v' = opt_forked v;
  ss_nofork : opt_nofork v' = opt_nofork v;
  ss_ok : n_ok v' = n_ok v;
  ss_bad : n_bad v' = n_bad v;
  ss_skipped : n_skipped v' = n_skipped v }.

#[local] Instance same_settings_preorder : PreOrder same_settings.
Proof. split; [by split|]. intros a b c [] []. split; congruence. Qed.

Lemma handle_settings e v : same_settings v (handle e v) /\ cur_test_outcome (handle e v) = mark (cur_test_outcome v) e.
Proof.
  destruct e; cbn [handle mark].
  - unfold tinytest_set_test_failed_. destruct (cur_test_name v), (opt_verbosity v <=? 0); try done.
    by destruct (opt_verbosity v =? 0).
  - unfold tinytest_set_test_skipped_. by destruct (cur_test_outcome v) eqn:E.
  - done.
Qed.

Lemma handle_all evs v :
  same_settings v (fold_left (fun v e => handle e v) evs v) /\
  cur_test_outcome (fold_left (fun v e => handle e v) evs v) = fold_left mark evs (cur_test_outcome v).
Proof.
  revert v. induction evs as [|e evs IH]; intros v; [done|]. cbn [fold_left].
  destruct (handle_settings e v) as [Hs Ho], (IH (handle e v)) as [Hs' Ho'].
  split; [by transitivity (handle e v)|]. by rewrite Ho', Ho.
Qed.

(** A test run in the program comes to its verdict. *)
Definition comes_to (c : T tt_outcome) (s : proc) (r : fate tt_outcome * World) : Prop :=
  exists s', pworld s' = r.2 /\ same_settings (pvars s) (pvars s') /\
    match r.1 with
    | Finishes o m => c s = Returns o s' /\ pmem s' = m
    | Killed => c s = Dies s'
    | Hangs => c s = Never s'
    end.

Lemma run_in_env_ok t s : comes_to (run_in_env t) s (env_verdict t (pmem s) (pworld s)).
Proof.
  destruct s as [v m w]. unfold comes_to, run_in_env, env_verdict, tbind, modify, run_code, var, tret, set_vars.
  cbn [pmem pworld pvars]. destruct (tc_fn t m w) as [[evs w1] r].
  destruct (handle_all evs (set_outcome OK v)) as [Hs Ho]. set (v1 := fold_left _ evs (set_outcome OK v)) in *.
  cbn [cur_test_outcome set_outcome] in Ho.
  assert (same_settings v v1) as Hv by (transitivity (set_outcome OK v); [done|exact Hs]).
  destruct r as [[] m1| |]; [|by exists (mk_proc v1 m w1)..]. cbn [pvars].
  destruct (tc_setup t) as [[setup_fn cleanup_fn]|]; cbn [pmem pworld];
    [|exists (mk_proc v1 m1 w1); by rewrite Ho].
  destruct (cleanup_fn (tc_flags t) m1 w1) as [[evs2 w2] r2].
  destruct (handle_all evs2 v1) as [Hs2 _]. set (v2 := fold_left _ evs2 v1) in *.
  assert (same_settings v v2) by (by transitivity v1).
  destruct r2 as [b m2| |]; cbn [fate_map fst snd]; rewrite ?Ho;
    [by exists (mk_proc v2 m2 w2)|by exists (mk_proc v2 m1 w2)..].
Qed.

Lemma run_bare_ok t s : comes_to (testcase_run_bare_ t) s (bare_verdict t (pmem s) (pworld s)).
Proof.
  unfold testcase_run_bare_, bare_verdict.
  destruct (tc_setup t) as [[setup_fn cleanup_fn]|] eqn:Et; [|by apply run_in_env_ok].
  destruct s as [v m w]. unfold comes_to, tbind at 1, run_code at 1, tbind at 1, run_code at 1, tbind at 1, run_code at 1.
  cbn [pmem pworld pvars].
  destruct (setup_fn (tc_flags t) m w) as [[evs w1] r]. destruct (handle_all evs v) as [Hs _].
  set (v1 := fold_left _ evs _) in *.
  destruct r as [[] m1| |]; try (by exists (mk_proc v1 m1 w1)); try (by exists (mk_proc v1 m w1)).
  destruct (run_in_env_ok t (mk_proc v1 m1 w1)) as (s' & Hw & Hs' & H). exists s'.
  split; [done|]. split; [by transitivity v1|done].
Qed.

(** A test run in a child comes to its verdict, dies alone, and leaves the memory of
    the program as it was; one that never ends holds up the program. *)
Lemma run_forked_ok t s :
  let '(o, w) := forked_verdict t (pmem s) (pworld s) in
  exists s', match o with
    | Some o => testcase_run_forked_ t s = Returns o s'
    | None => testcase_run_forked_ t s = Never s'
    end /\ pworld s' = w /\ pmem s' = pmem s /\ same_settings (pvars s) (pvars s').
Proof.
  unfold testcase_run_forked_, tbind at 1, var, tbind at 1, modify, tbind at 1, tbind at 1.
  set (s0 := set_vars _ s). assert (pmem s0 = pmem s /\ pworld s0 = pworld s) as [Hm Hw] by done.
  assert (same_settings (pvars s) (pvars s0)) as Hs
    by (unfold s0; cbn; by destruct (0 <? opt_verbosity (pvars s))).
  clearbody s0. unfold forked_verdict. rewrite <-Hm, <-Hw.
  assert (forall v', same_settings (pvars s0) v' -> same_settings (pvars s) v') as Ht by (intros; by transitivity (pvars s0)).
  destruct (fork_ok (pworld s0)).
  2:{ eexists. split; [reflexivity|]. split; [done|]. split; [done|]. apply Ht. by split. }
  destruct (run_bare_ok t s0) as (c & Hc & _ & H).
  destruct (bare_verdict t (pmem s0) (pworld s0)) as [r w]. cbn [fst snd] in Hc, H. subst w.
  destruct r as [o m| |]; [destruct H as [-> _]; destruct (write_ok (pworld c))|rewrite H..].
  1: replace (outcome_of_char (outcome_char o)) with o by (by destruct o).
  all: by eexists; split; [reflexivity|]; split; [done|]; split; [done|]; apply Ht; split.
Qed.

(** ** The count *)

(** The variables after tests with the outcomes [os]. *)
Record counted (os : list tt_outcome) (v v' : vars) : Prop := {
  ct_forked : opt_forked v' = opt_forked v;
  ct_nofork : opt_nofork v' = opt_nofork v;
  ct_ok : n_ok v' = n_ok v + number OK os;
  ct_bad : n_bad v' = n_bad v + number FAIL os;
  ct_skipped : n_skipped v' = n_skipped v + number SKIP os }.

Lemma number_nil o : number o [] = 0.
Proof. done. Qed.

Lemma number_app o os os' : number o (os ++ os') = number o os + number o os'.
Proof. unfold number. by rewrite filter_app, zlen_app. Qed.

Lemma counted_app os os' v v1 v2 : counted os v v1 -> counted os' v1 v2 -> counted (os ++ os') v v2.
Proof.
  intros [] []. split; rewrite ?number_app; try congruence; lia.
Qed.

Lemma counted_settings v v' : same_settings v v' -> counted [] v v'.
Proof. intros []. split; rewrite ?number_nil, ?Z.add_0_r; done. Qed.

Lemma counted_count o v : counted [o] v (count o v).
Proof. destruct o; split; try done; cbn; rewrite ?Z.add_0_r; done. Qed.

(** What a computation does to the counts, the memory and the world. *)
Definition tallies {A} (c : T A) (s : proc) (r : tally) : Prop :=
  let '(os, m, w) := r in
  match m with
  | Finishes _ m => exists a s', c s = Returns a s' /\ pworld s' = w /\ pmem s' = m /\ counted os (pvars s) (pvars s')
  | Killed => exists s', c s = Dies s' /\ pworld s' = w
  | Hangs => exists s', c s = Never s' /\ pworld s' = w
  end.

Lemma tallies_bind {A B} (c : T A) (k : A -> T B) s r f :
  tallies c s r ->
  (forall a s' os, c s = Returns a s' -> counted os (pvars s) (pvars s') ->
    tallies (k a) s' (f (pmem s') (pworld s'))) ->
  tallies (tbind c k) s (then_ r f).
Proof.
  destruct r as [[os [[] m| |]] w]; cbn [tallies then_].
  - intros (a & s1 & E & <- & <- & Hc) Hk. specialize (Hk a s1 os E Hc).
    destruct (f (pmem s1) (pworld s1)) as [[os' [[] m| |]] w]; cbn [tallies]; unfold tbind; rewrite E; [|exact Hk..].
    destruct Hk as (b & s2 & E2 & Hw & Hm & Hc2). exists b, s2. split_and!; try done.
    by apply (counted_app os os' _ (pvars s1)).
  - intros (s1 & E & Hw) _. exists s1. unfold tbind. by rewrite E.
  - intros (s1 & E & Hw) _. exists s1. unfold tbind. by rewrite E.
Qed.

Lemma tallies_var {A B} (f : vars -> A) (k : A -> T B) s r :
  tallies (k (f (pvars s))) s r -> tallies (tbind (var f) k) s r.
Proof. done. Qed.

Lemma tallies_modify f s : same_settings (pvars s) (f (pvars s)) -> tallies (modify f) s ([], Finishes tt (pmem s), pworld s).
Proof. intros H. exists tt, (set_vars (f (pvars s)) s). split_and!; try done. by apply counted_settings. Qed.

Lemma tallies_ret {A} (a : A) s : tallies (tret a) s ([], Finishes tt (pmem s), pworld s).
Proof. exists a, s. split_and!; try done. by apply counted_settings. Qed.

(** Something said or noted before, and after, does not show. *)
Lemma tallies_say {A} f (k : T A) s r :
  same_settings (pvars s) (f (pvars s)) ->
  (forall s', pmem s' = pmem s -> pworld s' = pworld s -> same_settings (pvars s) (pvars s') -> tallies k s' r) ->
  tallies (tbind (modify f) (fun _ => k)) s r.
Proof.
  intros Hs Hk. specialize (Hk (set_vars (f (pvars s)) s) eq_refl eq_refl Hs).
  destruct r as [[os [[] m| |]] w]; [|exact Hk..]. destruct Hk as (a & s2 & E & Hw & Hm & Hc).
  exists a, s2. split; [exact E|]. split; [done|]. split; [done|].
  change os with ([] ++ os)%list. by apply (counted_app [] os _ (f (pvars s))); [apply counted_settings|].
Qed.

Lemma then_ret r : then_ r (fun m w => ([], Finishes tt m, w)) = r.
Proof. destruct r as [[os [[] m| |]] w]; cbn; by rewrite ?app_nil_r. Qed.

(** Counting an outcome, and saying so. *)
Lemma tallies_count {A} o f (a : A) s :
  (forall v, same_settings v (f v)) ->
  tallies (tbind (modify (count o)) (fun _ => tbind (modify f) (fun _ => tret a))) s ([o], Finishes tt (pmem s), pworld s).
Proof.
  intros Hf. exists a, (set_vars (f (count o (pvars s))) s). split; [done|]. split; [done|]. split; [done|].
  rewrite <-(app_nil_r [o]). apply (counted_app [o] [] _ (count o (pvars s))); [apply counted_count|].
  apply counted_settings, Hf.
Qed.

(** Not started by a driver of its own kind; a test that asks for a child may have one. *)
Definition forking (v : vars) : Prop := opt_forked v = false /\ opt_nofork v = false.

Lemma counted_forking os v v' : counted os v v' -> forking v -> forking v'.
Proof. intros [] []. split; congruence. Qed.

Lemma run_one_ok prefix t s :
  forking (pvars s) -> tallies (testcase_run_one prefix t) s (one_verdict t (pmem s) (pworld s)).
Proof.
  intros [Hf Hn]. unfold testcase_run_one. apply tallies_var. cbv zeta. unfold one_verdict. fold (skipped t).
  unfold id. rewrite Hf, Hn. cbn [negb andb orb]. rewrite !andb_true_r.
  destruct (skipped t).
  { apply tallies_say; [by destruct (0 <? opt_verbosity (pvars s))|]. intros s1 <- <- _.
    apply (tallies_count SKIP id). by split. }
  apply tallies_say; [destruct (0 <? opt_verbosity (pvars s)), (opt_verbosity (pvars s) =? 0); by split|].
  intros s1 <- <- Hs1.
  assert (forall o v, same_settings v (report (0 <? opt_verbosity (pvars s)) false t o v)) as Hsay
    by (intros o v; by destruct o, (0 <? opt_verbosity (pvars s))).
  destruct (has (tc_flags t) TT_FORK).
  - pose proof (run_forked_ok t s1) as H. destruct (forked_verdict t (pmem s1) (pworld s1)) as [o w].
    destruct H as (s2 & E & Hw & Hm & Hs). destruct o as [o|].
    2:{ exists s2. unfold tbind. by rewrite E. }
    change ([o], Finishes tt (pmem s1), w)
      with (then_ ([], Finishes tt (pmem s1), w) (fun m w => ([o], Finishes tt m, w))).
    apply tallies_bind; [exists o, s2; split_and!; try done; by apply counted_settings|].
    intros o' s2' os E2 _. rewrite E in E2. injection E2 as <- <-. by apply tallies_count.
  - destruct (run_bare_ok t s1) as (s2 & Hw & Hs & H).
    destruct (bare_verdict t (pmem s1) (pworld s1)) as [[o m| |] w]; cbn [fst snd fate_map] in *.
    + destruct H as [E Hm].
      change ([o], Finishes tt m, w) with (then_ ([], Finishes tt m, w) (fun m w => ([o], Finishes tt m, w))).
      apply tallies_bind; [exists o, s2; split_and!; try done; by apply counted_settings|].
      intros o' s2' os E2 _. rewrite E in E2. injection E2 as <- <-. by apply tallies_count.
    + exists s2. unfold tbind. by rewrite H.
    + exists s2. unfold tbind. by rewrite H.
Qed.

Lemma then_assoc r f g : then_ (then_ r f) g = then_ r (fun m w => then_ (f m w) g).
Proof.
  destruct r as [[os [[] m| |]] w]; cbn [then_]; [|done..].
  destruct (f m w) as [[os' [[] m'| |]] w']; cbn [then_]; [|done..].
  destruct (g m' w') as [[os'' m''] w'']. by rewrite <-app_assoc.
Qed.

Lemma then_ext r f g : (forall m w, f m w = g m w) -> then_ r f = then_ r g.
Proof. intros H. destruct r as [[os [[] m| |]] w]; cbn; by rewrite ?H. Qed.

Lemma verdicts_app ts ts' m w : verdicts (ts ++ ts')%list m w = then_ (verdicts ts m w) (verdicts ts').
Proof.
  revert m w. induction ts as [|t ts IH]; intros m w; cbn [verdicts app then_]; [by destruct (verdicts ts' m w) as [[]]|].
  rewrite then_assoc. by apply then_ext.
Qed.

(** Every test asks for a child of its own. *)
Definition forks (groups : list testgroup_t) : Prop :=
  Forall (fun g => Forall (fun t => has (tc_flags t) TT_FORK = true) (tg_cases g)) groups.

(** Then none sees what another left in memory, and none kills the program; at most
    one holds it up. *)
Lemma verdicts_forks ts m w :
  Forall (fun t => has (tc_flags t) TT_FORK = true) ts ->
  (verdicts ts m w).1.2 = Finishes tt m \/ (verdicts ts m w).1.2 = Hangs.
Proof.
  intros Hf. revert w. induction Hf as [|t l Ht _ IH]; intros w; [by left|]. cbn [verdicts].
  assert ((exists o w1, one_verdict t m w = ([o], Finishes tt m, w1)) \/
    exists w1, one_verdict t m w = ([], Hangs, w1)) as [(o & w1 & ->)|(w1 & ->)]; [| |by right].
  { unfold one_verdict. rewrite Ht. destruct (skipped t); [left; by do 2 eexists|].
    destruct (forked_verdict t m w) as [[o|] w1]; [left; by do 2 eexists|right; by eexists]. }
  cbn [then_]. specialize (IH w1). by destruct (verdicts l m w1) as [[]].
Qed.

(** They all finish if each does, in every world. *)
Lemma verdicts_finish ts m w :
  Forall (fun t => has (tc_flags t) TT_FORK = true /\ forall w, (bare_verdict t m w).1 <> Hangs) ts ->
  (verdicts ts m w).1.2 = Finishes tt m.
Proof.
  intros Hf. revert w. induction Hf as [|t l [Ht Hh] _ IH]; intros w; [done|]. cbn [verdicts].
  assert (exists o w1, one_verdict t m w = ([o], Finishes tt m, w1)) as (o & w1 & ->).
  { unfold one_verdict, forked_verdict. rewrite Ht. destruct (skipped t); [by do 2 eexists|].
    destruct (fork_ok w); [|by do 2 eexists]. specialize (Hh w).
    destruct (bare_verdict t m w) as [[o m1| |] w1]; [by do 2 eexists..|done]. }
  cbn [then_]. specialize (IH w1). by destruct (verdicts l m w1) as [[]].
Qed.

Lemma run_cases_ok prefix cases s :
  forking (pvars s) ->
  tallies (run_cases prefix cases) s
    (verdicts (List.filter (fun t => has (tc_flags t) TT_ENABLED_) cases) (pmem s) (pworld s)).
Proof.
  revert s. induction cases as [|t cases IH]; intros s Hf; cbn [run_cases List.filter]; [apply tallies_ret|].
  destruct (has (tc_flags t) TT_ENABLED_); cbn [verdicts].
  - apply tallies_bind; [|intros _ s1 os _ Hc; by apply IH, (counted_forking os (pvars s))].
    rewrite <-(then_ret (one_verdict t (pmem s) (pworld s))). apply tallies_bind; [by apply run_one_ok|].
    intros _ s1 os _ _. apply tallies_ret.
  - exact (IH s Hf).
Qed.

Lemma run_groups_ok groups s :
  forking (pvars s) -> tallies (run_groups groups) s (verdicts (enabled groups) (pmem s) (pworld s)).
Proof.
  revert s. induction groups as [|g groups IH]; intros s Hf; cbn [run_groups]; [apply tallies_ret|].
  unfold enabled. rewrite bind_cons, List.filter_app, verdicts_app.
  apply tallies_bind; [by apply run_cases_ok|]. intros _ s1 os _ Hc. by apply IH, (counted_forking os (pvars s)).
Qed.

(** ** Options *)

(** What [tinytest_set_flag_] does: to exactly the tests that match. *)
Definition map_tests (f : string -> testcase_t -> testcase_t) (groups : list testgroup_t) : list testgroup_t :=
  (fun g => mk_testgroup (tg_prefix g) (f (tg_prefix g) <$> tg_cases g)) <$> groups.

Definition count_tests (P : string -> testcase_t -> bool) (groups : list testgroup_t) : Z :=
  zlen (groups ≫= fun g => List.filter (P (tg_prefix g)) (tg_cases g)).

Definition matching (arg prefix : string) (t : testcase_t) : bool := matches arg (fullname prefix (tc_name t)).

Definition flagged (arg : string) (set : bool) (flag : Z) (prefix : string) (t : testcase_t) : testcase_t :=
  if matching arg prefix t
  then with_flags (if set then Z.lor (tc_flags t) flag else Z.ldiff (tc_flags t) flag) t else t.

Lemma set_flag_cases_ok arg set flag prefix cases :
  (set_flag_cases arg set flag prefix cases).1 =
    (flagged arg set flag prefix <$> cases, zlen (List.filter (matching arg prefix) cases)).
Proof.
  induction cases as [|t cases IH]; [done|]. cbn [set_flag_cases fmap list_fmap List.filter].
  unfold set_flag_one. fold (matching arg prefix t).
  destruct (set_flag_cases arg set flag prefix cases) as [[cases' n] text]. cbn [fst] in IH.
  injection IH as -> ->. unfold flagged at 2. destruct (matching arg prefix t); cbn [fst]; by rewrite ?zlen_cons.
Qed.

Lemma set_flag_ok groups arg set flag :
  (tinytest_set_flag_ groups arg set flag).1 =
    (map_tests (flagged arg set flag) groups, count_tests (matching arg) groups).
Proof.
  unfold map_tests, count_tests. induction groups as [|g groups IH]; [done|].
  cbn [tinytest_set_flag_ fmap list_fmap]. rewrite bind_cons, zlen_app.
  pose proof (set_flag_cases_ok arg set flag (tg_prefix g) (tg_cases g)) as H.
  destruct (set_flag_cases _ _ _ _ _) as [[cases n] text]. cbn [fst] in H. injection H as -> ->.
  destruct (tinytest_set_flag_ groups arg set flag) as [[gs m] text']. cbn [fst] in *. by injection IH as -> ->.
Qed.

Lemma has_bit flags b : 0 <= b -> has flags (Z.shiftl 1 b) = Z.testbit flags b.
Proof.
  intros Hb. unfold has. rewrite Z.shiftl_1_l.
  assert (Z.testbit (Z.land flags (2 ^ b)) b = Z.testbit flags b) as Ht
    by (by rewrite Z.land_spec, Z.pow2_bits_true, andb_true_r by done).
  destruct (Z.eqb_spec (Z.land flags (2 ^ b)) 0) as [E|Hne]; cbn [negb]; [by rewrite <-Ht, E, Z.testbit_0_l|].
  destruct (Z.testbit flags b) eqn:E; [done|]. destruct Hne. apply Z.bits_inj'. intros n Hn.
  rewrite Z.land_spec, Z.pow2_bits_eqb, Z.testbit_0_l by done.
  destruct (Z.eqb_spec b n) as [<-|]; [by rewrite E|apply andb_false_r].
Qed.

(** ** Running the program *)

(** Options that neither end the program nor keep it from forking. *)
Definition plain (arg : string) : bool :=
  negb (String.prefix "-" arg) || String.eqb arg "--quiet" || String.eqb arg "--verbose" ||
  String.eqb arg "--terse".

(** The tests that the arguments choose: [None] when aliases are nested too deeply,
    [Some None] for a name nobody knows. *)
Fixpoint choose (depth : nat) (argv : list string) (groups : list testgroup_t) (n : Z)
  : option (option (list testgroup_t * Z)) :=
  match argv with
  | [] => Some (Some (groups, n))
  | arg :: argv =>
      if String.prefix "-" arg then choose depth argv groups n
      else
        '(groups, r, _) ← process_test_option depth groups arg;
        if r <? 0 then Some None else choose depth argv groups (n + r)
  end.

Lemma args_loop_ok depth argv groups n s :
  forallb plain argv = true ->
  match choose depth argv groups n with
  | Some r => exists s', args_loop depth argv groups n s = Returns r s' /\
      pmem s' = pmem s /\ pworld s' = pworld s /\ same_settings (pvars s) (pvars s')
  | None => exists s', args_loop depth argv groups n s = Dies s'
  end.
Proof.
  revert groups n s. induction argv as [|arg argv IH]; intros groups n s; cbn [forallb args_loop choose].
  { intros _. by exists s. }
  intros [Ha Hp]%andb_prop.
  assert (forall groups n f s, same_settings (pvars s) (f (pvars s)) ->
    match choose depth argv groups n with
    | Some r => exists s', (tbind (modify f) (fun _ => args_loop depth argv groups n)) s = Returns r s' /\
        pmem s' = pmem s /\ pworld s' = pworld s /\ same_settings (pvars s) (pvars s')
    | None => exists s', (tbind (modify f) (fun _ => args_loop depth argv groups n)) s = Dies s'
    end) as Hnext.
  { intros gs k f s0 Hs. specialize (IH gs k (set_vars (f (pvars s0)) s0) Hp).
    destruct (choose depth argv gs k); [|exact IH]. destruct IH as (s' & E & Hm & Hw & Hs').
    exists s'. split; [exact E|]. split; [done|]. split; [done|]. by transitivity (f (pvars s0)). }
  unfold plain in Ha. destruct (String.prefix "-" arg) eqn:Epre; cbn [negb orb] in Ha.
  - cbv zeta. destruct (String.eqb_spec arg "--quiet") as [->|]; [by apply Hnext|].
    destruct (String.eqb_spec arg "--verbose") as [->|]; [by apply Hnext|].
    destruct (String.eqb_spec arg "--terse") as [->|]; [by apply Hnext|done].
  - destruct (process_test_option depth groups arg) as [[[g1 r] t]|]; cbn [mbind option_bind];
      [|by exists s].
    destruct (r <? 0); [|by apply Hnext].
    eexists. split; [reflexivity|]. split; [done|]. by split.
Qed.

(** Aliases that do not lead back to themselves: each names only aliases of a lower
    rank. *)
Definition ranked (rank : string -> nat) : Prop :=
  forall a test alias, List.In a cfg_aliases -> List.In test (al_tests a) -> test = String "@" alias ->
    (rank alias < rank (al_name a))%nat.

Definition option_rank (rank : string -> nat) (test : string) : nat :=
  match test with String "@" alias => S (rank alias) | _ => O end.

(** An alias whose first test is itself is followed for ever. *)
Lemma process_diverges depth groups name tests :
  List.find (fun a => String.eqb (al_name a) name) cfg_aliases = Some (mk_alias name (String "@" name :: tests)) ->
  process_test_option depth groups (String "@" name) = None.
Proof.
  intros Ef. revert groups. induction depth as [|depth IH]; intros groups; [done|].
  cbn [process_test_option]. rewrite Ef. cbn [al_tests alias_loop]. by rewrite IH.
Qed.

Lemma summary_settings v : same_settings v (summary v).
Proof.
  unfold summary. cbv zeta. repeat match goal with |- context [if ?c then _ else _] => destruct c end; by split.
Qed.

(** The arguments, the tests they choose, and the status. *)
Lemma main_ok depth argv groups m w :
  forallb plain argv = true ->
  match choose depth argv groups 0 with
  | None => exists s', tinytest_main depth argv groups (mk_proc initial_vars m w) = Dies s'
  | Some None => exists s', tinytest_main depth argv groups (mk_proc initial_vars m w) = Returns (-1) s' /\
      pmem s' = m /\ pworld s' = w /\ same_settings initial_vars (pvars s')
  | Some (Some (gs, n)) =>
      let gs := if n =? 0 then map_tests (flagged ".." true TT_ENABLED_) gs else gs in
      let '(os, m', w') := verdicts (enabled gs) m w in
      match m' with
      | Finishes _ m' => exists s', tinytest_main depth argv groups (mk_proc initial_vars m w) =
            Returns (if number FAIL os =? 0 then 0 else 1) s' /\ pworld s' = w' /\ pmem s' = m' /\
          n_ok (pvars s') = number OK os /\ n_bad (pvars s') = number FAIL os /\
          n_skipped (pvars s') = number SKIP os
      | Killed => exists s', tinytest_main depth argv groups (mk_proc initial_vars m w) = Dies s' /\ pworld s' = w'
      | Hangs => exists s', tinytest_main depth argv groups (mk_proc initial_vars m w) = Never s' /\ pworld s' = w'
      end
  end.
Proof.
  intros Hp. pose proof (args_loop_ok depth argv groups 0 (mk_proc initial_vars m w) Hp) as Ha.
  destruct (choose depth argv groups 0) as [r|] eqn:Ec.
  2:{ destruct Ha as (s1 & E). exists s1. unfold tinytest_main, tbind at 1. by rewrite E. }
  destruct Ha as (s1 & E & Hm & Hw & Hs). cbn [pmem pworld pvars] in *.
  destruct r as [[gs n]|]; [|exists s1; unfold tinytest_main, tbind at 1; by rewrite E]. cbv zeta.
  set (gs' := if n =? 0 then _ else gs).
  assert (tinytest_main depth argv groups (mk_proc initial_vars m w) =
    tbind (run_groups gs') (fun _ => tbind (modify summary) (fun _ =>
      tbind (var n_bad) (fun bad => tret (if bad =? 0 then 0 else 1)))) s1) as ->.
  { unfold tinytest_main, tbind at 1. by rewrite E, set_flag_ok. }
  assert (forking (pvars s1)) as Hk by (by apply (counted_forking [] initial_vars); [apply counted_settings|]).
  pose proof (run_groups_ok gs' s1 Hk) as H. rewrite Hm, Hw in H. clearbody gs'.
  destruct (verdicts (enabled gs') m w) as [[os [[] m'| |]] w']; cbn [tallies] in H.
  2,3: destruct H as (s2 & E2 & Hw2); exists s2; unfold tbind; by rewrite E2.
  destruct H as ([] & s2 & E2 & Hw2 & Hm2 & [_ _ Ho Hb Hsk]).
  destruct Hs as [_ _ H1 H2 H3]. rewrite H1 in Ho. rewrite H2 in Hb. rewrite H3 in Hsk.
  cbn [n_ok n_bad n_skipped initial_vars] in Ho, Hb, Hsk. rewrite Z.add_0_l in Ho, Hb, Hsk.
  destruct (summary_settings (pvars s2)) as [_ _ G1 G2 G3].
  exists (set_vars (summary (pvars s2)) s2). unfold tbind, modify, var, tret. rewrite E2.
  cbn [pvars set_vars]. rewrite G1, G2, G3, Ho, Hb, Hsk. done.
Qed.
End Tinytest.
Arguments Returns {Mem World A} _ _.
Arguments Exits {Mem World A} _ _.
Arguments Dies {Mem World A} _.
Arguments Never {Mem World A} _.
Arguments Finishes {Mem A} _ _.
Arguments Killed {Mem A}.
Arguments Hangs {Mem A}.
Arguments fate Mem A : clear implicits.
