(* ===== verification/TinytestProps.v ===== *)
(** * Properties of the test driver

    Which tests the arguments select, as a specification in terms of their names
    ([orders], [selection]), what the status and the counts of [tinytest_main] mean,
    and when it ends. *)
From Stdlib Require Import Ascii.
From S2P Require Import Prelude Words Memory TestVectors CString Tinytest.
Local Open Scope string_scope.
Local Open Scope Z_scope.

(** ** The names that options match *)

(** A name selects the test of that name; a name up to [..] the tests that begin
    with it. *)
Lemma matches_ok arg prefix name :
  (String.length (prefix ++ name) < LONGEST_TEST_NAME)%nat ->
  matches arg (fullname prefix name) =
    match strstr arg ".." with
    | Some i => String.prefix (String.substring 0 i arg) (prefix ++ name)
    | None => String.eqb (prefix ++ name) arg
    end.
Proof.
  intros Hl. unfold matches, fullname. rewrite substring_short by lia.
  destruct (strstr arg "..") as [i|] eqn:E; cbn [default].
  - by apply strncmp_substring, (strstr_le arg "..").
  - by apply strncmp_eq_all.
Qed.

(** ** What the arguments ask for *)

(** An argument, or a test of an alias: run the tests of a name, skip them, or run
    them even if they are off by default. *)
Inductive order := Run (n : string) | Skip (n : string) | Force (n : string) | UnknownAlias.

Definition order_of (test : string) : order :=
  match test with
  | String ":" n => Skip n
  | String "+" n => Force n
  | _ => Run test
  end.

(** With its aliases replaced by what they stand for, at most [depth] deep. *)
Fixpoint expand (aliases : list testlist_alias_t) (depth : nat) (test : string) : option (list order) :=
  match test with
  | String "@" a =>
      match depth with
      | O => None
      | S depth =>
          match List.find (fun al => String.eqb (al_name al) a) aliases with
          | Some al => mjoin <$> mapM (expand aliases depth) (al_tests al)
          | None => Some [UnknownAlias]
          end
      end
  | _ => Some [order_of test]
  end.

(** The arguments that are not options. *)
Definition orders (aliases : list testlist_alias_t) (depth : nat) (argv : list string) : option (list order) :=
  mjoin <$> mapM (expand aliases depth) (List.filter (fun arg => negb (String.prefix "-" arg)) argv).

(** Aliases that do not lead back to themselves can be replaced. *)
Lemma expand_ranked aliases rank depth test :
  ranked aliases rank -> (option_rank rank test <= depth)%nat -> is_Some (expand aliases depth test).
Proof.
  intros Hr. revert test. induction depth as [|depth IH]; intros test Hd.
  all: destruct test as [|[[] [] [] [] [] [] [] []] test]; cbn [expand]; try (by eexists).
  { cbn [option_rank] in Hd. lia. }
  destruct (List.find _ _) as [a|] eqn:Ef; [|by eexists].
  apply List.find_some in Ef as [Hin Ha]. apply String.eqb_eq in Ha as <-.
  apply fmap_is_Some, mapM_is_Some, List.Forall_forall. intros t Ht. apply IH.
  change (option_rank rank (String "@" (al_name a))) with (S (rank (al_name a))) in Hd.
  destruct t as [|[[] [] [] [] [] [] [] []] t]; cbn [option_rank]; try lia.
  pose proof (Hr a _ t Hin Ht eq_refl). lia.
Qed.

Lemma orders_ranked aliases rank depth argv :
  ranked aliases rank -> Forall (fun arg => (option_rank rank arg <= depth)%nat) argv ->
  is_Some (orders aliases depth argv).
Proof.
  intros Hr Hd. apply fmap_is_Some, mapM_is_Some, List.Forall_forall. intros arg [Hin _]%List.filter_In.
  apply (expand_ranked _ rank); [done|]. rewrite List.Forall_forall in Hd. by apply Hd.
Qed.

(** A name is a test's full name, or the beginning of one followed by [..]. *)
Definition named (n full : string) : bool :=
  match strstr n ".." with
  | Some i => String.prefix (String.substring 0 i n) full
  | None => String.eqb full n
  end.

(** The flags of the test of a full name once an order is carried out. *)
Definition obey (full : string) (flags : Z) (o : order) : Z :=
  match o with
  | Run n => if named n full then Z.lor flags TT_ENABLED_ else flags
  | Skip n => if named n full then Z.lor flags TT_SKIP else flags
  | Force n => if named n full then Z.lor (Z.ldiff flags TT_OFF_BY_DEFAULT) TT_ENABLED_ else flags
  | UnknownAlias => flags
  end.

(** Some test has the name. *)
Definition known (names : list string) (o : order) : bool :=
  match o with
  | Run n | Skip n | Force n => existsb (named n) names
  | UnknownAlias => false
  end.

Definition asks (o : order) : bool := match o with Run _ | Force _ => true | _ => false end.

Section Selection.
Context {Mem World : Type}.
Abbreviation groups_t := (list (testgroup_t (Mem := Mem) (World := World))).

Definition all_names (groups : groups_t) : list string :=
  groups ≫= fun g => (fun t => tg_prefix g ++ tc_name t) <$> tg_cases g.

(** The names fit the driver's buffer. *)
Definition short_names (groups : groups_t) : Prop :=
  Forall (fun full => (String.length full < LONGEST_TEST_NAME)%nat) (all_names groups).

Definition obeyed (os : list order) (groups : groups_t) : groups_t :=
  map_tests (fun prefix t => with_flags (fold_left (obey (prefix ++ tc_name t)) os (tc_flags t)) t) groups.

(** The tests to run, with the flags they have then: [None] if an order names no
    test; all of them, besides, if nothing is asked for but skipping. *)
Definition selection (groups : groups_t) (os : list order) : option (list testcase_t) :=
  if forallb (known (all_names groups)) os
  then Some (enabled (obeyed (if existsb asks os then os else (os ++ [Run ".."])%list) groups))
  else None.

(** ** The driver selects these *)

Lemma all_names_map f (groups : groups_t) :
  (forall prefix t, tc_name (f prefix t) = tc_name t) -> all_names (map_tests f groups) = all_names groups.
Proof.
  intros Hf. unfold all_names, map_tests. induction groups as [|g groups IH]; [done|].
  rewrite fmap_cons, !bind_cons, IH. f_equal. cbn [tg_prefix tg_cases].
  rewrite <-list_fmap_compose. apply list_fmap_ext. intros i t _. cbn. by rewrite Hf.
Qed.

Lemma map_tests_ext f f' (groups : groups_t) :
  short_names groups ->
  (forall prefix t, (String.length (prefix ++ tc_name t) < LONGEST_TEST_NAME)%nat -> f prefix t = f' prefix t) ->
  map_tests f groups = map_tests f' groups.
Proof.
  unfold short_names, all_names, map_tests. intros Hs Hf. induction groups as [|g groups IH]; [done|].
  rewrite bind_cons, Forall_app in Hs. destruct Hs as [Hg Hs]. rewrite !fmap_cons, IH by done. do 2 f_equal.
  rewrite Forall_fmap in Hg. induction Hg as [|t ts Ht _ IHt]; [done|]. rewrite !fmap_cons, IHt. f_equal. by apply Hf.
Qed.

Lemma map_tests_map f f' (groups : groups_t) :
  map_tests f' (map_tests f groups) = map_tests (fun prefix t => f' prefix (f prefix t)) groups.
Proof.
  unfold map_tests. rewrite <-list_fmap_compose. apply list_fmap_ext. intros i g _. cbn.
  by rewrite <-list_fmap_compose.
Qed.

Lemma obeyed_app os os' (groups : groups_t) : obeyed (os ++ os')%list groups = obeyed os' (obeyed os groups).
Proof.
  unfold obeyed. rewrite map_tests_map. unfold map_tests. apply list_fmap_ext. intros i g _. f_equal.
  apply list_fmap_ext. intros j t _. cbn [tc_name tc_flags with_flags]. by rewrite fold_left_app.
Qed.

Lemma obeyed_names os (groups : groups_t) : all_names (obeyed os groups) = all_names groups.
Proof. by apply all_names_map. Qed.

Lemma obeyed_nil (groups : groups_t) : obeyed [] groups = groups.
Proof.
  unfold obeyed, map_tests. rewrite <-list_fmap_id. apply list_fmap_ext. intros i g _. destruct g as [p ts]. cbn. f_equal.
  rewrite <-(list_fmap_id ts) at 2. apply list_fmap_ext. intros j t _. by destruct t.
Qed.

(** One setting of a flag, and how many tests it finds. *)
Lemma set_flag_named (groups : groups_t) arg (set : bool) flag :
  short_names groups ->
  exists n text, tinytest_set_flag_ groups arg set flag =
    (map_tests (fun prefix t => with_flags
      (if named arg (prefix ++ tc_name t) then if set then Z.lor (tc_flags t) flag else Z.ldiff (tc_flags t) flag
       else tc_flags t) t) groups, n, text) /\
    (n =? 0) = negb (existsb (named arg) (all_names groups)).
Proof.
  intros Hs. pose proof (set_flag_ok groups arg set flag) as H.
  destruct (tinytest_set_flag_ groups arg set flag) as [[gs n] text]. cbn [fst] in H. injection H as -> ->.
  exists (count_tests (matching arg) groups), text. split.
  - do 2 f_equal. apply map_tests_ext; [done|]. intros prefix t Hl. unfold flagged, matching.
    rewrite matches_ok by done. unfold named. destruct t as [name fn fl setup]. cbn [tc_name] in *.
    by destruct (strstr arg "..") as [i|];
      [destruct (String.prefix _ _)|destruct (String.eqb _ _)].
  - unfold count_tests, short_names, all_names in *. induction groups as [|g groups IH]; [done|].
    rewrite !bind_cons, existsb_app, zlen_app. rewrite bind_cons, Forall_app in Hs. destruct Hs as [Hg Hs].
    specialize (IH Hs). assert ((zlen (List.filter (matching arg (tg_prefix g)) (tg_cases g)) =? 0) =
      negb (existsb (named arg) ((fun t => tg_prefix g ++ tc_name t) <$> tg_cases g))) as H1.
    { clear IH Hs. rewrite Forall_fmap in Hg. induction Hg as [|t ts Ht _ IHt]; [done|].
      cbn [List.filter fmap list_fmap existsb]. unfold matching at 1. rewrite matches_ok by done.
      fold (named arg (tg_prefix g ++ tc_name t)).
      destruct (named arg (tg_prefix g ++ tc_name t)); [|exact IHt]. cbn [orb negb]. rewrite zlen_cons.
      apply Z.eqb_neq. pose proof (zlen_nonneg (List.filter (matching arg (tg_prefix g)) ts)). lia. }
    pose proof (zlen_nonneg (List.filter (matching arg (tg_prefix g)) (tg_cases g))) as G1.
    pose proof (zlen_nonneg (groups ≫= fun g => List.filter (matching arg (tg_prefix g)) (tg_cases g))) as G2.
    rewrite negb_orb, <-H1, <-IH. apply eq_true_iff_eq. rewrite andb_true_iff, !Z.eqb_eq. lia.
Qed.

Definition number_asked (os : list order) : Z := zlen (List.filter asks os).

(** What processing an option comes to. *)
Definition carries_out (groups : groups_t) (n : Z) (os : list order) (res : option option_result) : Prop :=
  exists gs r text, res = Some (gs, r, text) /\
    if forallb (known (all_names groups)) os then gs = obeyed os groups /\ r = n + number_asked os else r < 0.

Lemma carries_one groups o gs n text :
  asks o = (n =? 1) -> n = 0 \/ n = 1 -> known (all_names groups) o = true -> gs = obeyed [o] groups ->
  carries_out groups 0 [o] (Some (gs, n, text)).
Proof.
  intros Ha Hn Hk ->. exists (obeyed [o] groups), n, text. split; [done|]. cbn [forallb]. rewrite Hk.
  split; [done|]. unfold number_asked. cbn [List.filter]. rewrite Ha. by destruct Hn as [-> | ->].
Qed.

Lemma carries_none groups o gs text :
  known (all_names groups) o = false -> carries_out groups 0 [o] (Some (gs, -1, text)).
Proof. intros Hk. exists gs, (-1), text. split; [done|]. cbn [forallb]. by rewrite Hk. Qed.

Lemma obeyed_short os groups : short_names groups -> short_names (obeyed os groups).
Proof. unfold short_names. by rewrite obeyed_names. Qed.

Lemma known_app groups os os' :
  forallb (known (all_names groups)) (os ++ os')%list =
    forallb (known (all_names groups)) os && forallb (known (all_names (obeyed os groups))) os'.
Proof. by rewrite forallb_app, obeyed_names. Qed.

Lemma number_asked_app os os' : number_asked (os ++ os')%list = number_asked os + number_asked os'.
Proof. unfold number_asked. by rewrite List.filter_app, zlen_app. Qed.

Lemma number_asked_nonneg os : 0 <= number_asked os.
Proof. apply zlen_nonneg. Qed.

(** Enabling, or skipping, the tests of a name. *)
Lemma enable_carries groups o arg n flag err :
  short_names groups -> asks o = (n =? 1) -> n = 0 \/ n = 1 ->
  (forall names, known names o = existsb (named arg) names) ->
  (forall full flags, obey full flags o = if named arg full then Z.lor flags flag else flags) ->
  carries_out groups 0 [o] (Some (let '(gs, found, text) := tinytest_set_flag_ groups arg true flag in
    if found =? 0 then (gs, -1, text ++ err) else (gs, n, text))).
Proof.
  intros Hs Ha Hn Hk Ho. destruct (set_flag_named groups arg true flag Hs) as (f & text & -> & ->).
  destruct (existsb (named arg) (all_names groups)) eqn:E; cbn [negb].
  - apply carries_one; [done|done|by rewrite Hk|]. unfold obeyed. cbn [fold_left].
    apply map_tests_ext; [done|]. intros prefix t _. by rewrite Ho.
  - apply carries_none. by rewrite Hk.
Qed.

(** Enabling tests that are off by default. *)
Lemma force_carries groups arg err err' :
  short_names groups ->
  carries_out groups 0 [Force arg] (
    let '(gs, found, text) := tinytest_set_flag_ groups arg false TT_OFF_BY_DEFAULT in
    if found =? 0 then Some (gs, -1, text ++ err)
    else
      let '(gs, r, text') := let '(gs, found, text) := tinytest_set_flag_ gs arg true TT_ENABLED_ in
          if found =? 0 then (gs, -1, text ++ err') else (gs, 1, text) in
      Some (gs, r, text ++ text')).
Proof.
  intros Hs. destruct (set_flag_named groups arg false TT_OFF_BY_DEFAULT Hs) as (f & text & -> & ->).
  destruct (existsb (named arg) (all_names groups)) eqn:E; cbn [negb]; [|by apply carries_none].
  set (gs := map_tests _ groups).
  assert (all_names gs = all_names groups) as Hn by (by apply all_names_map).
  destruct (set_flag_named gs arg true TT_ENABLED_) as (f2 & text2 & -> & ->); [unfold short_names; by rewrite Hn|].
  rewrite Hn, E. cbn [negb]. apply carries_one; [done|by right|exact E|].
  unfold gs, obeyed. rewrite map_tests_map. cbn [fold_left]. apply map_tests_ext; [done|]. intros prefix t _.
  cbn [obey tc_name tc_flags with_flags]. by destruct (named arg (prefix ++ tc_name t)).
Qed.

Lemma alias_carries process expand_ groups n tests oss :
  (forall groups test os, short_names groups -> expand_ test = Some os -> carries_out groups 0 os (process groups test)) ->
  short_names groups -> mapM expand_ tests = Some oss ->
  carries_out groups n (mjoin oss) (alias_loop process groups n tests).
Proof.
  intros Hp. revert groups n oss. induction tests as [|test tests IH]; intros groups n oss Hs E.
  { injection E as <-. exists groups, n, "". split; [done|]. cbn. by rewrite obeyed_nil, Z.add_0_r. }
  cbn [mapM] in E. inv_bind E. inv_bind E. injection E as <-. rename x into os, x0 into oss.
  destruct (Hp groups test os Hs Hx) as (gs & r & text & Ep & Hr). cbn [alias_loop]. rewrite Ep.
  cbn [mbind option_bind].
  change (mjoin (os :: oss)) with (os ++ mjoin oss)%list. unfold carries_out. rewrite known_app. destruct (forallb (known (all_names groups)) os) eqn:Ek.
  - destruct Hr as [-> ->]. pose proof (number_asked_nonneg os).
    rewrite (proj2 (Z.ltb_ge (0 + number_asked os) 0)) by lia.
    destruct (IH (obeyed os groups) (n + (0 + number_asked os)) oss) as (gs2 & r2 & text2 & -> & Hr2);
      [by apply obeyed_short|done|]. cbn [mbind option_bind andb]. exists gs2, r2, (text ++ text2). split; [done|].
    destruct (forallb _ (mjoin oss)); [|done]. destruct Hr2 as [-> ->]. rewrite obeyed_app, number_asked_app.
    split; [done|lia].
  - apply Z.ltb_lt in Hr as ->. by exists gs, (-1), text.
Qed.

Lemma process_carries aliases depth groups test os :
  short_names groups -> expand aliases depth test = Some os ->
  carries_out groups 0 os (process_test_option aliases depth groups test).
Proof.
  revert groups test os. induction depth as [|depth IH]; intros groups test os Hs.
  all: destruct test as [|[[] [] [] [] [] [] [] []] test]; cbn [process_test_option expand order_of]; try done;
    try (intros [= <-]; by apply force_carries);
    try (intros [= <-]; apply enable_carries; first [done|by left|by right]).
  destruct (List.find _ _) as [a|].
  - intros E. apply fmap_Some in E as (oss & E & ->). by apply (alias_carries _ (expand aliases depth)).
  - intros [= <-]. by apply carries_none.
Qed.

(** All the arguments. *)
Lemma choose_orders aliases depth argv groups n os :
  short_names groups -> orders aliases depth argv = Some os ->
  choose aliases depth argv groups n =
    Some (if forallb (known (all_names groups)) os then Some (obeyed os groups, n + number_asked os) else None).
Proof.
  unfold orders. revert groups n os. induction argv as [|arg argv IH]; intros groups n os Hs E; cbn [choose List.filter] in *.
  { injection E as <-. cbn. by rewrite obeyed_nil, Z.add_0_r. }
  destruct (String.prefix "-" arg); cbn [negb] in E; [by apply IH|].
  apply fmap_Some in E as (oss & E & ->). cbn [mapM] in E. inv_bind E. inv_bind E. injection E as <-.
  destruct (process_carries aliases depth groups arg x Hs Hx) as (gs & r & text & -> & Hr).
  cbn [mbind option_bind].
  change (mjoin (x :: x0)) with (x ++ mjoin x0)%list. rewrite known_app.
  destruct (forallb (known (all_names groups)) x); cbn [andb].
  - destruct Hr as [-> ->]. pose proof (number_asked_nonneg x).
    rewrite (proj2 (Z.ltb_ge (0 + number_asked x) 0)) by lia.
    rewrite (IH (obeyed x groups) _ (mjoin x0)); [|by apply obeyed_short|by rewrite Hx0].
    destruct (forallb _ (mjoin x0)); [|done]. rewrite obeyed_app, number_asked_app. do 3 f_equal. lia.
  - by apply Z.ltb_lt in Hr as ->.
Qed.

Lemma asks_none os : (number_asked os =? 0) = negb (existsb asks os).
Proof.
  unfold number_asked. induction os as [|o os IH]; [done|]. cbn [List.filter existsb].
  destruct (asks o); [|done]. rewrite zlen_cons. apply Z.eqb_neq. pose proof (zlen_nonneg (List.filter asks os)). lia.
Qed.

(** The tests the program runs are the selection. *)
Lemma choose_selection aliases depth argv groups os :
  short_names groups -> orders aliases depth argv = Some os ->
  match choose aliases depth argv groups 0 with
  | Some (Some (gs, n)) =>
      selection groups os = Some (enabled (if n =? 0 then map_tests (flagged ".." true TT_ENABLED_) gs else gs))
  | Some None => selection groups os = None
  | None => False
  end.
Proof.
  intros Hs E. rewrite (choose_orders aliases depth argv groups 0 os Hs E). unfold selection.
  destruct (forallb (known (all_names groups)) os); [|done]. rewrite Z.add_0_l, asks_none.
  destruct (existsb asks os); cbn [negb]; [done|]. rewrite obeyed_app. do 2 f_equal.
  apply map_tests_ext; [by apply obeyed_short|]. intros prefix t Hl. unfold flagged, matching. rewrite matches_ok by done.
  cbn. destruct (prefix ++ tc_name t); done.
Qed.

(** Selecting changes but the flags of a test; not whether it asks for a child, nor
    the flags that are its own. *)
Lemma obey_bit full flags os b :
  b = 0 \/ 4 <= b -> Z.testbit (fold_left (obey full) os flags) b = Z.testbit flags b.
Proof.
  intros Hb. revert flags. induction os as [|o os IH]; intros flags; [done|]. cbn [fold_left]. rewrite IH.
  assert (Z.testbit TT_ENABLED_ b = false /\ Z.testbit TT_SKIP b = false /\ Z.testbit TT_OFF_BY_DEFAULT b = false)
    as (H1 & H2 & H3).
  { destruct Hb as [-> |Hb]; [done|]. split_and!; (apply Z.bits_above_log2; [done|]); [change (2 < b)|change (1 < b)|change (3 < b)]; lia. }
  destruct o as [a|a|a|]; cbn [obey]; try done; destruct (named a full); try done;
    by rewrite ?Z.lor_spec, ?Z.ldiff_spec, ?H1, ?H2, ?H3, ?andb_true_r, ?orb_false_r.
Qed.

Lemma selection_tests groups os ts :
  selection groups os = Some ts ->
  Forall (fun t' => exists t flags, List.In t (groups ≫= tg_cases) /\ t' = with_flags flags t /\
    forall b, b = 0 \/ 4 <= b -> Z.testbit (tc_flags t') b = Z.testbit (tc_flags t) b) ts.
Proof.
  unfold selection. destruct (forallb _ _); [|done]. intros [= <-].
  set (os' := if existsb asks os then os else _). clearbody os'. apply List.Forall_forall.
  intros t' [Hin _]%List.filter_In. apply list_elem_of_In, list_elem_of_bind in Hin as (g' & Ht' & Hg').
  unfold obeyed, map_tests in Hg'. apply list_elem_of_fmap in Hg' as (g & -> & Hg). cbn [tg_cases] in Ht'.
  apply list_elem_of_fmap in Ht' as (t & -> & Ht). do 2 eexists. split; [|split; [reflexivity|]].
  - apply list_elem_of_In, list_elem_of_bind. by exists g.
  - intros b Hb. cbn [with_flags tc_flags]. by apply obey_bit.
Qed.

Lemma selection_forks groups os ts :
  selection groups os = Some ts -> forks groups -> Forall (fun t => has (tc_flags t) TT_FORK = true) ts.
Proof.
  intros Es Hf. eapply Forall_impl; [by apply (selection_tests groups os)|]. intros t' (t & flags & Hin & -> & Hb).
  unfold TT_FORK. rewrite has_bit, Hb, <-has_bit by (done || by left).
  apply list_elem_of_In, list_elem_of_bind in Hin as (g & Ht & Hg).
  unfold forks in Hf. rewrite Forall_forall in Hf. specialize (Hf g Hg). cbn in Hf.
  rewrite Forall_forall in Hf. by apply Hf.
Qed.

Lemma selection_finish groups os ts m :
  selection groups os = Some ts -> forks groups ->
  (forall t flags w, List.In t (groups ≫= tg_cases) -> (bare_verdict (with_flags flags t) m w).1 <> Hangs) ->
  Forall (fun t => has (tc_flags t) TT_FORK = true /\ forall w, (bare_verdict t m w).1 <> Hangs) ts.
Proof.
  intros Es Hf Hh. apply Forall_and. split; [by apply (selection_forks groups os)|].
  eapply Forall_impl; [by apply (selection_tests groups os)|]. intros t' (t & flags & Hin & -> & _) w. by apply Hh.
Qed.

(** A test that never ends, in its child. *)
Lemma verdicts_hang {FK : Forks (World := World)} (t : testcase_t (Mem := Mem)) ts m w :
  has (tc_flags t) TT_FORK = true -> skipped t = false -> fork_ok w = true -> (bare_verdict t m w).1 = Hangs ->
  verdicts (t :: ts) m w = ([], Hangs, (bare_verdict t m w).2).
Proof.
  intros Ht Hk Hw Hh. cbn [verdicts]. unfold one_verdict, forked_verdict. rewrite Hk, Ht, Hw.
  destruct (bare_verdict t m w) as [r w']. cbn [fst snd] in *. by subst r.
Qed.

(** The driver, and the selection. *)
Lemma main_selects {FK : Forks (World := World)} aliases depth argv (groups : groups_t) os m w :
  forallb plain argv = true -> short_names groups -> orders aliases depth argv = Some os ->
  match selection groups os with
  | None => exists s', tinytest_main aliases depth argv groups (mk_proc initial_vars m w) = Returns (-1) s' /\
      pmem s' = m /\ pworld s' = w /\ n_ok (pvars s') = 0 /\ n_bad (pvars s') = 0 /\ n_skipped (pvars s') = 0
  | Some ts =>
      let '(outs, r, w') := verdicts ts m w in
      match r with
      | Finishes _ m' => exists s', tinytest_main aliases depth argv groups (mk_proc initial_vars m w) =
            Returns (if number FAIL outs =? 0 then 0 else 1) s' /\ pworld s' = w' /\ pmem s' = m' /\
          n_ok (pvars s') = number OK outs /\ n_bad (pvars s') = number FAIL outs /\
          n_skipped (pvars s') = number SKIP outs
      | Killed => exists s', tinytest_main aliases depth argv groups (mk_proc initial_vars m w) = Dies s' /\
          pworld s' = w'
      | Hangs => exists s', tinytest_main aliases depth argv groups (mk_proc initial_vars m w) = Never s' /\
          pworld s' = w'
      end
  end.
Proof.
  intros Hp Hs Eo. pose proof (main_ok aliases depth argv groups m w Hp) as H.
  pose proof (choose_selection aliases depth argv groups os Hs Eo) as Hc.
  destruct (choose aliases depth argv groups 0) as [[[gs n]|]|]; [by rewrite Hc| |done].
  rewrite Hc. destruct H as (s' & E & Hm & Hw & [_ _ H1 H2 H3]). by exists s'.
Qed.

(** An argument that names a looping alias first is never done with. *)
Lemma choose_diverges aliases depth name tests argv (groups : groups_t) n :
  List.find (fun a => String.eqb (al_name a) name) aliases = Some (mk_alias name (String "@" name :: tests)) ->
  choose aliases depth (String "@" name :: argv) groups n = None.
Proof. intros Ef. cbn [choose String.prefix]. by rewrite (process_diverges _ _ _ _ _ Ef). Qed.
End Selection.

(** ** The properties *)

(** C24: the driver's verdict. The arguments, less their options, are orders to run,
    to skip or to force the tests of a name, which is a test's full name or the
    beginning of one followed by "..", or aliases of such; the options are to set how
    much is printed. Then, if some order names no test, [tinytest_main] returns -1
    with nothing run or counted; else it runs exactly the selected tests: those that are enabled
    once the orders have been carried out one after the other on the flags of each
    test they name, with all the tests run besides when nothing is asked for but
    skipping. The tests run in order, and each counts as its events say: a failure,
    else a skip, else a success; in a child of its own, a test that dies or cannot
    report has failed. The status is 0 exactly when nothing failed. If every test
    asks for a child, none can end the program, and each starts from the program's
    initial memory, so that no outcome depends on what another test left there. The
    program dies only with a test that it runs itself; and it never ends exactly when
    a test does not, in a child or not: it waits for ever for the child's report. *)
Theorem tinytest_main_counts {Mem World : Type} {FK : Forks (World := World)} aliases depth argv
    (groups : list (testgroup_t (Mem := Mem))) os m w :
  forallb plain argv = true -> short_names groups -> orders aliases depth argv = Some os ->
  match selection groups os with
  | None => exists s', tinytest_main aliases depth argv groups (mk_proc initial_vars m w) = Returns (-1) s' /\
      pmem s' = m /\ pworld s' = w /\ n_ok (pvars s') = 0 /\ n_bad (pvars s') = 0 /\ n_skipped (pvars s') = 0
  | Some ts =>
      let '(outs, r, w') := verdicts ts m w in
      (forks groups -> r = Finishes tt m \/ r = Hangs) /\
      match r with
      | Finishes _ m' => exists s', tinytest_main aliases depth argv groups (mk_proc initial_vars m w) =
            Returns (if number FAIL outs =? 0 then 0 else 1) s' /\ pworld s' = w' /\ pmem s' = m' /\
          n_ok (pvars s') = number OK outs /\ n_bad (pvars s') = number FAIL outs /\
          n_skipped (pvars s') = number SKIP outs
      | Killed => exists s', tinytest_main aliases depth argv groups (mk_proc initial_vars m w) = Dies s' /\
          pworld s' = w'
      | Hangs => exists s', tinytest_main aliases depth argv groups (mk_proc initial_vars m w) = Never s' /\
          pworld s' = w'
      end
  end.
Proof.
  intros Hp Hs Eo. pose proof (main_selects aliases depth argv groups os m w Hp Hs Eo) as H.
  destruct (selection groups os) as [ts|] eqn:Es; [|done].
  pose proof (fun Hf => verdicts_forks ts m w (selection_forks groups os ts Es Hf)) as Hk.
  by destruct (verdicts ts m w) as [[outs r] w'].
Qed.

(** C32: the driver ends. When every alias names only aliases of a lower rank, the
    stack holds as many calls as the ranks of the arguments need, the arguments are
    plain, every test asks for a child, and none goes on for ever, whatever the flags
    that its set-up is given and the state of the world, [tinytest_main] returns -1, 0
    or 1, even if tests die, and the memory of the program is as it was. But if the
    first test that runs, in a child and not skipped, goes on for ever, so does the
    driver: nothing in it limits a test's time. And when the first test of an alias
    is the alias itself, which nothing in the code refuses, an argument that names it
    is followed until the stack is gone, however deep. *)
Theorem tinytest_main_ends {Mem World : Type} {FK : Forks (World := World)} aliases rank depth argv
    (groups : list (testgroup_t (Mem := Mem))) m w :
  forallb plain argv = true -> forks groups -> short_names groups ->
  (ranked aliases rank -> Forall (fun arg => (option_rank rank arg <= depth)%nat) argv ->
    ((forall t flags w, List.In t (groups ≫= tg_cases) -> (bare_verdict (with_flags flags t) m w).1 <> Hangs) ->
      exists status s', tinytest_main aliases depth argv groups (mk_proc initial_vars m w) = Returns status s' /\
        (status = -1 \/ status = 0 \/ status = 1) /\ pmem s' = m) /\
    (forall os t ts, orders aliases depth argv = Some os -> selection groups os = Some (t :: ts) ->
      skipped t = false -> fork_ok w = true -> (bare_verdict t m w).1 = Hangs ->
      exists s', tinytest_main aliases depth argv groups (mk_proc initial_vars m w) = Never s')) /\
  (forall name tests argv', argv = String "@" name :: argv' ->
    List.find (fun a => String.eqb (al_name a) name) aliases = Some (mk_alias name (String "@" name :: tests)) ->
    exists s', tinytest_main aliases depth argv groups (mk_proc initial_vars m w) = Dies s').
Proof.
  intros Hp Hf Hs. split.
  - intros Hr Hd. destruct (orders_ranked aliases rank depth argv Hr Hd) as [os Eo].
    pose proof (main_selects aliases depth argv groups os m w Hp Hs Eo) as H. split.
    + intros Hh. destruct (selection groups os) as [ts|] eqn:Es;
        [|destruct H as (s' & E & Hm & _); exists (-1), s'; auto].
      pose proof (verdicts_finish ts m w (selection_finish groups os ts m Es Hf Hh)) as Hv.
      destruct (verdicts ts m w) as [[outs r] w']. cbn [fst snd] in Hv. subst r.
      destruct H as (s' & E & _ & Hm & _). exists (if number FAIL outs =? 0 then 0 else 1), s'.
      split; [done|]. split; [|done]. destruct (number FAIL outs =? 0); auto.
    + intros os' t ts Eo' Es Hk Hw Hh. rewrite Eo in Eo'. injection Eo' as <-. rewrite Es in H.
      pose proof (selection_forks groups os _ Es Hf) as Ht. inv Ht.
      rewrite (verdicts_hang t ts m w) in H by done. by destruct H as (s' & E & _); exists s'.
  - intros name tests argv' -> Ef. pose proof (main_ok aliases depth _ groups m w Hp) as H.
    by rewrite (choose_diverges _ _ _ _ _ _ _ Ef) in H.
Qed.

(** ** At work *)

(** A system where a child's report can be lost, once; a memory of one number; a
    test that passes and adds to it, one that fails, one that dies and one, off by
    default, that never ends. *)
#[local] Instance flaky_forks : Forks (World := nat) :=
  {| fork_ok := fun _ => true; write_ok := fun w => negb (Nat.eqb w 1) |}.

Definition quick_groups : list (testgroup_t (Mem := nat) (World := nat)) :=
  [mk_testgroup "a/"
     [mk_testcase "passes" (fun m w => ([], S w, Finishes tt (S m))) TT_FORK None;
      mk_testcase "fails" (fun m w => ([SetFailed; SetSkipped], S w, Finishes tt m)) TT_FORK None];
   mk_testgroup "b/" [mk_testcase "dies" (fun m w => ([Print "x"], S w, Killed)) TT_FORK None]].

Definition three_groups : list (testgroup_t (Mem := nat) (World := nat)) :=
  (quick_groups ++ [mk_testgroup "c/"
     [mk_testcase "hangs" (fun m w => ([], S w, Hangs)) (Z.lor TT_FORK TT_OFF_BY_DEFAULT) None]])%list.

Definition three_aliases : list testlist_alias_t :=
  [mk_alias "ALL" ["@A"; "b/.."; "c/.."]; mk_alias "A" ["a/.."]; mk_alias "LOOP" ["@LOOP"]].

Definition three_main (argv : list string) : ending Z :=
  tinytest_main three_aliases 2 argv three_groups (mk_proc initial_vars 5%nat 0%nat).

Lemma three_short : short_names three_groups.
Proof. unfold short_names. apply (bool_decide_eq_true_1 _). by vm_compute. Qed.

Lemma quick_short : short_names quick_groups.
Proof. unfold short_names. apply (bool_decide_eq_true_1 _). by vm_compute. Qed.

Lemma tinytest_main_counts_witness :
  (exists s', three_main ["@ALL"; "--quiet"] = Returns 1 s' /\ pmem s' = 5%nat /\
    n_ok (pvars s') = 0 /\ n_bad (pvars s') = 3 /\ n_skipped (pvars s') = 1) /\
  (exists s', three_main ["a/passes"; "a/pass"] = Returns (-1) s' /\ pmem s' = 5%nat /\ pworld s' = 0%nat /\
    n_ok (pvars s') = 0 /\ n_bad (pvars s') = 0 /\ n_skipped (pvars s') = 0) /\
  (exists s', three_main [":a/fails"; "+c/hangs"; "a/.."] = Never s' /\ pworld s' = 2%nat).
Proof.
  unfold three_main. split; [|split].
  - pose proof (tinytest_main_counts three_aliases 2 ["@ALL"; "--quiet"] three_groups _ 5%nat 0%nat eq_refl
      three_short eq_refl) as H.
    remember (tinytest_main three_aliases _ _ _ _) as e eqn:Ee. clear Ee. vm_compute in H.
    destruct H as [_ (s' & E & _ & Hm & Ho & Hb & Hs)]. exists s'. tauto.
  - pose proof (tinytest_main_counts three_aliases 2 ["a/passes"; "a/pass"] three_groups _ 5%nat 0%nat eq_refl
      three_short eq_refl) as H.
    remember (tinytest_main three_aliases _ _ _ _) as e eqn:Ee. clear Ee. vm_compute in H. exact H.
  - pose proof (tinytest_main_counts three_aliases 2 [":a/fails"; "+c/hangs"; "a/.."] three_groups _ 5%nat 0%nat eq_refl
      three_short eq_refl) as H.
    remember (tinytest_main three_aliases _ _ _ _) as e eqn:Ee. clear Ee. vm_compute in H. exact (proj2 H).
Defined.

Definition three_rank (alias : string) : nat := if String.eqb alias "ALL" then 1 else 0.

Lemma three_ranked : ranked (take 2 three_aliases) three_rank.
Proof.
  intros a test alias [<-|[<-|[]]] Hin ->; cbn in Hin.
  - destruct Hin as [[= <-]|[[=]|[[=]|[]]]]. cbn. lia.
  - by destruct Hin as [[=]|[]].
Qed.

Lemma quick_finish t flags w :
  List.In t (quick_groups ≫= tg_cases) -> (bare_verdict (with_flags flags t) 5%nat w).1 <> Hangs.
Proof. by intros [<-|[<-|[<-|[]]]]. Qed.

Lemma tinytest_main_ends_witness :
  (exists status s', tinytest_main (take 2 three_aliases) 2 ["@A"; "b/dies"] quick_groups
      (mk_proc initial_vars 5%nat 0%nat) = Returns status s' /\
    (status = -1 \/ status = 0 \/ status = 1) /\ pmem s' = 5%nat) /\
  (exists s', tinytest_main (take 2 three_aliases) 2 ["+c/.."] three_groups (mk_proc initial_vars 5%nat 0%nat) =
    Never s') /\
  (exists s', three_main ["@LOOP"] = Dies s').
Proof.
  assert (forks three_groups) as Hf by (by repeat constructor).
  split; [|split].
  - apply (tinytest_main_ends (take 2 three_aliases) three_rank 2 ["@A"; "b/dies"] quick_groups 5%nat 0%nat);
      [reflexivity|by repeat constructor|exact quick_short|exact three_ranked|
       repeat constructor; cbn; lia|exact quick_finish].
  - eapply (tinytest_main_ends (take 2 three_aliases) three_rank 2 ["+c/.."] three_groups 5%nat 0%nat);
      [reflexivity|exact Hf|exact three_short|exact three_ranked|repeat constructor; cbn; lia|reflexivity..].
  - by apply (tinytest_main_ends three_aliases three_rank 2 ["@LOOP"] three_groups 5%nat 0%nat eq_refl
      Hf three_short) with (name := "LOOP") (tests := []) (argv' := []).
Defined.
