(* ===== verification/HsChaCha.v ===== *)
(** * The block function of the Haskell model: test/hs/ChaCha.hs

    The repository carries a second description of the generator, in Haskell, to
    compare the C code with. This file holds its block function, on tuples of
    words, and the proof that it is the reference one. [None] is the value of an
    expression that raises an error: a failed pattern or a call of [error]. *)
From S2P Require Import Prelude Words Memory ChaChaRef ChaChaMerged.
Local Open Scope Z_scope.

Module Hs.

(** ** Definitions *)

(** Words are [Word32]: sums wrap. *)
Definition rotate (w n : Z) : Z := Z.lor (u32 (Z.shiftl w n)) (Z.shiftr w (32 - n)).

Fixpoint nTimes {A} (fn : A -> A) (n : nat) (x : A) : A :=
  match n with
  | O => x
  | S n => nTimes fn n (fn x)
  end.

Definition qround '(a, b, c, d) : Z * Z * Z * Z :=
  let a' := u32 (a + b) in
  let d' := rotate (Z.lxor d a') 16 in
  let c' := u32 (c + d') in
  let b' := rotate (Z.lxor b c') 12 in
  let a'' := u32 (a' + b') in
  let d'' := rotate (Z.lxor d' a'') 8 in
  let c'' := u32 (c' + d'') in
  let b'' := rotate (Z.lxor b' c'') 7 in
  (a'', b'', c'', d'').

Inductive ChaChaState_ :=
  ChaChaState (x0 x1 x2 x3 x4 x5 x6 x7 x8 x9 x10 x11 x12 x13 x14 x15 : Z).

Definition listToState (l : list Z) : option ChaChaState_ :=
  match l with
  | [x0; x1; x2; x3; x4; x5; x6; x7; x8; x9; x10; x11; x12; x13; x14; x15] =>
      Some (ChaChaState x0 x1 x2 x3 x4 x5 x6 x7 x8 x9 x10 x11 x12 x13 x14 x15)
  | _ => None
  end.

Definition stateToList (s : ChaChaState_) : list Z :=
  let 'ChaChaState x0 x1 x2 x3 x4 x5 x6 x7 x8 x9 x10 x11 x12 x13 x14 x15 := s in
  [x0; x1; x2; x3; x4; x5; x6; x7; x8; x9; x10; x11; x12; x13; x14; x15].

Definition tworounds (state : ChaChaState_) : ChaChaState_ :=
  let 'ChaChaState x0 x1 x2 x3 x4 x5 x6 x7 x8 x9 x10 x11 x12 x13 x14 x15 := state in
  let '(x0, x4, x8, x12) := qround (x0, x4, x8, x12) in
  let '(x1, x5, x9, x13) := qround (x1, x5, x9, x13) in
  let '(x2, x6, x10, x14) := qround (x2, x6, x10, x14) in
  let '(x3, x7, x11, x15) := qround (x3, x7, x11, x15) in
  let '(x0, x5, x10, x15) := qround (x0, x5, x10, x15) in
  let '(x1, x6, x11, x12) := qround (x1, x6, x11, x12) in
  let '(x2, x7, x8, x13) := qround (x2, x7, x8, x13) in
  let '(x3, x4, x9, x14) := qround (x3, x4, x9, x14) in
  ChaChaState x0 x1 x2 x3 x4 x5 x6 x7 x8 x9 x10 x11 x12 x13 x14 x15.

Definition plus (x y : ChaChaState_) : option ChaChaState_ :=
  listToState (zip_with (fun x y => u32 (x + y)) (stateToList x) (stateToList y)).

Definition chachafn (rounds : Z) (input : ChaChaState_) : option ChaChaState_ :=
  let result := nTimes tworounds (Z.to_nat (rounds / 2)) input in
  plus result input.

Fixpoint bytesToWords (bytes : list byte) : option (list Z) :=
  match bytes with
  | [] => Some []
  | a :: b :: c :: d :: rest =>
      let num := u32 (Z_of_byte a + Z_of_byte b * 2 ^ 8 + Z_of_byte c * 2 ^ 16
        + Z_of_byte d * 2 ^ 24) in
      rest ← bytesToWords rest; Some (num :: rest)
  | _ => None
  end.

Fixpoint wordsToBytes (words : list Z) : list byte :=
  match words with
  | [] => []
  | w :: rest =>
      let a := byte_of_Z (Z.land w 255) in
      let b := byte_of_Z (Z.land (Z.shiftr w 8) 255) in
      let c := byte_of_Z (Z.land (Z.shiftr w 16) 255) in
      let d := byte_of_Z (Z.land (Z.shiftr w 24) 255) in
      a :: b :: c :: d :: wordsToBytes rest
  end.

Inductive ChaChaKey_ := ChaChaKey (k0 k1 k2 k3 k4 k5 k6 k7 n0 n1 : Z).

Definition chachaWords (rounds : Z) (key : ChaChaKey_) (ctr : Z) : option (list Z) :=
  let 'ChaChaKey k0 k1 k2 k3 k4 k5 k6 k7 n0 n1 := key in
  let sigma0 := 1634760805 in
  let sigma1 := 857760878 in
  let sigma2 := 2036477234 in
  let sigma3 := 1797285236 in
  let inp := ChaChaState sigma0 sigma1 sigma2 sigma3 k0 k1 k2 k3 k4 k5 k6 k7 ctr 0 n0 n1 in
  s ← chachafn rounds inp; Some (stateToList s).

(** [chachaKey], of test/hs/Ottery.hs. *)
Definition chachaKey (bytes : list byte) : option ChaChaKey_ :=
  ws ← bytesToWords bytes;
  match ws with
  | [k0; k1; k2; k3; k4; k5; k6; k7; n0; n1] => Some (ChaChaKey k0 k1 k2 k3 k4 k5 k6 k7 n0 n1)
  | _ => None
  end.

End Hs.

(** ** Lemmas: rounds *)

Lemma hs_rotate w n : Hs.rotate w n = ROTL32 w n.
Proof. unfold Hs.rotate, ROTL32. by rewrite U32V_u32, u32_idemp. Qed.

Lemma hs_qround a b c d :
  in_u32 a -> in_u32 b -> in_u32 c -> in_u32 d ->
  exists a' b' c' d', Hs.qround (a, b, c, d) = (a', b', c', d') /\
    qr4 a b c d = (a', b', c', d') /\ in_u32 a' /\ in_u32 b' /\ in_u32 c' /\ in_u32 d'.
Proof.
  intros Ha Hb Hc Hd.
  destruct (quarter_step a b c d Ha Hb Hc Hd) as (a' & b' & c' & d' & E & E' & Hw).
  exists a', b', c', d'. split; [|done]. rewrite <-E. unfold QUARTERROUND, ROTATE, XOR, PLUS, Hs.qround.
  rewrite !hs_rotate, !U32V_u32. done.
Qed.

Definition hs_state_ok (s : Hs.ChaChaState_) : Prop := Forall in_u32 (Hs.stateToList s).

(** One quarter round on both sides of the goal. *)
Ltac hs_quarter :=
  match goal with
  | |- context [qround (?h :: ?t) ?i ?j ?k ?l] =>
      rewrite (qround_qr4 (h :: t) i j k l)
        by (apply (bool_decide_unpack _); vm_compute; exact I)
  end;
  match goal with
  | |- Hs.stateToList (match Hs.qround (?a, ?b, ?c, ?d) with _ => _ end) = _ /\ _ =>
      let E := fresh "E" in let E' := fresh "E" in
      destruct (hs_qround a b c d) as (? & ? & ? & ? & E & E' & ? & ? & ? & ?); [assumption..|];
      rewrite E;
      match goal with |- context [qr4 ?p ?q ?r ?s] => change (qr4 p q r s) with (qr4 a b c d) end;
      rewrite E'; cbn [insert list_insert]; clear E E'
  end.

Lemma hs_tworounds s :
  hs_state_ok s ->
  Hs.stateToList (Hs.tworounds s) = double_round (Hs.stateToList s) /\ hs_state_ok (Hs.tworounds s).
Proof.
  destruct s as [a0 a1 a2 a3 a4 a5 a6 a7 a8 a9 a10 a11 a12 a13 a14 a15].
  unfold hs_state_ok at 1. unfold Hs.stateToList at 1 3. rewrite !Forall_cons.
  intros (?&?&?&?&?&?&?&?&?&?&?&?&?&?&?&?&_). unfold Hs.tworounds, double_round.
  do 8 hs_quarter. split; [done|].
  unfold hs_state_ok, Hs.stateToList. repeat (apply Forall_cons_2; [assumption|]). apply Forall_nil_2.
Qed.

Lemma hs_rounds n s :
  hs_state_ok s ->
  Hs.stateToList (Hs.nTimes Hs.tworounds n s) = Nat.iter n double_round (Hs.stateToList s).
Proof.
  revert s. induction n as [|n IH]; intros s Hs; [done|].
  destruct (hs_tworounds s Hs) as [E Hs']. cbn [Hs.nTimes]. rewrite (IH _ Hs'), E.
  symmetry. apply Nat.iter_succ_r.
Qed.

Lemma hs_listToState l s : Hs.listToState l = Some s -> Hs.stateToList s = l.
Proof. do 17 (destruct l as [|? l]; try discriminate). by intros [= <-]. Qed.

Lemma hs_listToState_some l : length l = 16%nat -> exists s, Hs.listToState l = Some s.
Proof. intros H. do 17 (destruct l as [|? l]; try discriminate). by eexists. Qed.

Lemma hs_plus x y :
  exists s, Hs.plus x y = Some s /\
    Hs.stateToList s = zip_with (fun i j => mask32 (i + j)) (Hs.stateToList y) (Hs.stateToList x).
Proof.
  destruct x, y. unfold Hs.plus. cbn [Hs.stateToList zip_with Hs.listToState].
  eexists. split; [done|]. cbn [Hs.stateToList]. rewrite !mask32_u32.
  repeat (apply f_equal2; [f_equal; lia|]). done.
Qed.

(** ** Lemmas: bytes and words *)

Lemma hs_word a b c d :
  u32 (Z_of_byte a + Z_of_byte b * 2 ^ 8 + Z_of_byte c * 2 ^ 16 + Z_of_byte d * 2 ^ 24) =
    le_decode [a; b; c; d].
Proof.
  pose proof (le_decode_range [a; b; c; d]) as Hr. change (8 * zlen [a; b; c; d]) with 32 in Hr.
  rewrite <-(u32_small (le_decode [a; b; c; d])) by done. f_equal. cbn [le_decode]. lia.
Qed.

Lemma hs_bytesToWords n : forall bs, (length bs = 4 * n)%nat -> Hs.bytesToWords bs = Some (unpack bs).
Proof.
  induction n as [|n IH]; intros bs Hn; [by destruct bs|].
  destruct bs as [|a [|b [|c [|d bs]]]]; try (cbn in Hn; lia).
  cbn [Hs.bytesToWords unpack]. rewrite IH by (cbn in Hn; lia). cbn [mbind option_bind].
  by rewrite hs_word.
Qed.

Lemma hs_low_byte w : byte_of_Z (Z.land w 255) = byte_of_Z w.
Proof. change 255 with (Z.ones 8). rewrite Z.land_ones by lia. apply byte_of_Z_u8. Qed.

Lemma hs_wordsToBytes ws : Hs.wordsToBytes ws = pack ws.
Proof.
  induction ws as [|w ws IH]; [done|]. cbn [Hs.wordsToBytes]. rewrite IH, !hs_low_byte.
  change (pack (w :: ws)) with (le_encode 4 w ++ pack ws).
  cbn [le_encode app]. rewrite !Z.shiftr_div_pow2, !Z.div_div by lia. done.
Qed.

Lemma unpack_app n : forall a b, (length a = 4 * n)%nat -> unpack (a ++ b) = unpack a ++ unpack b.
Proof.
  induction n as [|n IH]; intros a b Hn; [by destruct a|].
  destruct a as [|a0 [|a1 [|a2 [|a3 a]]]]; try (cbn in Hn; lia).
  cbn [app unpack]. rewrite IH by (cbn in Hn; lia). done.
Qed.

(** A key is 8 words of ChaCha key and 2 of nonce. *)
Lemma unpack_key k :
  zlen k = 40 ->
  exists k0 k1 k2 k3 k4 k5 k6 k7 n0 n1,
    unpack (slice k 0 32) = [k0; k1; k2; k3; k4; k5; k6; k7] /\ unpack (slice k 32 8) = [n0; n1] /\
    unpack k = [k0; k1; k2; k3; k4; k5; k6; k7; n0; n1].
Proof.
  intros Hk. assert (k = slice k 0 32 ++ slice k 32 8) as Hs.
  { pose proof (slice_app_split k 0 32 8 ltac:(lia) ltac:(lia) ltac:(lia)) as Hx.
    by rewrite slice_all in Hx by (rewrite Hk; done). }
  pose proof (zlen_slice k 0 32 ltac:(lia) ltac:(lia) ltac:(lia)) as Hl.
  assert (unpack k = unpack (slice k 0 32) ++ unpack (slice k 32 8)) as ->.
  { rewrite Hs at 1. apply (unpack_app 8). unfold zlen in Hl. lia. }
  pose proof (length_unpack_key k 0 8 ltac:(lia) ltac:(lia)) as H1.
  pose proof (length_unpack_key k 32 2 ltac:(lia) ltac:(lia)) as H2.
  change (4 * Z.of_nat 8) with 32 in H1. change (4 * Z.of_nat 2) with 8 in H2.
  destruct (unpack (slice k 0 32)) as [|k0 [|k1 [|k2 [|k3 [|k4 [|k5 [|k6 [|k7 [|]]]]]]]]]; try discriminate.
  destruct (unpack (slice k 32 8)) as [|n0 [|n1 [|]]]; try discriminate.
  by exists k0, k1, k2, k3, k4, k5, k6, k7, n0, n1.
Qed.

(** ** The block function *)

Lemma hs_block k :
  zlen k = 40 ->
  exists key, Hs.chachaKey k = Some key /\
    forall rounds c, in_u32 c ->
      Hs.wordsToBytes <$> Hs.chachaWords (Z.of_nat rounds) key c =
        Some (chacha_block c (slice k 32 8) (slice k 0 32) rounds).
Proof.
  intros Hk. destruct (unpack_key k Hk)
    as (k0 & k1 & k2 & k3 & k4 & k5 & k6 & k7 & n0 & n1 & E1 & E2 & E).
  exists (Hs.ChaChaKey k0 k1 k2 k3 k4 k5 k6 k7 n0 n1). split.
  { unfold Hs.chachaKey. rewrite (hs_bytesToWords 10) by (unfold zlen in Hk; lia).
    cbn [mbind option_bind]. by rewrite E. }
  intros rounds c Hc. unfold Hs.chachaWords, Hs.chachafn.
  set (inp := Hs.ChaChaState _ _ _ _ _ _ _ _ _ _ _ _ _ _ _ _).
  assert (Hs.stateToList inp = key_words k c) as Hinp.
  { unfold key_words. rewrite E1, E2. reflexivity. }
  assert (hs_state_ok inp) as Hok by (unfold hs_state_ok; rewrite Hinp; by apply key_words_u32).
  replace (Z.to_nat (Z.of_nat rounds / 2)) with (rounds / 2)%nat.
  2: { change 2 with (Z.of_nat 2). by rewrite <-Nat2Z.inj_div, Nat2Z.id. }
  destruct (hs_plus (Hs.nTimes Hs.tworounds (rounds / 2) inp) inp) as (s & -> & Es).
  cbn [mbind option_bind fmap option_fmap option_map]. rewrite hs_wordsToBytes, Es, hs_rounds by done.
  unfold chacha_block, chacha_words. by rewrite init_words_key, Hinp by done.
Qed.
