(* ===== verification/HsOttery.v ===== *)
(** * The Haskell model of the generator: test/hs/Ottery.hs

    The specification once more, as a functional program: the PRF layer on top of
    HsChaCha.v, the generator with its own treatment of the buffer (it is left
    empty where the code stirs at once), and the requests of the test; then the
    proof that, request by request, it gives the answers of the abstract
    generator whenever a check on lengths alone says that the difference does not
    show. [None] is the value of an expression that raises an error. Lengths are
    far from the end of [Int], so they are integers here. *)
From S2P Require Import Prelude Words Memory Internal Spec ChaChaRef ChaChaMerged ChaChaKrovetz ChaChaPrf HsChaCha.
From S2P Require Import Prng Refine TestPrf Session.
Local Open Scope Z_scope.

Module HsOttery.

(** ** The PRF layer *)

Record PRF (a : Type) := mk_PRF {
  keyLen : Z;
  bytesPerBlock : Z;
  func : a -> Z -> option (list byte);
  keyFunc : list byte -> option a;
}.
Arguments keyLen {a} _.
Arguments bytesPerBlock {a} _.
Arguments func {a} _ _ _.
Arguments keyFunc {a} _ _.

(** It runs 8 rounds, whatever its argument. *)
Definition chachaPRF (rounds : Z) : PRF Hs.ChaChaKey_ := {|
  keyLen := 40;
  bytesPerBlock := 64;
  func k ctr := Hs.wordsToBytes <$> Hs.chachaWords 8 k ctr;
  keyFunc := Hs.chachaKey |}.

Definition chacha8PRF := chachaPRF 8.
Definition chacha12PRF := chachaPRF 12.
Definition chacha20PRF := chachaPRF 20.

(** ** The generator *)

Record PRNG (a : Type) := mk_PRNG {
  key : a;
  blocksPerCall : Z;
  prf : PRF a;
  buf : list byte;
}.
Arguments mk_PRNG {a} _ _ _ _.
Arguments key {a} _.
Arguments blocksPerCall {a} _.
Arguments prf {a} _.
Arguments buf {a} _.

Section Prng.
Context {a : Type}.
Implicit Types (prng : PRNG a) (n : Z).

(** [splitAt n l] *)
Definition splitAt {b} n (l : list b) : list b * list b := (take (Z.to_nat n) l, drop (Z.to_nat n) l).

(** [fromIntegral ctr] is a [Word32]. *)
Definition generate prng (nBlocks : Z) : option (list byte) :=
  mjoin <$> mapM (fun ctr => func (prf prng) (key prng) (u32 ctr)) (seqZ 0 nBlocks).

Definition bytesPerCall prng : Z := blocksPerCall prng * bytesPerBlock (prf prng).

Definition extract prng n : option (PRNG a * list byte) :=
  if n <=? zlen (buf prng) then
    let '(rv, nb) := splitAt n (buf prng) in
    let nprng := mk_PRNG (key prng) (blocksPerCall prng) (prf prng) nb in
    Some (nprng, rv)
  else None.

Definition stir prng : option (PRNG a) :=
  newBlock ← generate prng (blocksPerCall prng);
  let '(newKeyBytes, newBuf) := splitAt (keyLen (prf prng)) newBlock in
  newKey ← keyFunc (prf prng) newKeyBytes;
  Some (mk_PRNG newKey (blocksPerCall prng) (prf prng) newBuf).

Definition getTiny prng n : option (PRNG a * list byte) :=
  if n <=? zlen (buf prng) then extract prng n
  else prng ← stir prng; extract prng n.

Definition getSmall prng n : option (PRNG a * list byte) :=
  if n <=? zlen (buf prng) then extract prng n
  else
    let oldBuf := buf prng in
    prng' ← stir prng;
    '(prng'', remainder) ← extract prng' (n - zlen oldBuf);
    Some (prng'', oldBuf ++ remainder).

Definition divRoundUp (x y : Z) : Z := (x + y - 1) / y.

Definition getLots prng n : option (PRNG a * list byte) :=
  let oldBuf := buf prng in
  let bytesNeeded := n + keyLen (prf prng) - zlen oldBuf in
  let bpc := blocksPerCall prng in
  let blockLen := bytesPerCall prng in
  let callsNeeded := divRoundUp bytesNeeded blockLen in
  output ← generate prng (callsNeeded * bpc);
  let '(middle, lastBlock) := splitAt (blockLen * (callsNeeded - 1)) output in
  let '(newKeyBytes, newBuf) := splitAt (keyLen (prf prng)) lastBlock in
  newKey ← keyFunc (prf prng) newKeyBytes;
  let prng' := mk_PRNG newKey (blocksPerCall prng) (prf prng) newBuf in
  '(prng'', final) ← extract prng' (n - zlen oldBuf - zlen middle);
  Some (prng'', oldBuf ++ middle ++ final).

Definition initPRNG (prf : PRF a) (blocksPerCall : Z) (initialkey : list byte) : option (PRNG a) :=
  k ← keyFunc prf initialkey;
  stir (mk_PRNG k blocksPerCall prf []).

(** [take n (lst ++ repeat 0)] *)
Definition zeropad n (lst : list byte) : list byte :=
  take (Z.to_nat n) (lst ++ replicate (Z.to_nat n) x00).

(** Each call takes at least a byte of the seed, so its length is fuel enough. *)
Fixpoint addSeed_ (fuel : nat) prng (seed : list byte) : option (PRNG a) :=
  match seed, fuel with
  | [], _ => stir prng
  | _, O => None
  | _, S fuel =>
      let klen := keyLen (prf prng) in
      blocks ← generate prng (blocksPerCall prng);
      let x := take (Z.to_nat klen) blocks in
      let '(y, rest) := splitAt (klen / 2) seed in
      let y' := zeropad klen y in
      let newKeyBytes := zip_with byte_xor x y' in
      newKey ← keyFunc (prf prng) newKeyBytes;
      let prng' := mk_PRNG newKey (blocksPerCall prng) (prf prng) [] in
      addSeed_ fuel prng' rest
  end.

Definition addSeed prng (seed : list byte) : option (PRNG a) := addSeed_ (length seed) prng seed.

Definition getU32 prng : option (PRNG a * Z) :=
  '(prng', bytes) ← getTiny prng 4;
  ws ← Hs.bytesToWords bytes;
  match ws with
  | [w] => Some (prng', w)
  | _ => None
  end.

Definition getU64 prng : option (PRNG a * Z) :=
  '(prng', bytes) ← getTiny prng 8;
  ws ← Hs.bytesToWords bytes;
  match ws with
  | [w_lo; w_hi] => Some (prng', u64 (w_lo + u64 (Z.shiftl w_hi 32)))
  | _ => None
  end.

Definition getBytes prng n : option (PRNG a * list byte) :=
  if n <? zlen (buf prng) + bytesPerCall prng - keyLen (prf prng) then getSmall prng n
  else getLots prng n.

End Prng.

Definition initChaCha8PRNG := initPRNG chacha8PRF.
Definition initChaCha12PRNG := initPRNG chacha12PRF.
Definition initChaCha20PRNG := initPRNG chacha20PRF.

End HsOttery.

(** ** The requests of the test *)

Inductive action := U32 | U64 | NBytes (n : Z) | Seed (seed : list byte).

(** One of them, by the Haskell model, and as a request to the abstract
    generator. *)
Definition hs_step {a} (prng : HsOttery.PRNG a) (x : action) : option (answer * HsOttery.PRNG a) :=
  match x with
  | U32 => '(prng, v) ← HsOttery.getU32 prng; Some (Int v, prng)
  | U64 => '(prng, v) ← HsOttery.getU64 prng; Some (Int v, prng)
  | NBytes n => '(prng, bs) ← HsOttery.getBytes prng n; Some (Bytes bs, prng)
  | Seed seed => prng ← HsOttery.addSeed prng seed; Some (Done, prng)
  end.

Fixpoint hs_session {a} (prng : HsOttery.PRNG a) (xs : list action)
  : option (list answer * HsOttery.PRNG a) :=
  match xs with
  | [] => Some ([], prng)
  | x :: xs =>
      '(r, prng) ← hs_step prng x; '(rs, prng) ← hs_session prng xs; Some (r :: rs, prng)
  end.

Definition request_of (x : action) : request :=
  match x with
  | U32 => RandInt 4
  | U64 => RandInt 8
  | NBytes n => RandBytes n
  | Seed seed => AddSeed seed
  end.

(** Where the two agree, as a check on the number of buffered bytes: the number
    afterwards, if the request does not meet an empty buffer in the wrong way (a
    seed or a request for many bytes right after the last byte was taken) or the
    document's "Big Request" where it differs from the code's. *)
Definition hs_fits (KEY_LEN BLOCK_LEN len : Z) (x : action) : option Z :=
  let tiny size := if size <=? len then len - size else BLOCK_LEN - KEY_LEN - size in
  match x with
  | U32 => Some (tiny 4)
  | U64 => Some (tiny 8)
  | NBytes n =>
      if n <? 0 then None
      else if n <=? len then Some (len - n)
      else if n <? len + BLOCK_LEN - KEY_LEN then Some (BLOCK_LEN - KEY_LEN - (n - len))
      else if len =? 0 then None
      else
        let m := (n - len) mod BLOCK_LEN in
        if m + KEY_LEN <=? BLOCK_LEN then Some (BLOCK_LEN - KEY_LEN - m) else None
  | Seed seed => if (len =? 0) || bool_decide (seed = []) then None else Some (BLOCK_LEN - KEY_LEN)
  end.

Fixpoint hs_fits_all (KEY_LEN BLOCK_LEN len : Z) (xs : list action) : bool :=
  match xs with
  | [] => true
  | x :: xs =>
      match hs_fits KEY_LEN BLOCK_LEN len x with
      | Some len => hs_fits_all KEY_LEN BLOCK_LEN len xs
      | None => false
      end
  end.

(** ** Lemmas: the layers below *)

Section Sim.
Context {p : ottery_prf} {PS : PrfSpec p} {PZ : PrfSizes p} {step : Z} {CC : ChaChaPrf p 8 step}.

Abbreviation sb := (state_bytes p).
Abbreviation ol := (output_len p).
Abbreviation PRF := (prf_out p).
Abbreviation PRNG := (HsOttery.PRNG Hs.ChaChaKey_).

(** A Haskell generator with key bytes [k] and buffer [b], one call of which is a
    call of [p]. *)
Record hs_rep (h : PRNG) (k b : list byte) : Prop := mk_hs_rep {
  hr_len : zlen k = 40;
  hr_key : Hs.chachaKey k = Some (HsOttery.key h);
  hr_calls : HsOttery.blocksPerCall h = step;
  hr_prf : HsOttery.prf h = HsOttery.chacha8PRF;
  hr_buf : HsOttery.buf h = b;
}.

Lemma sizes_chacha : sb = 40 /\ ol = 64 * step /\ 0 < step <= 16 /\ sb + 8 < ol.
Proof.
  pose proof chacha_step. pose proof chacha_state_bytes. pose proof chacha_output_len.
  pose proof sizes_int. done.
Qed.

Lemma hs_generate h k b m :
  hs_rep h k b -> HsOttery.generate h (step * Z.of_nat m) = Some (blocks PRF k 0 m).
Proof.
  intros [Hk Hkey _ Hprf _]. pose proof sizes_chacha. rewrite (blocks_ref k 0 m), Z.mul_0_r by done.
  unfold HsOttery.generate, ref_blocks. rewrite Nat2Z.inj_mul, Z2Nat.id by lia.
  destruct (hs_block k Hk) as (key & Ek & Hb). assert (key = HsOttery.key h) as -> by congruence.
  rewrite Hprf, (mapM_pure _ (ref_block 8 k)).
  - cbn [fmap option_fmap option_map]. by rewrite mjoin_fmap.
  - apply Forall_forall. intros c _. apply (Hb 8%nat), in_u32_u32.
Qed.

Lemma hs_call h k b : hs_rep h k b -> HsOttery.generate h (HsOttery.blocksPerCall h) = Some (PRF k 0).
Proof.
  intros Hr. rewrite (hr_calls _ _ _ Hr). pose proof (hs_generate h k b 1 Hr) as H.
  rewrite Z.mul_1_r in H. rewrite H. cbn [blocks]. by rewrite app_nil_r.
Qed.

Lemma hs_keyFunc h k b k' :
  hs_rep h k b -> zlen k' = 40 ->
  exists key, HsOttery.keyFunc (HsOttery.prf h) k' = Some key /\
    forall b', hs_rep (HsOttery.mk_PRNG key (HsOttery.blocksPerCall h) (HsOttery.prf h) b') k' b'.
Proof.
  intros [_ _ Hc Hp _] Hk. destruct (hs_block k' Hk) as (key & E & _). exists key.
  rewrite Hp. split; [exact E|]. intros b'. by split.
Qed.

Lemma hs_extract h k b n :
  hs_rep h k b -> n <= zlen b ->
  exists h', HsOttery.extract h n = Some (h', take (Z.to_nat n) b) /\ hs_rep h' k (drop (Z.to_nat n) b).
Proof.
  intros [Hk Hkey Hc Hp Hb] Hn. unfold HsOttery.extract. rewrite Hb, (proj2 (Z.leb_le _ _)) by done.
  cbn [HsOttery.splitAt]. eexists. split; [done|]. by split.
Qed.

(** Splitting a call's output into the next key and the buffer. *)
Lemma hs_split (out : list byte) :
  zlen out = ol ->
  HsOttery.splitAt sb out = (slice out 0 sb, slice out sb (ol - sb)) /\ zlen (slice out 0 sb) = 40.
Proof.
  intros Hl. pose proof sizes_chacha as (Hsb & _ & _ & Hs).
  split; [|rewrite <-Hsb; apply zlen_slice; lia].
  unfold HsOttery.splitAt, slice. f_equal. symmetry. apply take_ge. unfold zlen in Hl.
  rewrite length_drop. lia.
Qed.

Lemma hs_stir h k b :
  hs_rep h k b ->
  exists h', HsOttery.stir h = Some h' /\
    hs_rep h' (K (stir sb ol PRF (mk_prng k []))) (BUF (stir sb ol PRF (mk_prng k []))).
Proof.
  intros Hr. pose proof (hr_len _ _ _ Hr) as Hk. pose proof sizes_chacha as (Hsb & _).
  unfold HsOttery.stir. rewrite (hs_call h k b Hr). cbn [mbind option_bind].
  destruct (hs_split (PRF k 0)) as [Hs Hl]; [by rewrite prf_out_len by lia|].
  rewrite (hr_prf _ _ _ Hr). cbn [HsOttery.keyLen HsOttery.chacha8PRF HsOttery.chachaPRF].
  rewrite <-Hsb, Hs. rewrite <-(hr_prf _ _ _ Hr). destruct (hs_keyFunc h k b _ Hr Hl) as (key & -> & H).
  cbn [mbind option_bind]. eexists. split; [done|]. apply H.
Qed.

Abbreviation STIR := (stir sb ol PRF).

Lemma stir_buf_len k b : zlen k = 40 -> zlen (BUF (STIR (mk_prng k b))) = ol - sb.
Proof.
  intros Hk. pose proof sizes_chacha as (Hsb & _ & _ & Hs). apply zlen_slice; [lia..|].
  cbn [K]. rewrite prf_out_len; lia.
Qed.

(** ** Lemmas: adding a seed *)

(** Padding the half key with zeros is exclusive-oring its bytes only. *)
Lemma hs_chunk (x y : list byte) n :
  (length y <= n)%nat -> (n <= length x)%nat ->
  zip_with byte_xor (take n x) (HsOttery.zeropad (Z.of_nat n) y) = slice (xor_prefix y x) 0 (Z.of_nat n).
Proof.
  intros Hy Hx. unfold HsOttery.zeropad, xor_prefix, slice. rewrite !Nat2Z.id. change (Z.to_nat 0) with O.
  rewrite drop_0. pose proof (length_take x (length y)) as Ht. rewrite Nat.min_l in Ht by lia.
  assert (length (zip_with byte_xor (take (length y) x) y) = length y) as Hz.
  { rewrite length_zip_with. lia. }
  rewrite !take_app, take_replicate, Hz, (take_ge y), (take_ge (zip_with _ _ _)) by lia.
  rewrite <-(take_drop (length y) (take n x)), take_take, Nat.min_l by lia.
  rewrite zip_with_app by lia. f_equal. rewrite skipn_firstn_comm. apply zip_xor_zeros.
  rewrite length_take, length_drop. lia.
Qed.

Lemma hs_addSeed fuel : forall h k b b' seed,
  hs_rep h k b -> (length seed <= fuel)%nat ->
  let a := stir sb ol PRF (add_loop sb PRF fuel seed (mk_prng k b')) in
  exists h', HsOttery.addSeed_ fuel h seed = Some h' /\ hs_rep h' (K a) (BUF a) /\
    zlen (BUF a) = ol - sb.
Proof.
  pose proof sizes_chacha as (Hsb & Hol & Hstep & _).
  induction fuel as [|fuel IH]; intros h k b b' seed Hr Hl; (destruct seed as [|s seed]).
  1,3: destruct (hs_stir h k b Hr) as (h' & E & Hr'); exists h'; split_and!; [done..|];
       apply (stir_buf_len k b'), (hr_len _ _ _ Hr).
  { cbn in Hl. lia. }
  pose proof (hr_len _ _ _ Hr) as Hk. cbn [HsOttery.addSeed_ add_loop].
  rewrite (hs_call h k b Hr). cbn [mbind option_bind]. unfold HsOttery.splitAt. cbv beta iota zeta.
  rewrite (hr_prf _ _ _ Hr). cbn [HsOttery.keyLen HsOttery.chacha8PRF HsOttery.chachaPRF].
  rewrite <-(hr_prf _ _ _ Hr). rewrite Hsb.
  pose proof (prf_out_len (p := p) k 0 ltac:(lia)) as Ho.
  assert (length (take (Z.to_nat (40 / 2)) (s :: seed)) <= 40)%nat.
  { rewrite length_take. change (Z.to_nat (40 / 2)) with 20%nat. lia. }
  pose proof (hs_chunk (PRF k 0) (take (Z.to_nat (40 / 2)) (s :: seed)) 40 ltac:(done)
    ltac:(unfold zlen in Ho; lia)) as Hc.
  change (Z.of_nat 40) with 40 in Hc. change (Z.to_nat 40) with 40%nat. rewrite Hc.
  set (k' := slice (xor_prefix _ (PRF k 0)) 0 40).
  assert (zlen k' = 40) as Hk'.
  { apply zlen_slice; [lia..|]. unfold xor_prefix. rewrite zlen_app, zlen_drop. unfold zlen in *.
    rewrite length_zip_with, length_take. lia. }
  destruct (hs_keyFunc h k b k' Hr Hk') as (key & -> & H1). cbn [mbind option_bind].
  specialize (IH _ k' [] [] (drop (Z.to_nat (40 / 2)) (s :: seed)) (H1 [])). rewrite Hsb in IH. apply IH.
  rewrite length_drop. change (Z.to_nat (40 / 2)) with 20%nat. cbn [length] in *. lia.
Qed.

(** ** The simulation *)

(** The same key and buffer, or an empty buffer where the abstract generator has
    stirred already. *)
Inductive hs_sim (h : PRNG) (a : prng) : Prop :=
  | sim_same : hs_rep h (K a) (BUF a) -> 0 < zlen (BUF a) -> hs_sim h a
  | sim_empty k : hs_rep h k [] -> a = STIR (mk_prng k []) -> hs_sim h a.

(** Taking [n] bytes, where the abstract generator stirs if they are the last. *)
Lemma hs_take h k b n :
  hs_rep h k b -> 0 <= n <= zlen b ->
  exists h', HsOttery.extract h n = Some (h', take (Z.to_nat n) b) /\ zlen (HsOttery.buf h') = zlen b - n /\
    hs_sim h' (if n =? zlen b then STIR (mk_prng k []) else mk_prng k (drop (Z.to_nat n) b)).
Proof.
  intros Hr Hn. destruct (hs_extract h k b n Hr) as (h' & E & Hr'); [lia|]. exists h'.
  assert (zlen (drop (Z.to_nat n) b) = zlen b - n) as Hd by (rewrite zlen_drop; lia).
  split; [done|]. split; [by rewrite (hr_buf _ _ _ Hr')|]. destruct (Z.eqb_spec n (zlen b)) as [->|Hne].
  - apply (sim_empty _ _ k); [|done]. by rewrite drop_ge in Hr' by (unfold zlen; lia).
  - apply sim_same; [done|]. cbn [BUF]. lia.
Qed.

(** Stirring first: [n] bytes of the fresh block. *)
Lemma hs_stir_take h k b n :
  hs_rep h k b -> 0 <= n < ol - sb ->
  exists h1 h', HsOttery.stir h = Some h1 /\
    HsOttery.extract h1 n = Some (h', fst (remove n (STIR (mk_prng k [])))) /\
    zlen (HsOttery.buf h') = ol - sb - n /\ hs_sim h' (snd (remove n (STIR (mk_prng k [])))).
Proof.
  intros Hr Hn. destruct (hs_stir h k b Hr) as (h1 & E1 & Hr1).
  pose proof (stir_buf_len k [] (hr_len _ _ _ Hr)) as Hl.
  destruct (hs_take h1 _ _ n Hr1) as (h' & E & Hb & Hs); [lia|]. exists h1, h'.
  rewrite (proj2 (Z.eqb_neq n _)) in Hs by lia. rewrite Hl in Hb. done.
Qed.

Lemma hs_tiny h a n :
  hs_sim h a -> 1 <= n <= 8 ->
  exists h', HsOttery.getTiny h n = Some (h', fst (tiny sb ol PRF n a)) /\
    hs_sim h' (snd (tiny sb ol PRF n a)) /\
    zlen (HsOttery.buf h') =
      (if n <=? zlen (HsOttery.buf h) then zlen (HsOttery.buf h) - n else ol - sb - n).
Proof.
  intros Hs Hn. pose proof sizes_chacha as (_ & _ & _ & Hsz). unfold HsOttery.getTiny, tiny.
  destruct Hs as [Hr Hpos|k Hr ->].
  - rewrite (hr_buf _ _ _ Hr). destruct (Z.leb_spec n (zlen (BUF a))) as [Hle|Hgt].
    + destruct (hs_take h _ _ n Hr) as (h' & E & Hb & Hs); [lia|]. by exists h'.
    + destruct (hs_stir_take h _ _ n Hr) as (h1 & h' & -> & E & Hb & Hs); [lia|].
      cbn [mbind option_bind]. by exists h'.
  - rewrite (hr_buf _ _ _ Hr), zlen_nil, (proj2 (Z.leb_gt n 0)) by lia.
    rewrite (stir_buf_len k [] (hr_len _ _ _ Hr)), (proj2 (Z.leb_le n _)) by lia.
    destruct (hs_stir_take h _ _ n Hr) as (h1 & h' & -> & E & Hb & Hs); [lia|].
    cbn [mbind option_bind]. exists h'. unfold remove in *. by rewrite (proj2 (Z.eqb_neq n _)) by lia.
Qed.

(** Where the Haskell model makes a small request, so does the code, or one that
    comes to the same. *)
Lemma hs_get_bytes n a :
  zlen (K a) = 40 -> 0 <= n < zlen (BUF a) + ol - sb ->
  get_bytes sb ol PRF n a = small sb ol PRF n a.
Proof.
  intros Hk Hn. pose proof sizes_chacha as (Hsb & _ & _ & Hsz).
  apply get_bytes_small; [lia| |lia..]. intros k i Hi. by apply prf_out_len.
Qed.

Lemma hs_small h a n :
  hs_sim h a -> 0 <= n < zlen (HsOttery.buf h) + ol - sb ->
  exists h', HsOttery.getSmall h n = Some (h', fst (get_bytes sb ol PRF n a)) /\
    hs_sim h' (snd (get_bytes sb ol PRF n a)) /\
    zlen (HsOttery.buf h') =
      (if n <=? zlen (HsOttery.buf h) then zlen (HsOttery.buf h) - n
       else ol - sb - (n - zlen (HsOttery.buf h))).
Proof.
  intros Hs Hn. pose proof sizes_chacha as (Hsb & _ & _ & Hsz). unfold HsOttery.getSmall.
  destruct Hs as [Hr Hpos|k Hr ->].
  - rewrite (hr_buf _ _ _ Hr) in *. rewrite hs_get_bytes by (done || apply (hr_len _ _ _ Hr)).
    unfold small. destruct (Z.leb_spec n (zlen (BUF a))) as [Hle|Hgt].
    + destruct (hs_take h _ _ n Hr) as (h' & E & Hb & Hs); [lia|]. exists h'. rewrite E, Hb.
      destruct (Z.ltb_spec n (zlen (BUF a))) as [Hlt|Hge].
      * rewrite (proj2 (Z.eqb_neq n _)) in Hs by lia. done.
      * assert (n = zlen (BUF a)) as -> by lia. rewrite Z.eqb_refl in Hs. rewrite Z.sub_diag.
        unfold remove. cbn [fst snd]. change (Z.to_nat 0) with O. rewrite take_0, drop_0, app_nil_r.
        rewrite take_ge by (unfold zlen; lia). done.
    + rewrite (proj2 (Z.ltb_ge n _)) by lia.
      destruct (hs_stir_take h _ _ (n - zlen (BUF a)) Hr) as (h1 & h' & -> & E & Hb & Hs); [lia|].
      cbn [mbind option_bind]. rewrite E. cbn [mbind option_bind]. by exists h'.
  - pose proof (stir_buf_len k [] (hr_len _ _ _ Hr)) as Hl. rewrite (hr_buf _ _ _ Hr), zlen_nil in *.
    assert (zlen (K (STIR (mk_prng k []))) = 40) as Hk.
    { rewrite <-Hsb. apply zlen_slice; [lia..|]. cbn [K]. rewrite prf_out_len; [lia|].
      rewrite Hsb. apply (hr_len _ _ _ Hr). }
    rewrite hs_get_bytes by (done || lia). unfold small. rewrite (proj2 (Z.ltb_lt n _)) by lia.
    destruct (Z.leb_spec n 0) as [Hle|Hgt].
    + assert (n = 0) as -> by lia. destruct (hs_take h _ _ 0 Hr) as (h' & E & Hb & Hs); [done|].
      exists h'. split; [done|]. split; [|done]. exact Hs.
    + destruct (hs_stir_take h _ _ n Hr) as (h1 & h' & -> & E & Hb & Hs); [lia|].
      cbn [mbind option_bind]. rewrite !Z.sub_0_r, E. cbn [mbind option_bind]. by exists h'.
Qed.

(** The document's "Big Request": all but the last call, then its block. *)
Lemma hs_lots h a n :
  hs_rep h (K a) (BUF a) -> zlen (BUF a) <= n ->
  (n - zlen (BUF a)) mod ol + sb <= ol ->
  exists h', HsOttery.getLots h n = Some (h', fst (big sb ol PRF n a)) /\
    hs_sim h' (snd (big sb ol PRF n a)) /\
    zlen (HsOttery.buf h') = ol - sb - (n - zlen (BUF a)) mod ol.
Proof.
  intros Hr Hn Hm. pose proof sizes_chacha as (Hsb & Hol & Hst & Hsz).
  pose proof (hr_len _ _ _ Hr) as Hk.
  rewrite <-(doc_big_eq sb ol PRF) by (try lia; intros; by apply prf_out_len).
  unfold HsOttery.getLots, doc_big, HsOttery.divRoundUp, HsOttery.bytesPerCall.
  rewrite (hr_buf _ _ _ Hr), (hr_calls _ _ _ Hr), (hr_prf _ _ _ Hr).
  cbn [HsOttery.keyLen HsOttery.bytesPerBlock HsOttery.chacha8PRF HsOttery.chachaPRF].
  replace (step * 64) with ol by lia. rewrite <-Hsb. set (len := zlen (BUF a)) in *.
  set (n1 := n - len) in *. replace (n + sb - len) with (n1 + sb) by (unfold n1; lia).
  set (cn := (n1 + sb + ol - 1) / ol).
  pose proof (Z.div_mod n1 ol ltac:(lia)) as Hd. pose proof (Z.mod_pos_bound n1 ol ltac:(lia)) as Hb.
  set (m := n1 mod ol) in *. set (q := n1 / ol) in *.
  assert (0 <= q) as Hq by (apply Z.div_pos; unfold n1; lia).
  assert (cn = q + 1) as -> by (symmetry; apply (Z.div_unique _ _ _ (m + sb - 1)); lia).
  replace ((q + 1) * step) with (step * Z.of_nat (Z.to_nat q + 1)) by lia.
  rewrite (hs_generate h (K a) (BUF a)) by done. cbn [mbind option_bind].
  rewrite Z.add_simpl_r, blocks_add, Z2Nat.id, Z.add_0_l by lia. cbn [blocks]. rewrite app_nil_r.
  pose proof (blocks_zlen (p := p) (K a) 0 (Z.to_nat q) ltac:(lia)) as HB. rewrite Z2Nat.id in HB by lia.
  unfold HsOttery.splitAt at 1. rewrite take_app_length', drop_app_length' by (unfold zlen in HB; lia).
  cbv beta iota zeta. rewrite HB.
  destruct (hs_split (PRF (K a) (u32 q))) as [Hs Hl]; [by rewrite prf_out_len by lia|].
  rewrite Hs. rewrite <-(hr_prf _ _ _ Hr).
  destruct (hs_keyFunc h (K a) (BUF a) _ Hr Hl) as (key & -> & H1). cbn [mbind option_bind].
  set (b := slice (PRF (K a) (u32 q)) sb (ol - sb)) in *.
  assert (zlen b = ol - sb) as Hbl by (apply zlen_slice; [lia..|rewrite prf_out_len; lia]).
  fold n1. replace (n1 - ol * q) with m by lia.
  replace (n - ol * q - len) with m by (unfold n1 in *; lia).
  destruct (hs_take _ _ _ m (H1 b)) as (h' & E & Hbuf & Hsim); [lia|].
  rewrite <-(hr_calls _ _ _ Hr). rewrite E. cbn [mbind option_bind]. exists h'.
  unfold stir_at, remove. cbn [K BUF fst snd]. fold b. rewrite zlen_drop, Hbl.
  split; [done|]. split; [|lia]. rewrite Hbl in Hsim.
  destruct (Z.eqb_spec m (ol - sb)) as [->|Hne].
  - replace (_ =? 0) with true by (symmetry; apply Z.eqb_eq; lia). exact Hsim.
  - replace (_ =? 0) with false by (symmetry; apply Z.eqb_neq; lia). exact Hsim.
Qed.

Lemma hs_sim_key h a : hs_sim h a -> zlen (K a) = 40.
Proof.
  pose proof sizes_chacha as (Hsb & _ & _ & Hsz).
  intros [Hr _|k Hr ->]; [apply (hr_len _ _ _ Hr)|]. rewrite <-Hsb. apply zlen_slice; [lia..|].
  cbn [K]. pose proof (hr_len _ _ _ Hr). rewrite prf_out_len; lia.
Qed.

Lemma tiny_zlen a n : zlen (K a) = 40 -> 1 <= n <= 8 -> zlen (fst (tiny sb ol PRF n a)) = n.
Proof.
  intros Hk Hn. pose proof sizes_chacha as (_ & _ & _ & Hsz). destruct a as [k b]. cbn [K BUF] in *.
  pose proof (stir_buf_len k b Hk). unfold tiny, remove. cbn [K BUF].
  destruct (Z.leb_spec n (zlen b)); cbn [fst]; rewrite zlen_take; lia.
Qed.

(** ** One request, and a session *)

Lemma unpack_int32 bs : zlen bs = 4 -> Hs.bytesToWords bs = Some [le_decode bs].
Proof.
  intros H. rewrite (hs_bytesToWords 1) by (unfold zlen in H; lia).
  destruct bs as [|b0 [|b1 [|b2 [|b3 [|]]]]]; try (unfold zlen in H; cbn in H; lia). done.
Qed.

Lemma unpack_int64 bs :
  zlen bs = 8 ->
  exists lo hi, Hs.bytesToWords bs = Some [lo; hi] /\ u64 (lo + u64 (Z.shiftl hi 32)) = le_decode bs.
Proof.
  intros H. rewrite (hs_bytesToWords 2) by (unfold zlen in H; lia).
  destruct bs as [|b0 [|b1 [|b2 [|b3 [|b4 [|b5 [|b6 [|b7 [|]]]]]]]]]; try (unfold zlen in H; cbn in H; lia).
  cbn [unpack]. do 2 eexists. split; [done|].
  pose proof (le_decode_range [b0; b1; b2; b3]) as H1. pose proof (le_decode_range [b4; b5; b6; b7]) as H2.
  change (8 * zlen [b0; b1; b2; b3]) with 32 in H1. change (8 * zlen [b4; b5; b6; b7]) with 32 in H2.
  rewrite Z.shiftl_mul_pow2, (u64_small (_ * _)), u64_small by lia. cbn [le_decode]. lia.
Qed.

(** The choice between the two kinds of request for bytes. *)
Lemma hs_bytes h a n len :
  hs_sim h a -> hs_fits sb ol (zlen (HsOttery.buf h)) (NBytes n) = Some len ->
  exists h', hs_step h (NBytes n) = Some (fst (spec_step sb ol PRF a (RandBytes n)), h') /\
    hs_sim h' (snd (spec_step sb ol PRF a (RandBytes n))) /\ zlen (HsOttery.buf h') = len.
Proof.
  intros Hs Hf. pose proof sizes_chacha as (Hsb & Hol & Hst & Hsz).
  cbn [hs_step hs_fits spec_step] in *. unfold HsOttery.getBytes, HsOttery.bytesPerCall.
  assert (HsOttery.prf h = HsOttery.chacha8PRF /\ HsOttery.blocksPerCall h = step) as [-> ->].
  { destruct Hs as [[] _|k [] _]; done. }
  cbn [HsOttery.keyLen HsOttery.bytesPerBlock HsOttery.chacha8PRF HsOttery.chachaPRF].
  replace (step * 64) with ol by lia. rewrite <-Hsb. destruct (Z.ltb_spec n 0) as [|Hn]; [done|].
  destruct (Z.ltb_spec n (zlen (HsOttery.buf h) + ol - sb)) as [Hlt|Hge].
  - destruct (hs_small h a n Hs) as (h' & E & Hs' & Hl); [lia|]. exists h'. rewrite E.
    cbn [mbind option_bind]. destruct (get_bytes sb ol PRF n a). cbn [fst snd] in *.
    split; [done|]. split; [done|]. rewrite Hl. destruct (n <=? _); congruence.
  - rewrite (proj2 (Z.leb_gt n _)) in Hf by lia.
    destruct (Z.eqb_spec (zlen (HsOttery.buf h)) 0) as [|Hne]; [done|].
    destruct (Z.leb_spec ((n - zlen (HsOttery.buf h)) mod ol + sb) ol) as [Hm|]; [|done].
    injection Hf as <-. destruct Hs as [Hr _|k Hr _]; [|by rewrite (hr_buf _ _ _ Hr) in Hne].
    rewrite (hr_buf _ _ _ Hr) in *. destruct (hs_lots h a n Hr) as (h' & E & Hs' & Hl); [lia|lia|].
    exists h'. rewrite E. cbn [mbind option_bind].
    unfold get_bytes. rewrite (proj2 (Z.ltb_ge n _)) by lia. by destruct (big sb ol PRF n a).
Qed.

Lemma hs_step_ok h a x len :
  hs_sim h a -> hs_fits sb ol (zlen (HsOttery.buf h)) x = Some len ->
  exists h', hs_step h x = Some (fst (spec_step sb ol PRF a (request_of x)), h') /\
    hs_sim h' (snd (spec_step sb ol PRF a (request_of x))) /\ zlen (HsOttery.buf h') = len.
Proof.
  intros Hs Hf. pose proof (hs_sim_key h a Hs) as Hk. pose proof sizes_chacha as (Hsb & Hol & Hst & Hsz).
  destruct x as [| |n|seed]; cbn [hs_step hs_fits request_of spec_step] in *.
  - destruct (hs_tiny h a 4 Hs) as (h' & E & Hs' & Hl); [lia|]. injection Hf as <-. exists h'.
    unfold HsOttery.getU32. rewrite E. cbn [mbind option_bind].
    rewrite unpack_int32 by (by apply tiny_zlen). cbn [mbind option_bind].
    by destruct (tiny sb ol PRF 4 a).
  - destruct (hs_tiny h a 8 Hs) as (h' & E & Hs' & Hl); [lia|]. injection Hf as <-. exists h'.
    unfold HsOttery.getU64. rewrite E. cbn [mbind option_bind].
    destruct (unpack_int64 (fst (tiny sb ol PRF 8 a))) as (lo & hi & -> & Hv); [by apply tiny_zlen|].
    cbn [mbind option_bind]. rewrite Hv. by destruct (tiny sb ol PRF 8 a).
  - by apply hs_bytes.
  - destruct (Z.eqb_spec (zlen (HsOttery.buf h)) 0) as [|Hne]; [done|].
    case_bool_decide as Hsd; [done|]. injection Hf as <-.
    destruct Hs as [Hr _|k Hr _]; [|by rewrite (hr_buf _ _ _ Hr) in Hne].
    destruct (hs_addSeed (length seed) h (K a) (BUF a) [] seed Hr) as (h' & E & Hr' & Hl); [done|].
    exists h'. unfold HsOttery.addSeed. rewrite E. cbn [mbind option_bind]. split; [done|].
    split; [|by rewrite (hr_buf _ _ _ Hr')]. apply sim_same; [done|]. cbn [snd]. unfold add. lia.
Qed.

Lemma hs_session_ok xs : forall h a,
  hs_sim h a -> hs_fits_all sb ol (zlen (HsOttery.buf h)) xs = true ->
  exists h', hs_session h xs = Some (fst (spec_session sb ol PRF a (request_of <$> xs)), h').
Proof.
  induction xs as [|x xs IH]; intros h a Hs Hf; [by exists h|]. cbn [hs_fits_all] in Hf.
  destruct (hs_fits sb ol (zlen (HsOttery.buf h)) x) as [len|] eqn:E; [|done].
  destruct (hs_step_ok h a x len Hs E) as (h1 & E1 & Hs1 & <-).
  rewrite fmap_cons. cbn [hs_session spec_session]. rewrite E1. cbn [mbind option_bind].
  destruct (spec_step sb ol PRF a (request_of x)) as [r a1]. cbn [fst snd] in *.
  destruct (IH h1 a1 Hs1 Hf) as (h2 & ->). cbn [mbind option_bind].
  destruct (spec_session sb ol PRF a1 (request_of <$> xs)). by exists h2.
Qed.

(** Both construct from exactly one key the same way. *)
Lemma hs_init_ok seed :
  zlen seed = 40 ->
  exists h, HsOttery.initChaCha8PRNG step seed = Some h /\ hs_sim h (construct sb ol PRF seed) /\
    zlen (HsOttery.buf h) = ol - sb.
Proof.
  intros Hl. pose proof sizes_chacha as (Hsb & Hol & Hst & Hsz). destruct (hs_block seed Hl) as (key & E & _).
  unfold HsOttery.initChaCha8PRNG, HsOttery.initPRNG.
  cbn [HsOttery.keyFunc HsOttery.chacha8PRF HsOttery.chachaPRF]. rewrite E. cbn [mbind option_bind].
  unfold construct. rewrite slice_all, (proj2 (Z.ltb_ge _ _)) by lia.
  destruct (hs_stir (HsOttery.mk_PRNG key step HsOttery.chacha8PRF []) seed []) as (h & Eh & Hr);
    [by split|]. exists h. pose proof (stir_buf_len seed [] Hl) as Hb.
  split; [exact Eh|]. split; [apply sim_same; [done|lia]|]. by rewrite (hr_buf _ _ _ Hr).
Qed.

End Sim.

(** ** Where the model is wrong *)

(** The number of rounds makes no difference. *)
Lemma always_eight_rounds n seed :
  HsOttery.initChaCha12PRNG n seed = HsOttery.initChaCha8PRNG n seed /\
  HsOttery.initChaCha20PRNG n seed = HsOttery.initChaCha8PRNG n seed.
Proof. done. Qed.

(** A request for exactly the buffered bytes leaves the model's buffer empty,
    where the document stirs; a seed added then goes into another key. *)
Lemma haskell_seed_at_empty_buffer :
  (h ← HsOttery.initChaCha8PRNG 16 (zeros 40);
   '(l, _) ← hs_session h [NBytes 984; Seed [x01]; U32]; Some (drop 1 l)) <>
  Some (drop 1 (fst (spec_session 40 1024 (merged_out 8) (construct 40 1024 (merged_out 8) (zeros 40))
    (request_of <$> [NBytes 984; Seed [x01]; U32])))).
Proof. vm_compute. discriminate. Qed.

(** ** The properties *)


Definition sample_actions : list action :=
  [U32; Seed [x61; x62; x63]; NBytes 900; NBytes 17777; U64; NBytes 687; NBytes 1].

