(* ===== verification/EntropyProps.v ===== *)
(** * Properties of the entropy sources *)
From S2P Require Import Prelude Words Memory Internal ChaChaKrovetz Os CpuInfo Entropy TestOs.
Local Open Scope Z_scope.
Local Open Scope ottery_scope.

(** ** The properties *)

(** C12: [ottery_get_entropy_] always returns. On success the flags report at
    least one strong source; the sources used form a subsequence of the table
    that avoids the disabled ones and takes at most one from each domain; the
    flags are exactly theirs (a weak one's without STRONG); and the bytes are,
    one after the other, the [n] that each of them obtained from the operating
    system or the CPU ([os_bytes] says by which calls), run one after the other from
    the call's entropy state and world to those it leaves, with the sources that
    failed in between ([gathers]). On failure the error is INIT_STRONG_RNG or
    ACCESS_STRONG_RNG and no flag is reported. The buffer is never overrun. *)
Theorem get_entropy_contract {W : Type} {OS0 : OS W} {PL : Platform} {OL : OSLaws OS0}
    config st select bytes n buflen (s : process W) :
  0 <= n -> 0 <= buflen <= zlen bytes ->
  exists er s', ottery_get_entropy_ config st select bytes n buflen s = Ret (er, s') /\
    zlen (er_bytes er) = zlen bytes /\ same_process s s' /\
    ((exists used, entropy_success config select n buflen er used /\
        exists chunks, gathers config n st s used chunks (er_state er) s' /\
          slice (er_bytes er) 0 (er_buflen er) = mjoin chunks) \/ entropy_failure buflen er).
Proof.
  intros Hn Hb. destruct (get_entropy_ok config st select bytes n buflen s Hn Hb)
    as (er & s' & E & Hp & Hl & _ & H). by exists er, s'.
Qed.

Lemma get_entropy_contract_witness :
  exists er s', ottery_get_entropy_ (Some zero_entropy_config) None 0 (zeros 120) 40 120 proc0 =
      Ret (er, s') /\
    zlen (er_bytes er) = zlen (zeros 120) /\ same_process proc0 s' /\
    ((exists used, entropy_success (Some zero_entropy_config) 0 40 120 er used /\
        exists chunks, gathers (Some zero_entropy_config) 40 None proc0 used chunks (er_state er) s' /\
          slice (er_bytes er) 0 (er_buflen er) = mjoin chunks) \/ entropy_failure 120 er).
Proof.
  apply (get_entropy_contract (Some zero_entropy_config) None 0 (zeros 120) 40 120 proc0);
    [lia|vm_compute; split; discriminate].
Defined.



(** [ottery_read_n_bytes_from_file_] returns, having stored in order
    exactly the bytes its [read] calls gave until [n] had come or one of them
    failed, and their number. *)
Theorem read_n_bytes_exact {W : Type} {OS0 : OS W} {OL : OSLaws OS0}
    fd out off n (s : process W) :
  0 <= off -> 0 <= n -> off + n <= zlen out ->
  exists bs w', reads fd n (world s) bs w' /\ zlen bs <= n /\
    ottery_read_n_bytes_from_file_ fd out off n s =
      Ret (splice out off bs, zlen bs, set_world w' s).
Proof.
  apply read_n_bytes_ok.
Qed.

Lemma read_n_bytes_exact_witness :
  exists bs w', reads 3 4 (world proc0) bs w' /\ zlen bs <= 4 /\
    ottery_read_n_bytes_from_file_ 3 (zeros 10) 2 4 proc0 =
      Ret (splice (zeros 10) 2 bs, zlen bs, set_world w' proc0).
Proof.
  apply (read_n_bytes_exact 3 (zeros 10) 2 4 proc0); [lia|lia|vm_compute; discriminate].
Defined.

(** Once it has opened a socket, the EGD source closes it last thing, on
    every path. *)
Theorem egd_closes_socket {W : Type} {OS0 : OS W} {OL : OSLaws OS0}
    cfg addr st out off n sock w (s : process W) :
  egd_sockaddr cfg = Some addr -> egd_socklen cfg <> 0 -> n <= 255 ->
  os_socket (sa_family addr) (world s) = (sock, w) -> 0 <= sock ->
  0 <= off -> 0 <= n -> off + n <= zlen out ->
  exists err st' out' w', ottery_get_entropy_egd (Some cfg) st out off n s =
    Ret (err, st', out', set_world (os_close sock w') s).
Proof.
  intros Ha Hl H255 Hsock Hs Ho Hn Hout. unfold ottery_get_entropy_egd.
  destruct cfg as [? ? ? ea socklen ? ? ?]. cbn in Ha, Hl. subst ea.
  rewrite (proj2 (Z.eqb_neq socklen 0)), (proj2 (Z.ltb_ge 255 n)) by lia.
  rewrite bind_sys, Hsock. cbn [fst snd]. rewrite (proj2 (Z.ltb_ge sock 0)) by lia. cbv zeta.
  rewrite bind_sys. cbn [set_world world].
  destruct (os_connect sock addr socklen w) as [r1 w2]. cbn [fst snd].
  destruct (r1 <? 0); [rewrite bind_sys_; by do 4 eexists|]. rewrite bind_sys. cbn [set_world world].
  destruct (os_write sock _ w2) as [r2 w3]. cbn [fst snd].
  destruct (negb (r2 =? 2)); [rewrite bind_sys_; by do 4 eexists|].
  rewrite bind_sys. cbn [set_world world].
  destruct (os_read sock 1 w3) as [[r3 bs] w4] eqn:E3. cbn [fst snd].
  destruct (Z.eqb_spec r3 1) as [->|]; cbn [negb]; [|rewrite bind_sys_; by do 4 eexists].
  destruct (os_read_law sock 1 w3 1 bs w4 ltac:(lia) E3) as [_ Hbs].
  rewrite mwrite_ok by (rewrite ?Hbs by lia; first [lia | vm_compute; discriminate]).
  rewrite bind_lift_Some.
  destruct (negb (_ =? n)); [rewrite bind_sys_; by do 4 eexists|].
  match goal with |- context [bind (ottery_read_n_bytes_from_file_ _ _ _ _) _ ?s0] =>
    destruct (read_n_bytes_ok sock out off n s0 Ho Hn Hout)
      as (bs' & w5 & _ & _ & E) end.
  rewrite (bind_Ret _ _ _ _ _ E).
  destruct (_ || _); rewrite bind_sys_; by do 4 eexists.
Qed.

Lemma egd_closes_socket_witness :
  exists err st' out' w', ottery_get_entropy_egd
      (Some (mk_entropy_config None 0 false (Some (mk_sockaddr 1 [])) 2 0 0 false))
      None (zeros 40) 0 40 proc0 =
    Ret (err, st', out', set_world (os_close 4 w') proc0).
Proof.
  apply (egd_closes_socket _ (mk_sockaddr 1 []) None (zeros 40) 0 40 4 tworld0 proc0);
    [reflexivity|discriminate|lia|reflexivity|lia|lia|lia|vm_compute; discriminate].
Defined.

(** C39: when the inode behind a caller-supplied descriptor has changed, the
    device source reports ACCESS_STRONG_RNG and closes that descriptor, though
    it only owns descriptors it has opened itself. *)
Theorem urandom_closes_callers_fd {W : Type} {OS0 : OS W}
    cfg es out off n info w (s : process W) :
  urandom_fd_is_set cfg = true -> 0 <= urandom_fd cfg -> allow_nondev_urandom cfg = false ->
  os_fstat (urandom_fd cfg) (world s) = (0, info, w) ->
  Z.land (st_mode info) S_IFCHR <> 0 ->
  urandom_fd_inode es <> 0 -> u64 (st_ino info) <> urandom_fd_inode es ->
  ottery_get_entropy_urandom (Some cfg) (Some es) out off n s =
    Ret (OTTERY_ERR_ACCESS_STRONG_RNG, Some es, out, set_world (os_close (urandom_fd cfg) w) s).
Proof.
  intros Hset Hfd Hdev Hst Hm Hi Hne. unfold ottery_get_entropy_urandom.
  rewrite Hset, (proj2 (Z.leb_le 0 _)) by lia. cbn [andb]. rewrite bind_ret. cbn [andb].
  rewrite bind_sys, Hst, Hdev. cbn [fst snd negb andb]. cbv zeta.
  replace (0 <? 0) with false by reflexivity. rewrite (proj2 (Z.eqb_neq _ 0) Hm).
  rewrite (proj2 (Z.eqb_neq _ 0) Hi), (proj2 (Z.eqb_neq _ _) Hne). reflexivity.
Qed.

Lemma urandom_closes_callers_fd_witness :
  ottery_get_entropy_urandom (Some (mk_entropy_config None 9 true None 0 0 0 false))
      (Some (mk_entropy_state 11)) (zeros 40) 0 40 proc0 =
    Ret (OTTERY_ERR_ACCESS_STRONG_RNG, Some (mk_entropy_state 11), zeros 40,
         set_world (os_close 9 tworld0) proc0).
Proof.
  apply (urandom_closes_callers_fd (mk_entropy_config None 9 true None 0 0 0 false)
    (mk_entropy_state 11) (zeros 40) 0 40 (mk_stat 0x21b6 12) tworld0 proc0);
    first [reflexivity | discriminate | vm_compute; discriminate | cbn; lia].
Defined.
