(* ===== verification/Config.v ===== *)
(** * Configuration: the first part of src/ottery.c

    The [ottery_config_] functions, the choice of a PRF by name and CPU
    capabilities, and the build flags. *)
From S2P Require Import Prelude Words Memory Internal ChaChaRef ChaChaMerged ChaChaKrovetz.
From S2P Require Import Os CpuInfo.
Local Open Scope Z_scope.
Local Open Scope ottery_scope.

(** ** Setting up a configuration *)

Definition ottery_config_init : ottery_config :=
  mk_config None (mk_entropy_config None (-1) false None 0 0 0 false).

Definition ottery_config_set_manual_prf_ (cfg : ottery_config) (prf : option ottery_prf)
  : ottery_config := mk_config prf (cfg_entropy cfg).

Definition set_urandom_fname (x : option string) (c : ottery_entropy_config) :=
  mk_entropy_config x (urandom_fd c) (urandom_fd_is_set c) (egd_sockaddr c)
    (egd_socklen c) (disabled_sources c) (weak_sources c) (allow_nondev_urandom c).

Definition ottery_config_set_urandom_device (cfg : ottery_config) (fname : option string)
  : ottery_config := mk_config (cfg_impl cfg) (set_urandom_fname fname (cfg_entropy cfg)).

Definition ottery_config_set_urandom_fd (cfg : ottery_config) (fd : Z) : ottery_config :=
  let c := cfg_entropy cfg in
  mk_config (cfg_impl cfg)
    (mk_entropy_config (urandom_fname c) fd (0 <=? fd) (egd_sockaddr c)
       (egd_socklen c) (disabled_sources c) (weak_sources c) (allow_nondev_urandom c)).

Definition ottery_config_set_egd_socket (cfg : ottery_config) (addr : option sockaddr)
    (socklen : Z) : ottery_config :=
  let c := cfg_entropy cfg in
  mk_config (cfg_impl cfg)
    (mk_entropy_config (urandom_fname c) (urandom_fd c) (urandom_fd_is_set c) addr
       socklen (disabled_sources c) (weak_sources c) (allow_nondev_urandom c)).

Definition ottery_config_disable_entropy_sources (cfg : ottery_config) (disabled : Z)
  : ottery_config :=
  let c := cfg_entropy cfg in
  mk_config (cfg_impl cfg)
    (mk_entropy_config (urandom_fname c) (urandom_fd c) (urandom_fd_is_set c)
       (egd_sockaddr c) (egd_socklen c) (Z.land disabled OTTERY_ENTROPY_ALL_SOURCES)
       (weak_sources c) (allow_nondev_urandom c)).

Definition ottery_config_mark_entropy_sources_weak (cfg : ottery_config) (weak : Z)
  : ottery_config :=
  let c := cfg_entropy cfg in
  mk_config (cfg_impl cfg)
    (mk_entropy_config (urandom_fname c) (urandom_fd c) (urandom_fd_is_set c)
       (egd_sockaddr c) (egd_socklen c) (disabled_sources c)
       (Z.land weak OTTERY_ENTROPY_ALL_SOURCES) (allow_nondev_urandom c)).

(** ** Choosing a PRF *)

Section GetImpl.
Context {W : Type} {OS0 : OS W} {PL : Platform}.

(** The [ALL_PRFS] table, less its null terminator. *)
Definition ALL_PRFS : list ottery_prf :=
  match HAVE_SIMD_CHACHA_2 with
  | Some t => [ottery_prf_chacha20_krovetz_ t; ottery_prf_chacha12_krovetz_ t;
               ottery_prf_chacha8_krovetz_ t]
  | None => []
  end ++
  match HAVE_SIMD_CHACHA with
  | Some t => [ottery_prf_chacha20_krovetz_ t; ottery_prf_chacha12_krovetz_ t;
               ottery_prf_chacha8_krovetz_ t]
  | None => []
  end ++
  [ottery_prf_chacha20_merged_; ottery_prf_chacha12_merged_; ottery_prf_chacha8_merged_].

(** The loop over the table, for a capability mask. *)
Fixpoint get_impl_loop (i : option string) (cap : Z) (prfs : list ottery_prf)
  : option ottery_prf :=
  match prfs with
  | [] => None
  | prf :: prfs =>
      if negb (Z.land (required_cpucap prf) cap =? required_cpucap prf) then
        get_impl_loop i cap prfs
      else
        match i with
        | None => Some prf
        | Some s =>
            if String.eqb s (name prf) then Some prf
            else if String.eqb s (impl prf) then Some prf
            else if String.eqb s (flav prf) then Some prf
            else get_impl_loop i cap prfs
        end
  end.

Definition ottery_get_impl (i : option string) : M W (option ottery_prf) :=
  do cap <- ottery_get_cpu_capabilities_;
  ret (get_impl_loop i cap ALL_PRFS).

Definition ottery_config_force_implementation (cfg : ottery_config) (i : option string)
  : M W (Z * ottery_config) :=
  do prf <- ottery_get_impl i;
  match prf with
  | Some prf => ret (0, mk_config (Some prf) (cfg_entropy cfg))
  | None => ret (OTTERY_ERR_INVALID_ARGUMENT, cfg)
  end.

End GetImpl.

(** The names ottery_common.h offers for [ottery_config_force_implementation]. *)
Definition OTTERY_PRF_CHACHA : string := "CHACHA".
Definition OTTERY_PRF_CHACHA8 : string := "CHACHA8".
Definition OTTERY_PRF_CHACHA12 : string := "CHACHA12".
Definition OTTERY_PRF_CHACHA20 : string := "CHACHA20".
Definition OTTERY_PRF_CHACHA_SIMD : string := "CHACHA-SIMD".
Definition OTTERY_PRF_CHACHA8_SIMD : string := "CHACHA8-SIMD".
Definition OTTERY_PRF_CHACHA12_SIMD : string := "CHACHA12-SIMD".
Definition OTTERY_PRF_CHACHA20_SIMD : string := "CHACHA20-SIMD".
Definition OTTERY_PRF_CHACHA_NO_SIMD : string := "CHACHA-NOSIMD".
Definition OTTERY_PRF_CHACHA8_NO_SIMD : string := "CHACHA8-NOSIMD".
Definition OTTERY_PRF_CHACHA12_NO_SIMD : string := "CHACHA12-NOSIMD".
Definition OTTERY_PRF_CHACHA20_NO_SIMD : string := "CHACHA20-NOSIMD".

(** ** Version and sizes *)

(** configure.ac defines both; ottery_version.h.in receives them. *)
Definition OTTERY_VERSION : Z := 0x00000001.
Definition OTTERY_VERSION_STRING : string := "0.0.0-dev".

Definition ottery_get_version : Z := OTTERY_VERSION.
Definition ottery_get_version_string : string := OTTERY_VERSION_STRING.

Definition ottery_get_sizeof_config {PL : Platform} : Z := sizeof_ottery_config.
Definition ottery_get_sizeof_state {PL : Platform} : Z := sizeof_ottery_state.
Definition ottery_get_sizeof_state_nolock {PL : Platform} : Z := sizeof_ottery_state.

(** ** Build flags *)

Definition OTTERY_BLDFLG_NO_PID_CHECK : Z := 0x00000001.
Definition OTTERY_BLDFLG_NO_INIT_CHECK : Z := 0x00000002.
Definition OTTERY_BLDFLG_NO_LOCKING : Z := 0x00000004.
Definition OTTERY_BLDFLG_NO_CLEAR_AFTER_YIELD : Z := 0x00000008.
Definition OTTERY_BLDFLG_NO_WIPE_STACK : Z := 0x00000010.
Definition OTTERY_BLDFLG_NO_SIMD : Z := 0x00010000.
Definition OTTERY_BLDFLG_MASK_SAFETY : Z := 0x0000ffff.

(** ottery.c defines OTTERY_NO_PID_CHECK on Windows, and
    ottery-threading.h OTTERY_NO_LOCKS where it finds no lock. *)
Definition no_pid_check {BC : BuildConfig} {PL : Platform} : bool :=
  OTTERY_NO_PID_CHECK || plat_win32.

Definition ottery_get_build_flags {BC : BuildConfig} {PL : Platform} : Z :=
  let result := 0 in
  let result := if no_pid_check then Z.lor result OTTERY_BLDFLG_NO_PID_CHECK else result in
  let result :=
    if OTTERY_NO_INIT_CHECK then Z.lor result OTTERY_BLDFLG_NO_INIT_CHECK else result in
  let result :=
    if lock_impl is NO_LOCKS then Z.lor result OTTERY_BLDFLG_NO_LOCKING else result in
  let result :=
    if OTTERY_NO_CLEAR_AFTER_YIELD
    then Z.lor result OTTERY_BLDFLG_NO_CLEAR_AFTER_YIELD else result in
  let result :=
    if OTTERY_NO_WIPE_STACK then Z.lor result OTTERY_BLDFLG_NO_WIPE_STACK else result in
  if OTTERY_NO_SIMD then Z.lor result OTTERY_BLDFLG_NO_SIMD else result.
