(* ===== verification/Api.v ===== *)
(** * The state-based API of src/ottery.c

    Initialization, seeding, the checks before output, locked and lock-free
    output, ranges, backtracking prevention, wiping and fatal errors. A
    function that takes a [struct ottery_state *] takes its address (which the
    magic number depends on) and the structure's contents, and returns the new
    contents. *)
From S2P Require Import Prelude Words Memory Internal Spec Prng Refine.
From S2P Require Import ChaChaRef ChaChaMerged ChaChaKrovetz Os CpuInfo Entropy Config.
Local Open Scope Z_scope.
Local Open Scope ottery_scope.

Section Api.
Context {W : Type} {OS0 : OS W} {BC : BuildConfig} {PL : Platform}.

(** ** Fatal errors and magic numbers *)

Definition MAGIC_BASIS : Z := 0x11b07734.

(** [MAGIC(ptr)] *)
Definition MAGIC (addr : Z) : Z := Z.lxor (u32 addr) MAGIC_BASIS.

Definition ottery_fatal_error_ (error : Z) : M W unit := fun s =>
  match ottery_fatal_handler s with
  | Some h => Ret (tt, set_world (h error (world s)) s)
  | None => Aborted
  end.

Definition ottery_set_fatal_handler (h : option (Z -> W -> W)) : M W unit := fun s =>
  Ret (tt, mk_process (world s) (disabled_cpu_capabilities s) h).

(** ** Seeding *)

(** The seed [ottery_st_add_seed_impl] mixes in: the caller's, or fresh bytes
    from the entropy sources when it is null or empty; in that case it is in
    [tmp_seed], which comes last with its length. [alloca] is taken to succeed.
    An error is returned to the caller, with what [tmp_seed] holds. *)
Definition add_seed_input (st : ottery_state) (seed : option (list byte)) (n : Z)
  : M W (Z * ottery_state * list byte +
         ottery_state * list byte * Z * Z * option (list byte * Z)) :=
  match (if n =? 0 then None else seed) with
  | Some seed => ret (inr (st, seed, n, 0, None))
  | None =>
      let sb := state_bytes (st_prf st) in
      let tmp_seed_len := ottery_get_entropy_bufsize_ sb in
      do er <- ottery_get_entropy_ (Some (st_entropy_config st)) (Some (st_entropy_state st)) 0
                 (zeros tmp_seed_len) sb tmp_seed_len;
      let st := set_entropy_state (default (st_entropy_state st) (er_state er)) st in
      if negb (er_err er =? 0) then ret (inl (er_err er, st, er_bytes er))
      else if er_buflen er <? sb then ret (inl (OTTERY_ERR_ACCESS_STRONG_RNG, st, er_bytes er))
      else ret (inr (st, er_bytes er, er_buflen er, er_flags_out er,
                     Some (er_bytes er, tmp_seed_len)))
  end.

(** From the lock to the unlock: mix the seed in and record the flags. *)
Definition add_seed_locked (locking : bool) (st : ottery_state) (seed : list byte) (n flags : Z)
  : M W (Z * ottery_state) :=
  do st <- (if locking then LOCK st else ret st);
  do st <- lift (mix_seed st seed n);
  let st := set_entropy_src_flags (Z.lor (st_entropy_src_flags st) flags) st in
  let st := set_last_entropy_flags flags st in
  do st <- (if locking then UNLOCK st else ret st);
  ret (0, st).

(** [if (tmp_seed) ottery_memclear_(tmp_seed, tmp_seed_len);] *)
Definition clear_tmp_seed (tmp_seed : option (list byte * Z)) : M W (list byte) :=
  match tmp_seed with
  | Some (tmp_seed, tmp_seed_len) => lift (ottery_memclear_ tmp_seed tmp_seed_len)
  | None => ret []
  end.

(** With what the stack buffer [tmp_seed] holds when the function returns. *)
Definition add_seed_frame (addr : Z) (st : ottery_state)
    (seed : option (list byte)) (n : Z) (locking check_magic : bool)
  : M W (Z * ottery_state * list byte) :=
  if negb OTTERY_NO_INIT_CHECK && (check_magic && negb (st_magic st =? MAGIC addr)) then
    do_ ottery_fatal_error_ OTTERY_ERR_STATE_INIT;
    ret (OTTERY_ERR_STATE_INIT, st, [])
  else
    do r <- add_seed_input st seed n;
    match r with
    | inl r => ret r
    | inr (st, seed, n, flags, tmp_seed) =>
        do '(err, st) <- add_seed_locked locking st seed n flags;
        do tmp_seed <- clear_tmp_seed tmp_seed;
        ret (err, st, tmp_seed)
    end.

Definition ottery_st_add_seed_impl (addr : Z) (st : ottery_state)
    (seed : option (list byte)) (n : Z) (locking check_magic : bool)
  : M W (Z * ottery_state) :=
  do '(r, _) <- add_seed_frame addr st seed n locking check_magic; ret r.

Definition ottery_st_add_seed (addr : Z) (st : ottery_state) (seed : option (list byte)) (n : Z)
  : M W (Z * ottery_state) := ottery_st_add_seed_impl addr st seed n true true.

Definition ottery_st_add_seed_nolock (addr : Z) (st : ottery_state)
    (seed : option (list byte)) (n : Z) : M W (Z * ottery_state) :=
  ottery_st_add_seed_impl addr st seed n false true.

(** With what the stack buffer [buf] holds when the function returns. *)
Definition reseed_frame (addr : Z) (st : ottery_state) : M W (Z * ottery_state * list byte) :=
  let sb := state_bytes (st_prf st) in
  let buflen := ottery_get_entropy_bufsize_ sb in
  do er <- ottery_get_entropy_ (Some (st_entropy_config st)) (Some (st_entropy_state st)) 0
             (zeros buflen) sb buflen;
  let st := set_entropy_state (default (st_entropy_state st) (er_state er)) st in
  if negb (er_err er =? 0) then ret (er_err er, st, er_bytes er)
  else if er_buflen er <? sb then ret (OTTERY_ERR_ACCESS_STRONG_RNG, st, er_bytes er)
  else
    do s <- lift (setup (st_prf st) (st_state st) (er_bytes er));
    let st := set_state s st in
    do st <-
      (if sb <? er_buflen er then
         do '(_, st) <- ottery_st_add_seed_impl addr st
                          (Some (drop (Z.to_nat sb) (er_bytes er))) (er_buflen er - sb) false false;
         ret st
       else ret st);
    do buf <- lift (ottery_memclear_ (er_bytes er) (er_buflen er));
    let st := set_last_entropy_flags (er_flags_out er) st in
    let st := set_entropy_src_flags (er_flags_out er) st in
    let st := set_block_counter 0 st in
    do st <- lift (ottery_st_nextblock_nolock st);
    ret (0, st, buf).

Definition ottery_st_reseed (addr : Z) (st : ottery_state) : M W (Z * ottery_state) :=
  do '(r, _) <- reseed_frame addr st; ret r.

(** ** Initialization *)

Definition OTTERY_STATE_DUMMY_SIZE_ : Z := 1536.
Definition OTTERY_STATE_NOLOCK_DUMMY_SIZE_ : Z := 1536.
Definition OTTERY_CONFIG_DUMMY_SIZE_ : Z := 1024.

Definition ottery_st_initialize (addr : Z) (st : ottery_state)
    (config : option ottery_config) (locked : bool) : M W (Z * ottery_state) :=
  if negb (Z.land addr 0xf =? 0) then ret (OTTERY_ERR_STATE_ALIGNMENT, st)
  else
    let config := default ottery_config_init config in
    do prf <- (match cfg_impl config with
               | Some prf => ret (Some prf)
               | None => ottery_get_impl None
               end);
    let st := zero_state in
    do '(failed, l) <- (if locked then INIT_LOCK (st_mutex st) else ret (false, st_mutex st));
    let st := set_mutex l st in
    if failed then ret (OTTERY_ERR_LOCK_INIT, st)
    else
      do prf <- lift prf;
      if (MAX_STATE_LEN <? state_len prf) || (MAX_STATE_BYTES <? state_bytes prf) ||
         (output_len prf <? state_bytes prf) || (MAX_OUTPUT_LEN <? output_len prf)
      then ret (OTTERY_ERR_INTERNAL, st)
      else if (OTTERY_STATE_DUMMY_SIZE_ <? sizeof_ottery_state) ||
              (OTTERY_CONFIG_DUMMY_SIZE_ <? sizeof_ottery_config)
      then ret (OTTERY_ERR_INTERNAL, st)
      else
        let st := set_entropy_config (cfg_entropy config) st in
        let st := set_prf prf st in
        do '(err, st) <- ottery_st_reseed addr st;
        if negb (err =? 0) then ret (err, st)
        else
          let st := set_magic (MAGIC addr) st in
          do pid <- getpid;
          ret (0, set_pid pid st).

Definition ottery_st_init (addr : Z) (st : ottery_state) (cfg : option ottery_config) :=
  ottery_st_initialize addr st cfg true.

Definition ottery_st_init_nolock (addr : Z) (st : ottery_state) (cfg : option ottery_config) :=
  ottery_st_initialize addr st cfg false.

Definition ottery_st_wipe (st : ottery_state) : M W ottery_state :=
  do l <- DESTROY_LOCK (st_mutex st);
  ret (ottery_st_wipe_nolock (set_mutex l st)).

Definition ottery_st_prevent_backtracking (st : ottery_state) : M W ottery_state :=
  do st <- LOCK st;
  do st <- lift (ottery_st_prevent_backtracking_nolock st);
  UNLOCK st.

(** ** Checks before output: the result is whether to go on *)

Definition ottery_st_rand_check_init (addr : Z) (st : ottery_state) : M W bool :=
  if negb OTTERY_NO_INIT_CHECK && negb (st_magic st =? MAGIC addr) then
    do_ ottery_fatal_error_ OTTERY_ERR_STATE_INIT; ret false
  else ret true.

Definition ottery_st_rand_check_pid (addr : Z) (st : ottery_state) : M W (bool * ottery_state) :=
  if no_pid_check then ret (true, st)
  else
    do pid <- getpid;
    if negb (st_pid st =? pid) then
      do '(err, st) <- ottery_st_reseed addr st;
      if negb (err =? 0) then
        do_ ottery_fatal_error_ (Z.lor OTTERY_ERR_FLAG_POSTFORK_RESEED err);
        ret (false, st)
      else
        do pid <- getpid; ret (true, set_pid pid st)
    else ret (true, st).

Definition ottery_st_rand_lock_and_check (addr : Z) (st : ottery_state)
  : M W (bool * ottery_state) :=
  do ok <- ottery_st_rand_check_init addr st;
  if negb ok then ret (false, st)
  else
    do st <- LOCK st;
    do '(ok, st) <- ottery_st_rand_check_pid addr st;
    if negb ok then do st <- UNLOCK st; ret (false, st)
    else ret (true, st).

Definition ottery_st_rand_check_nolock (addr : Z) (st : ottery_state)
  : M W (bool * ottery_state) :=
  do ok <- ottery_st_rand_check_init addr st;
  if negb ok then ret (false, st) else ottery_st_rand_check_pid addr st.

(** ** Bytes *)

Definition ottery_st_rand_bytes (addr : Z) (st : ottery_state) (out : list byte) (off n : Z)
  : M W (ottery_state * list byte) :=
  do '(ok, st) <- ottery_st_rand_lock_and_check addr st;
  if negb ok then ret (st, out)
  else
    do '(st, out) <- lift (ottery_st_rand_bytes_impl st out off n);
    do st <- UNLOCK st;
    ret (st, out).

Definition ottery_st_rand_bytes_nolock (addr : Z) (st : ottery_state)
    (out : list byte) (off n : Z) : M W (ottery_state * list byte) :=
  do '(ok, st) <- ottery_st_rand_check_nolock addr st;
  if negb ok then ret (st, out)
  else lift (ottery_st_rand_bytes_impl st out off n).

(** ** Integers *)

Definition OTTERY_RETURN_RAND_INTTYPE (addr : Z) (st : ottery_state) (size : Z)
  : M W (Z * ottery_state) :=
  do '(ok, st) <- ottery_st_rand_lock_and_check addr st;
  if negb ok then ret (0, st)
  else
    do '(result, st) <- lift (OTTERY_RETURN_RAND_INTTYPE_IMPL size st);
    do st <- UNLOCK st;
    ret (result, st).

Definition OTTERY_RETURN_RAND_INTTYPE_NOLOCK (addr : Z) (st : ottery_state) (size : Z)
  : M W (Z * ottery_state) :=
  do '(ok, st) <- ottery_st_rand_check_nolock addr st;
  if negb ok then ret (0, st)
  else lift (OTTERY_RETURN_RAND_INTTYPE_IMPL size st).

(** [unsigned] has 32 bits on the platforms modelled. *)
Definition ottery_st_rand_unsigned (addr : Z) (st : ottery_state) :=
  OTTERY_RETURN_RAND_INTTYPE addr st 4.
Definition ottery_st_rand_unsigned_nolock (addr : Z) (st : ottery_state) :=
  OTTERY_RETURN_RAND_INTTYPE_NOLOCK addr st 4.
Definition ottery_st_rand_uint32 (addr : Z) (st : ottery_state) :=
  OTTERY_RETURN_RAND_INTTYPE addr st 4.
Definition ottery_st_rand_uint32_nolock (addr : Z) (st : ottery_state) :=
  OTTERY_RETURN_RAND_INTTYPE_NOLOCK addr st 4.
Definition ottery_st_rand_uint64 (addr : Z) (st : ottery_state) :=
  OTTERY_RETURN_RAND_INTTYPE addr st 8.
Definition ottery_st_rand_uint64_nolock (addr : Z) (st : ottery_state) :=
  OTTERY_RETURN_RAND_INTTYPE_NOLOCK addr st 8.

(** ** Ranges *)

(** The [do ... while (n > upper)] loop over draws of [size] bytes. *)
Fixpoint rand_range_loop (fuel : nat) (addr : Z) (st : ottery_state) (size divisor upper : Z)
  : M W (Z * ottery_state) :=
  match fuel with
  | O => fun _ => NoFuel
  | S fuel =>
      do '(r, st) <- OTTERY_RETURN_RAND_INTTYPE_NOLOCK addr st size;
      let n := r / divisor in
      if upper <? n then rand_range_loop fuel addr st size divisor upper
      else ret (n, st)
  end.

(** [lim ? (MAX / lim) : 1] for [lim = upper+1] in a [size]-byte type. *)
Definition range_divisor (size upper : Z) : Z :=
  let lim := (upper + 1) mod 2 ^ (8 * size) in
  if lim =? 0 then 1 else (2 ^ (8 * size) - 1) / lim.

Definition ottery_st_rand_range_nolock (fuel : nat) (addr : Z) (st : ottery_state) (upper : Z)
  : M W (Z * ottery_state) :=
  rand_range_loop fuel addr st 4 (range_divisor 4 upper) upper.

Definition ottery_st_rand_range64_nolock (fuel : nat) (addr : Z) (st : ottery_state) (upper : Z)
  : M W (Z * ottery_state) :=
  rand_range_loop fuel addr st 8 (range_divisor 8 upper) upper.

Definition ottery_st_rand_range (fuel : nat) (addr : Z) (st : ottery_state) (upper : Z)
  : M W (Z * ottery_state) :=
  do ok <- ottery_st_rand_check_init addr st;
  if negb ok then ret (0, st)
  else
    do st <- LOCK st;
    do '(n, st) <- ottery_st_rand_range_nolock fuel addr st upper;
    do st <- UNLOCK st;
    ret (n, st).

Definition ottery_st_rand_range64 (fuel : nat) (addr : Z) (st : ottery_state) (upper : Z)
  : M W (Z * ottery_state) :=
  do ok <- ottery_st_rand_check_init addr st;
  if negb ok then ret (0, st)
  else
    do st <- LOCK st;
    do '(n, st) <- ottery_st_rand_range64_nolock fuel addr st upper;
    do st <- UNLOCK st;
    ret (n, st).

End Api.
