(* ===== verification/Keeps.v ===== *)
(** * What the library leaves alone in the world

    A property of the world that every primitive of the operating system preserves
    is preserved by the entropy sources, seeding and initialization. *)
From S2P Require Import Prelude Words Memory Internal Prng Os CpuInfo Entropy Config Api.
Local Open Scope Z_scope.
Local Open Scope ottery_scope.

Section Keeps.
Context {W : Type} {OS0 : OS W} {BC : BuildConfig} {PL : Platform} (I : W -> Prop).

(** A property of the world that every primitive preserves. *)
Record kept : Prop := {
  k_open name w : I w -> I (snd (os_open name w));
  k_fstat fd w : I w -> I (snd (os_fstat fd w));
  k_read fd n w : I w -> I (snd (os_read fd n w));
  k_write fd bs w : I w -> I (snd (os_write fd bs w));
  k_close fd w : I w -> I (os_close fd w);
  k_socket family w : I w -> I (snd (os_socket family w));
  k_connect sock addr len w : I w -> I (snd (os_connect sock addr len w));
  k_acquire w : I w -> I (snd (os_CryptAcquireContext w));
  k_random provider n w : I w -> I (snd (os_CryptGenRandom provider n w));
  k_release provider w : I w -> I (os_CryptReleaseContext provider w);
  k_rdrand w : I w -> I (snd (os_rdrand w));
  k_mutex w : I w -> I (snd (os_pthread_mutex_init w));
  k_section w : I w -> I (snd (os_InitializeCriticalSection w)) }.

Context (HI : kept).

(** A computation preserves it. *)
Definition keeps {A} (m : M W A) : Prop :=
  forall s a s', I (world s) -> m s = Ret (a, s') -> I (world s').

Lemma keeps_bind {A B} (m : M W A) (f : A -> M W B) : keeps m -> (forall a, keeps (f a)) -> keeps (bind m f).
Proof.
  intros Hm Hf s b s' Hs E. apply bind_inv in E as (a & s1 & E1 & E2). eapply Hf; [|exact E2]. by eapply Hm.
Qed.

Lemma keeps_ret {A} (a : A) : keeps (ret a).
Proof. by intros s b s' Hs [= _ <-]. Qed.

Lemma keeps_lift {A} (x : option A) : keeps (lift x).
Proof. intros s b s' Hs E. apply lift_inv in E as [_ ->]. exact Hs. Qed.

Lemma keeps_gets {A} (f : process W -> A) : keeps (gets f).
Proof. by intros s b s' Hs [= _ <-]. Qed.

Lemma keeps_nofuel {A} : keeps (fun _ => @NoFuel (A * process W)).
Proof. by intros s b s' Hs E. Qed.

Lemma keeps_sys {A} (f : W -> A * W) : (forall w, I w -> I (snd (f w))) -> keeps (sys f).
Proof.
  intros Hf s b s' Hs E. unfold sys in E. specialize (Hf (world s) Hs). destruct (f (world s)) as [a w].
  by injection E as _ <-.
Qed.

Lemma keeps_sys_ (f : W -> W) : (forall w, I w -> I (f w)) -> keeps (sys_ f).
Proof. intros Hf s b s' Hs [= _ <-]. by apply Hf. Qed.

Create HintDb keeps.
#[local] Hint Resolve keeps_ret keeps_lift keeps_gets keeps_nofuel : keeps.
#[local] Hint Extern 1 (keeps (sys _)) => apply keeps_sys; intros; eapply HI; assumption : keeps.
#[local] Hint Extern 1 (keeps (sys_ _)) => apply keeps_sys_; intros; eapply HI; assumption : keeps.
#[local] Hint Extern 2 (keeps (bind _ _)) => apply keeps_bind; [|intros] : keeps.
#[local] Hint Extern 3 (keeps (if ?b then _ else _)) => destruct b : keeps.
#[local] Hint Extern 3 (keeps (match ?x with _ => _ end)) => destruct x : keeps.
#[local] Hint Extern 3 (keeps (let _ := _ in _)) => cbv zeta : keeps.

Ltac keep := cbv zeta; auto 40 with keeps.

Lemma keeps_read_loop fuel fd out o n : keeps (read_n_bytes_loop fuel fd out o n).
Proof.
  revert out o n. induction fuel as [|fuel IH]; intros out o n; cbn [read_n_bytes_loop]; [keep|].
  destruct (n =? 0); [keep|]. apply keeps_bind; [keep|]. intros [r bs]. keep.
Qed.

Lemma keeps_read fd out off n : keeps (ottery_read_n_bytes_from_file_ fd out off n).
Proof. unfold ottery_read_n_bytes_from_file_. apply keeps_bind; [apply keeps_read_loop|]. intros []. keep. Qed.
#[local] Hint Resolve keeps_read : keeps.

Lemma keeps_rdrand_loop fuel out up n : keeps (rdrand_loop fuel out up n).
Proof.
  revert out up n. induction fuel as [|fuel IH]; intros out up n; cbn [rdrand_loop]; [keep|].
  unfold rdrand. keep.
Qed.
#[local] Hint Resolve keeps_rdrand_loop : keeps.

Definition source_keeps (src : ottery_randbytes_source W) : Prop :=
  forall cfg st out off n, keeps (fn src cfg st out off n).

Lemma RAND_SOURCES_keep : Forall source_keeps RAND_SOURCES.
Proof.
  assert (source_keeps ENTROPY_SOURCE_CRYPTGENRANDOM) as H1.
  { intros cfg st out off n. cbn [fn ENTROPY_SOURCE_CRYPTGENRANDOM]. unfold ottery_get_entropy_cryptgenrandom. keep. }
  assert (source_keeps ENTROPY_SOURCE_URANDOM) as H2.
  { intros cfg st out off n. cbn [fn ENTROPY_SOURCE_URANDOM]. unfold ottery_get_entropy_urandom. keep. }
  assert (source_keeps ENTROPY_SOURCE_EGD) as H3.
  { intros cfg st out off n. cbn [fn ENTROPY_SOURCE_EGD]. unfold ottery_get_entropy_egd. keep. }
  assert (source_keeps ENTROPY_SOURCE_RDRAND) as H4.
  { intros cfg st out off n. cbn [fn ENTROPY_SOURCE_RDRAND]. unfold ottery_get_entropy_rdrand, rdrand,
      ottery_get_cpu_capabilities_. keep. }
  unfold RAND_SOURCES. destruct plat_win32, rdrand_compiled; cbn [app]; auto.
Qed.

Lemma keeps_entropy_loop config select n buflen srcs v :
  Forall source_keeps srcs -> keeps (entropy_loop config select n buflen srcs v).
Proof.
  intros H. revert v. induction H as [|src srcs Hs _ IH]; intros v; cbn [entropy_loop]; [keep|].
  do 4 (match goal with |- keeps (let _ := _ in _) => cbv zeta | _ => idtac end;
    match goal with |- keeps (if ?b then _ else _) => destruct b; [solve [keep]|] end).
  apply keeps_bind; [apply Hs|]. intros [[err st] out]. keep.
Qed.

Lemma keeps_get_entropy config st select bytes n buflen :
  keeps (ottery_get_entropy_ config st select bytes n buflen).
Proof.
  unfold ottery_get_entropy_. pose proof RAND_SOURCES_keep.
  apply keeps_bind; [keep|]. intros. apply keeps_bind; [by apply keeps_entropy_loop|]. intros. keep.
Qed.
#[local] Hint Resolve keeps_get_entropy : keeps.

Lemma keeps_add_seed addr st seed n : keeps (ottery_st_add_seed_impl addr st seed n false false).
Proof.
  unfold ottery_st_add_seed_impl, add_seed_frame, add_seed_input, add_seed_locked, clear_tmp_seed.
  rewrite andb_false_r. keep.
Qed.
#[local] Hint Resolve keeps_add_seed : keeps.

Lemma keeps_reseed addr st : keeps (ottery_st_reseed addr st).
Proof. unfold ottery_st_reseed, reseed_frame. keep. Qed.
#[local] Hint Resolve keeps_reseed : keeps.

Lemma keeps_initialize addr st config locked : keeps (ottery_st_initialize addr st config locked).
Proof.
  unfold ottery_st_initialize, INIT_LOCK, ottery_get_impl, ottery_get_cpu_capabilities_, getpid. keep.
Qed.
End Keeps.
