(* ===== verification/ApiRefine.v ===== *)
(** * The state-based API implements the abstract generator

    Lemmas about the functions of [Api]: reseeding constructs an abstract
    generator from the bytes the entropy sources gave, initialization succeeds
    or fails without leaving a magic number, and a checked, locked call is the
    core operation. *)
From S2P Require Import Prelude Words Memory Internal Spec Prng Refine Session.
From S2P Require Import ChaChaRef ChaChaMerged ChaChaKrovetz Os CpuInfo Entropy Config Api.
Local Open Scope Z_scope.
Local Open Scope ottery_scope.

(** ** Magic numbers *)

Lemma MAGIC_nonzero addr : Z.land addr 0xf = 0 -> MAGIC addr <> 0.
Proof.
  intros Ha Hm. assert (Z.testbit (MAGIC addr) 2 = true) as Hb.
  { unfold MAGIC. rewrite Z.lxor_spec. change (Z.testbit MAGIC_BASIS 2) with true.
    assert (Z.testbit (u32 addr) 2 = false) as ->; [|done].
    unfold u32. rewrite Z.mod_pow2_bits_low by lia.
    assert (Z.testbit (Z.land addr 0xf) 2 = false) as E by (by rewrite Ha).
    rewrite Z.land_spec in E. change (Z.testbit 0xf 2) with true in E.
    by rewrite andb_true_r in E. }
  by rewrite Hm in Hb.
Qed.

(** ** Locks *)

Section Locks.
Context {W : Type} {OS0 : OS W} {BC : BuildConfig} {PL : Platform}.

(** The lock of [st] is initialized and free, where the build has locks. *)
Definition lock_ready (st : ottery_state) : Prop :=
  lock_impl = NO_LOCKS \/ st_mutex st = LockFree.

(** The contents of the lock while it is held. *)
Definition held (l : lock_state) : lock_state :=
  match lock_impl with NO_LOCKS => l | _ => LockHeld end.

Lemma LOCK_ok st (s : process W) :
  lock_ready st -> LOCK st s = Ret (set_mutex (held (st_mutex st)) st, s).
Proof.
  intros H. unfold LOCK, ACQUIRE_LOCK, held. destruct H as [->|Hm]; [done|].
  rewrite Hm. by destruct lock_impl.
Qed.

Lemma UNLOCK_ok st l (s : process W) :
  lock_ready st -> st_mutex l = held (st_mutex st) ->
  UNLOCK l s = Ret (set_mutex (st_mutex st) l, s).
Proof.
  intros H Hl. unfold UNLOCK, RELEASE_LOCK. rewrite Hl. unfold held.
  destruct H as [->|Hm]; [done|]. rewrite Hm. by destruct lock_impl.
Qed.
End Locks.

(** ** Seeding *)

Section ApiRefine.
Context {W : Type} {OS0 : OS W} {BC : BuildConfig} {PL : Platform} {OL : OSLaws OS0}.
Context {p : ottery_prf} {PS : PrfSpec p} {PZ : PrfSizes p}.

Abbreviation sb := (state_bytes p).
Abbreviation ol := (output_len p).
Abbreviation PRF := (prf_out p).

(** A state that can be seeded: the PRF is in place and the arrays are whole. *)
Record seedable (st : ottery_state) : Prop := mk_seedable {
  sd_prf : st_prf st = p;
  sd_buffer : zlen (st_buffer st) = MAX_OUTPUT_LEN;
  sd_state : zlen (st_state st) = MAX_STATE_LEN;
  sd_ctr : st_block_counter st = 0;
}.

Lemma rep_seedable st a : rep st a -> seedable st.
Proof. intros [[] ???]. by split. Qed.

Lemma rep_set_mutex l st a : rep st a -> rep (set_mutex l st) a.
Proof. by intros [[] ???]. Qed.

Lemma rep_set_ids m i st a : rep st a -> rep (set_pid i (set_magic m st)) a.
Proof. by intros [[] ???]. Qed.

Lemma rep_flags f g st a :
  rep st a -> rep (set_last_entropy_flags f (set_entropy_src_flags g st)) a.
Proof. by intros [[] ???]. Qed.

Lemma stir_key k b b' : stir sb ol PRF (mk_prng k b) = stir sb ol PRF (mk_prng k b').
Proof. reflexivity. Qed.

(** What reseeding keeps: everything but the buffer, the PRF state, the
    counter, [pos], the entropy flags and the entropy state. *)
Record seed_frame (st st' : ottery_state) : Prop := mk_seed_frame {
  sf_prf : st_prf st' = st_prf st;
  sf_magic : st_magic st' = st_magic st;
  sf_pid : st_pid st' = st_pid st;
  sf_cfg : st_entropy_config st' = st_entropy_config st;
  sf_mutex : st_mutex st' = st_mutex st;
}.

(** The seed the entropy sources gave, as [ottery_st_reseed] uses it. *)
Definition seed_bytes (er : entropy_result) : list byte :=
  slice (er_bytes er) 0 (er_buflen er).

Lemma bufsize_bounds n : 0 <= n -> 0 <= ottery_get_entropy_bufsize_ n.
Proof. intros. unfold ottery_get_entropy_bufsize_, u64. pose proof (Z.mod_pos_bound (n * zlen (RAND_SOURCES (W := W))) (2 ^ 64)). lia. Qed.

(** The call of the entropy sources that seeding and reseeding make. *)
Lemma seed_entropy_ok cfg es (s : process W) :
  exists er s', ottery_get_entropy_ (Some cfg) (Some es) 0
      (zeros (ottery_get_entropy_bufsize_ sb)) sb (ottery_get_entropy_bufsize_ sb) s
      = Ret (er, s') /\ same_process s s' /\
    zlen (er_bytes er) = ottery_get_entropy_bufsize_ sb /\
    ((er_err er = 0 /\ sb <= er_buflen er <= zlen (er_bytes er) /\
      (exists used, entropy_success (Some cfg) 0 sb (ottery_get_entropy_bufsize_ sb) er used)) \/
     entropy_failure (ottery_get_entropy_bufsize_ sb) er).
Proof.
  pose proof sizes_facts as Hsz. pose proof (bufsize_bounds sb ltac:(lia)) as Hb.
  pose proof (zlen_zeros _ Hb) as Hz.
  destruct (get_entropy_ok (Some cfg) (Some es) 0 (zeros (ottery_get_entropy_bufsize_ sb)) sb
    (ottery_get_entropy_bufsize_ sb) s) as (er & s' & E & Hp & Hl & _ & H); [lia|lia|].
  exists er, s'. split; [done|]. split; [done|]. split; [congruence|].
  destruct H as [(used & H & _)|H]; [left|by right].
  pose proof H as [E0 _ _ _ _ E5 E6 E7 _]. split; [done|]. split; [|by exists used].
  assert (1 <= zlen used).
  { destruct used; [by apply Exists_nil in E7|]. rewrite zlen_cons. zlen_facts. lia. }
  split; [nia|lia].
Qed.

(** What it left, for a given run of the sources. *)
Lemma seed_entropy_run cfg es (s s1 : process W) er :
  ottery_get_entropy_ (Some cfg) (Some es) 0 (zeros (ottery_get_entropy_bufsize_ sb)) sb
    (ottery_get_entropy_bufsize_ sb) s = Ret (er, s1) ->
  same_process s s1 /\
  ((er_err er = 0 /\ sb <= er_buflen er <= zlen (er_bytes er) /\
    (exists used, entropy_success (Some cfg) 0 sb (ottery_get_entropy_bufsize_ sb) er used)) \/
   entropy_failure (ottery_get_entropy_bufsize_ sb) er).
Proof.
  intros E. destruct (seed_entropy_ok cfg es s) as (er' & s' & E' & Hp & _ & H).
  rewrite E in E'. by injection E' as <- <-.
Qed.

(** [ottery_st_reseed]'s mixing of the bytes after the first key. *)
Lemma reseed_mix_ok addr st k0 bytes buflen (s : process W) :
  keyed (p := p) k0 st -> st_block_counter st = 0 -> sb <= buflen <= zlen bytes ->
  exists st', (if sb <? buflen then
      bind (ottery_st_add_seed_impl addr st (Some (drop (Z.to_nat sb) bytes))
              (buflen - sb) false false) (fun '(_, st) => ret st)
    else ret st : M W ottery_state) s = Ret (st', s) /\ seed_frame st st' /\
    keyed (p := p) (K (if sb <? buflen
      then add sb ol PRF (drop (Z.to_nat sb) (slice bytes 0 buflen)) (mk_prng k0 [])
      else mk_prng k0 [])) st'.
Proof.
  intros Hk Hc Hbl. pose proof sizes_facts as Hsz. destruct (Z.ltb_spec sb buflen) as [Hlt|Hge].
  2:{ exists st. by split_and!. }
  unfold ottery_st_add_seed_impl, add_seed_frame. rewrite andb_false_r. unfold add_seed_input.
  rewrite (proj2 (Z.eqb_neq _ 0)) by lia. rewrite !bind_assoc, bind_ret.
  destruct (mix_seed_ok st (mk_prng k0 []) (drop (Z.to_nat sb) bytes) (buflen - sb) Hk Hc)
    as (st2 & E2 & Hr2 & Hf2); [rewrite zlen_drop; lia|].
  eassert (add_seed_locked false st _ _ 0 s = Ret _) as E3.
  { unfold add_seed_locked. rewrite bind_ret, E2, bind_lift_Some, bind_ret. reflexivity. }
  rewrite bind_assoc, (bind_Ret _ _ _ _ _ E3).
  eexists. split; [reflexivity|]. split; [destruct Hf2; by split|].
  assert (drop (Z.to_nat sb) (slice bytes 0 buflen) =
      slice (drop (Z.to_nat sb) bytes) 0 (buflen - sb)) as -> by (rewrite drop_slice by lia; done).
  apply (rep_keyed _ _ (rep_flags _ _ _ _ Hr2)).
Qed.

(** Clearing what the sources gave. *)
Lemma memclear_ok m n :
  0 <= n <= zlen m -> ottery_memclear_ m n = Some (splice m 0 (zeros n)).
Proof. intros. unfold ottery_memclear_. by rewrite mzero_ok by lia. Qed.

(** What reseeding leaves, for a given run of the sources: the generator made
    from their bytes, or the old one. *)
Definition reseeded (cfg : ottery_entropy_config) (er : entropy_result) (st st' : ottery_state)
  : Prop :=
  (er_err er = 0 /\ 0 <= er_buflen er <= zlen (er_bytes er) /\
   (exists used, entropy_success (Some cfg) 0 sb (ottery_get_entropy_bufsize_ sb) er used) /\
   rep st' (construct sb ol PRF (seed_bytes er)) /\
   st_entropy_src_flags st' = er_flags_out er /\ st_last_entropy_flags st' = er_flags_out er) \/
  ((er_err er = OTTERY_ERR_INIT_STRONG_RNG \/ er_err er = OTTERY_ERR_ACCESS_STRONG_RNG) /\
   st_buffer st' = st_buffer st /\ st_state st' = st_state st /\
   st_block_counter st' = st_block_counter st /\ st_pos st' = st_pos st).

(** [buf] is the stack buffer as [ottery_st_reseed] leaves it. *)
Lemma reseed_frame_run addr st (s s1 : process W) er :
  seedable st ->
  ottery_get_entropy_ (Some (st_entropy_config st)) (Some (st_entropy_state st)) 0
    (zeros (ottery_get_entropy_bufsize_ sb)) sb (ottery_get_entropy_bufsize_ sb) s = Ret (er, s1) ->
  exists st' buf, reseed_frame addr st s = Ret (er_err er, st', buf, s1) /\ seed_frame st st' /\
    reseeded (st_entropy_config st) er st st' /\
    (er_err er = 0 -> buf = splice (er_bytes er) 0 (zeros (er_buflen er))).
Proof.
  intros [Hp Hb Hs Hc] E. pose proof sizes_facts as Hsz.
  unfold reseed_frame. rewrite Hp. cbv zeta. rewrite (bind_Ret _ _ _ _ _ E).
  destruct (seed_entropy_run _ _ _ _ _ E) as (_ & [(He & Hbl & Hok)|Hf]).
  2:{ pose proof (ef_err _ _ Hf) as He. assert (er_err er <> 0) as Hn by (by destruct He as [-> | ->]).
      rewrite (proj2 (Z.eqb_neq _ _) Hn). cbn [negb]. do 2 eexists. split; [reflexivity|].
      split; [by split|]. split; [|by intros]. right. by split_and!. }
  rewrite He, (proj2 (Z.ltb_ge _ sb)) by lia. cbn [negb Z.eqb].
  cbn [set_entropy_state st_prf st_state]. rewrite Hp.
  destruct (prf_setup_ok (st_state st) (er_bytes er)) as (m & Em & Hm & Hh); [done|lia|].
  rewrite Em, bind_lift_Some.
  set (st1 := set_state m (set_entropy_state _ st)).
  set (k0 := slice (er_bytes er) 0 sb) in *.
  assert (keyed (p := p) k0 st1) as Hk1.
  { split; try done; [|by cbn; rewrite Hc]. unfold k0. apply zlen_slice; lia. }
  destruct (reseed_mix_ok addr st1 k0 (er_bytes er) (er_buflen er) s1 Hk1 Hc Hbl)
    as (st2 & E2 & Hf2 & Hk2).
  rewrite (bind_Ret _ _ _ _ _ E2), memclear_ok, bind_lift_Some by lia.
  set (st3 := set_block_counter 0 _).
  match type of Hk2 with keyed ?k _ => assert (keyed (p := p) k st3) as Hk3 end.
  { destruct Hk2; by split. }
  destruct (nextblock_ok _ [] st3 Hk3) as (st4 & E4 & Hr4 & _ & Hf4 & _).
  rewrite E4, bind_lift_Some. do 2 eexists. split; [reflexivity|]. split.
  { destruct Hf2, Hf4. by split; cbn in *; congruence. }
  split; [|done]. left. split; [done|]. split; [lia|]. split; [done|].
  split; [|destruct Hf4; cbn in *; by split].
  change (st_block_counter st3) with 0 in Hr4. unfold construct, stir.
  assert (zlen (seed_bytes er) = er_buflen er) as -> by (unfold seed_bytes; apply zlen_slice; lia).
  assert (slice (seed_bytes er) 0 sb = k0) as ->; [|exact Hr4].
  unfold seed_bytes. rewrite slice_slice by lia. by rewrite Z.add_0_l.
Qed.

Lemma reseed_frame_ok addr st (s : process W) :
  seedable st ->
  exists er st' buf s', reseed_frame addr st s = Ret (er_err er, st', buf, s') /\
    same_process s s' /\ seed_frame st st' /\ reseeded (st_entropy_config st) er st st' /\
    (er_err er = 0 -> buf = splice (er_bytes er) 0 (zeros (er_buflen er))).
Proof.
  intros Hs. destruct (seed_entropy_ok (st_entropy_config st) (st_entropy_state st) s)
    as (er & s1 & E & Hp & _). destruct (reseed_frame_run addr st s s1 er Hs E) as (st' & buf & H).
  exists er, st', buf, s1. tauto.
Qed.

(** [ottery_st_reseed], with its error code. *)
Lemma reseed_run addr st (s s1 : process W) er :
  seedable st ->
  ottery_get_entropy_ (Some (st_entropy_config st)) (Some (st_entropy_state st)) 0
    (zeros (ottery_get_entropy_bufsize_ sb)) sb (ottery_get_entropy_bufsize_ sb) s = Ret (er, s1) ->
  exists st', ottery_st_reseed addr st s = Ret (er_err er, st', s1) /\ seed_frame st st' /\
    reseeded (st_entropy_config st) er st st'.
Proof.
  intros Hs E. destruct (reseed_frame_run addr st s s1 er Hs E) as (st' & buf & E' & Hf & H & _).
  exists st'. unfold ottery_st_reseed. by rewrite (bind_Ret _ _ _ _ _ E').
Qed.

Lemma reseed_ok addr st (s : process W) :
  seedable st ->
  exists err st' s', ottery_st_reseed addr st s = Ret (err, st', s') /\
    same_process s s' /\ seed_frame st st' /\
    ((err = 0 /\ exists er used,
        entropy_success (Some (st_entropy_config st)) 0 sb
          (ottery_get_entropy_bufsize_ sb) er used /\
        rep st' (construct sb ol PRF (seed_bytes er)) /\
        st_entropy_src_flags st' = er_flags_out er /\
        st_last_entropy_flags st' = er_flags_out er) \/
     ((err = OTTERY_ERR_INIT_STRONG_RNG \/ err = OTTERY_ERR_ACCESS_STRONG_RNG) /\
      st_buffer st' = st_buffer st /\ st_state st' = st_state st /\
      st_block_counter st' = st_block_counter st /\ st_pos st' = st_pos st)).
Proof.
  intros Hs. destruct (seed_entropy_ok (st_entropy_config st) (st_entropy_state st) s)
    as (er & s1 & E & Hp & _). destruct (reseed_run addr st s s1 er Hs E) as (st' & E' & Hf & H).
  exists (er_err er), st', s1. split; [done|]. split; [done|]. split; [done|].
  destruct H as [(He & _ & (used & Hu) & H)|H]; [left; eauto|by right].
Qed.

(** ** Checks *)

(** A state the checks accept: it represents [a], and its magic number and pid
    are right (where the build checks them). *)
Record checked (addr : Z) (st : ottery_state) (a : prng) (s : process W) : Prop := mk_checked {
  ck_rep : rep st a;
  ck_magic : OTTERY_NO_INIT_CHECK = true \/ st_magic st = MAGIC addr;
  ck_pid : no_pid_check = true \/ st_pid st = os_getpid (world s);
}.

(** Its lock is free, too. *)
Record ready (addr : Z) (st : ottery_state) (a : prng) (s : process W) : Prop := mk_ready {
  rd_checked : checked addr st a s;
  rd_lock : lock_ready st;
}.

Lemma checked_set_mutex addr l st a (s : process W) :
  checked addr st a s -> checked addr (set_mutex l st) a s.
Proof. intros [Hr ??]. split; [by apply rep_set_mutex|done..]. Qed.

Lemma check_init_ok addr st (s : process W) :
  OTTERY_NO_INIT_CHECK = true \/ st_magic st = MAGIC addr ->
  ottery_st_rand_check_init addr st s = Ret (true, s).
Proof.
  intros H. unfold ottery_st_rand_check_init.
  destruct H as [-> | ->]; [done|]. by rewrite Z.eqb_refl, andb_false_r.
Qed.

Lemma check_pid_ok addr st (s : process W) :
  no_pid_check = true \/ st_pid st = os_getpid (world s) ->
  ottery_st_rand_check_pid addr st s = Ret (true, st, s).
Proof.
  intros H. unfold ottery_st_rand_check_pid, getpid. destruct no_pid_check; [done|].
  rewrite bind_gets. destruct H as [? | ->]; [done|]. by rewrite Z.eqb_refl.
Qed.

Lemma lock_and_check_ok addr st a (s : process W) :
  ready addr st a s ->
  ottery_st_rand_lock_and_check addr st s = Ret (true, set_mutex (held (st_mutex st)) st, s).
Proof.
  intros [[Hr Hm Hp] Hl]. unfold ottery_st_rand_lock_and_check.
  rewrite (bind_Ret _ _ _ _ _ (check_init_ok addr st s Hm)). cbn [negb].
  rewrite (bind_Ret _ _ _ _ _ (LOCK_ok st s Hl)).
  rewrite (bind_Ret _ _ _ _ _ (check_pid_ok addr (set_mutex (held (st_mutex st)) st) s Hp)).
  reflexivity.
Qed.

Lemma check_nolock_ok addr st a (s : process W) :
  checked addr st a s -> ottery_st_rand_check_nolock addr st s = Ret (true, st, s).
Proof.
  intros [Hr Hm Hp]. unfold ottery_st_rand_check_nolock.
  rewrite (bind_Ret _ _ _ _ _ (check_init_ok addr st s Hm)). cbn [negb].
  by apply check_pid_ok.
Qed.

(** A core operation between [LOCK] and [UNLOCK]. *)
Lemma unlocked_ok st st1 a1 (s : process W) :
  lock_ready st -> same_frame (set_mutex (held (st_mutex st)) st) st1 -> rep st1 a1 ->
  exists st', UNLOCK st1 s = Ret (st', s) /\ rep st' a1 /\ same_frame st st'.
Proof.
  intros Hl Hf Hr. exists (set_mutex (st_mutex st) st1).
  rewrite (UNLOCK_ok st st1 s Hl) by apply Hf. split; [done|]. split; [by apply rep_set_mutex|].
  destruct Hf. by split.
Qed.

(** ** Bytes and integers *)

Lemma api_rand_bytes_ok addr st a out off n (s : process W) :
  ready addr st a s -> 0 <= off -> 0 <= n < 2 ^ 63 -> off + n <= zlen out ->
  exists st', ottery_st_rand_bytes addr st out off n s =
      Ret (st', splice out off (fst (get_bytes sb ol PRF n a)), s) /\
    rep st' (snd (get_bytes sb ol PRF n a)) /\ same_frame st st'.
Proof.
  intros Hd Ho Hn Hout. unfold ottery_st_rand_bytes.
  rewrite (bind_Ret _ _ _ _ _ (lock_and_check_ok addr st a s Hd)). cbn [negb].
  destruct (rand_bytes_impl_ok (set_mutex (held (st_mutex st)) st) a out off n
    (rep_set_mutex _ _ _ (ck_rep _ _ _ _ (rd_checked _ _ _ _ Hd))) Ho Hn Hout) as (st1 & E1 & Hr1 & Hf1 & _).
  rewrite E1, bind_lift_Some.
  destruct (unlocked_ok st st1 _ s (rd_lock _ _ _ _ Hd) Hf1 Hr1) as (st' & E' & Hr' & Hf').
  rewrite (bind_Ret _ _ _ _ _ E'). by exists st'.
Qed.

Lemma api_rand_bytes_nolock_ok addr st a out off n (s : process W) :
  checked addr st a s -> 0 <= off -> 0 <= n < 2 ^ 63 -> off + n <= zlen out ->
  exists st', ottery_st_rand_bytes_nolock addr st out off n s =
      Ret (st', splice out off (fst (get_bytes sb ol PRF n a)), s) /\
    rep st' (snd (get_bytes sb ol PRF n a)) /\ same_frame st st'.
Proof.
  intros Hd Ho Hn Hout. unfold ottery_st_rand_bytes_nolock.
  rewrite (bind_Ret _ _ _ _ _ (check_nolock_ok addr st a s Hd)). cbn [negb].
  destruct (rand_bytes_impl_ok st a out off n (ck_rep _ _ _ _ Hd) Ho Hn Hout)
    as (st1 & E1 & Hr1 & Hf1 & _).
  rewrite E1. by exists st1.
Qed.

Lemma api_rand_int_ok addr st a size (s : process W) :
  ready addr st a s -> 1 <= size <= 8 ->
  exists st', OTTERY_RETURN_RAND_INTTYPE addr st size s =
      Ret (le_decode (fst (tiny sb ol PRF size a)), st', s) /\
    rep st' (snd (tiny sb ol PRF size a)) /\ same_frame st st'.
Proof.
  intros Hd Hs. unfold OTTERY_RETURN_RAND_INTTYPE.
  rewrite (bind_Ret _ _ _ _ _ (lock_and_check_ok addr st a s Hd)). cbn [negb].
  destruct (rand_inttype_ok (set_mutex (held (st_mutex st)) st) a size
    (rep_set_mutex _ _ _ (ck_rep _ _ _ _ (rd_checked _ _ _ _ Hd))) Hs) as (st1 & E1 & Hr1 & Hf1 & _).
  rewrite E1, bind_lift_Some.
  destruct (unlocked_ok st st1 _ s (rd_lock _ _ _ _ Hd) Hf1 Hr1) as (st' & E' & Hr' & Hf').
  rewrite (bind_Ret _ _ _ _ _ E'). by exists st'.
Qed.

Lemma api_rand_int_nolock_ok addr st a size (s : process W) :
  checked addr st a s -> 1 <= size <= 8 ->
  exists st', OTTERY_RETURN_RAND_INTTYPE_NOLOCK addr st size s =
      Ret (le_decode (fst (tiny sb ol PRF size a)), st', s) /\
    rep st' (snd (tiny sb ol PRF size a)) /\ same_frame st st'.
Proof.
  intros Hd Hs. unfold OTTERY_RETURN_RAND_INTTYPE_NOLOCK.
  rewrite (bind_Ret _ _ _ _ _ (check_nolock_ok addr st a s Hd)). cbn [negb].
  destruct (rand_inttype_ok st a size (ck_rep _ _ _ _ Hd) Hs) as (st1 & E1 & Hr1 & Hf1 & _).
  rewrite E1. by exists st1.
Qed.

Lemma checked_frame addr st st' a a' (s : process W) :
  checked addr st a s -> same_frame st st' -> rep st' a' -> checked addr st' a' s.
Proof. intros [Hr Hm Hp] [] Hr'. split; [done|congruence|congruence]. Qed.

(** ** Ranges *)

Lemma rand_range_loop_ok fuel addr st a size divisor upper (s : process W) :
  checked addr st a s -> 1 <= size <= 8 ->
  match range sb ol PRF fuel size divisor upper a with
  | Some (n, a') => exists st', rand_range_loop fuel addr st size divisor upper s = Ret (n, st', s) /\
      rep st' a' /\ same_frame st st'
  | None => rand_range_loop fuel addr st size divisor upper s = NoFuel
  end.
Proof.
  intros Hd Hs. revert st a Hd. induction fuel as [|fuel IH]; intros st a Hd; [done|].
  cbn [range rand_range_loop].
  destruct (api_rand_int_nolock_ok addr st a size s Hd Hs) as (st1 & E1 & Hr1 & Hf1).
  rewrite (bind_Ret _ _ _ _ _ E1).
  destruct (tiny sb ol PRF size a) as [bs a1]. cbn [fst snd] in *.
  destruct (upper <? _).
  - pose proof (checked_frame _ _ _ _ _ _ Hd Hf1 Hr1) as Hd1. specialize (IH st1 a1 Hd1).
    destruct (range _ _ _ _ _ _ _ _) as [[n a']|]; [|done].
    destruct IH as (st' & E & Hr & Hf). exists st'. split; [done|]. split; [done|]. by transitivity st1.
  - by exists st1.
Qed.

(** The locked range functions, for either width. *)
Lemma api_rand_range_ok fuel addr st a size divisor upper (s : process W) :
  ready addr st a s -> 1 <= size <= 8 ->
  let m := do ok <- ottery_st_rand_check_init addr st;
     if negb ok then ret (0, st)
     else
       do st <- LOCK st;
       do '(n, st) <- rand_range_loop fuel addr st size divisor upper;
       do st <- UNLOCK st;
       ret (n, st) in
  match range sb ol PRF fuel size divisor upper a with
  | Some (n, a') => exists st', m s = Ret (n, st', s) /\ rep st' a' /\ same_frame st st'
  | None => m s = NoFuel
  end.
Proof.
  intros Hd Hs m. pose proof Hd as [Hc Hl]. subst m.
  rewrite (bind_Ret _ _ _ _ _ (check_init_ok addr st s (ck_magic _ _ _ _ Hc))). cbn [negb].
  rewrite (bind_Ret _ _ _ _ _ (LOCK_ok st s Hl)).
  pose proof (rand_range_loop_ok fuel addr _ a size divisor upper s
    (checked_set_mutex addr (held (st_mutex st)) st a s Hc) Hs) as H.
  destruct (range _ _ _ _ _ _ _ _) as [[n a']|]; [|unfold bind at 1; by rewrite H].
  destruct H as (st1 & E & Hr1 & Hf1). rewrite (bind_Ret _ _ _ _ _ E).
  destruct (unlocked_ok st st1 a' s Hl Hf1 Hr1) as (st' & E' & Hr' & Hf').
  exists st'. by rewrite (bind_Ret _ _ _ _ _ E').
Qed.

(** [ottery_st_prevent_backtracking] changes nothing the generator depends on. *)
Lemma api_prevent_ok addr st a (s : process W) :
  ready addr st a s ->
  exists st', ottery_st_prevent_backtracking st s = Ret (st', s) /\ rep st' a /\ same_frame st st'.
Proof.
  intros [Hc Hl]. unfold ottery_st_prevent_backtracking.
  rewrite (bind_Ret _ _ _ _ _ (LOCK_ok st s Hl)).
  destruct (prevent_ok (set_mutex (held (st_mutex st)) st) a (rep_set_mutex _ _ _ (ck_rep _ _ _ _ Hc)))
    as (st1 & E1 & Hr1 & Hf1 & _).
  rewrite E1, bind_lift_Some. by apply unlocked_ok.
Qed.

(** What a call keeps: the generator answers again. *)
Lemma ready_frame addr st st' a a' (s : process W) :
  ready addr st a s -> same_frame st st' -> rep st' a' -> ready addr st' a' s.
Proof.
  intros [Hc Hl] Hf Hr. split; [by eapply checked_frame|].
  destruct Hf, Hl; [by left|right; congruence].
Qed.

Lemma checked_seed_frame addr st st' a a' (s : process W) :
  checked addr st a s -> seed_frame st st' -> rep st' a' -> checked addr st' a' s.
Proof.
  intros [_ Hm Hp] [] Hr. split; [done|..].
  - destruct Hm; [by left|right; congruence].
  - destruct Hp; [by left|right; congruence].
Qed.

Lemma ready_seed_frame addr st st' a a' (s : process W) :
  ready addr st a s -> seed_frame st st' -> rep st' a' -> ready addr st' a' s.
Proof.
  intros [Hc Hl] Hf Hr. split; [by eapply checked_seed_frame|].
  destruct Hf, Hl; [by left|right; congruence].
Qed.

(** ** After a fork *)

Lemma check_pid_fork addr st (s : process W) :
  seedable st -> no_pid_check = false -> st_pid st <> os_getpid (world s) ->
  (exists er used st' s', ottery_st_rand_check_pid addr st s = Ret (true, st', s') /\
     same_process s s' /\
     entropy_success (Some (st_entropy_config st)) 0 sb (ottery_get_entropy_bufsize_ sb) er used /\
     rep st' (construct sb ol PRF (seed_bytes er)) /\
     st_pid st' = os_getpid (world s') /\ st_magic st' = st_magic st /\
     st_mutex st' = st_mutex st /\ st_prf st' = st_prf st) \/
  (exists err st' s', (err = OTTERY_ERR_INIT_STRONG_RNG \/ err = OTTERY_ERR_ACCESS_STRONG_RNG) /\
     ottery_st_rand_check_pid addr st s =
       match ottery_fatal_handler s with
       | Some h => Ret (false, st', set_world
           (h (Z.lor OTTERY_ERR_FLAG_POSTFORK_RESEED err) (world s')) s')
       | None => Aborted
       end /\ same_process s s' /\ seed_frame st st').
Proof.
  intros Hsd Hb Hpid. unfold ottery_st_rand_check_pid, getpid. rewrite Hb, bind_gets.
  rewrite (proj2 (Z.eqb_neq _ _) Hpid). cbn [negb].
  destruct (reseed_ok addr st s Hsd) as (err & st1 & s1 & E & Hp & Hf & [H|H]);
    rewrite (bind_Ret _ _ _ _ _ E).
  - destruct H as (-> & er & used & Hok & Hr & _). left. exists er, used. cbn [negb Z.eqb].
    rewrite bind_gets. do 2 eexists. split; [reflexivity|]. destruct Hf.
    split_and!; try done. by destruct Hr as [[] ???].
  - destruct H as [He _]. right. exists err, st1, s1. split; [done|].
    split; [|done]. assert (negb (err =? 0) = true) as -> by (destruct He as [-> | ->]; done).
    unfold ottery_fatal_error_, bind. rewrite (sp_handler _ _ Hp).
    by destruct (ottery_fatal_handler s).
Qed.

(** ** Adding seed *)

Lemma add_seed_locked_ok locking st a seed n fl (s : process W) :
  rep st a -> (locking = true -> lock_ready st) -> 0 <= n <= zlen seed ->
  exists st', add_seed_locked locking st seed n fl s = Ret (0, st', s) /\
    rep st' (add sb ol PRF (slice seed 0 n) (mk_prng (K a) [])) /\ seed_frame st st' /\
    st_entropy_src_flags st' = Z.lor (st_entropy_src_flags st) fl /\
    st_last_entropy_flags st' = fl.
Proof.
  intros Hr Hl Hn. unfold add_seed_locked.
  set (st0 := if locking then set_mutex (held (st_mutex st)) st else st).
  assert ((if locking then LOCK st else ret st : M W ottery_state) s = Ret (st0, s)) as E0.
  { unfold st0. destruct locking; [apply LOCK_ok; auto|done]. }
  rewrite (bind_Ret _ _ _ _ _ E0).
  assert (rep st0 a) as Hr0 by (unfold st0; destruct locking; [by apply rep_set_mutex|done]).
  destruct (mix_seed_ok st0 a seed n (rep_keyed _ _ Hr0) (rep_ctr _ _ Hr0) Hn)
    as (st1 & E1 & Hr1 & Hf1). rewrite E1, bind_lift_Some. cbv zeta.
  set (st2 := set_last_entropy_flags fl _).
  assert (rep st2 (add sb ol PRF (slice seed 0 n) (mk_prng (K a) []))) as Hr2
    by (by apply rep_flags).
  assert ((if locking then UNLOCK st2 else ret st2 : M W ottery_state) s =
    Ret (if locking then set_mutex (st_mutex st) st2 else st2, s)) as E2.
  { destruct locking; [|done]. apply UNLOCK_ok; [auto|]. cbn. by destruct Hf1. }
  rewrite (bind_Ret _ _ _ _ _ E2). eexists. split; [reflexivity|].
  destruct Hf1. unfold st2, st0 in *.
  destruct locking; cbn in *; (split; [by first [apply rep_set_mutex | idtac]|]);
    (split; [by split; cbn; congruence|]); split; congruence || done.
Qed.

Lemma add_seed_bad_magic addr st seed n locking (s : process W) :
  OTTERY_NO_INIT_CHECK = false -> st_magic st <> MAGIC addr ->
  ottery_st_add_seed_impl addr st seed n locking true s =
  (do_ ottery_fatal_error_ OTTERY_ERR_STATE_INIT; ret (OTTERY_ERR_STATE_INIT, st)) s.
Proof.
  intros Hb Hm. unfold ottery_st_add_seed_impl, add_seed_frame.
  rewrite Hb, (proj2 (Z.eqb_neq _ _) Hm). cbn [negb andb]. rewrite bind_assoc.
  unfold bind. by destruct (ottery_fatal_error_ _ s) as [[]| | |].
Qed.

Lemma seed_magic_ok addr st check :
  OTTERY_NO_INIT_CHECK = true \/ st_magic st = MAGIC addr ->
  negb OTTERY_NO_INIT_CHECK && (check && negb (st_magic st =? MAGIC addr)) = false.
Proof. intros [-> | ->]; [done|]. rewrite Z.eqb_refl. by rewrite !andb_false_r. Qed.

Lemma api_add_seed_ok addr st a seed n locking check (s : process W) :
  rep st a -> (locking = true -> lock_ready st) -> OTTERY_NO_INIT_CHECK = true \/ st_magic st = MAGIC addr ->
  0 < n <= zlen seed ->
  exists st', ottery_st_add_seed_impl addr st (Some seed) n locking check s = Ret (0, st', s) /\
    rep st' (add sb ol PRF (slice seed 0 n) (mk_prng (K a) [])) /\ seed_frame st st' /\
    st_entropy_src_flags st' = st_entropy_src_flags st /\ st_last_entropy_flags st' = 0.
Proof.
  intros Hr Hl Hm Hn. unfold ottery_st_add_seed_impl, add_seed_frame.
  rewrite (seed_magic_ok addr st check Hm).
  unfold add_seed_input. rewrite (proj2 (Z.eqb_neq n 0)), bind_assoc, bind_ret by lia.
  destruct (add_seed_locked_ok locking st a seed n 0 s Hr Hl) as (st' & E & Hr' & Hf & Hs & Hla);
    [lia|]. rewrite bind_assoc, (bind_Ret _ _ _ _ _ E). exists st'. rewrite Z.lor_0_r in Hs.
  by split.
Qed.

(** With a null or empty seed, the bytes come from the entropy sources, of which one
    run is given; [buf] is the stack buffer they were put in. *)
Lemma add_seed_frame_os_run addr st a seed n locking check (s s1 : process W) er :
  rep st a -> (locking = true -> lock_ready st) -> OTTERY_NO_INIT_CHECK = true \/ st_magic st = MAGIC addr ->
  n = 0 \/ seed = None ->
  ottery_get_entropy_ (Some (st_entropy_config st)) (Some (st_entropy_state st)) 0
    (zeros (ottery_get_entropy_bufsize_ sb)) sb (ottery_get_entropy_bufsize_ sb) s = Ret (er, s1) ->
  exists st' buf, add_seed_frame addr st seed n locking check s = Ret (er_err er, st', buf, s1) /\
    seed_frame st st' /\
    ((er_err er = 0 /\ buf = splice (er_bytes er) 0 (zeros (zlen (er_bytes er))) /\ (exists used,
        entropy_success (Some (st_entropy_config st)) 0 sb (ottery_get_entropy_bufsize_ sb) er used) /\
        rep st' (add sb ol PRF (seed_bytes er) (mk_prng (K a) [])) /\
        st_entropy_src_flags st' = Z.lor (st_entropy_src_flags st) (er_flags_out er) /\
        st_last_entropy_flags st' = er_flags_out er) \/
     ((er_err er = OTTERY_ERR_INIT_STRONG_RNG \/ er_err er = OTTERY_ERR_ACCESS_STRONG_RNG) /\ rep st' a)).
Proof.
  intros Hr Hl Hm Hn E. unfold add_seed_frame. pose proof sizes_facts as Hsz.
  rewrite (seed_magic_ok addr st check Hm). unfold add_seed_input.
  replace (if n =? 0 then None else seed) with (@None (list byte))
    by (destruct Hn as [-> | ->]; [done|by destruct (n =? 0)]).
  rewrite (keyed_prf _ _ (rep_keyed _ _ Hr)). cbv zeta. rewrite bind_assoc, (bind_Ret _ _ _ _ _ E).
  destruct (seed_entropy_ok (st_entropy_config st) (st_entropy_state st) s) as (er' & s' & E' & _ & Hbuf & _).
  rewrite E in E'. injection E' as <- <-.
  destruct (seed_entropy_run _ _ _ _ _ E) as (_ & [(He & Hbl & Hok)|Hf]).
  - rewrite He, (proj2 (Z.ltb_ge _ sb)) by lia. cbn [negb Z.eqb]. rewrite bind_ret.
    set (st1 := set_entropy_state _ st).
    assert (rep st1 a) as Hr1 by (by destruct Hr as [[] ???]).
    destruct (add_seed_locked_ok locking st1 a (er_bytes er) (er_buflen er) (er_flags_out er) s1
      Hr1 Hl) as (st' & E' & Hr' & Hf & Hs & Hla); [lia|].
    rewrite (bind_Ret _ _ _ _ _ E'). cbn [clear_tmp_seed].
    pose proof (zlen_nonneg (er_bytes er)).
    rewrite memclear_ok, bind_lift_Some by lia.
    do 2 eexists. split; [reflexivity|]. split; [by destruct Hf|].
    left. split; [done|]. split; [by rewrite <-Hbuf|]. by split.
  - destruct (ef_err _ _ Hf) as [He|He]; rewrite He; do 2 eexists;
      (split; [reflexivity|]); (split; [by split|]); right;
      (split; [tauto|]); by destruct Hr as [[] ???].
Qed.

Lemma add_seed_frame_os_ok addr st a seed n locking check (s : process W) :
  rep st a -> (locking = true -> lock_ready st) -> OTTERY_NO_INIT_CHECK = true \/ st_magic st = MAGIC addr ->
  n = 0 \/ seed = None ->
  exists err st' buf s', add_seed_frame addr st seed n locking check s = Ret (err, st', buf, s') /\
    same_process s s' /\ seed_frame st st' /\
    ((err = 0 /\ exists er used,
        buf = zeros (zlen (er_bytes er)) /\
        entropy_success (Some (st_entropy_config st)) 0 sb (ottery_get_entropy_bufsize_ sb) er used /\
        rep st' (add sb ol PRF (seed_bytes er) (mk_prng (K a) [])) /\
        st_entropy_src_flags st' = Z.lor (st_entropy_src_flags st) (er_flags_out er) /\
        st_last_entropy_flags st' = er_flags_out er) \/
     ((err = OTTERY_ERR_INIT_STRONG_RNG \/ err = OTTERY_ERR_ACCESS_STRONG_RNG) /\ rep st' a)).
Proof.
  intros Hr Hl Hm Hn.
  destruct (seed_entropy_ok (st_entropy_config st) (st_entropy_state st) s) as (er & s1 & E & Hp & _).
  destruct (add_seed_frame_os_run addr st a seed n locking check s s1 er Hr Hl Hm Hn E)
    as (st' & buf & E' & Hf & H). exists (er_err er), st', buf, s1. split; [done|]. split; [done|]. split; [done|].
  destruct H as [(He & Hb & (used & Hu) & H)|H]; [left|by right]. split; [done|]. exists er, used.
  split; [|done]. rewrite Hb. apply splice_all, zlen_zeros, zlen_nonneg.
Qed.

(** The same of the function itself. *)
Lemma api_add_seed_os_run addr st a seed n locking check (s : process W) :
  rep st a -> (locking = true -> lock_ready st) -> OTTERY_NO_INIT_CHECK = true \/ st_magic st = MAGIC addr ->
  n = 0 \/ seed = None ->
  exists er s', ottery_get_entropy_ (Some (st_entropy_config st)) (Some (st_entropy_state st)) 0
      (zeros (ottery_get_entropy_bufsize_ sb)) sb (ottery_get_entropy_bufsize_ sb) s = Ret (er, s') /\
  exists st', ottery_st_add_seed_impl addr st seed n locking check s = Ret (er_err er, st', s') /\
    same_process s s' /\ seed_frame st st' /\
    ((er_err er = 0 /\ (exists used,
        entropy_success (Some (st_entropy_config st)) 0 sb (ottery_get_entropy_bufsize_ sb) er used) /\
        rep st' (add sb ol PRF (seed_bytes er) (mk_prng (K a) [])) /\
        st_entropy_src_flags st' = Z.lor (st_entropy_src_flags st) (er_flags_out er) /\
        st_last_entropy_flags st' = er_flags_out er) \/
     ((er_err er = OTTERY_ERR_INIT_STRONG_RNG \/ er_err er = OTTERY_ERR_ACCESS_STRONG_RNG) /\ rep st' a)).
Proof.
  intros Hr Hl Hm Hn.
  destruct (seed_entropy_ok (st_entropy_config st) (st_entropy_state st) s) as (er & s1 & E & Hp & _).
  destruct (add_seed_frame_os_run addr st a seed n locking check s s1 er Hr Hl Hm Hn E)
    as (st' & buf & E' & Hf & H). exists er, s1. split; [done|]. exists st'. unfold ottery_st_add_seed_impl.
  rewrite (bind_Ret _ _ _ _ _ E'). split; [done|]. split; [done|]. split; [done|].
  destruct H as [(He & _ & H)|H]; [by left|by right].
Qed.

Lemma api_add_seed_os_ok addr st a seed n locking check (s : process W) :
  rep st a -> (locking = true -> lock_ready st) -> OTTERY_NO_INIT_CHECK = true \/ st_magic st = MAGIC addr ->
  n = 0 \/ seed = None ->
  exists err st' s', ottery_st_add_seed_impl addr st seed n locking check s = Ret (err, st', s') /\
    same_process s s' /\ seed_frame st st' /\
    ((err = 0 /\ exists er used,
        entropy_success (Some (st_entropy_config st)) 0 sb (ottery_get_entropy_bufsize_ sb) er used /\
        rep st' (add sb ol PRF (seed_bytes er) (mk_prng (K a) [])) /\
        st_entropy_src_flags st' = Z.lor (st_entropy_src_flags st) (er_flags_out er) /\
        st_last_entropy_flags st' = er_flags_out er) \/
     ((err = OTTERY_ERR_INIT_STRONG_RNG \/ err = OTTERY_ERR_ACCESS_STRONG_RNG) /\ rep st' a)).
Proof.
  intros Hr Hl Hm Hn.
  destruct (api_add_seed_os_run addr st a seed n locking check s Hr Hl Hm Hn) as (er & s' & _ & st' & E & Hp & Hf & H).
  exists (er_err er), st', s'. split; [done|]. split; [done|]. split; [done|].
  destruct H as [(He & (used & Hu) & H)|H]; [left; eauto|by right].
Qed.
End ApiRefine.

(** ** Initialization *)

Section Init.
Context {W : Type} {OS0 : OS W} {BC : BuildConfig} {PL : Platform} {OL : OSLaws OS0}.

(** A PRF that implements the interface, at sizes the generator can use. *)
Definition prf_good (q : ottery_prf) : Prop := exists _ : PrfSpec q, PrfSizes q.

Lemma prf_good_intro q (PS : PrfSpec q) (PZ : PrfSizes q) : prf_good q.
Proof. by exists PS. Qed.

(** Every PRF of the table is good. *)
Lemma ALL_PRFS_ok : Forall prf_good ALL_PRFS.
Proof.
  assert (forall a b c, prf_good a -> prf_good b -> prf_good c -> Forall prf_good [a; b; c])
    as H3 by (intros; repeat apply Forall_cons_2; [done..|apply Forall_nil_2]).
  unfold ALL_PRFS. rewrite !Forall_app. split; [|split].
  - destruct HAVE_SIMD_CHACHA_2 as [t|]; [|apply Forall_nil_2].
    exact (H3 _ _ _ (prf_good_intro _ (krovetz20_spec t) (krovetz20_sizes t))
      (prf_good_intro _ (krovetz12_spec t) (krovetz12_sizes t))
      (prf_good_intro _ (krovetz8_spec t) (krovetz8_sizes t))).
  - destruct HAVE_SIMD_CHACHA as [t|]; [|apply Forall_nil_2].
    exact (H3 _ _ _ (prf_good_intro _ (krovetz20_spec t) (krovetz20_sizes t))
      (prf_good_intro _ (krovetz12_spec t) (krovetz12_sizes t))
      (prf_good_intro _ (krovetz8_spec t) (krovetz8_sizes t))).
  - exact (H3 _ _ _ (prf_good_intro _ merged20_spec merged20_sizes)
      (prf_good_intro _ merged12_spec merged12_sizes)
      (prf_good_intro _ merged8_spec merged8_sizes)).
Qed.

Lemma get_impl_loop_in i cap prfs q :
  get_impl_loop i cap prfs = Some q ->
  In q prfs /\ Z.land (required_cpucap q) cap = required_cpucap q /\
  match i with None => True | Some s => s = name q \/ s = impl q \/ s = flav q end.
Proof.
  induction prfs as [|r prfs IH]; [done|]. cbn [get_impl_loop].
  destruct (Z.eqb_spec (Z.land (required_cpucap r) cap) (required_cpucap r)) as [Hc|]; cbn [negb].
  2:{ intros H. destruct (IH H) as (? & ? & ?). split; [by right|done]. }
  destruct i as [s|]; [|intros [= <-]; split; [by left|done]].
  destruct (String.eqb_spec s (name r)); [intros [= <-]; split; [by left|]; by auto|].
  destruct (String.eqb_spec s (impl r)); [intros [= <-]; split; [by left|]; by auto|].
  destruct (String.eqb_spec s (flav r)); [intros [= <-]; split; [by left|]; by auto|].
  intros H. destruct (IH H) as (? & ? & ?). split; [by right|done].
Qed.

(** The portable PRFs need no capability, so there is always a default. *)
Lemma get_impl_default cap : exists q, get_impl_loop None cap ALL_PRFS = Some q.
Proof.
  unfold ALL_PRFS. rewrite app_assoc.
  generalize (match HAVE_SIMD_CHACHA_2 with
    | Some t => [ottery_prf_chacha20_krovetz_ t; ottery_prf_chacha12_krovetz_ t;
                 ottery_prf_chacha8_krovetz_ t] | None => [] end ++
    match HAVE_SIMD_CHACHA with
    | Some t => [ottery_prf_chacha20_krovetz_ t; ottery_prf_chacha12_krovetz_ t;
                 ottery_prf_chacha8_krovetz_ t] | None => [] end).
  intros l. induction l as [|r l IH]; [by eexists|].
  cbn [app get_impl_loop]. destruct (negb _); [done|by eexists].
Qed.

Lemma INIT_LOCK_ok (s : process W) :
  exists failed l s', INIT_LOCK LockUninit s = Ret (failed, l, s') /\ same_process s s' /\
    l <> LockHeld /\ (failed = false -> lock_impl = NO_LOCKS \/ l = LockFree).
Proof.
  unfold INIT_LOCK. destruct lock_impl.
  - rewrite bind_sys. destruct (os_pthread_mutex_init (world s)) as [r w]. cbn [fst snd].
    do 3 eexists. split; [reflexivity|]. split; [auto with ottery|].
    destruct (r =? 0); (split; [done|]); [by right|done].
  - rewrite bind_sys. destruct (os_InitializeCriticalSection (world s)) as [r w]. cbn [fst snd].
    do 3 eexists. split; [reflexivity|]. split; [auto with ottery|].
    destruct (r =? 0); (split; [done|]); [done|by right].
  - do 3 eexists. split; [reflexivity|]. split; [done|]. split; [done|by right].
  - do 3 eexists. split; [reflexivity|]. split; [done|]. split; [done|by left].
Qed.

(** The PRF that initialization uses. *)
Definition resolve_prf (config : option ottery_config) (s : process W) : option ottery_prf :=
  match cfg_impl (default ottery_config_init config) with
  | Some q => Some q
  | None => get_impl_loop None
      (Z.ldiff (cpu_capabilities (world s)) (disabled_cpu_capabilities s)) ALL_PRFS
  end.

(** A configuration whose PRF, if it names one, is a good one. *)
Definition config_good (config : option ottery_config) : Prop :=
  match cfg_impl (default ottery_config_init config) with Some q => prf_good q | None => True end.

(** Initialization finds a good PRF. *)
Lemma resolve_ok config (s : process W) :
  config_good config -> exists q, resolve_prf config s = Some q /\ prf_good q.
Proof.
  unfold config_good, resolve_prf. destruct (cfg_impl _) as [q|]; [by exists q|]. intros _.
  destruct (get_impl_default (Z.ldiff (cpu_capabilities (world s))
    (disabled_cpu_capabilities s))) as [q E]. exists q. split; [done|].
  apply get_impl_loop_in in E as (Hin & _ & _).
  pose proof ALL_PRFS_ok as H. rewrite Forall_forall in H. by apply H, list_elem_of_In.
Qed.

(** A failed initialization: the state is untouched or has no magic number. *)
Definition init_failed (addr err : Z) (st st' : ottery_state) : Prop :=
  err <> 0 /\ OTTERY_ERR_IS_FATAL err = false /\
  ((err = OTTERY_ERR_STATE_ALIGNMENT /\ Z.land addr 0xf <> 0 /\ st' = st) \/
   (Z.land addr 0xf = 0 /\ st_magic st' = 0)).

Lemma init_prf_ok config (s : process W) q :
  resolve_prf config s = Some q ->
  (match cfg_impl (default ottery_config_init config) with
   | Some prf => ret (Some prf)
   | None => ottery_get_impl None
   end : M W (option ottery_prf)) s = Ret (Some q, s).
Proof.
  unfold resolve_prf. destruct (cfg_impl _); [by intros ->|]. intros Hq.
  unfold ottery_get_impl, ottery_get_cpu_capabilities_. rewrite bind_gets. by rewrite Hq.
Qed.

Lemma init_lock_ok (locked : bool) (s : process W) :
  exists failed l s1, (if locked then INIT_LOCK (st_mutex zero_state)
      else ret (false, st_mutex zero_state) : M W (bool * lock_state)) s = Ret (failed, l, s1) /\
    same_process s s1 /\ l <> LockHeld /\
    (failed = false -> locked = true -> lock_impl = NO_LOCKS \/ l = LockFree).
Proof.
  destruct locked; [|by exists false, LockUninit, s].
  destruct (INIT_LOCK_ok s) as (failed & l & s1 & E & Hp & Hnh & Hl).
  exists failed, l, s1. auto.
Qed.

(** Initialization from the lock on, for a given run of the sources. *)
Lemma initialize_run {q} {PS : PrfSpec q} {PZ : PrfSizes q} addr st config (locked : bool) l er
    (s s1 s2 : process W) :
  resolve_prf config s = Some q -> Z.land addr 0xf = 0 ->
  (OTTERY_STATE_DUMMY_SIZE_ <? sizeof_ottery_state) || (OTTERY_CONFIG_DUMMY_SIZE_ <? sizeof_ottery_config)
    = false ->
  (if locked then INIT_LOCK (st_mutex zero_state)
   else ret (false, st_mutex zero_state) : M W (bool * lock_state)) s = Ret (false, l, s1) ->
  ottery_get_entropy_ (Some (cfg_entropy (default ottery_config_init config))) (Some (mk_entropy_state 0))
    0 (zeros (ottery_get_entropy_bufsize_ (state_bytes q))) (state_bytes q)
    (ottery_get_entropy_bufsize_ (state_bytes q)) s1 = Ret (er, s2) ->
  exists st', ottery_st_initialize addr st config locked s = Ret (er_err er, st', s2) /\
    same_process s1 s2 /\ st_mutex st' = l /\
    st_entropy_config st' = cfg_entropy (default ottery_config_init config) /\
    ((er_err er = 0 /\ (exists used,
        entropy_success (Some (cfg_entropy (default ottery_config_init config))) 0 (state_bytes q)
          (ottery_get_entropy_bufsize_ (state_bytes q)) er used) /\
        rep (p := q) st' (construct (state_bytes q) (output_len q) (prf_out q) (seed_bytes er)) /\
        st_magic st' = MAGIC addr /\ st_pid st' = os_getpid (world s2) /\
        st_entropy_src_flags st' = er_flags_out er /\ st_last_entropy_flags st' = er_flags_out er) \/
     ((er_err er = OTTERY_ERR_INIT_STRONG_RNG \/ er_err er = OTTERY_ERR_ACCESS_STRONG_RNG) /\
      st_magic st' = 0)).
Proof.
  intros Hq Ha Hsizes E1 Ee. unfold ottery_st_initialize. rewrite Ha. cbn [negb Z.eqb]. cbv zeta.
  rewrite (bind_Ret _ _ _ _ _ (init_prf_ok config s q Hq)), (bind_Ret _ _ _ _ _ E1), bind_lift_Some.
  pose proof (sizes_facts (p := q)) as Hsz. pose proof (sizes_state_len (p := q)) as Hsl.
  unfold MAX_STATE_LEN, MAX_STATE_BYTES, MAX_OUTPUT_LEN in *.
  rewrite !(proj2 (Z.ltb_ge _ _)) by lia. cbn [orb].
  set (st1 := set_prf q _).
  destruct (seed_entropy_run (p := q) _ _ _ _ _ Ee) as (Hp & _).
  destruct (reseed_run (p := q) addr st1 s1 s2 er) as (st2 & E2 & Hf2 & H); [by split|exact Ee|].
  rewrite (bind_Ret _ _ _ _ _ E2). destruct H as [(He & _ & Hu & Hr & Hfl1 & Hfl2)|[He _]].
  - rewrite He. cbn [negb Z.eqb]. unfold getpid. rewrite bind_gets. eexists. split; [reflexivity|].
    split; [done|]. split; [by cbn; rewrite (sf_mutex _ _ Hf2)|].
    split; [by cbn; rewrite (sf_cfg _ _ Hf2)|]. left.
    split_and!; try done. by destruct Hr as [[] ???].
  - assert (negb (er_err er =? 0) = true) as -> by (destruct He as [-> | ->]; done).
    eexists. split; [reflexivity|]. split; [done|]. split; [by rewrite (sf_mutex _ _ Hf2)|].
    split; [by rewrite (sf_cfg _ _ Hf2)|]. right. by rewrite (sf_magic _ _ Hf2).
Qed.

(** The two ways to fail before the sources are called. *)
Lemma initialize_lock_fails addr st config (locked : bool) l (s s1 : process W) q :
  resolve_prf config s = Some q -> Z.land addr 0xf = 0 ->
  (if locked then INIT_LOCK (st_mutex zero_state)
   else ret (false, st_mutex zero_state) : M W (bool * lock_state)) s = Ret (true, l, s1) ->
  exists st', ottery_st_initialize addr st config locked s = Ret (OTTERY_ERR_LOCK_INIT, st', s1) /\
    st_magic st' = 0 /\ st_mutex st' = l.
Proof.
  intros Hq Ha E1. unfold ottery_st_initialize. rewrite Ha. cbn [negb Z.eqb]. cbv zeta.
  rewrite (bind_Ret _ _ _ _ _ (init_prf_ok config s q Hq)), (bind_Ret _ _ _ _ _ E1). by eexists.
Qed.

Lemma initialize_too_large addr st config (locked : bool) l (s s1 : process W) q :
  resolve_prf config s = Some q -> Z.land addr 0xf = 0 ->
  (OTTERY_STATE_DUMMY_SIZE_ <? sizeof_ottery_state) || (OTTERY_CONFIG_DUMMY_SIZE_ <? sizeof_ottery_config) = true ->
  (if locked then INIT_LOCK (st_mutex zero_state)
   else ret (false, st_mutex zero_state) : M W (bool * lock_state)) s = Ret (false, l, s1) ->
  exists st', ottery_st_initialize addr st config locked s = Ret (OTTERY_ERR_INTERNAL, st', s1) /\
    st_magic st' = 0 /\ st_mutex st' = l.
Proof.
  intros Hq Ha Hsizes E1. unfold ottery_st_initialize. rewrite Ha. cbn [negb Z.eqb]. cbv zeta.
  rewrite (bind_Ret _ _ _ _ _ (init_prf_ok config s q Hq)), (bind_Ret _ _ _ _ _ E1).
  rewrite bind_lift_Some, Hsizes. exists (set_mutex l zero_state). split; [|done].
  by match goal with |- (if ?b then _ else _) _ = _ => destruct b end.
Qed.

Lemma initialize_ok {q} {PS : PrfSpec q} {PZ : PrfSizes q} addr st config (locked : bool) (s : process W) :
  resolve_prf config s = Some q ->
  exists err st' s', ottery_st_initialize addr st config locked s = Ret (err, st', s') /\
    same_process s s' /\ (st' = st \/ st_mutex st' <> LockHeld) /\
    ((err = 0 /\ Z.land addr 0xf = 0 /\ exists er used,
        entropy_success (Some (cfg_entropy (default ottery_config_init config))) 0 (state_bytes q)
          (ottery_get_entropy_bufsize_ (state_bytes q)) er used /\
        rep (p := q) st' (construct (state_bytes q) (output_len q) (prf_out q) (seed_bytes er)) /\
        st_magic st' = MAGIC addr /\ st_pid st' = os_getpid (world s') /\
        (locked = true -> lock_ready st') /\
        st_entropy_src_flags st' = er_flags_out er /\ st_last_entropy_flags st' = er_flags_out er) \/
     init_failed addr err st st').
Proof.
  intros Hq. destruct (Z.eqb_spec (Z.land addr 0xf) 0) as [Ha|Ha].
  2:{ unfold ottery_st_initialize. rewrite (proj2 (Z.eqb_neq _ _) Ha). do 3 eexists.
      split; [reflexivity|]. split; [done|]. split; [by left|]. right.
      split; [done|]. split; [done|]. by left. }
  assert (forall err st', err <> 0 -> OTTERY_ERR_IS_FATAL err = false -> st_magic st' = 0 ->
    init_failed addr err st st') as Hfail by (intros; split; [done|]; split; [done|by right]).
  destruct (init_lock_ok locked s) as (failed & l & s1 & E1 & Hp1 & Hnh & Hl).
  destruct failed.
  { destruct (initialize_lock_fails addr st config locked l s s1 q Hq Ha E1) as (st' & -> & Hm & Hmx).
    do 3 eexists. split; [reflexivity|]. split; [done|]. split; [right; by rewrite Hmx|]. right. by apply Hfail. }
  destruct ((OTTERY_STATE_DUMMY_SIZE_ <? sizeof_ottery_state) ||
            (OTTERY_CONFIG_DUMMY_SIZE_ <? sizeof_ottery_config)) eqn:Hsizes.
  { destruct (initialize_too_large addr st config locked l s s1 q Hq Ha Hsizes E1) as (st' & -> & Hm & Hmx).
    do 3 eexists. split; [reflexivity|]. split; [done|]. split; [right; by rewrite Hmx|]. right. by apply Hfail. }
  destruct (seed_entropy_ok (p := q) (cfg_entropy (default ottery_config_init config))
    (mk_entropy_state 0) s1) as (er & s2 & Ee & _).
  destruct (initialize_run (q := q) addr st config locked l er s s1 s2 Hq Ha Hsizes E1 Ee)
    as (st' & E & Hp2 & Hm & _ & H). exists (er_err er), st', s2. split; [done|].
  split; [by transitivity s1|]. split; [right; by rewrite Hm|].
  destruct H as [(He & (used & Hu) & Hr & Hmg & Hpid & Hfl)|[He Hmg]].
  - left. split; [done|]. split; [done|]. exists er, used. split; [done|]. split; [done|].
    split; [done|]. split; [done|]. split; [|done]. intros Hlk. unfold lock_ready. rewrite Hm. by apply Hl.
  - right. apply Hfail; [by destruct He as [-> | ->]|by destruct He as [-> | ->]|done].
Qed.
End Init.
