(* ===== verification/UnixMachine.v ===== *)
(** * A Unix machine

    What the repository's tests take for granted of the machine they run on: its
    random device, its null device, a device that does not exist, and locks that
    can be made. On such a machine the error code of [ottery_get_entropy_], and so
    of initialization and reseeding, is known for the configurations that the
    tests use, with whatever CPU. The laws are to hold in every world; [W] may be
    the type of the worlds that are as they should be. *)
From S2P Require Import Prelude Words Memory Internal Spec Prng Refine.
From S2P Require Import ChaChaRef ChaChaMerged ChaChaKrovetz Os CpuInfo Entropy TestOs Config Api ApiRefine.
Local Open Scope Z_scope.
Local Open Scope ottery_scope.

(** What a name in /dev stands for. *)
Inductive device := Random | Null | Missing.

Class UnixMachine {W : Type} (OS0 : OS W) {PL : Platform} := {
  device_of : string -> device;
  (** The descriptors that are open on a device. *)
  opened : device -> Z -> W -> Prop;
  um_unix : plat_win32 = false;
  um_sizes : sizeof_ottery_state <= OTTERY_STATE_DUMMY_SIZE_ /\
    sizeof_ottery_config <= OTTERY_CONFIG_DUMMY_SIZE_;
  um_urandom : device_of "/dev/urandom" = Random;
  um_null : device_of "/dev/null" = Null;
  um_missing : device_of "/dev/please-dont-add-this-device" = Missing;
  um_open name w :
    match device_of name with
    | Missing => fst (os_open name w) < 0
    | d => 0 <= fst (os_open name w) /\ opened d (fst (os_open name w)) (snd (os_open name w))
    end;
  um_fstat d fd w : opened d fd w ->
    let '(r, st, w') := os_fstat fd w in 0 <= r /\ Z.land (st_mode st) S_IFCHR <> 0 /\ opened d fd w';
  um_read d fd n w : opened d fd w -> 0 < n ->
    let '(r, bs, w') := os_read fd n w in
    opened d fd w' /\ match d with Random => 0 < r | _ => r = 0 end;
  um_mutex w : fst (os_pthread_mutex_init w) = 0 }.

Section Machine.
Context {W : Type} {OS0 : OS W} {BC : BuildConfig} {PL : Platform} {OL : OSLaws OS0} {UM : UnixMachine OS0}.

(** Reading the random device gives as many bytes as asked for, the null device
    none. *)
Lemma reads_device d fd n w bs w' :
  reads fd n w bs w' -> 0 <= n -> opened d fd w ->
  match d with Random => zlen bs = n | _ => bs = [] end.
Proof.
  induction 1 as [w|n w r bs w' Hn E Hr|n w r bs w1 rest w' Hn E Hr _ IH]; intros H0 Ho.
  - by destruct d.
  - pose proof (um_read d fd n w Ho Hn) as H. rewrite E in H. destruct H as [_ H]. destruct d; [lia|done..].
  - pose proof (um_read d fd n w Ho Hn) as H. rewrite E in H. destruct H as [Ho1 H].
    destruct (os_read_law fd n w r bs w1 H0 E) as [Hrn Hbs]. specialize (Hbs Hr).
    destruct d; [|lia..]. specialize (IH ltac:(lia) Ho1). rewrite zlen_app. lia.
Qed.

(** The device of a configuration that sets no descriptor and wants a device. *)
Definition plain_device (c : ottery_entropy_config) : Prop :=
  urandom_fd_is_set c = false /\ allow_nondev_urandom c = false.

Definition config_device (c : ottery_entropy_config) : device :=
  device_of (default "/dev/urandom"%string (urandom_fname c)).

(** The error code of the random device. *)
Definition device_err (d : device) : Z :=
  match d with
  | Random => 0
  | Null => OTTERY_ERR_ACCESS_STRONG_RNG
  | Missing => OTTERY_ERR_INIT_STRONG_RNG
  end.

(** A state that has seen another device refuses the random device, too. *)
Lemma urandom_err c es out off n (s : process W) :
  plain_device c -> 0 <= off -> 0 < n -> off + n <= zlen out ->
  (config_device c = Random -> urandom_fd_inode es = 0) ->
  exists es' out' s', ottery_get_entropy_urandom (Some c) (Some es) out off n s =
    Ret (device_err (config_device c), es', out', s').
Proof.
  intros [Hfd Hnd] Ho Hn Hout Hi. unfold ottery_get_entropy_urandom. rewrite Hfd, Hnd. cbn [andb negb].
  unfold config_device in *. set (name := default _ _) in *. rewrite bind_assoc, bind_sys, bind_ret. cbv beta iota.
  pose proof (um_open name (world s)) as H. destruct (os_open name (world s)) as [fd w1]. cbn [fst snd] in *.
  destruct (device_of name) eqn:Ed; cbn [device_err andb].
  3:{ rewrite (proj2 (Z.ltb_lt _ _)) by lia. by do 3 eexists. }
  all: destruct H as [H0 Hop]; rewrite (proj2 (Z.ltb_ge _ _)) by lia;
    rewrite bind_sys; cbn [world set_world];
    pose proof (um_fstat _ fd w1 Hop) as Hst; destruct (os_fstat fd w1) as [[r st] w2]; cbn [fst snd];
    destruct Hst as (Hr & Hc & Hop2); rewrite (proj2 (Z.ltb_ge r 0)) by lia;
    rewrite (proj2 (Z.eqb_neq _ _) Hc).
  - rewrite Hi by done. cbn [Z.eqb negb andb].
    destruct (read_n_bytes_ok fd out off n (set_world w2 (set_world w1 s))) as (bs & w3 & Hrd & _ & E); [lia..|].
    rewrite (bind_Ret _ _ _ _ _ E). apply reads_device with (d := Random) in Hrd; [|lia|exact Hop2].
    rewrite Hrd, Z.eqb_refl, (proj2 (Z.ltb_ge n 0)) by lia. by do 3 eexists.
  - match goal with |- context [if ?b then bind (sys_ _) _ else _] => destruct b end; [by do 3 eexists|].
    destruct (read_n_bytes_ok fd out off n (set_world w2 (set_world w1 s))) as (bs & w3 & Hrd & _ & E); [lia..|].
    rewrite (bind_Ret _ _ _ _ _ E). apply reads_device with (d := Null) in Hrd; [|lia|exact Hop2]. subst bs.
    rewrite zlen_nil, (proj2 (Z.eqb_neq 0 n)) by lia. by do 3 eexists.
Qed.

Lemma rdrand_err cfg st out off n (s : process W) :
  0 <= off -> 0 <= n -> off + n <= zlen out ->
  exists err st' out' s', ottery_get_entropy_rdrand cfg st out off n s = Ret (err, st', out', s') /\
    (err = 0 \/ err = OTTERY_ERR_INIT_STRONG_RNG).
Proof.
  intros Ho Hn Hout. destruct (rdrand_ok cfg st out off n s Ho Hn Hout) as (err & st' & out' & s' & E & _).
  exists err, st', out', s'. split; [exact E|]. revert E.
  unfold ottery_get_entropy_rdrand, ottery_get_cpu_capabilities_. rewrite bind_gets.
  destruct (_ =? 0); [intros [= <- _ _ _]; by right|].
  destruct (rdrand_loop_ok (Z.to_nat n) out off n s) as (e & o' & up & rest & s1 & E1 & _ & _ & He & _); [done..|].
  rewrite (bind_Ret _ _ _ _ _ E1). destruct (negb (e =? 0)); [intros [= <- _ _ _]; exact He|].
  destruct (negb (rest =? 0)); [|intros [= <- _ _ _]; by left].
  unfold rdrand. rewrite bind_assoc, bind_sys.
  destruct (os_rdrand (world s1)) as [[tmp status] w]. cbn [fst snd]. rewrite bind_ret. cbv beta iota.
  destruct (status =? 1); cbn [negb Z.eqb]; [|intros [= <- _ _ _]; by right].
  intros H. apply bind_inv in H as (? & ? & _ & [= <- _ _ _]). by left.
Qed.
(** ** The loop over the sources *)

(** Whether a configuration lets the loop run a source, and take what it gives for
    strong. *)
Definition enabled_source (c : ottery_entropy_config) (src : ottery_randbytes_source W) : bool :=
  Z.land (flags src) (disabled_sources c) =? 0.
Definition strong_source (c : ottery_entropy_config) (src : ottery_randbytes_source W) : bool :=
  Z.land (flags src) (weak_sources c) =? 0.

Definition no_egd (c : ottery_entropy_config) : Prop := egd_sockaddr c = None.

(** The error code that the tests expect of a configuration. *)
Inductive expected (c : ottery_entropy_config) (es : ottery_entropy_state) : Z -> Prop :=
  | expected_success :
      enabled_source c ENTROPY_SOURCE_URANDOM = true -> strong_source c ENTROPY_SOURCE_URANDOM = true ->
      config_device c = Random -> urandom_fd_inode es = 0 -> expected c es 0
  | expected_init :
      enabled_source c ENTROPY_SOURCE_EGD = true ->
      enabled_source c ENTROPY_SOURCE_RDRAND = false \/ strong_source c ENTROPY_SOURCE_RDRAND = false ->
      enabled_source c ENTROPY_SOURCE_URANDOM = false \/ strong_source c ENTROPY_SOURCE_URANDOM = false \/
        config_device c <> Random ->
      (config_device c = Random -> urandom_fd_inode es = 0) ->
      expected c es OTTERY_ERR_INIT_STRONG_RNG
  | expected_access :
      enabled_source c ENTROPY_SOURCE_URANDOM = true -> config_device c = Null ->
      enabled_source c ENTROPY_SOURCE_EGD = false -> enabled_source c ENTROPY_SOURCE_RDRAND = false ->
      expected c es OTTERY_ERR_ACCESS_STRONG_RNG.

(** The flags that a source adds when it succeeds. *)
Definition adds (c : ottery_entropy_config) (src : ottery_randbytes_source W) : Z :=
  if strong_source c src then flags src else Z.ldiff (flags src) OTTERY_ENTROPY_FL_STRONG.

(** One turn: the source is passed over, fails, or succeeds. *)
Lemma loop_turn c n buflen src srcs es bytes next got last (s : process W) :
  Z.land (flags src) (Z.land got OTTERY_ENTROPY_DOM_MASK) = 0 -> next + n <= buflen -> buflen <= zlen bytes ->
  source_ok (kind src) (fn src) -> 0 <= next -> 0 <= n ->
  let loop srcs v := entropy_loop (Some c) 0 n buflen srcs v in
  exists err es' bytes' s1,
    fn src (Some c) (Some es) bytes next n s = Ret (err, Some es', bytes', s1) /\ zlen bytes' = zlen bytes /\
    loop (src :: srcs) (mk_vars (Some es) bytes next got last) s =
      if enabled_source c src then
        if err =? 0 then loop srcs (mk_vars (Some es') bytes' (next + n) (Z.lor got (adds c src)) last) s1
        else loop srcs (mk_vars (Some es') bytes' next got err) s1
      else loop srcs (mk_vars (Some es) bytes next got last) s.
Proof.
  intros Hd Hroom Hb Hok Hnx Hn loop.
  destruct (Hok (Some c) (Some es) bytes next n s) as (err & st' & bytes' & s1 & E & Hw & _ & _ & Hst & _); [lia..|].
  destruct (Hst ltac:(by eexists)) as [es' ->]. exists err, es', bytes', s1. split; [done|].
  split; [by apply (wrote_len _ _ _ _ Hw)|].
  unfold loop. cbn [entropy_loop ev_got ev_next ev_state ev_bytes ev_last_err].
  unfold enabled_source, adds, strong_source. destruct (Z.land (flags src) (disabled_sources c) =? 0); cbn [negb]; [|done].
  rewrite Z.land_0_r. cbn [Z.eqb negb]. rewrite Hd. cbn [Z.eqb negb].
  rewrite (proj2 (Z.ltb_ge _ _)), (bind_Ret _ _ _ _ _ E) by lia.
  destruct (err =? 0); [|done]. by destruct (Z.land (flags src) (weak_sources c) =? 0).
Qed.

(** The last source, if there is one. *)
Definition cpu_sources : list (ottery_randbytes_source W) := if rdrand_compiled then [ENTROPY_SOURCE_RDRAND] else [].

Lemma loop_cpu c n buflen es bytes next got last (s : process W) :
  Z.land (flags ENTROPY_SOURCE_RDRAND) (Z.land got OTTERY_ENTROPY_DOM_MASK) = 0 -> next + n <= buflen -> buflen <= zlen bytes -> 0 <= next -> 0 <= n ->
  exists v s', entropy_loop (Some c) 0 n buflen cpu_sources (mk_vars (Some es) bytes next got last) s = Ret (v, s') /\
    (ev_got v = got /\ (ev_last_err v = last \/ ev_last_err v = OTTERY_ERR_INIT_STRONG_RNG) \/
     ev_got v = Z.lor got (adds c ENTROPY_SOURCE_RDRAND) /\ ev_last_err v = last /\
     enabled_source c ENTROPY_SOURCE_RDRAND = true) /\
    (enabled_source c ENTROPY_SOURCE_RDRAND = false -> ev_got v = got /\ ev_last_err v = last).
Proof.
  intros Hd Hroom Hb Hnx Hn. unfold cpu_sources. destruct rdrand_compiled; [|by do 2 eexists; split; [reflexivity|]; auto].
  destruct (loop_turn c n buflen ENTROPY_SOURCE_RDRAND [] es bytes next got last s) as
    (err & es' & bytes' & s1 & E & Hl & Eq); try done; [by apply rdrand_ok|].
  cbv zeta in Eq. rewrite Eq. clear Eq.
  destruct (rdrand_err (Some c) (Some es) bytes next n s) as (err' & ? & ? & ? & E' & He); [lia..|].
  cbn [fn ENTROPY_SOURCE_RDRAND] in E. rewrite E in E'. injection E' as <- _ _ _.
  destruct (enabled_source c ENTROPY_SOURCE_RDRAND); [|by do 2 eexists; split; [reflexivity|]; auto].
  destruct (Z.eqb_spec err 0); (do 2 eexists; split; [reflexivity|]; cbn); split; try done; [tauto|].
  left. split; [done|]. right. tauto.
Qed.
Lemma RAND_SOURCES_unix : RAND_SOURCES = ENTROPY_SOURCE_URANDOM :: ENTROPY_SOURCE_EGD :: cpu_sources.
Proof. unfold RAND_SOURCES, cpu_sources. by rewrite um_unix. Qed.

(** What the loop comes to from the second source on: [last1] is the last error
    before the CPU's turn. *)
Definition cpu_outcome (c : ottery_entropy_config) (got last1 : Z) (v : entropy_vars) : Prop :=
  (ev_got v = got /\ (ev_last_err v = last1 \/ ev_last_err v = OTTERY_ERR_INIT_STRONG_RNG) \/
   ev_got v = Z.lor got (adds c ENTROPY_SOURCE_RDRAND) /\ ev_last_err v = last1 /\
   enabled_source c ENTROPY_SOURCE_RDRAND = true) /\
  (enabled_source c ENTROPY_SOURCE_RDRAND = false -> ev_got v = got /\ ev_last_err v = last1).

Lemma egd_unset c es bytes next n (s : process W) :
  no_egd c -> ottery_get_entropy_egd (Some c) es bytes next n s = Ret (OTTERY_ERR_INIT_STRONG_RNG, es, bytes, s).
Proof. unfold no_egd. destruct c. by intros [= ->]. Qed.

Lemma loop_rest c n buflen es bytes next got last (s : process W) :
  no_egd c -> Z.land (flags ENTROPY_SOURCE_EGD) (Z.land got OTTERY_ENTROPY_DOM_MASK) = 0 ->
  Z.land (flags ENTROPY_SOURCE_RDRAND) (Z.land got OTTERY_ENTROPY_DOM_MASK) = 0 ->
  next + n <= buflen -> buflen <= zlen bytes -> 0 <= next -> 0 <= n ->
  exists v s', entropy_loop (Some c) 0 n buflen (ENTROPY_SOURCE_EGD :: cpu_sources)
      (mk_vars (Some es) bytes next got last) s = Ret (v, s') /\
    cpu_outcome c got (if enabled_source c ENTROPY_SOURCE_EGD then OTTERY_ERR_INIT_STRONG_RNG else last) v.
Proof.
  intros He Hd1 Hd2 Hroom Hb Hnx Hn.
  destruct (loop_turn c n buflen ENTROPY_SOURCE_EGD cpu_sources es bytes next got last s) as
    (err & es' & bytes' & s1 & E & Hl & Eq); [done..|by apply egd_ok|done|done|]. cbv zeta in Eq. rewrite Eq. clear Eq.
  cbn [fn ENTROPY_SOURCE_EGD] in E. rewrite (egd_unset c _ _ _ _ _ He) in E. injection E as <- <- <- <-.
  change (OTTERY_ERR_INIT_STRONG_RNG =? 0) with false. cbn match.
  destruct (enabled_source c ENTROPY_SOURCE_EGD); apply loop_cpu; lia || done.
Qed.

Lemma adds_urandom c :
  let got := Z.lor 0 (adds c ENTROPY_SOURCE_URANDOM) in
  Z.land (flags ENTROPY_SOURCE_EGD) (Z.land got OTTERY_ENTROPY_DOM_MASK) = 0 /\
  Z.land (flags ENTROPY_SOURCE_RDRAND) (Z.land got OTTERY_ENTROPY_DOM_MASK) = 0.
Proof. unfold adds. by destruct (strong_source c ENTROPY_SOURCE_URANDOM). Qed.

(** Whether something strong was got, given what the first source did. *)
Lemma cpu_outcome_strong c got last1 v :
  cpu_outcome c got last1 v -> Z.testbit got 0 = true -> Z.land (ev_got v) OTTERY_ENTROPY_FL_STRONG <> 0.
Proof.
  intros [H _] Hg E. assert (Z.testbit (ev_got v) 0 = true) as Hv.
  { destruct H as [[-> _]|(-> & _)]; [done|]. by rewrite Z.lor_spec, Hg. }
  apply (f_equal (fun z => Z.testbit z 0)) in E. rewrite Z.land_spec, Hv in E. done.
Qed.

Lemma cpu_outcome_weak c got last1 v :
  cpu_outcome c got last1 v -> Z.testbit got 0 = false ->
  enabled_source c ENTROPY_SOURCE_RDRAND = false \/ strong_source c ENTROPY_SOURCE_RDRAND = false ->
  Z.land (ev_got v) OTTERY_ENTROPY_FL_STRONG = 0 /\
  (ev_last_err v = last1 \/ enabled_source c ENTROPY_SOURCE_RDRAND = true /\ ev_last_err v = OTTERY_ERR_INIT_STRONG_RNG).
Proof.
  intros [H Hoff] Hg Hr.
  assert (Z.testbit (ev_got v) 0 = false) as Hv.
  { destruct Hr as [Hr|Hr]; [by destruct (Hoff Hr) as [-> _]|].
    destruct H as [[-> _]|(-> & _)]; [done|]. rewrite Z.lor_spec, Hg. unfold adds. by rewrite Hr. }
  split.
  - unfold OTTERY_ENTROPY_FL_STRONG. change 1 with (Z.ones 1). rewrite Z.land_ones by done.
    change (2 ^ 1) with 2. rewrite <-Z.bit0_mod, Hv. done.
  - destruct (enabled_source c ENTROPY_SOURCE_RDRAND) eqn:E; [|by destruct (Hoff eq_refl); left].
    destruct H as [[_ [H|H]]|(_ & H & _)]; auto.
Qed.

(** [ottery_get_entropy_], for a configuration with an expected error code. *)
Lemma machine_entropy c es n (s : process W) err :
  plain_device c -> no_egd c -> 0 < n < 2 ^ 62 -> expected c es err ->
  exists er s', ottery_get_entropy_ (Some c) (Some es) 0 (zeros (ottery_get_entropy_bufsize_ n)) n
      (ottery_get_entropy_bufsize_ n) s = Ret (er, s') /\ er_err er = err.
Proof.
  intros Hpl Hegd Hn Hex. unfold ottery_get_entropy_. rewrite bufsize_small by lia.
  rewrite RAND_SOURCES_unix. set (buflen := n * _).
  assert (n + n <= buflen) as Hbl by (unfold buflen; rewrite !zlen_cons; zlen_facts; nia).
  rewrite mzero_ok, bind_lift_Some by (rewrite ?zlen_zeros; lia). set (bytes := splice _ _ _).
  assert (zlen bytes = buflen) as Hb
    by (unfold bytes; rewrite zlen_splice; rewrite ?zlen_zeros; lia).
  clearbody bytes.
  destruct (loop_turn c n buflen ENTROPY_SOURCE_URANDOM (ENTROPY_SOURCE_EGD :: cpu_sources) es bytes 0 0 0 s)
    as (e1 & es1 & b1 & s1 & E1 & Hl1 & Eq1); [done|lia|lia|by apply urandom_ok|lia|lia|]. cbv zeta in Eq1.
  cbn [fn ENTROPY_SOURCE_URANDOM] in E1.
  destruct (urandom_err c es bytes 0 n s) as (? & ? & ? & E1');
    [done|lia|lia|lia|intros Hd; destruct Hex; congruence || auto|].
  rewrite E1 in E1'. injection E1' as -> _ _ _. destruct (adds_urandom c) as [A1 A2].
  assert (forall es b next got last s1, zlen b = buflen -> 0 <= next <= n ->
    got = 0 \/ got = Z.lor 0 (adds c ENTROPY_SOURCE_URANDOM) ->
    exists v s', entropy_loop (Some c) 0 n buflen (ENTROPY_SOURCE_EGD :: cpu_sources)
        (mk_vars (Some es) b next got last) s1 = Ret (v, s') /\
      cpu_outcome c got (if enabled_source c ENTROPY_SOURCE_EGD then OTTERY_ERR_INIT_STRONG_RNG else last) v)
    as Hrest.
  { intros es' b next got last s2 Hlb Hnx Hg. apply loop_rest; try done; try lia; by destruct Hg as [-> | ->]. }
  destruct Hex as [Hen Hst Hdev Hi|Hegd' Hr Hu Hi|Hen Hdev Hegd' Hr].
  - rewrite Hen, Hdev in Eq1. cbn [device_err Z.eqb] in Eq1.
    destruct (Hrest es1 b1 (0 + n) _ 0 s1 ltac:(lia) ltac:(lia) (or_intror eq_refl)) as (v & s' & E & Ho).
    rewrite E in Eq1. rewrite (bind_Ret _ _ _ _ _ Eq1).
    apply cpu_outcome_strong in Ho; [|unfold adds; by rewrite Hst].
    rewrite (proj2 (Z.eqb_neq _ _) Ho). by do 2 eexists.
  - assert (exists got v s', entropy_loop (Some c) 0 n buflen
        (ENTROPY_SOURCE_URANDOM :: ENTROPY_SOURCE_EGD :: cpu_sources) (mk_vars (Some es) bytes 0 0 0) s = Ret (v, s') /\
      cpu_outcome c got OTTERY_ERR_INIT_STRONG_RNG v /\ Z.testbit got 0 = false) as (got & v & s' & E & Ho & Hg).
    { rewrite Eq1. rewrite Hegd' in Hrest. destruct (enabled_source c ENTROPY_SOURCE_URANDOM).
      2:{ destruct (Hrest es bytes 0 0 0 s Hb ltac:(lia) (or_introl eq_refl)) as (v & s' & E & Ho). by exists 0, v, s'. }
      destruct (Z.eqb_spec (device_err (config_device c)) 0) as [Hd|Hd].
      - destruct (Hrest es1 b1 (0 + n) _ 0 s1 ltac:(lia) ltac:(lia) (or_intror eq_refl)) as (v & s' & E & Ho).
        eexists. exists v, s'. split; [exact E|]. split; [exact Ho|].
        destruct Hu as [?|[Hu|Hu]]; [done| |by destruct (config_device c)]. unfold adds. by rewrite Hu.
      - destruct (Hrest es1 b1 0 0 (device_err (config_device c)) s1 ltac:(lia) ltac:(lia) (or_introl eq_refl))
          as (v & s' & E & Ho). by exists 0, v, s'. }
    rewrite (bind_Ret _ _ _ _ _ E). destruct (cpu_outcome_weak _ _ _ _ Ho Hg Hr) as [-> Hl]. cbn [Z.eqb].
    do 2 eexists. split; [reflexivity|]. cbn [er_err]. by destruct Hl as [-> |[_ ->]].
  - rewrite Hen, Hdev in Eq1. rewrite Hegd' in Hrest.
    change (device_err Null =? 0) with false in Eq1. cbn match in Eq1.
    destruct (Hrest es1 b1 0 0 (device_err Null) s1 ltac:(lia) ltac:(lia) (or_introl eq_refl)) as (v & s' & E & Ho).
    rewrite E in Eq1. rewrite (bind_Ret _ _ _ _ _ Eq1).
    destruct (cpu_outcome_weak _ _ _ _ Ho eq_refl (or_introl Hr)) as [-> Hl]. cbn [Z.eqb].
    do 2 eexists. split; [reflexivity|]. cbn [er_err]. destruct Hl as [-> |[Hl _]]; [done|congruence].
Qed.
(** ** Initialization and reseeding *)

Lemma machine_lock (locked : bool) (s : process W) :
  exists l s1, (if locked then INIT_LOCK (st_mutex zero_state)
      else ret (false, st_mutex zero_state) : M W (bool * lock_state)) s = Ret (false, l, s1) /\
    same_process s s1 /\ (locked = true -> lock_impl = NO_LOCKS \/ l = LockFree).
Proof.
  destruct (init_lock_ok locked s) as (failed & l & s1 & E & Hp & _ & Hl). exists l, s1.
  destruct failed; [exfalso|by auto]. revert E. destruct locked; [|done]. unfold INIT_LOCK, lock_impl.
  rewrite um_unix. destruct OTTERY_NO_LOCKS; [done|]. destruct (plat_apple && _); [done|].
  destruct HAVE_PTHREAD; [|done]. rewrite bind_sys, um_mutex. done.
Qed.

Lemma machine_sizes :
  (OTTERY_STATE_DUMMY_SIZE_ <? sizeof_ottery_state) || (OTTERY_CONFIG_DUMMY_SIZE_ <? sizeof_ottery_config) = false.
Proof. destruct um_sizes. apply orb_false_intro; apply Z.ltb_ge; lia. Qed.

Abbreviation entropy_of config := (cfg_entropy (default ottery_config_init config)).

Lemma machine_initialize {q} {PS : PrfSpec q} {PZ : PrfSizes q} addr st config (locked : bool) (s : process W) err :
  resolve_prf config s = Some q -> Z.land addr 0xf = 0 -> plain_device (entropy_of config) ->
  no_egd (entropy_of config) -> expected (entropy_of config) (mk_entropy_state 0) err ->
  exists st' s', ottery_st_initialize addr st config locked s = Ret (err, st', s') /\ same_process s s' /\
    (err = 0 -> exists a, checked (p := q) addr st' a s' /\ st_magic st' = MAGIC addr /\
      st_pid st' = os_getpid (world s') /\ (locked = true -> lock_ready st') /\
      st_entropy_config st' = entropy_of config).
Proof.
  intros Hq Ha Hd He Hex. destruct (machine_lock locked s) as (l & s1 & E1 & Hp1 & Hl).
  pose proof (sizes_facts (p := q)) as Hsb.
  destruct (machine_entropy _ _ (state_bytes q) s1 err Hd He ltac:(lia) Hex) as (er & s2 & E2 & Her).
  destruct (initialize_run (q := q) addr st config locked l er s s1 s2 Hq Ha machine_sizes E1 E2)
    as (st' & E & Hp2 & Hm & Hc & H). rewrite Her in *. exists st', s2. split; [done|].
  split; [by transitivity s1|]. intros ->. destruct H as [(_ & _ & Hr & Hmg & Hpid & _)|[[H|H] _]]; [|done..].
  eexists. split; [split; [exact Hr|by right|by right]|]. split; [done|]. split; [done|].
  split; [|done]. intros Hlk. unfold lock_ready. rewrite Hm. by apply Hl.
Qed.

Lemma machine_reseed {q} {PS : PrfSpec q} {PZ : PrfSizes q} addr st (s : process W) err :
  seedable (p := q) st -> plain_device (st_entropy_config st) -> no_egd (st_entropy_config st) ->
  expected (st_entropy_config st) (st_entropy_state st) err ->
  exists st' s', ottery_st_reseed addr st s = Ret (err, st', s') /\ same_process s s' /\ seed_frame st st'.
Proof.
  intros Hs Hd He Hex. pose proof (sizes_facts (p := q)) as Hsb.
  destruct (machine_entropy _ _ (state_bytes q) s err Hd He ltac:(lia) Hex) as (er & s2 & E2 & Her).
  destruct (reseed_run addr st s s2 er Hs E2) as (st' & E & Hf & _). rewrite Her in E.
  destruct (seed_entropy_run _ _ _ _ _ E2) as [Hp _]. by exists st', s2.
Qed.
End Machine.

(** ** A machine for the witnesses, with the two devices and no other *)

Definition unix_os : OS tworld := {|
  os_getpid := os_getpid;
  os_open name w :=
    (if String.eqb name "/dev/urandom" then 3 else if String.eqb name "/dev/null" then 4 else -1, w);
  os_fstat fd w := (0, mk_stat 0x21b6 (10 + fd), w);
  os_read fd n w := if fd =? 3 then os_read fd n w else (0, [], w);
  os_write := os_write;
  os_close := os_close;
  os_socket := os_socket;
  os_connect := os_connect;
  os_CryptAcquireContext := os_CryptAcquireContext;
  os_CryptGenRandom := os_CryptGenRandom;
  os_CryptReleaseContext := os_CryptReleaseContext;
  os_rdrand := os_rdrand;
  os_cpuid := os_cpuid;
  os_pthread_mutex_init := os_pthread_mutex_init;
  os_InitializeCriticalSection := os_InitializeCriticalSection |}.

Lemma unix_os_laws : OSLaws unix_os.
Proof.
  split.
  - intros fd n w r bs w' Hn. cbn [os_read unix_os]. destruct (fd =? 3); [by apply os_read_law|].
    intros [= <- <- <-]. split; [lia|]. lia.
  - intros pr n w r bs w'. apply (os_crypt_law (OS0 := test_os)).
Qed.

Definition unix_machine : UnixMachine unix_os.
Proof.
  refine {| device_of name :=
       if String.eqb name "/dev/urandom" then Random else if String.eqb name "/dev/null" then Null else Missing;
     opened d fd _ := fd = match d with Random => 3 | Null => 4 | Missing => 5 end |}; try done.
  - intros name w. cbn. by destruct (String.eqb name "/dev/urandom"), (String.eqb name "/dev/null").
  - intros d fd n w -> Hn. cbn. destruct d; cbn; [|done..]. split; [done|lia].
Defined.
