(* ===== verification/ApiProps.v ===== *)
(** * Properties of the state-based API

    Initialization, refusal of uninitialized states, locked and lock-free
    output, reseeding after a fork, adding seed, and integer ranges. *)
From S2P Require Import Prelude Words Memory Internal Spec Prng Refine TestPrf.
From S2P Require Import ChaChaRef ChaChaMerged ChaChaKrovetz Os CpuInfo Entropy TestOs Config Api ApiRefine.
Local Open Scope Z_scope.
Local Open Scope ottery_scope.

(** ** A concrete initialized state for the witnesses *)

#[local] Existing Instance default_build.

Definition api0 : ottery_state :=
  set_mutex LockFree (set_pid 77 (set_magic (MAGIC 4096) ready0)).

Lemma api0_ready : ready (p := dummy_prf) 4096 api0 ready0_prng proc0.
Proof.
  split; [|by right]. split; [|by right|by right].
  apply rep_set_mutex, rep_set_ids, ready0_rep.
Qed.

(** The test configuration: the dummy PRF and every default. *)
Definition test_config : ottery_config :=
  ottery_config_set_manual_prf_ ottery_config_init (Some dummy_prf).

(** ** Lemmas: uninitialized states *)

Section Refusal.
Context {W : Type} {OS0 : OS W} {BC : BuildConfig} {PL : Platform}.

(** What a call that reports a fatal error and then returns [a] does. *)
Definition fatal_then {A} (error : Z) (a : A) (s : process W) : outcome (A * process W) :=
  match ottery_fatal_handler s with
  | Some h => Ret (a, set_world (h error (world s)) s)
  | None => Aborted
  end.

Lemma fatal_bind {A} error (k : unit -> M W A) (a : A) (s : process W) :
  (forall s', k tt s' = Ret (a, s')) ->
  bind (ottery_fatal_error_ error) k s = fatal_then error a s.
Proof.
  intros H. unfold bind, ottery_fatal_error_, fatal_then.
  destruct (ottery_fatal_handler s); [apply H|done].
Qed.

Lemma check_init_fatal {A} addr st (k : bool -> M W A) (a : A) (s : process W) :
  OTTERY_NO_INIT_CHECK = false -> st_magic st <> MAGIC addr ->
  (forall s', k false s' = Ret (a, s')) ->
  bind (ottery_st_rand_check_init addr st) k s = fatal_then OTTERY_ERR_STATE_INIT a s.
Proof.
  intros Hb Hm Hk. unfold ottery_st_rand_check_init. rewrite Hb.
  rewrite (proj2 (Z.eqb_neq _ _) Hm). cbn [negb andb]. rewrite bind_assoc.
  apply fatal_bind. intros s'. by rewrite bind_ret.
Qed.

Lemma lock_and_check_fatal addr st (s : process W) :
  OTTERY_NO_INIT_CHECK = false -> st_magic st <> MAGIC addr ->
  ottery_st_rand_lock_and_check addr st s = fatal_then OTTERY_ERR_STATE_INIT (false, st) s.
Proof. intros. by apply check_init_fatal. Qed.

Lemma check_nolock_fatal addr st (s : process W) :
  OTTERY_NO_INIT_CHECK = false -> st_magic st <> MAGIC addr ->
  ottery_st_rand_check_nolock addr st s = fatal_then OTTERY_ERR_STATE_INIT (false, st) s.
Proof. intros. by apply check_init_fatal. Qed.

Lemma fatal_then_bind {A B} error (m : M W A) (k : A -> M W B) a b (s s' : process W) :
  m s = fatal_then error a s' -> (forall s2, k a s2 = Ret (b, s2)) ->
  bind m k s = fatal_then error b s'.
Proof.
  intros Hm Hk. unfold bind. rewrite Hm. unfold fatal_then.
  destruct (ottery_fatal_handler s'); [apply Hk|done].
Qed.
End Refusal.

(** ** Lemmas: integer ranges *)

Lemma range_divisor_facts size upper :
  1 <= size -> 0 <= upper < 2 ^ (8 * size) ->
  0 < range_divisor size upper /\
  range_divisor size upper * (upper + 1) <= 2 ^ (8 * size) /\
  2 ^ (8 * size) <= 2 * (range_divisor size upper * (upper + 1)).
Proof.
  intros Hs Hu. unfold range_divisor. set (N := 2 ^ (8 * size)) in *.
  destruct (Z.eq_dec (upper + 1) N) as [E|Hne].
  - rewrite E, Z.mod_same by lia. cbn [Z.eqb]. lia.
  - rewrite Z.mod_small by lia. rewrite (proj2 (Z.eqb_neq _ 0)) by lia.
    pose proof (Z.div_mod (N - 1) (upper + 1) ltac:(lia)) as Hd.
    pose proof (Z.mod_pos_bound (N - 1) (upper + 1) ltac:(lia)) as Hm.
    assert (1 <= (N - 1) / (upper + 1)) by (apply Z.div_le_lower_bound; lia).
    nia.
Qed.

Lemma filter_none_Forall {A} (P : A -> Prop) {HP : forall x, Decision (P x)} l :
  Forall (fun x => ~ P x) l -> filter P l = [].
Proof.
  induction 1 as [|x l H _ IH]; [done|]. by rewrite filter_cons_False.
Qed.

Lemma filter_all_Forall {A} (P : A -> Prop) {HP : forall x, Decision (P x)} l :
  Forall P l -> filter P l = l.
Proof.
  induction 1 as [|x l H _ IH]; [done|]. by rewrite filter_cons_True, IH.
Qed.

Lemma filter_interval (P : Z -> Prop) {HP : forall x, Decision (P x)} a b n :
  0 <= a -> a <= b -> b <= n -> (forall x, 0 <= x < n -> P x <-> a <= x < b) ->
  filter P (seqZ 0 n) = seqZ a (b - a).
Proof.
  intros Ha Hb Hn H. replace n with (a + ((b - a) + (n - b))) by lia.
  rewrite !seqZ_app, !filter_app by lia. rewrite Z.add_0_l.
  rewrite (filter_none_Forall P (seqZ 0 a)), (filter_all_Forall P (seqZ a (b - a))),
    (filter_none_Forall P (seqZ (a + (b - a)) (n - b))).
  - by rewrite app_nil_r.
  - apply Forall_seqZ. intros x Hx. rewrite H; lia.
  - apply Forall_seqZ. intros x Hx. apply H; lia.
  - apply Forall_seqZ. intros x Hx. rewrite H; lia.
Qed.

Lemma draw_div size upper v r :
  1 <= size -> 0 <= upper < 2 ^ (8 * size) -> 0 <= r ->
  r / range_divisor size upper = v <->
    v * range_divisor size upper <= r < (v + 1) * range_divisor size upper.
Proof.
  intros Hs Hu Hr. destruct (range_divisor_facts size upper Hs Hu) as (Hd & _ & _).
  set (d := range_divisor size upper) in *.
  pose proof (Z.div_mod r d ltac:(lia)). pose proof (Z.mod_pos_bound r d Hd).
  split; [intros <-; nia|]. intros [H1 H2]. symmetry.
  apply (Z.div_unique _ _ _ (r - d * v)); nia.
Qed.

Section Range.
Context {W : Type} {OS0 : OS W} {BC : BuildConfig} {PL : Platform}.
Context {p : ottery_prf} {PS : PrfSpec p} {PZ : PrfSizes p}.

Lemma range_bound fuel size divisor upper a n a' :
  0 < divisor -> range (state_bytes p) (output_len p) (prf_out p) fuel size divisor upper a
    = Some (n, a') -> 0 <= n <= upper.
Proof.
  intros Hd. revert a. induction fuel as [|fuel IH]; intros a; [done|]. cbn [range].
  destruct (tiny _ _ _ _ _) as [bs a1]. destruct (Z.ltb_spec upper (le_decode bs / divisor)).
  - apply IH.
  - intros [= <- _]. split; [|done]. apply Z.div_pos; [apply le_decode_range|done].
Qed.

End Range.

(** The [k]-th draw of [size] bytes from an abstract generator. *)
Definition draw (p : ottery_prf) {PS : PrfSpec p} (size : Z) (k : nat) (a : prng) : Z :=
  let t := tiny (state_bytes p) (output_len p) (prf_out p) size in
  le_decode (fst (t (Nat.iter k (fun a => snd (t a)) a))).

Lemma range_returns {p} {PS : PrfSpec p} fuel size divisor upper k a :
  (k < fuel)%nat -> draw p size k a / divisor <= upper ->
  exists n a', range (state_bytes p) (output_len p) (prf_out p) fuel size divisor upper a
    = Some (n, a').
Proof.
  revert k a. induction fuel as [|fuel IH]; intros k a Hk Hd; [lia|]. cbn [range].
  destruct k as [|k].
  - unfold draw in Hd. cbn [Nat.iter nat_rect] in Hd.
    destruct (tiny _ _ _ _ a) as [bs a1]. cbn [fst] in Hd.
    rewrite (proj2 (Z.ltb_ge _ _)) by lia. by do 2 eexists.
  - assert (draw p size (S k) a = draw p size k
      (snd (tiny (state_bytes p) (output_len p) (prf_out p) size a))) as E.
    { unfold draw. by rewrite Nat.iter_succ_r. }
    rewrite E in Hd. destruct (tiny _ _ _ _ a) as [bs a1]. cbn [snd] in Hd.
    destruct (upper <? _); [by apply (IH k a1); [lia|]|by do 2 eexists].
Qed.

(** ** The properties *)

(** A state that every later call refuses. *)
Definition dead (addr : Z) (st : ottery_state) : Prop := st_magic st = 0 /\ st_magic st <> MAGIC addr.

(** C9: what initialization returns and leaves, case by case, locked or not, with a
    PRF of the generator's sizes. On an address that is not aligned it reports that
    and touches nothing. On one that is, it makes the lock, and reports a lock that
    cannot be made; then reports an internal error if the structures do not fit the
    sizes its headers publish; then calls the entropy sources, and returns their
    error code, whatever it is. If they succeed, with at least one strong source,
    so does it, and the state represents the generator constructed from their
    bytes, has its magic number and the process's pid, and its lock is free.
    Otherwise the state has no magic number. No code is one of a fatal error. *)
Theorem initialize_contract {W : Type} {OS0 : OS W} {BC : BuildConfig} {PL : Platform}
    {OL : OSLaws OS0} {q} {PS : PrfSpec q} {PZ : PrfSizes q}
    addr st config (locked : bool) (s : process W) :
  resolve_prf config s = Some q ->
  let cfg := cfg_entropy (default ottery_config_init config) in
  let init := ottery_st_initialize addr st config locked in
  let len := ottery_get_entropy_bufsize_ (state_bytes q) in
  (Z.land addr 0xf <> 0 -> init s = Ret (OTTERY_ERR_STATE_ALIGNMENT, st, s)) /\
  (Z.land addr 0xf = 0 ->
     exists failed l s1, (if locked then INIT_LOCK LockUninit else ret (false, LockUninit)) s = Ret (failed, l, s1) /\
     if failed then exists st', init s = Ret (OTTERY_ERR_LOCK_INIT, st', s1) /\ dead addr st'
     else if (OTTERY_STATE_DUMMY_SIZE_ <? sizeof_ottery_state) || (OTTERY_CONFIG_DUMMY_SIZE_ <? sizeof_ottery_config)
     then exists st', init s = Ret (OTTERY_ERR_INTERNAL, st', s1) /\ dead addr st'
     else exists er s2 st',
       ottery_get_entropy_ (Some cfg) (Some (mk_entropy_state 0)) 0 (zeros len) (state_bytes q) len s1 = Ret (er, s2) /\
       init s = Ret (er_err er, st', s2) /\ same_process s s2 /\
       ((er_err er = 0 /\ (exists used, entropy_success (Some cfg) 0 (state_bytes q) len er used) /\
         checked addr st' (construct (state_bytes q) (output_len q) (prf_out q) (seed_bytes er)) s2 /\
         st_magic st' = MAGIC addr /\ st_pid st' = os_getpid (world s2) /\ (locked = true -> lock_ready st')) \/
        ((er_err er = OTTERY_ERR_INIT_STRONG_RNG \/ er_err er = OTTERY_ERR_ACCESS_STRONG_RNG) /\ dead addr st'))) /\
  Forall (fun err => OTTERY_ERR_IS_FATAL err = false)
    [OTTERY_ERR_STATE_ALIGNMENT; OTTERY_ERR_LOCK_INIT; OTTERY_ERR_INTERNAL; OTTERY_ERR_INIT_STRONG_RNG;
     OTTERY_ERR_ACCESS_STRONG_RNG].
Proof.
  intros Hq cfg init len. split; [|split; [|by repeat constructor]].
  { intros Ha. unfold init, ottery_st_initialize. by rewrite (proj2 (Z.eqb_neq _ _) Ha). }
  intros Ha. assert (forall st', st_magic st' = 0 -> dead addr st') as Hdead.
  { intros st' Hm. split; [done|]. rewrite Hm. intros E0. by apply (MAGIC_nonzero addr Ha). }
  destruct (init_lock_ok locked s) as (failed & l & s1 & E1 & Hp1 & Hnh & Hl). exists failed, l, s1.
  split; [exact E1|]. destruct failed; [|destruct (_ || _) eqn:Hsizes].
  - destruct (initialize_lock_fails addr st config locked l s s1 q Hq Ha E1) as (st' & E & Hm & _). eauto.
  - destruct (initialize_too_large addr st config locked l s s1 q Hq Ha Hsizes E1) as (st' & E & Hm & _). eauto.
  - destruct (seed_entropy_ok (p := q) cfg (mk_entropy_state 0) s1) as (er & s2 & Ee & Hp2 & _).
    destruct (initialize_run (q := q) addr st config locked l er s s1 s2 Hq Ha Hsizes E1 Ee)
      as (st' & E & _ & Hm & _ & H). exists er, s2, st'. split; [done|]. split; [done|].
    split; [by transitivity s1|]. destruct H as [(He & Hu & Hr & Hmg & Hpid & _)|[He Hmg]]; [left|right; auto].
    split; [done|]. split; [done|]. split; [split; [done|by right|by right]|]. split; [done|]. split; [done|].
    intros Hlk. unfold lock_ready. rewrite Hm. by apply Hl.
Qed.

(** It succeeds on the machine of the tests. *)
Lemma initialize_contract_witness :
  exists er s2 st', ottery_st_initialize 4096 zero_state (Some test_config) true proc0 = Ret (0, st', s2) /\
    checked (p := dummy_prf) 4096 st' (construct (state_bytes dummy_prf) (output_len dummy_prf)
      (prf_out dummy_prf) (seed_bytes er)) s2 /\ lock_ready st'.
Proof.
  destruct (initialize_contract (q := dummy_prf) 4096 zero_state (Some test_config) true proc0 eq_refl)
    as (_ & H & _). destruct (H eq_refl) as (failed & l & s1 & E1 & H1). vm_compute in E1. injection E1 as <- <- <-.
  cbn [orb] in H1. change (OTTERY_STATE_DUMMY_SIZE_ <? _) with false in H1.
  change (OTTERY_CONFIG_DUMMY_SIZE_ <? _) with false in H1. cbv iota in H1.
  destruct H1 as (er & s2 & st' & E2 & E & _ & H1). vm_compute in E2. injection E2 as <- <-.
  destruct H1 as [(He & _ & Hc & _ & _ & Hl)|[[He|He] _]]; [|discriminate He..].
  eexists _, _, st'. split; [exact E|]. split; [exact Hc|by apply Hl].
Defined.

(** C35: unless the build drops the check, a state whose magic number is not that
    of its address (uninitialized, wiped, failed to initialize, or moved) is
    refused by every output, range and seeding function of ottery_st.h and
    ottery_nolock.h, locked or not: they report STATE_INIT, abort without a handler,
    and otherwise return zero or the error code with state, buffer and lock
    untouched. *)
Theorem uninitialised_state_refused {W : Type} {OS0 : OS W} {BC : BuildConfig} {PL : Platform}
    addr st out off n seed upper fuel size (s : process W) :
  OTTERY_NO_INIT_CHECK = false -> st_magic st <> MAGIC addr -> 0 <= upper ->
  ottery_st_rand_bytes addr st out off n s = fatal_then OTTERY_ERR_STATE_INIT (st, out) s /\
  ottery_st_rand_bytes_nolock addr st out off n s = fatal_then OTTERY_ERR_STATE_INIT (st, out) s /\
  Forall (fun call => call s = fatal_then OTTERY_ERR_STATE_INIT (0, st) s)
    [OTTERY_RETURN_RAND_INTTYPE addr st size; OTTERY_RETURN_RAND_INTTYPE_NOLOCK addr st size;
     ottery_st_rand_unsigned addr st; ottery_st_rand_unsigned_nolock addr st;
     ottery_st_rand_uint32 addr st; ottery_st_rand_uint32_nolock addr st;
     ottery_st_rand_uint64 addr st; ottery_st_rand_uint64_nolock addr st;
     ottery_st_rand_range fuel addr st upper; ottery_st_rand_range_nolock (S fuel) addr st upper;
     ottery_st_rand_range64 fuel addr st upper; ottery_st_rand_range64_nolock (S fuel) addr st upper] /\
  Forall (fun call => call s = fatal_then OTTERY_ERR_STATE_INIT (OTTERY_ERR_STATE_INIT, st) s)
    [ottery_st_add_seed addr st seed n; ottery_st_add_seed_nolock addr st seed n].
Proof.
  intros Hb Hm Hu. pose proof (lock_and_check_fatal addr st s Hb Hm) as Hl.
  pose proof (check_nolock_fatal addr st s Hb Hm) as Hn.
  assert (forall size, OTTERY_RETURN_RAND_INTTYPE addr st size s = fatal_then OTTERY_ERR_STATE_INIT (0, st) s) as Hi
    by (intros; by apply (fatal_then_bind _ _ _ (false, st))).
  assert (forall size, OTTERY_RETURN_RAND_INTTYPE_NOLOCK addr st size s = fatal_then OTTERY_ERR_STATE_INIT (0, st) s)
    as Hi' by (intros; by apply (fatal_then_bind _ _ _ (false, st))).
  assert (forall size d, rand_range_loop (S fuel) addr st size d upper s = fatal_then OTTERY_ERR_STATE_INIT (0, st) s)
    as Hr.
  { intros size' d. apply (fatal_then_bind _ _ _ (0, st) _ _ _ (Hi' size')). intros s2.
    cbv beta iota zeta. rewrite Zdiv_0_l, (proj2 (Z.ltb_ge _ _)) by lia. done. }
  split; [by apply (fatal_then_bind _ _ _ (false, st))|]. split; [by apply (fatal_then_bind _ _ _ (false, st))|].
  split; repeat apply Forall_cons_2; try apply Forall_nil_2; first [apply Hi|apply Hi'|apply Hr|idtac].
  1,2: by apply check_init_fatal.
  1,2: unfold ottery_st_add_seed, ottery_st_add_seed_nolock; rewrite add_seed_bad_magic by done; by apply fatal_bind.
Qed.

Lemma uninitialised_state_refused_witness :
  ottery_st_rand_bytes 4096 zero_state (zeros 8) 0 8 proc_handler =
    fatal_then OTTERY_ERR_STATE_INIT (zero_state, zeros 8) proc_handler /\
  ottery_st_rand_bytes_nolock 4096 zero_state (zeros 8) 0 8 proc_handler =
    fatal_then OTTERY_ERR_STATE_INIT (zero_state, zeros 8) proc_handler /\
  Forall (fun call => call proc_handler = fatal_then OTTERY_ERR_STATE_INIT (0, zero_state) proc_handler)
    [OTTERY_RETURN_RAND_INTTYPE 4096 zero_state 4; OTTERY_RETURN_RAND_INTTYPE_NOLOCK 4096 zero_state 4;
     ottery_st_rand_unsigned 4096 zero_state; ottery_st_rand_unsigned_nolock 4096 zero_state;
     ottery_st_rand_uint32 4096 zero_state; ottery_st_rand_uint32_nolock 4096 zero_state;
     ottery_st_rand_uint64 4096 zero_state; ottery_st_rand_uint64_nolock 4096 zero_state;
     ottery_st_rand_range 5 4096 zero_state 100; ottery_st_rand_range_nolock 6 4096 zero_state 100;
     ottery_st_rand_range64 5 4096 zero_state 100; ottery_st_rand_range64_nolock 6 4096 zero_state 100] /\
  Forall (fun call => call proc_handler =
      fatal_then OTTERY_ERR_STATE_INIT (OTTERY_ERR_STATE_INIT, zero_state) proc_handler)
    [ottery_st_add_seed 4096 zero_state None 8; ottery_st_add_seed_nolock 4096 zero_state None 8].
Proof.
  apply (uninitialised_state_refused 4096 zero_state (zeros 8) 0 8 None 100 5 4 proc_handler);
    [reflexivity|vm_compute; discriminate|lia].
Defined.

(** Wiping an initialized state of an aligned address erases it, and every
    later output call aborts (without a handler). *)
Theorem wiped_state_refused {W : Type} {OS0 : OS W} {BC : BuildConfig} {PL : Platform}
    addr st out off n (s : process W) :
  OTTERY_NO_INIT_CHECK = false -> Z.land addr 0xf = 0 -> lock_ready st ->
  ottery_fatal_handler s = None ->
  exists st', ottery_st_wipe st s = Ret (st', s) /\
    st_buffer st' = zeros MAX_OUTPUT_LEN /\ st_state st' = zeros MAX_STATE_LEN /\
    ottery_st_rand_bytes addr st' out off n s = Aborted.
Proof.
  intros Hb Ha Hl Hh. exists zero_state. split_and!; try done.
  - unfold ottery_st_wipe, DESTROY_LOCK. destruct Hl as [-> | Hl]; [done|].
    rewrite Hl. by destruct lock_impl.
  - assert (st_magic zero_state <> MAGIC addr) as Hm.
    { intros E. by apply (MAGIC_nonzero addr Ha). }
    unfold ottery_st_rand_bytes, bind. rewrite (lock_and_check_fatal addr _ s Hb Hm).
    unfold fatal_then. by rewrite Hh.
Qed.

Lemma wiped_state_refused_witness :
  exists st', ottery_st_wipe api0 proc0 = Ret (st', proc0) /\
    st_buffer st' = zeros MAX_OUTPUT_LEN /\ st_state st' = zeros MAX_STATE_LEN /\
    ottery_st_rand_bytes 4096 st' (zeros 8) 0 8 proc0 = Aborted.
Proof.
  apply (wiped_state_refused 4096 api0 (zeros 8) 0 8 proc0);
    [reflexivity|reflexivity|by right|reflexivity].
Defined.

(** On a ready state the locked and the lock-free byte functions both write
    the same bytes, those of the abstract request, release the lock they took,
    keep magic number, pid and configuration, and touch nothing outside. *)
Theorem rand_bytes_locked_and_nolock {W : Type} {OS0 : OS W} {BC : BuildConfig} {PL : Platform}
    {p} {PS : PrfSpec p} {PZ : PrfSizes p} addr st a out off n (s : process W) :
  ready addr st a s -> 0 <= off -> 0 <= n < 2 ^ 63 -> off + n <= zlen out ->
  exists st1 st2 out',
    ottery_st_rand_bytes addr st out off n s = Ret (st1, out', s) /\
    ottery_st_rand_bytes_nolock addr st out off n s = Ret (st2, out', s) /\
    wrote off n out out' /\
    slice out' off n = fst (get_bytes (state_bytes p) (output_len p) (prf_out p) n a) /\
    ready addr st1 (snd (get_bytes (state_bytes p) (output_len p) (prf_out p) n a)) s /\
    ready addr st2 (snd (get_bytes (state_bytes p) (output_len p) (prf_out p) n a)) s /\
    same_frame st st1 /\ same_frame st st2.
Proof.
  intros Hd Ho Hn Hout.
  destruct (api_rand_bytes_ok addr st a out off n s Hd Ho Hn Hout) as (st1 & E1 & Hr1 & Hf1).
  destruct (api_rand_bytes_nolock_ok addr st a out off n s (rd_checked _ _ _ _ Hd) Ho Hn Hout)
    as (st2 & E2 & Hr2 & Hf2).
  destruct (rand_bytes_impl_ok st a out off n (ck_rep _ _ _ _ (rd_checked _ _ _ _ Hd)) Ho Hn Hout)
    as (_ & _ & _ & _ & Hl).
  do 3 eexists. split; [exact E1|]. split; [exact E2|].
  split; [apply wrote_splice; lia|]. split; [apply slice_splice_eq; lia|].
  assert (forall st', same_frame st st' ->
    rep st' (snd (get_bytes (state_bytes p) (output_len p) (prf_out p) n a)) ->
    ready addr st' (snd (get_bytes (state_bytes p) (output_len p) (prf_out p) n a)) s) as Hrd.
  { intros st' Hf Hr. destruct Hd as [Hc Hlk]. split; [by eapply checked_frame|].
    unfold lock_ready in *. by rewrite (frame_mutex _ _ Hf). }
  auto.
Qed.

Lemma rand_bytes_locked_and_nolock_witness :
  exists st1 st2 out',
    ottery_st_rand_bytes 4096 api0 (zeros 100) 0 100 proc0 = Ret (st1, out', proc0) /\
    ottery_st_rand_bytes_nolock 4096 api0 (zeros 100) 0 100 proc0 = Ret (st2, out', proc0) /\
    wrote 0 100 (zeros 100) out' /\
    slice out' 0 100 = fst (get_bytes (state_bytes dummy_prf) (output_len dummy_prf)
      (prf_out dummy_prf) 100 ready0_prng) /\
    ready (p := dummy_prf) 4096 st1 (snd (get_bytes (state_bytes dummy_prf)
      (output_len dummy_prf) (prf_out dummy_prf) 100 ready0_prng)) proc0 /\
    ready (p := dummy_prf) 4096 st2 (snd (get_bytes (state_bytes dummy_prf)
      (output_len dummy_prf) (prf_out dummy_prf) 100 ready0_prng)) proc0 /\
    same_frame api0 st1 /\ same_frame api0 st2.
Proof.
  apply (rand_bytes_locked_and_nolock (p := dummy_prf) 4096 api0 ready0_prng (zeros 100) 0 100 proc0);
    [exact api0_ready|lia|lia|vm_compute; discriminate].
Defined.

(** C6: in a process other than the one that seeded the state (after a fork),
    output first reseeds: on success the bytes are those of a generator
    constructed from fresh entropy alone, whatever the inherited state, and the
    state records the new pid; if the sources fail, the call reports
    POSTFORK_RESEED with their error and writes nothing. The lock is released
    either way. *)
Theorem fork_reseeds {W : Type} {OS0 : OS W} {BC : BuildConfig} {PL : Platform} {OL : OSLaws OS0}
    {p} {PS : PrfSpec p} {PZ : PrfSizes p} addr st a out off n (s : process W) :
  rep st a -> OTTERY_NO_INIT_CHECK = true \/ st_magic st = MAGIC addr -> lock_ready st ->
  no_pid_check = false -> st_pid st <> os_getpid (world s) ->
  0 <= off -> 0 <= n < 2 ^ 63 -> off + n <= zlen out ->
  (exists er used st' s' a',
     entropy_success (Some (st_entropy_config st)) 0 (state_bytes p)
       (ottery_get_entropy_bufsize_ (state_bytes p)) er used /\
     a' = construct (state_bytes p) (output_len p) (prf_out p) (seed_bytes er) /\
     ottery_st_rand_bytes addr st out off n s =
       Ret (st', splice out off (fst (get_bytes (state_bytes p) (output_len p) (prf_out p) n a')), s') /\
     ready addr st' (snd (get_bytes (state_bytes p) (output_len p) (prf_out p) n a')) s') \/
  (exists err st' s',
     (err = OTTERY_ERR_INIT_STRONG_RNG \/ err = OTTERY_ERR_ACCESS_STRONG_RNG) /\
     st_mutex st' = st_mutex st /\ same_process s s' /\
     ottery_st_rand_bytes addr st out off n s =
       fatal_then (Z.lor OTTERY_ERR_FLAG_POSTFORK_RESEED err) (st', out) s').
Proof.
  intros Hr Hm Hl Hb Hp Ho Hn Hout. unfold ottery_st_rand_bytes, ottery_st_rand_lock_and_check.
  rewrite bind_assoc, (bind_Ret _ _ _ _ _ (check_init_ok addr st s Hm)). cbn [negb].
  rewrite bind_assoc, (bind_Ret _ _ _ _ _ (LOCK_ok st s Hl)).
  set (stl := set_mutex (held (st_mutex st)) st).
  assert (seedable (p := p) stl) as Hsd by (by apply (rep_seedable _ a), rep_set_mutex).
  destruct (check_pid_fork addr stl s Hsd Hb Hp) as
    [(er & used & st1 & s1 & E & _ & Hok & Hr1 & Hpid & Hmag & Hmx & _)
    |(err & st1 & s1 & He & E & Hsp & Hf)].
  - left. rewrite bind_assoc, (bind_Ret _ _ _ _ _ E). cbn [negb]. rewrite bind_ret. cbn [negb].
    set (a' := construct _ _ _ _) in *.
    destruct (rand_bytes_impl_ok st1 a' out off n Hr1 Ho Hn Hout) as (st2 & E2 & Hr2 & Hf2 & _).
    rewrite E2, bind_lift_Some.
    assert (st_mutex st2 = held (st_mutex st)) as Hm2 by (rewrite (frame_mutex _ _ Hf2); exact Hmx).
    rewrite (bind_Ret _ _ _ _ _ (UNLOCK_ok st st2 s1 Hl Hm2)).
    exists er, used. do 2 eexists. exists a'. split; [exact Hok|]. split; [done|].
    split; [reflexivity|]. destruct Hf2. split; [|by destruct Hl as [?|?]; [left|right]].
    split; [by apply rep_set_mutex|cbn..].
    + destruct Hm as [?|Hm]; [by left|right]. rewrite frame_magic, Hmag. exact Hm.
    + right. by rewrite frame_pid.
  - right. assert (st_mutex st1 = held (st_mutex st)) as Hm1 by (rewrite (sf_mutex _ _ Hf); done).
    exists err, (set_mutex (st_mutex st) st1), s1. split; [done|]. split; [done|]. split; [done|].
    unfold fatal_then. rewrite (sp_handler _ _ Hsp). unfold bind at 1 2. rewrite E.
    destruct (ottery_fatal_handler s) as [h|]; [|done]. cbn [negb].
    by rewrite (bind_Ret _ _ _ _ _ (UNLOCK_ok st st1 _ Hl Hm1)).
Qed.

(** The process of a forked child. *)
Definition child0 : process tworld :=
  mk_process (mk_tworld 78 12 0x21b6 x2a (2 ^ 30 + 2 ^ 9) [] []) 0 None.

Lemma fork_reseeds_witness :
  (exists er used st' s' a',
     entropy_success (Some (st_entropy_config api0)) 0 (state_bytes dummy_prf)
       (ottery_get_entropy_bufsize_ (state_bytes dummy_prf)) er used /\
     a' = construct (state_bytes dummy_prf) (output_len dummy_prf) (prf_out dummy_prf)
            (seed_bytes er) /\
     ottery_st_rand_bytes 4096 api0 (zeros 8) 0 8 child0 =
       Ret (st', splice (zeros 8) 0 (fst (get_bytes (state_bytes dummy_prf)
              (output_len dummy_prf) (prf_out dummy_prf) 8 a')), s') /\
     ready (p := dummy_prf) 4096 st' (snd (get_bytes (state_bytes dummy_prf)
       (output_len dummy_prf) (prf_out dummy_prf) 8 a')) s') \/
  (exists err st' s',
     (err = OTTERY_ERR_INIT_STRONG_RNG \/ err = OTTERY_ERR_ACCESS_STRONG_RNG) /\
     st_mutex st' = st_mutex api0 /\ same_process child0 s' /\
     ottery_st_rand_bytes 4096 api0 (zeros 8) 0 8 child0 =
       fatal_then (Z.lor OTTERY_ERR_FLAG_POSTFORK_RESEED err) (st', zeros 8) s').
Proof.
  apply (fork_reseeds (p := dummy_prf) 4096 api0 ready0_prng (zeros 8) 0 8 child0);
    [exact (ck_rep _ _ _ _ (rd_checked _ _ _ _ api0_ready))|by right|by right|reflexivity|
     vm_compute; discriminate|lia|lia|vm_compute; discriminate].
Defined.

(** C33: [ottery_st_add_seed] with bytes always succeeds, mixes exactly the [n]
    bytes into the key, asks nothing of the world and counts no entropy for them.
    With a null seed of any length or an empty one it calls the entropy sources and
    returns their error code: if they succeed it mixes in the bytes they gave and
    adds their flags; if they fail it leaves the generator as it was. Either way the
    magic number, pid, configuration and lock stay. *)
Theorem add_seed_contract {W : Type} {OS0 : OS W} {BC : BuildConfig} {PL : Platform}
    {OL : OSLaws OS0} {p} {PS : PrfSpec p} {PZ : PrfSizes p}
    addr st a n (s : process W) :
  ready addr st a s ->
  (forall seed, 0 < n <= zlen seed ->
     exists st', ottery_st_add_seed addr st (Some seed) n s = Ret (0, st', s) /\ seed_frame st st' /\
       rep st' (add (state_bytes p) (output_len p) (prf_out p) (slice seed 0 n) (mk_prng (K a) [])) /\
       st_entropy_src_flags st' = st_entropy_src_flags st) /\
  (forall seed, seed = None \/ n = 0 ->
     let cfg := st_entropy_config st in let len := ottery_get_entropy_bufsize_ (state_bytes p) in
     exists er s' st',
       ottery_get_entropy_ (Some cfg) (Some (st_entropy_state st)) 0 (zeros len) (state_bytes p) len s = Ret (er, s') /\
       ottery_st_add_seed addr st seed n s = Ret (er_err er, st', s') /\ seed_frame st st' /\
       ((er_err er = 0 /\ (exists used, entropy_success (Some cfg) 0 (state_bytes p) len er used) /\
         rep st' (add (state_bytes p) (output_len p) (prf_out p) (seed_bytes er) (mk_prng (K a) [])) /\
         st_entropy_src_flags st' = Z.lor (st_entropy_src_flags st) (er_flags_out er)) \/
        ((er_err er = OTTERY_ERR_INIT_STRONG_RNG \/ er_err er = OTTERY_ERR_ACCESS_STRONG_RNG) /\ rep st' a))).
Proof.
  intros [[Hr Hm Hp] Hl]. split.
  - intros seed Hn. destruct (api_add_seed_ok addr st a seed n true true s Hr (fun _ => Hl) Hm Hn)
      as (st' & E & Hr' & Hf & Hs & _). by exists st'.
  - intros seed Hn cfg len. assert (n = 0 \/ seed = None) as Hn' by tauto.
    destruct (api_add_seed_os_run addr st a seed n true true s Hr (fun _ => Hl) Hm Hn')
      as (er & s' & Ee & st' & E & _ & Hf & H). exists er, s', st'. split; [done|]. split; [done|]. split; [done|].
    destruct H as [(He & Hu & Hr' & Hfl & _)|H]; [by left|by right].
Qed.

(** With bytes, and with a null seed of five. *)
Lemma add_seed_contract_witness :
  (exists st', ottery_st_add_seed 4096 api0 (Some (zeros 5)) 5 proc0 = Ret (0, st', proc0) /\
     rep (p := dummy_prf) st' (add (state_bytes dummy_prf) (output_len dummy_prf) (prf_out dummy_prf)
       (slice (zeros 5) 0 5) (mk_prng (K ready0_prng) []))) /\
  (exists er s' st', ottery_st_add_seed 4096 api0 None 5 proc0 = Ret (0, st', s') /\
     rep (p := dummy_prf) st' (add (state_bytes dummy_prf) (output_len dummy_prf) (prf_out dummy_prf)
       (seed_bytes er) (mk_prng (K ready0_prng) []))).
Proof.
  destruct (add_seed_contract (p := dummy_prf) 4096 api0 ready0_prng 5 proc0 api0_ready) as [H1 H2]. split.
  - destruct (H1 (zeros 5)) as (st' & E & _ & Hr & _); [vm_compute; split; [reflexivity|discriminate]|]. exists st'. split; [exact E|exact Hr].
  - destruct (H2 None (or_introl eq_refl)) as (er & s' & st' & E1 & E & _ & H). vm_compute in E1. injection E1 as <- <-.
    destruct H as [(_ & _ & Hr & _)|[[He|He] _]]; [|discriminate He..]. eexists _, _, st'. split; [exact E|exact Hr].
Defined.

(** C34: seed does not outlive its use: when reseeding succeeds, the stack buffer
    it took the entropy into holds zeros in place of every byte that went into
    the key; when adding seed from the entropy sources succeeds, the whole of its
    buffer is zero. *)
Theorem seed_buffers_cleared {W : Type} {OS0 : OS W} {BC : BuildConfig} {PL : Platform}
    {OL : OSLaws OS0} {p} {PS : PrfSpec p} {PZ : PrfSizes p}
    addr st a locking (s : process W) :
  ready addr st a s ->
  let size := ottery_get_entropy_bufsize_ (state_bytes p) in
  let used_all er used :=
    entropy_success (Some (st_entropy_config st)) 0 (state_bytes p) size er used in
  (exists err st' buf s', reseed_frame addr st s = Ret (err, st', buf, s') /\
    (err = 0 -> exists er used, used_all er used /\
      rep st' (construct (state_bytes p) (output_len p) (prf_out p) (seed_bytes er)) /\
      slice buf 0 (zlen (seed_bytes er)) = zeros (zlen (seed_bytes er)))) /\
  (exists err st' buf s', add_seed_frame addr st None 0 locking true s = Ret (err, st', buf, s') /\
    (err = 0 -> exists er used, used_all er used /\
      rep st' (add (state_bytes p) (output_len p) (prf_out p) (seed_bytes er) (mk_prng (K a) [])) /\
      buf = zeros (zlen (er_bytes er)))).
Proof.
  intros [[Hr Hm _] Hl] size used_all. split.
  - destruct (reseed_frame_ok addr st s (rep_seedable _ _ Hr))
      as (er & st' & buf & s' & E & _ & _ & H & Hbuf). exists (er_err er), st', buf, s'. split; [done|].
    destruct H as [(He & Hb & (used & Hok) & Hr' & _)|[[-> | ->] _]]; [|done..].
    intros _. rewrite (Hbuf He). exists er, used. split; [done|]. split; [done|].
    unfold seed_bytes. rewrite zlen_slice by lia.
    rewrite slice_splice_0 by (rewrite ?zlen_zeros; lia). apply slice_all. rewrite zlen_zeros; lia.
  - destruct (add_seed_frame_os_ok addr st a None 0 locking true s Hr (fun _ => Hl) Hm (or_introl eq_refl))
      as (err & st' & buf & s' & E & _ & _ & H). exists err, st', buf, s'. split; [done|].
    destruct H as [(_ & er & used & Hb & Hok & Hr' & _)|[[-> | ->] _]]; [|done..].
    intros _. by exists er, used.
Qed.

Lemma seed_buffers_cleared_witness :
  let size := ottery_get_entropy_bufsize_ (state_bytes dummy_prf) in
  let used_all er used :=
    entropy_success (Some (st_entropy_config api0)) 0 (state_bytes dummy_prf) size er used in
  (exists err st' buf s', reseed_frame 4096 api0 proc0 = Ret (err, st', buf, s') /\
    (err = 0 -> exists er used, used_all er used /\
      rep (p := dummy_prf) st' (construct (state_bytes dummy_prf) (output_len dummy_prf)
        (prf_out dummy_prf) (seed_bytes er)) /\
      slice buf 0 (zlen (seed_bytes er)) = zeros (zlen (seed_bytes er)))) /\
  (exists err st' buf s', add_seed_frame 4096 api0 None 0 true true proc0 = Ret (err, st', buf, s') /\
    (err = 0 -> exists er used, used_all er used /\
      rep (p := dummy_prf) st' (add (state_bytes dummy_prf) (output_len dummy_prf)
        (prf_out dummy_prf) (seed_bytes er) (mk_prng (K ready0_prng) [])) /\
      buf = zeros (zlen (er_bytes er)))).
Proof.
  apply (seed_buffers_cleared (p := dummy_prf) 4096 api0 ready0_prng true proc0). exact api0_ready.
Defined.

(** The range functions, by width and by whether they lock. *)
Definition range_call {W : Type} {OS0 : OS W} {BC : BuildConfig} {PL : Platform}
    (wide locked : bool) (fuel : nat) (addr : Z) (st : ottery_state) (upper : Z)
  : M W (Z * ottery_state) :=
  match wide, locked with
  | false, true => ottery_st_rand_range fuel addr st upper
  | false, false => ottery_st_rand_range_nolock fuel addr st upper
  | true, true => ottery_st_rand_range64 fuel addr st upper
  | true, false => ottery_st_rand_range64_nolock fuel addr st upper
  end.

Lemma range_call_ok {W : Type} {OS0 : OS W} {BC : BuildConfig} {PL : Platform}
    {p} {PS : PrfSpec p} {PZ : PrfSizes p} (wide locked : bool) fuel addr st a upper (s : process W) :
  let size := if wide then 8 else 4 in
  ready addr st a s ->
  match range (state_bytes p) (output_len p) (prf_out p) fuel size (range_divisor size upper)
          upper a with
  | Some (n, a') => exists st', range_call wide locked fuel addr st upper s = Ret (n, st', s) /\
      rep st' a' /\ same_frame st st'
  | None => range_call wide locked fuel addr st upper s = NoFuel
  end.
Proof.
  intros size Hd. assert (1 <= size <= 8) as Hsz by (by destruct wide). destruct locked.
  - pose proof (api_rand_range_ok fuel addr st a size (range_divisor size upper) upper s Hd Hsz) as H.
    cbv zeta in H. by destruct wide.
  - pose proof (rand_range_loop_ok fuel addr st a size (range_divisor size upper) upper s
      (rd_checked _ _ _ _ Hd) Hsz) as H. by destruct wide.
Qed.

(** C30: each of the four range functions returns a value in [0, upper], the one
    that the abstract generator's draws give, with the lock released and the
    generator ready for the next call; it keeps drawing exactly while the
    quotient is too large. *)
Theorem rand_range_contract {W : Type} {OS0 : OS W} {BC : BuildConfig} {PL : Platform}
    {p} {PS : PrfSpec p} {PZ : PrfSizes p} wide locked fuel addr st a upper (s : process W) :
  let size := if wide : bool then 8 else 4 in
  ready addr st a s -> 0 <= upper < 2 ^ (8 * size) ->
  match range (state_bytes p) (output_len p) (prf_out p) fuel size (range_divisor size upper)
          upper a with
  | Some (n, a') => 0 <= n <= upper /\
      exists st', range_call wide locked fuel addr st upper s = Ret (n, st', s) /\
        ready addr st' a' s
  | None => range_call wide locked fuel addr st upper s = NoFuel
  end.
Proof.
  intros size Hd Hu. assert (1 <= size <= 8) as Hsz by (by destruct wide).
  destruct (range_divisor_facts size upper ltac:(lia) Hu) as (Hdiv & _).
  pose proof (range_bound (p := p) fuel size (range_divisor size upper) upper a) as Hb.
  pose proof (range_call_ok wide locked fuel addr st a upper s Hd) as H. fold size in H.
  destruct (range _ _ _ _ _ _ _ _) as [[n a']|]; [|done]. split; [by apply (Hb n a')|].
  destruct H as (st' & E & Hr & Hf). exists st'. split; [done|]. by eapply ready_frame.
Qed.

Lemma rand_range_contract_witness :
  match range (state_bytes dummy_prf) (output_len dummy_prf) (prf_out dummy_prf) 3 4
    (range_divisor 4 1000) 1000 ready0_prng with
  | Some (n, a') => 0 <= n <= 1000 /\
      exists st', range_call false true 3 4096 api0 1000 proc0 = Ret (n, st', proc0) /\
        ready (p := dummy_prf) 4096 st' a' proc0
  | None => range_call false true 3 4096 api0 1000 proc0 = NoFuel
  end.
Proof.
  apply (rand_range_contract (p := dummy_prf) false true 3 4096 api0 ready0_prng 1000 proc0);
    [exact api0_ready|lia].
Defined.

(** C11: the range functions are unbiased: of the 2^(8*size) equally likely
    draws, exactly [range_divisor] give each value in [0, upper], and at least
    half of all draws are accepted, for every [upper] of the type, its maximum
    included. *)
Theorem range_unbiased size upper :
  1 <= size -> 0 <= upper < 2 ^ (8 * size) ->
  (forall v, 0 <= v <= upper ->
    zlen (filter (fun r => r / range_divisor size upper = v) (seqZ 0 (2 ^ (8 * size)))) =
      range_divisor size upper) /\
  2 ^ (8 * size) <=
    2 * zlen (filter (fun r => r / range_divisor size upper <= upper) (seqZ 0 (2 ^ (8 * size)))).
Proof.
  intros Hs Hu. destruct (range_divisor_facts size upper Hs Hu) as (Hd & Hle & Hge).
  set (d := range_divisor size upper) in *. split.
  - intros v Hv. rewrite (filter_interval _ (v * d) (v * d + d)); [|nia..|].
    + unfold zlen. rewrite length_seqZ. lia.
    + intros r Hr. pose proof (draw_div size upper v r Hs Hu ltac:(lia)) as H. fold d in H.
      rewrite H. lia.
  - rewrite (filter_interval _ 0 (d * (upper + 1))); [|nia..|].
    + unfold zlen. rewrite length_seqZ. lia.
    + intros r Hr. pose proof (Z.div_mod r d ltac:(lia)). pose proof (Z.mod_pos_bound r d Hd). nia.
Qed.

Lemma range_unbiased_witness :
  (forall v, 0 <= v <= 99 ->
    zlen (filter (fun r => r / range_divisor 4 99 = v) (seqZ 0 (2 ^ (8 * 4)))) =
      range_divisor 4 99) /\
  2 ^ (8 * 4) <=
    2 * zlen (filter (fun r => r / range_divisor 4 99 <= 99) (seqZ 0 (2 ^ (8 * 4)))).
Proof. apply (range_unbiased 4 99); lia. Defined.

(** C31: the range loops end at the first acceptable draw, at either width,
    locked or not: if one of the next [fuel] draws has a quotient within [upper],
    the call returns, with a value in [0, upper]. *)
Theorem rand_range_returns {W : Type} {OS0 : OS W} {BC : BuildConfig} {PL : Platform}
    {p} {PS : PrfSpec p} {PZ : PrfSizes p} wide locked fuel k addr st a upper (s : process W) :
  let size := if wide : bool then 8 else 4 in
  ready addr st a s -> 0 <= upper < 2 ^ (8 * size) -> (k < fuel)%nat ->
  draw p size k a / range_divisor size upper <= upper ->
  exists n st' a', range_call wide locked fuel addr st upper s = Ret (n, st', s) /\
    0 <= n <= upper /\ ready (p := p) addr st' a' s.
Proof.
  intros size Hc Hu Hk Hd. assert (1 <= size <= 8) as Hsz by (by destruct wide).
  destruct (range_divisor_facts size upper ltac:(lia) Hu) as (Hdiv & _).
  destruct (range_returns fuel size (range_divisor size upper) upper k a Hk Hd) as (n & a' & E).
  pose proof (range_call_ok wide locked fuel addr st a upper s Hc) as H. fold size in H.
  rewrite E in H. destruct H as (st' & E' & Hr & Hf). exists n, st', a'. split; [exact E'|].
  split; [by eapply range_bound|]. by eapply ready_frame.
Qed.

Lemma rand_range_returns_witness :
  exists n st' a', range_call true false 2 4096 api0 (2 ^ 40) proc0 = Ret (n, st', proc0) /\
    0 <= n <= 2 ^ 40 /\ ready (p := dummy_prf) 4096 st' a' proc0.
Proof.
  apply (rand_range_returns (p := dummy_prf) true false 2 0 4096 api0 ready0_prng (2 ^ 40) proc0);
    [exact api0_ready|lia|lia|vm_compute; discriminate].
Defined.
