(* ===== verification/TestSpec.v ===== *)
(** * The specification test: test/test_spec.c against test/hs/test_ottery.hs

    The two programs whose output [test_spec_cmp.sh] compares: the C one, which
    seeds a state from a file and makes a fixed list of requests, and the Haskell
    one, which makes the same requests to the model of HsOttery.v. Their texts are
    shown to be equal, for whichever ChaCha8 implementation the library chooses. *)
From stdpp Require Import pretty.
From S2P Require Import Prelude Words Memory Internal Spec Prng Refine TestPrf Session.
From S2P Require Import ChaChaRef ChaChaMerged ChaChaKrovetz ChaChaPrf Os CpuInfo Entropy.
From S2P Require Import TestOs TestVectors HsChaCha HsOttery Config Api ApiRefine.
Local Open Scope Z_scope.
Local Open Scope ottery_scope.

(** ** The text both print *)

Definition quote : string := String (Ascii.ascii_of_nat 34) EmptyString.

(** A line of the demonstrations, which are the same text in both languages. *)
Inductive command := u32_ | u64_ | nBytes (n : Z) | addHexSeed (seed : string).

Definition replicateM_ (n : nat) (c : command) : list command := replicate n c.

(** ** test/test_spec.c *)

(** [malloc]: a null pointer, or memory of the length asked for. *)
Class Heap := {
  malloc : Z -> option (list byte);
  malloc_len : forall n m, malloc n = Some m -> zlen m = n;
}.

(** [isxdigit] *)
Definition isxdigit (c : Ascii.ascii) : bool :=
  let n := Ascii.nat_of_ascii c in
  ((48 <=? n) && (n <=? 57) || (65 <=? n) && (n <=? 70) || (97 <=? n) && (n <=? 102))%nat.

(** [None] is the call of [abort]. *)
Definition hexnybble (c : Ascii.ascii) : option Z :=
  let n := Z.of_nat (Ascii.nat_of_ascii c) in
  if (48 <=? n) && (n <=? 57) then Some (n - 48)
  else if (97 <=? n) && (n <=? 102) then Some (n - 97 + 10)
  else if (65 <=? n) && (n <=? 70) then Some (n - 65 + 10)
  else None.

(** The loop over the digits: what it prints, its result and what it has written. *)
Fixpoint get_hex_loop (hex_ hex : string) (out : list byte) (o : Z)
  : option (string * Z * list byte) :=
  match hex with
  | EmptyString => Some (EmptyString, 0, out)
  | String _ EmptyString => Some (puts ("odd-length hex string " ++ hex_), 1, out)
  | String a (String b hex) =>
      if negb (isxdigit a && isxdigit b) then
        Some (puts ("bad digit in hex string " ++ hex_), 2, out)
      else
        x ← hexnybble a; y ← hexnybble b;
        out ← mwrite out o [byte_of_Z (Z.lor (Z.shiftl x 4) y)];
        get_hex_loop hex_ hex out (o + 1)
  end.

Definition get_hex (hex_ : string) (out : list byte) := get_hex_loop hex_ hex_ out 0.

Definition strlen (s : string) : Z := Z.of_nat (String.length s).

(** [dump_hex] *)
Definition dump_hex (bytes : list byte) (n : Z) : string :=
  quote ++ b2a_hex (slice bytes 0 n) ++ puts quote.

Section Program.
Context {W : Type} {OS0 : OS W} {BC : BuildConfig} {PL : Platform} {HP : Heap}.
Context (addr : Z).

(** One line: what it prints, and the state or the code it exits with. *)
Definition run_command (c : command) (st : ottery_state) : M W (string * (Z + ottery_state)) :=
  match c with
  | u32_ =>
      do '(u, st) <- ottery_st_rand_uint32 addr st; ret (puts (pretty u), inr st)
  | u64_ =>
      do '(u, st) <- ottery_st_rand_uint64 addr st; ret (puts (pretty u), inr st)
  | nBytes n =>
      match malloc n with
      | None => ret (EmptyString, inl 1)
      | Some x =>
          do '(st, x) <- ottery_st_rand_bytes addr st x 0 n; ret (dump_hex x n, inr st)
      end
  | addHexSeed s =>
      match malloc (strlen s / 2 + 1) with
      | None => ret (EmptyString, inl 1)
      | Some x =>
          do '(text, err, x) <- lift (get_hex s x);
          if negb (err =? 0) then ret (text, inl 1)
          else
            do '(_, st) <- ottery_st_add_seed addr st (Some x) (strlen s / 2);
            ret (text, inr st)
      end
  end.

Fixpoint run_commands (cs : list command) (st : ottery_state) : M W (string * (Z + ottery_state)) :=
  match cs with
  | [] => ret (EmptyString, inr st)
  | c :: cs =>
      do '(text, r) <- run_command c st;
      match r with
      | inl code => ret (text, inl code)
      | inr st => do '(rest, r) <- run_commands cs st; ret (text ++ rest, r)%string
      end
  end.

Definition c_demo : list command :=
  [u32_; u32_; u32_; addHexSeed "f00d"; nBytes 256; u64_; u32_; nBytes 1; u64_]
  ++ replicateM_ 33 (nBytes 31)
  ++ [u64_;
      addHexSeed ("b3da221ed5011d1f1ab1ef1dd1efaced10ca112e" ++
                  "f1eece1e55d1ab011ca150c1a151111caf100d52" ++
                  "0ff00d");
      u64_; nBytes 1]
  ++ replicateM_ 130 u64_
  ++ [addHexSeed "00"; nBytes 99; nBytes 17777; u64_].

Definition no_state : string := "couldn't initialize state".

(** What [main] prints, and its exit code. *)
Definition test_spec_main (argv1 : option string) : M W (string * Z) :=
  match argv1 with
  | None => ret (puts "I need the location of test_spec_seed", 1)
  | Some arg =>
      let config := ottery_config_init in
      do '(_, config) <- ottery_config_force_implementation config (Some OTTERY_PRF_CHACHA8);
      if decide (arg = "--blocks-per-call") then
        do '(err, st) <- ottery_st_init addr zero_state (Some config);
        if negb (err =? 0) then ret (puts no_state, 1)
        else ret (puts (pretty (output_len (st_prf st) / 64)), 0)
      else
        let config := ottery_config_set_urandom_device config (Some arg) in
        let config := ottery_config_disable_entropy_sources config
          (Z.ldiff OTTERY_ENTROPY_ALL_SOURCES OTTERY_ENTROPY_SRC_RANDOMDEV) in
        let c := cfg_entropy config in
        let config := mk_config (cfg_impl config)
          (mk_entropy_config (urandom_fname c) (urandom_fd c) (urandom_fd_is_set c) (egd_sockaddr c)
             (egd_socklen c) (disabled_sources c) (weak_sources c) true) in
        do '(err, st) <- ottery_st_init addr zero_state (Some config);
        if negb (err =? 0) then ret (puts no_state, 1)
        else
          do '(text, r) <- run_commands c_demo st;
          match r with inl code => ret (text, code) | inr _ => ret (text, 0) end
  end.

End Program.

(** ** test/hs/test_ottery.hs *)

Definition digitToInt : Ascii.ascii -> option Z := hexnybble.

Fixpoint fromHex (s : string) : option (list byte) :=
  match s with
  | EmptyString => Some []
  | String a (String b rest) =>
      x ← digitToInt a; y ← digitToInt b;
      rest ← fromHex rest; Some (byte_of_Z (16 * x + y) :: rest)
  | _ => None
  end.

Fixpoint toHex (bs : list byte) : string :=
  match bs with
  | [] => EmptyString
  | b :: rest =>
      hex_digit (Z_of_byte b / 16) ++ hex_digit (Z.land (Z_of_byte b) 15) ++ toHex rest
  end.

(** [print] of a number, and of a string with nothing to escape. *)
Definition print_num (n : Z) : string := puts (pretty n).
Definition print_str (s : string) : string := puts (quote ++ s ++ quote).

Section Haskell.
Context {a : Type}.

Definition hs_command (c : command) (prng : HsOttery.PRNG a) : option (string * HsOttery.PRNG a) :=
  match c with
  | u32_ => '(prng, result) ← HsOttery.getU32 prng; Some (print_num result, prng)
  | u64_ => '(prng, result) ← HsOttery.getU64 prng; Some (print_num result, prng)
  | nBytes n => '(prng, result) ← HsOttery.getBytes prng n; Some (print_str (toHex result), prng)
  | addHexSeed s => seed ← fromHex s; prng ← HsOttery.addSeed prng seed; Some (EmptyString, prng)
  end.

Fixpoint hs_commands (cs : list command) (prng : HsOttery.PRNG a)
  : option (string * HsOttery.PRNG a) :=
  match cs with
  | [] => Some (EmptyString, prng)
  | c :: cs =>
      '(text, prng) ← hs_command c prng;
      '(rest, prng) ← hs_commands cs prng; Some (text ++ rest, prng)%string
  end.
End Haskell.

Definition initialKey : option (list byte) :=
  fromHex ("0b501e5ce5ceba5e1e55ba0b0b0fff0c51e10de5" ++
           "c01055a1defaceab1eacc01adedcab00d1ed00d5").

Definition demo : list command :=
  [u32_; u32_; u32_; addHexSeed "f00d"; nBytes 256; u64_; u32_; nBytes 1; u64_]
  ++ replicateM_ 33 (nBytes 31)
  ++ [u64_;
      addHexSeed ("b3da221ed5011d1f1ab1ef1dd1efaced10ca112e" ++
                  "f1eece1e55d1ab011ca150c1a151111caf100d52" ++
                  "0ff00d");
      u64_; nBytes 1]
  ++ replicateM_ 130 u64_
  ++ [addHexSeed "00"; nBytes 99; nBytes 17777; u64_].

(** [getInt]: the decimal digits at the start, at least one. *)
Fixpoint readDec (s : string) (acc : Z) : Z :=
  match s with
  | String c s =>
      let n := Z.of_nat (Ascii.nat_of_ascii c) in
      if (48 <=? n) && (n <=? 57) then readDec s (10 * acc + (n - 48)) else acc
  | EmptyString => acc
  end.

Definition getInt (s : string) : option Z :=
  match s with
  | String c _ =>
      let n := Z.of_nat (Ascii.nat_of_ascii c) in
      if (48 <=? n) && (n <=? 57) then Some (readDec s 0) else None
  | EmptyString => None
  end.

(** What [main] prints for its argument. *)
Definition test_ottery_main (blocksPerCall : string) : option string :=
  n ← getInt blocksPerCall;
  key ← initialKey;
  prng ← HsOttery.initChaCha8PRNG n key;
  '(text, _) ← hs_commands demo prng; Some text.

(** ** The check of lengths *)

Definition action_of (c : command) : option action :=
  match c with
  | u32_ => Some U32
  | u64_ => Some U64
  | nBytes n => Some (NBytes n)
  | addHexSeed s => Seed <$> fromHex s
  end.

Definition demo_fits (step : Z) : bool :=
  match mapM action_of demo with
  | Some xs => hs_fits_all 40 (64 * step) (64 * step - 40) xs
  | None => false
  end.

(** ** Lemmas: text *)

Lemma toHex_b2a bs : toHex bs = b2a_hex bs.
Proof.
  induction bs as [|b bs IH]; [done|]. rewrite b2a_hex_cons. cbn [toHex]. unfold hex2.
  rewrite string_app_assoc, IH. change 15 with (Z.ones 4). by rewrite Z.land_ones by lia.
Qed.

(** What both print for an answer. *)
Definition answer_text (x : answer) : string :=
  match x with
  | Int v => puts (pretty v)
  | Bytes bs => quote ++ b2a_hex bs ++ puts quote
  | Done => EmptyString
  end.

Definition session_text (xs : list answer) : string := String.concat "" (answer_text <$> xs).

Lemma session_text_cons x xs : session_text (x :: xs) = (answer_text x ++ session_text xs)%string.
Proof. apply concat_cons. Qed.

(** ** Lemmas: hexadecimal seeds *)

Lemma hexnybble_range c x : hexnybble c = Some x -> 0 <= x < 16 /\ isxdigit c = true.
Proof.
  destruct c as [[] [] [] [] [] [] [] []]; vm_compute; intros [= <-]; repeat split; discriminate.
Qed.

Lemma nybbles x y : 0 <= x < 16 -> 0 <= y < 16 -> Z.lor (Z.shiftl x 4) y = 16 * x + y.
Proof.
  intros Hx Hy. rewrite Z.shiftl_mul_pow2 by lia. change (2 ^ 4) with 16.
  assert (In x (seqZ 0 16) /\ In y (seqZ 0 16)) as [Hx' Hy'].
  { split; apply list_elem_of_In, elem_of_seqZ; lia. }
  cbn in Hx', Hy'. by repeat (destruct Hx' as [<-|Hx']; [by repeat (destruct Hy' as [<-|Hy']; [done|])|]).
Qed.

(** Where the Haskell decoder succeeds, [get_hex] writes the same bytes. *)
Lemma get_hex_ok n : forall hex s bs out o,
  (String.length s <= n)%nat -> fromHex s = Some bs -> 0 <= o -> o + zlen bs <= zlen out ->
  get_hex_loop hex s out o = Some (EmptyString, 0, splice out o bs) /\ strlen s = 2 * zlen bs.
Proof.
  induction n as [|n IH]; intros hex s bs out o Hn Hs Ho Hl; (destruct s as [|a s]; [|]).
  1,3: injection Hs as <-; by rewrite splice_nil.
  { cbn in Hn. lia. }
  destruct s as [|b s]; [done|]. cbn [fromHex] in Hs. unfold digitToInt in Hs. cbn [get_hex_loop].
  destruct (hexnybble a) as [x|] eqn:Ex; [|done]. destruct (hexnybble b) as [y|] eqn:Ey; [|done].
  destruct (hexnybble_range _ _ Ex) as [Hx ->]. destruct (hexnybble_range _ _ Ey) as [Hy ->].
  cbn [mbind option_bind andb negb] in *. destruct (fromHex s) as [rest|] eqn:Er; [|done].
  injection Hs as <-. rewrite zlen_cons in Hl. zlen_facts.
  rewrite nybbles, mwrite_ok, bind_Some by (try done; rewrite ?zlen_cons, ?zlen_nil; lia).
  destruct (IH hex s rest (splice out o [byte_of_Z (16 * x + y)]) (o + 1)) as [E Hlen].
  { cbn in Hn. lia. } { done. } { lia. } { rewrite zlen_splice; rewrite ?zlen_cons, ?zlen_nil; lia. }
  split; [|unfold strlen in *; rewrite zlen_cons; cbn [String.length]; lia].
  rewrite E, splice_splice_app; [done|lia| |by rewrite zlen_cons].
  rewrite zlen_cons, zlen_nil. lia.
Qed.

(** ** Lemmas: one line, in C *)

Section Commands.
Context {W : Type} {OS0 : OS W} {BC : BuildConfig} {PL : Platform} {HP : Heap}.
Context {p : ottery_prf} {PS : PrfSpec p} {PZ : PrfSizes p}.
Hypothesis alloc : forall n, 0 < n -> is_Some (malloc n).

Abbreviation sb := (state_bytes p).
Abbreviation ol := (output_len p).
Abbreviation PRF := (prf_out p).

(** A request the test can make: its length has type [size_t], its seed is not
    empty. *)
Definition action_valid (x : action) : Prop :=
  match x with
  | NBytes n => 0 < n < 2 ^ 63
  | Seed seed => seed <> []
  | _ => True
  end.

Lemma run_int addr st a size (s : process W) :
  ready addr st a s -> 1 <= size <= 8 ->
  exists st', (do '(u, st) <- OTTERY_RETURN_RAND_INTTYPE addr st size; ret (puts (pretty u), inr st)) s
      = Ret (answer_text (fst (spec_step sb ol PRF a (RandInt size))), @inr Z _ st', s) /\
    ready addr st' (snd (spec_step sb ol PRF a (RandInt size))) s.
Proof.
  intros Hr Hs. destruct (api_rand_int_ok addr st a size s Hr Hs) as (st' & E & Hr' & Hf).
  exists st'. rewrite (bind_Ret _ _ _ _ _ E). cbn [spec_step].
  pose proof (ready_frame addr _ _ _ _ s Hr Hf Hr') as Hd. by destruct (tiny sb ol PRF size a).
Qed.

Lemma run_command_ok addr st a c x (s : process W) :
  ready addr st a s -> action_of c = Some x -> action_valid x ->
  exists st', run_command addr c st s =
      Ret (answer_text (fst (spec_step sb ol PRF a (request_of x))), inr st', s) /\
    ready addr st' (snd (spec_step sb ol PRF a (request_of x))) s.
Proof.
  intros Hr Hx Hv. destruct c as [| |n|hex]; cbn [action_of run_command] in *.
  - injection Hx as <-. apply (run_int addr st a 4 s Hr). lia.
  - injection Hx as <-. apply (run_int addr st a 8 s Hr). lia.
  - injection Hx as <-. cbn [action_valid request_of spec_step] in *. destruct (alloc n) as [m Hm]; [lia|].
    rewrite Hm. pose proof (malloc_len _ _ Hm) as Hl.
    destruct (api_rand_bytes_ok addr st a m 0 n s Hr) as (st' & E & Hr' & Hf); [lia..|].
    destruct (rand_bytes_impl_ok st a m 0 n (ck_rep _ _ _ _ (rd_checked _ _ _ _ Hr))) as (_ & _ & _ & _ & Hb);
      [lia..|]. rewrite (bind_Ret _ _ _ _ _ E). exists st'.
    pose proof (ready_frame addr _ _ _ _ s Hr Hf Hr') as Hd.
    destruct (get_bytes sb ol PRF n a) as [bs a']. cbn [fst snd] in *. split; [|done].
    unfold ret, dump_hex, answer_text. rewrite slice_splice_0, slice_all by lia. done.
  - destruct (fromHex hex) as [seed|] eqn:Eh; [|done]. injection Hx as <-.
    cbn [action_valid request_of spec_step] in *.
    assert (0 < zlen seed) as Hpos by (destruct seed; [done|rewrite zlen_cons; zlen_facts; lia]).
    destruct (get_hex_ok (String.length hex) hex hex seed seed 0) as [_ Hlen]; [done..|].
    rewrite Hlen, (Z.mul_comm 2), Z.div_mul by done.
    destruct (alloc (zlen seed + 1)) as [m Hm]; [lia|]. rewrite Hm. pose proof (malloc_len _ _ Hm) as Hl.
    destruct (get_hex_ok (String.length hex) hex hex seed m 0) as [E0 _]; [done|done|done|lia|].
    unfold get_hex. rewrite E0, bind_lift_Some. cbn [negb Z.eqb]. destruct Hr as [[Hr Hmg Hpid] Hlk].
    destruct (api_add_seed_ok addr st a (splice m 0 seed) (zlen seed) true true s Hr (fun _ => Hlk) Hmg)
      as (st' & E & Hr' & Hf & _); [rewrite zlen_splice; lia|].
    unfold ottery_st_add_seed. rewrite (bind_Ret _ _ _ _ _ E). exists st'. split; [done|].
    rewrite slice_splice_eq in Hr' by lia. by apply (ready_seed_frame addr st st' a).
Qed.

Lemma run_commands_ok addr cs xs (s : process W) :
  Forall2 (fun c x => action_of c = Some x /\ action_valid x) cs xs ->
  forall st a, ready addr st a s ->
  exists st', run_commands addr cs st s =
    Ret (session_text (fst (spec_session sb ol PRF a (request_of <$> xs))), inr st', s).
Proof.
  intros Hcs. induction Hcs as [|c x cs xs [Hx Hv] _ IH]; intros st a Hr; [by exists st|].
  destruct (run_command_ok addr st a c x s Hr Hx Hv) as (st1 & E1 & Hr1).
  cbn [run_commands]. rewrite fmap_cons, (bind_Ret _ _ _ _ _ E1). cbn [spec_session].
  destruct (spec_step sb ol PRF a (request_of x)) as [r a1]. cbn [fst snd] in *.
  destruct (IH st1 a1 Hr1) as (st2 & E2). rewrite (bind_Ret _ _ _ _ _ E2). exists st2.
  destruct (spec_session sb ol PRF a1 (request_of <$> xs)). cbn [fst]. by rewrite session_text_cons.
Qed.
End Commands.

(** ** Lemmas: one line, in Haskell *)

Lemma hs_command_ok {a} (h : HsOttery.PRNG a) c x :
  action_of c = Some x ->
  hs_command c h = '(r, h) ← hs_step h x; Some (answer_text r, h).
Proof.
  intros Hx. destruct c as [| |n|hex]; cbn [action_of] in Hx.
  4: destruct (fromHex hex) as [seed|] eqn:Eh; [|done].
  all: injection Hx as <-; cbn [hs_command hs_step].
  - by destruct (HsOttery.getU32 h) as [[]|].
  - by destruct (HsOttery.getU64 h) as [[]|].
  - destruct (HsOttery.getBytes h n) as [[h' bs]|]; [|done]. cbn [mbind option_bind answer_text].
    unfold print_str, puts. by rewrite toHex_b2a, !string_app_assoc.
  - rewrite Eh. cbn [mbind option_bind]. by destruct (HsOttery.addSeed h seed).
Qed.

Lemma hs_commands_ok {a} cs xs :
  Forall2 (fun c x => action_of c = Some x) cs xs -> forall (h h' : HsOttery.PRNG a) rs,
  hs_session h xs = Some (rs, h') -> hs_commands cs h = Some (session_text rs, h').
Proof.
  intros Hcs. induction Hcs as [|c x cs xs Hx _ IH]; intros h h' rs.
  { by intros [= <- <-]. }
  cbn [hs_session hs_commands]. rewrite (hs_command_ok h c x Hx).
  destruct (hs_step h x) as [[r h1]|]; [|done]. cbn [mbind option_bind].
  destruct (hs_session h1 xs) as [[rs1 h2]|] eqn:E; [|done]. cbn [mbind option_bind]. intros [= <- <-].
  rewrite (IH h1 h2 rs1 E). cbn [mbind option_bind]. by rewrite session_text_cons.
Qed.

(** ** Lemmas: the seed file *)

Section SeedFile.
Context {W : Type} {OS0 : OS W} {PL : Platform} {OL : OSLaws OS0}.

(** The file [fname] can be opened and read, and starts with [bs]. *)
Definition seed_file (fname : string) (bs : list byte) (w : W) : Prop :=
  exists fd w1 r info w2 w3, os_open fname w = (fd, w1) /\ 0 <= fd /\
    os_fstat fd w1 = (r, info, w2) /\ 0 <= r /\ reads fd (zlen bs) w2 bs w3.

(** The entropy configuration [main] makes. *)
Definition file_config (fname : string) : ottery_entropy_config :=
  mk_entropy_config (Some fname) (-1) false None 0
    (Z.land (Z.ldiff OTTERY_ENTROPY_ALL_SOURCES OTTERY_ENTROPY_SRC_RANDOMDEV) OTTERY_ENTROPY_ALL_SOURCES)
    0 true.

Lemma urandom_file fname es bs out off (s : process W) :
  seed_file fname bs (world s) -> 0 <= off -> off + zlen bs <= zlen out ->
  exists s', ottery_get_entropy_urandom (Some (file_config fname)) (Some es) out off (zlen bs) s =
    Ret (0, Some es, splice out off bs, s').
Proof.
  intros (fd & w1 & r & info & w2 & w3 & Eo & Hfd & Ef & Hr & Hrd) Ho Hl.
  unfold ottery_get_entropy_urandom, file_config. cbn [urandom_fd_is_set andb urandom_fname default
    allow_nondev_urandom negb from_option id]. rewrite bind_assoc, bind_sys, Eo. cbn [fst snd].
  rewrite bind_ret, (proj2 (Z.ltb_ge fd 0)) by done. cbn [andb]. rewrite bind_sys.
  cbn [set_world world]. rewrite Ef. cbn [fst snd]. rewrite (proj2 (Z.ltb_ge r 0)) by done. cbn [andb].
  destruct (read_n_bytes_ok fd out off (zlen bs) (set_world w2 (set_world w1 s)) Ho) as (bs' & w' & Hrd' & _ & E);
    [zlen_facts; lia|done|]. cbn [world set_world] in Hrd'. destruct (reads_det _ _ _ _ _ Hrd _ _ Hrd') as [-> ->].
  rewrite (bind_Ret _ _ _ _ _ E), Z.eqb_refl, (proj2 (Z.ltb_ge (zlen bs) 0)) by (zlen_facts; lia).
  cbn [orb negb]. rewrite bind_sys_. by eexists.
Qed.

(** With every other source disabled, the seed is the file. *)
Lemma entropy_from_file fname bs es (s : process W) :
  plat_win32 = false -> 0 < zlen bs < 2 ^ 62 -> seed_file fname bs (world s) ->
  exists er s', ottery_get_entropy_ (Some (file_config fname)) (Some es) 0
      (zeros (ottery_get_entropy_bufsize_ (zlen bs))) (zlen bs) (ottery_get_entropy_bufsize_ (zlen bs)) s
      = Ret (er, s') /\ er_err er = 0 /\ seed_bytes er = bs.
Proof.
  intros Hw Hpos Hf. rewrite bufsize_small by lia.
  assert (exists rest, RAND_SOURCES = ENTROPY_SOURCE_URANDOM :: rest /\
    Forall (fun src => (Z.land (flags src) (disabled_sources (file_config fname)) =? 0) = false) rest)
    as (rest & Hsrc & Hrest).
  { unfold RAND_SOURCES. rewrite Hw. destruct rdrand_compiled; eexists; (split; [reflexivity|]);
      repeat (apply Forall_cons_2; [reflexivity|]); apply Forall_nil_2. }
  set (bl := zlen bs * _).
  assert (zlen bs <= bl) as Hbl by (unfold bl; rewrite Hsrc, zlen_cons; zlen_facts; nia).
  pose proof (zlen_zeros bl ltac:(lia)) as Hz.
  destruct (urandom_file fname es bs (zeros bl) 0 s Hf) as (s1 & E); [lia|lia|].
  do 2 eexists. split; [eapply (entropy_only (file_config fname) _ _ [] ENTROPY_SOURCE_URANDOM rest);
    [exact Hsrc|done|done|done|done|done|split; [lia|exact Hbl]|done|exact E]|].
  split; [done|]. unfold seed_bytes. cbn [Z.eqb er_bytes er_buflen]. apply slice_splice_eq; lia.
Qed.
End SeedFile.

(** ** Lemmas: the implementation *)

(** A ChaCha8 of one of the block counts of the table. *)
Definition is_chacha8 (q : ottery_prf) (step : Z) : Prop :=
  (step = 12 \/ step = 16) /\
  exists (PS : PrfSpec q) (_ : PrfSizes q), ChaChaPrf q 8 step.

Lemma krovetz8_is_chacha8 t : is_chacha8 (ottery_prf_chacha8_krovetz_ t) (krovetz_step t).
Proof.
  split; [destruct t as [|[] []]; vm_compute; auto|].
  exists (krovetz8_spec t), (krovetz8_sizes t). exact (krovetz8_chacha t).
Qed.

Lemma pick_krovetz t cap rest :
  get_impl_loop (Some OTTERY_PRF_CHACHA8) cap ([ottery_prf_chacha20_krovetz_ t;
    ottery_prf_chacha12_krovetz_ t; ottery_prf_chacha8_krovetz_ t] ++ rest) =
  if negb (Z.land (NEED_CPUCAP t) cap =? NEED_CPUCAP t) then
    get_impl_loop (Some OTTERY_PRF_CHACHA8) cap rest
  else Some (ottery_prf_chacha8_krovetz_ t).
Proof.
  cbn [app get_impl_loop].
  assert (forall q, required_cpucap q = NEED_CPUCAP t ->
    negb (Z.land (required_cpucap q) cap =? required_cpucap q) =
    negb (Z.land (NEED_CPUCAP t) cap =? NEED_CPUCAP t)) as H by (by intros q ->).
  rewrite !H by reflexivity. destruct (negb _); [done|].
  by destruct t as [b|b []].
Qed.

Lemma chacha8_found cap {PL : Platform} :
  exists q step, get_impl_loop (Some OTTERY_PRF_CHACHA8) cap ALL_PRFS = Some q /\ is_chacha8 q step.
Proof.
  unfold ALL_PRFS. set (merged := [_; _; ottery_prf_chacha8_merged_]).
  assert (exists q step, get_impl_loop (Some OTTERY_PRF_CHACHA8) cap merged = Some q /\ is_chacha8 q step)
    as Hm.
  { exists ottery_prf_chacha8_merged_, 16. split.
    - unfold merged. cbn [get_impl_loop].
      assert (forall q, required_cpucap q = 0 -> negb (Z.land (required_cpucap q) cap =? required_cpucap q)
        = false) as H by (intros q ->; by rewrite Z.land_0_l). by rewrite !H by reflexivity.
    - split; [by right|]. exists merged8_spec, merged8_sizes. exact merged8_chacha. }
  assert (forall ot rest,
    (exists q step, get_impl_loop (Some OTTERY_PRF_CHACHA8) cap rest = Some q /\ is_chacha8 q step) ->
    exists q step, get_impl_loop (Some OTTERY_PRF_CHACHA8) cap (match ot with
      | Some t => [ottery_prf_chacha20_krovetz_ t; ottery_prf_chacha12_krovetz_ t;
                   ottery_prf_chacha8_krovetz_ t] | None => [] end ++ rest) = Some q /\
      is_chacha8 q step) as Hk.
  { intros [t|] rest Hrest; [|exact Hrest]. rewrite pick_krovetz. destruct (negb _); [exact Hrest|].
    exists (ottery_prf_chacha8_krovetz_ t), (krovetz_step t). split; [done|apply krovetz8_is_chacha8]. }
  apply Hk, Hk, Hm.
Qed.

Lemma demo_fits_chacha8 q step : is_chacha8 q step -> demo_fits step = true.
Proof. intros [[-> | ->] _]; vm_compute; reflexivity. Qed.

Lemma readDec_blocks q step : is_chacha8 q step -> getInt (pretty step) = Some step.
Proof. intros [[-> | ->] _]; reflexivity. Qed.

(** The commands of the demonstration as requests. *)
Lemma demo_actions :
  exists xs, mapM action_of demo = Some xs /\
    Forall2 (fun c x => action_of c = Some x /\ action_valid x) demo xs.
Proof.
  assert (forall cs, forallb (fun c => match action_of c with
    | Some (NBytes n) => (0 <? n) && (n <? 2 ^ 63)
    | Some (Seed seed) => negb (bool_decide (seed = []))
    | Some _ => true
    | None => false end) cs = true ->
    exists xs, mapM action_of cs = Some xs /\ Forall2 (fun c x => action_of c = Some x /\ action_valid x) cs xs)
    as H.
  { induction cs as [|c cs IH]; [by exists []|]. intros [Hc Hcs]%andb_prop.
    destruct (IH Hcs) as (xs & E & HF). cbn [mapM mret option_ret].
    destruct (action_of c) as [x|] eqn:Ex; [|done]. exists (x :: xs).
    cbn [mbind option_bind]. rewrite E. split; [done|]. apply Forall2_cons_2; [|done]. split; [done|].
    destruct x as [| |n|seed]; cbn [action_valid]; [done|done|lia|]. by case_bool_decide. }
  apply H. vm_compute. reflexivity.
Qed.

(** ** The run of the C program *)

Section Main.
Context {W : Type} {OS0 : OS W} {BC : BuildConfig} {PL : Platform} {OL : OSLaws OS0} {HP : Heap}.

Lemma force_chacha8 (s : process W) :
  exists q step, is_chacha8 q step /\
    get_impl_loop (Some OTTERY_PRF_CHACHA8)
      (Z.ldiff (cpu_capabilities (world s)) (disabled_cpu_capabilities s)) ALL_PRFS = Some q /\
    ottery_config_force_implementation ottery_config_init (Some OTTERY_PRF_CHACHA8) s =
      Ret (0, mk_config (Some q) (cfg_entropy ottery_config_init), s).
Proof.
  destruct (chacha8_found (Z.ldiff (cpu_capabilities (world s)) (disabled_cpu_capabilities s)))
    as (q & step & E & Hq). exists q, step. split; [done|]. split; [done|].
  unfold ottery_config_force_implementation, ottery_get_impl, ottery_get_cpu_capabilities_.
  by rewrite bind_assoc, bind_gets, bind_ret, E.
Qed.

(** A state seeded from the file: the generator constructed from its bytes. *)
Lemma init_from_file {q} {PS : PrfSpec q} {PZ : PrfSizes q} addr fname key l (s s1 : process W) :
  plat_win32 = false -> Z.land addr 0xf = 0 -> sizeof_ottery_state <= OTTERY_STATE_DUMMY_SIZE_ ->
  sizeof_ottery_config <= OTTERY_CONFIG_DUMMY_SIZE_ -> zlen key = state_bytes q ->
  INIT_LOCK LockUninit s = Ret (false, l, s1) -> seed_file fname key (world s1) ->
  exists st s2,
    ottery_st_init addr zero_state (Some (mk_config (Some q) (file_config fname))) s = Ret (0, st, s2) /\
    ready (p := q) addr st (construct (state_bytes q) (output_len q) (prf_out q) key) s2.
Proof.
  intros Hw Ha Hs1 Hs2 Hk El Hf. set (config := Some (mk_config (Some q) (file_config fname))).
  pose proof (sizes_facts (p := q)) as Hsb.
  destruct (entropy_from_file fname key (mk_entropy_state 0) s1 Hw ltac:(lia) Hf)
    as (er & s2 & Ee & He & Hb). rewrite Hk in Ee.
  destruct (initialize_run (q := q) addr zero_state config true l er s s1 s2) as (st & E & Hp & Hl & _ & H);
    [done|done| |exact El|exact Ee|].
  { by rewrite !(proj2 (Z.ltb_ge _ _)) by done. }
  rewrite He, Hb in *. exists st, s2. split; [exact E|].
  destruct H as [(_ & _ & Hr & Hm & Hpid & _)|[[|] _]]; [|done..].
  split; [split; [done|by right|by right]|]. destruct (init_lock_ok true s) as (f & l' & s' & E' & _ & _ & Hlk).
  change (INIT_LOCK LockUninit s = Ret (f, l', s')) in E'. rewrite El in E'. injection E' as <- <- <-.
  unfold lock_ready. rewrite Hl. by apply Hlk.
Qed.

(** The other run prints the number of blocks. *)
Lemma blocks_per_call_text addr q step (s : process W) out s' :
  is_chacha8 q step ->
  get_impl_loop (Some OTTERY_PRF_CHACHA8)
    (Z.ldiff (cpu_capabilities (world s)) (disabled_cpu_capabilities s)) ALL_PRFS = Some q ->
  test_spec_main addr (Some "--blocks-per-call") s = Ret (out, 0, s') -> out = puts (pretty step).
Proof.
  intros [_ (PS & PZ & CC)] Hq. unfold test_spec_main.
  destruct (force_chacha8 s) as (q' & step' & _ & Hq' & E0). rewrite Hq in Hq'.
  injection Hq' as <-. rewrite (bind_Ret _ _ _ _ _ E0), decide_True by done.
  destruct (initialize_ok (q := q) addr zero_state (Some (mk_config (Some q) (cfg_entropy ottery_config_init)))
    true s) as (err & st & s2 & E & _ & _ & H); [done|]. unfold ottery_st_init. rewrite (bind_Ret _ _ _ _ _ E).
  destruct H as [(-> & _ & er & used & _ & Hr & _)|(He & _)].
  - cbn [negb Z.eqb]. intros [= <- _]. destruct Hr as [[Hp _ _ _ _ _] _ _ _].
    rewrite Hp, chacha_output_len, Z.mul_comm, Z.div_mul by done. done.
  - rewrite (proj2 (Z.eqb_neq _ _) He). by intros [=].
Qed.
End Main.

(** ** The property *)

(** C18: [test_spec_cmp.sh] passes. On a platform other than Windows, when
    [malloc] and the lock can be had and the file named on the command line starts
    with the 40 bytes of [initialKey], the C program seeds a state from the file,
    makes every request of its demonstration, and exits with code 0, having
    printed exactly the text that the Haskell program prints when it is given the
    number the C program prints for [--blocks-per-call] on the same machine. This
    holds whichever implementation of ChaCha8 the library chooses there, and in
    every build. *)
Theorem test_spec_passes {W : Type} {OS0 : OS W} {BC : BuildConfig} {PL : Platform} {OL : OSLaws OS0}
    {HP : Heap} addr fname key l (s s1 : process W) :
  plat_win32 = false -> Z.land addr 0xf = 0 -> sizeof_ottery_state <= OTTERY_STATE_DUMMY_SIZE_ ->
  sizeof_ottery_config <= OTTERY_CONFIG_DUMMY_SIZE_ -> (forall n, 0 < n -> is_Some (malloc n)) ->
  fname <> "--blocks-per-call"%string -> INIT_LOCK LockUninit s = Ret (false, l, s1) ->
  initialKey = Some key -> seed_file fname key (world s1) ->
  exists out s2 (step : Z), test_spec_main addr (Some fname) s = Ret (out, 0, s2) /\
    test_ottery_main (pretty step) = Some out /\
    forall addr' (s' : process W) out' s'',
      cpu_capabilities (world s') = cpu_capabilities (world s) ->
      disabled_cpu_capabilities s' = disabled_cpu_capabilities s ->
      test_spec_main addr' (Some "--blocks-per-call") s' = Ret (out', 0, s'') ->
      out' = puts (pretty step).
Proof.
  intros Hw Ha Hs1 Hs2 Hm Hne El Hk Hf. destruct (force_chacha8 s) as (q & step & Hq & Hget & Eq).
  pose proof Hq as [_ (PS & PZ & CC)].
  assert (zlen key = 40) as Hkl by (injection Hk as <-; reflexivity).
  destruct (init_from_file (q := q) addr fname key l s s1) as (st & s2 & Ei & Hr);
    [done..|by rewrite chacha_state_bytes|done|done|].
  destruct demo_actions as (xs & Exs & Hxs).
  destruct (run_commands_ok (p := q) Hm addr c_demo xs s2 Hxs st _ Hr) as (st' & Er).
  exists (session_text (fst (spec_session (state_bytes q) (output_len q) (prf_out q)
    (construct (state_bytes q) (output_len q) (prf_out q) key) (request_of <$> xs)))), s2, step.
  split_and!.
  - unfold test_spec_main. rewrite (bind_Ret _ _ _ _ _ Eq), decide_False by congruence.
    cbv zeta. rewrite (bind_Ret _ _ _ _ _ Ei). cbn [negb Z.eqb]. by rewrite (bind_Ret _ _ _ _ _ Er).
  - unfold test_ottery_main. rewrite (readDec_blocks q step Hq), Hk, !bind_Some.
    pose proof (demo_fits_chacha8 q step Hq) as Hfits. unfold demo_fits in Hfits. rewrite Exs in Hfits.
    destruct (hs_init_ok (p := q) (step := step) key Hkl) as (h & -> & Hs & Hb).
    rewrite bind_Some.
    destruct (hs_session_ok (p := q) (step := step) xs h _ Hs) as (h' & E').
    { rewrite Hb. by rewrite (chacha_state_bytes (p := q)), (chacha_output_len (p := q)). }
    assert (Forall2 (fun c x => action_of c = Some x) demo xs) as Hact.
    { eapply Forall2_impl; [exact Hxs|]. by intros c x [? _]. }
    by rewrite (hs_commands_ok demo xs Hact h h' _ E').
  - intros addr' s' out' s'' Hc Hd. apply (blocks_per_call_text addr' q step s' out' s'' Hq).
    by rewrite Hc, Hd.
Qed.

(** A machine with one file, of which the world is the unread part. *)
#[local] Instance file_os : OS (list byte) := {|
  os_getpid _ := 77;
  os_open _ w := (3, w);
  os_fstat _ w := (0, mk_stat 0x81a4 12, w);
  os_read _ n w := (Z.min (Z.max 0 n) (zlen w), take (Z.to_nat n) w, drop (Z.to_nat n) w);
  os_write _ bs w := (zlen bs, w);
  os_close _ w := w;
  os_socket _ w := (-1, w);
  os_connect _ _ _ w := (-1, w);
  os_CryptAcquireContext w := (0, 0, w);
  os_CryptGenRandom _ _ w := (0, [], w);
  os_CryptReleaseContext _ w := w;
  os_rdrand w := (0, 0, w);
  os_cpuid _ _ := (0, 0, 2 ^ 30 + 2 ^ 9, 2 ^ 26);
  os_pthread_mutex_init w := (0, w);
  os_InitializeCriticalSection w := (1, w) |}.

#[local] Instance file_os_laws : OSLaws file_os.
Proof.
  split; [|intros pr n w r bs w' _ [= <- <- <-]; done].
  intros fd n w r bs w' Hn [= <- <- <-]. zlen_facts. split; [lia|]. intros _. rewrite zlen_take. lia.
Qed.

Lemma ample_malloc_len n m : (if 0 <=? n then Some (zeros n) else None) = Some m -> zlen m = n.
Proof. destruct (Z.leb_spec 0 n); [|done]. intros [= <-]. by apply zlen_zeros. Qed.

#[local] Instance ample_heap : Heap := {|
  malloc n := if 0 <=? n then Some (zeros n) else None; malloc_len := ample_malloc_len |}.

Definition seed_bytes0 : list byte := default [] initialKey.

Lemma seed_file0 : seed_file "seed" seed_bytes0 seed_bytes0.
Proof.
  exists 3, seed_bytes0, 0, (mk_stat 0x81a4 12), seed_bytes0, []. split_and!; try done.
  rewrite <-(app_nil_r seed_bytes0) at 3.
  by apply (reads_more 3 _ _ 40 seed_bytes0 [] [] []); [..|apply reads_done].
Qed.

Lemma test_spec_passes_witness :
  let s := mk_process seed_bytes0 0 None in
  exists out s2 (step : Z),
    test_spec_main (BC := default_build) 4096 (Some "seed"%string) s
      = Ret (out, 0, s2) /\
    test_ottery_main (pretty step) = Some out /\
    forall addr' (s' : process (list byte)) out' s'',
      cpu_capabilities (world s') = cpu_capabilities (world s) ->
      disabled_cpu_capabilities s' = disabled_cpu_capabilities s ->
      test_spec_main (BC := default_build) addr'
        (Some "--blocks-per-call"%string) s' = Ret (out', 0, s'') ->
      out' = puts (pretty step).
Proof.
  apply (test_spec_passes 4096 "seed" seed_bytes0
    LockFree (mk_process seed_bytes0 0 None) (mk_process seed_bytes0 0 None)); try done.
  - intros n Hn. cbn [malloc ample_heap]. rewrite (proj2 (Z.leb_le 0 n)) by lia. by eexists.
  - exact seed_file0.
Defined.
