(* ===== verification/TestEgd.v ===== *)
(** * The EGD tests: test/fake_egd.c, test/test_egd.c

    A server that answers one request of the entropy-gathering protocol, with the
    bugs its options ask for, and the client program that asks it through
    [ottery_get_entropy_]; then the proof that over any stream connection the
    client prints what test/test_egd.py expects, for every length and every
    combination of bugs. *)
From stdpp Require Import pretty.
From S2P Require Import Prelude Words Memory Internal Spec Prng Refine Os Entropy TestOs.
From S2P Require Import TestVectors TestSpec.
Local Open Scope Z_scope.
Local Open Scope ottery_scope.

(** ** The C library *)

(** [isspace] *)
Definition isspace (c : Ascii.ascii) : bool :=
  let n := Ascii.nat_of_ascii c in ((n =? 32) || (9 <=? n) && (n <=? 13))%nat.

(** The value of a decimal digit. *)
Definition digit (c : Ascii.ascii) : option Z :=
  let n := Z.of_nat (Ascii.nat_of_ascii c) in
  if (48 <=? n) && (n <=? 57) then Some (n - 48) else None.

(** The digits at the start of [s], and what follows them. *)
Fixpoint digits (acc : Z) (s : string) : Z * string :=
  match s with
  | String c rest => match digit c with Some d => digits (10 * acc + d) rest | None => (acc, s) end
  | EmptyString => (acc, s)
  end.

Fixpoint skip_spaces (s : string) : string :=
  match s with String c rest => if isspace c then skip_spaces rest else s | EmptyString => s end.

(** [strtol(s, &endp, 10)] with a 64-bit [long]: the value and [endp]; 45 and 43
    are the signs. *)
Definition strtol (s : string) : Z * string :=
  let sign_digits (sign : Z) (t : string) :=
    match t with
    | String c _ =>
        match digit c with
        | Some _ => let '(n, endp) := digits 0 t in
            (Z.max (- 2 ^ 63) (Z.min (2 ^ 63 - 1) (sign * n)), endp)
        | None => (0, s)
        end
    | EmptyString => (0, s)
    end in
  match skip_spaces s with
  | String c t =>
      if (Ascii.nat_of_ascii c =? 45)%nat then sign_digits (-1) t
      else if (Ascii.nat_of_ascii c =? 43)%nat then sign_digits 1 t
      else sign_digits 1 (String c t)
  | EmptyString => (0, s)
  end.

(** [printf("%x", n)] of an unsigned [n]: at most eight digits. *)
Fixpoint hex_digits (fuel : nat) (n : Z) (acc : string) : string :=
  match fuel with
  | O => acc
  | S fuel =>
      let acc := (hex_digit (n mod 16) ++ acc)%string in
      if n / 16 =? 0 then acc else hex_digits fuel (n / 16) acc
  end.

Definition print_x (n : Z) : string := hex_digits 8 n "".

(** ** test/fake_egd.c *)

Definition o_fortuna : list byte :=
  text "Sors immanis et inanis rota tu volubilis status malus vana salus " ++
  text "semper dissolubilis obumbrata et velata michi quoque niteris nunc " ++
  text "per ludum dorsum nudum fero tui sceleris Sors salutis et virtutis " ++
  text "michi nunc contraria est affectus et defectus semper in angaria" ++ [x00].

Record bugs := mk_bugs {
  bug_truncate_output : bool;
  bug_short_output : bool;
  bug_no_output : bool;
  bug_close_after_read : bool;
  bug_close_before_read : bool;
}.

Definition no_bugs : bugs := mk_bugs false false false false false.

(** [reply]: [read_] is the result of [read(fd, buf, 2)] with the bytes it stored,
    [write_] the result of the [write]; the value is [reply]'s result and the
    bytes given to [write], if it got that far. *)
Definition reply_ {UN : Uninit} (b : bugs) (read_ : Z * list byte) (write_ : Z -> Z)
  : option (Z * list byte) :=
  let buf := uninit 257 in
  if bug_close_before_read b then Some (0, [])
  else
    let '(r, bs) := read_ in
    buf ← mwrite buf 0 bs;
    if negb (r =? 2) then Some (-1, [])
    else if bug_close_after_read b then Some (0, [])
    else
      b0 ← mread buf 0 1; b1 ← mread buf 1 1;
      if negb (le_decode b0 =? 1) then Some (-2, [])
      else
        let len := le_decode b1 in
        let len := if bug_short_output b then len / 2 else len in
        let len := if bug_no_output b then 0 else len in
        buf ← mwrite buf 0 [byte_of_Z len];
        buf ← memcpy buf 1 o_fortuna 0 len;
        let n := len + 1 in
        let n := if bug_truncate_output b then n / 2 else n in
        out ← mread buf 0 n;
        Some (if negb (write_ n =? n) then -3 else 1, out).

Definition bug_table : list (string * (bugs -> bugs)) :=
  [("--truncate-output"%string,
      fun b => mk_bugs true (bug_short_output b) (bug_no_output b) (bug_close_after_read b) (bug_close_before_read b));
   ("--short-output"%string,
      fun b => mk_bugs (bug_truncate_output b) true (bug_no_output b) (bug_close_after_read b) (bug_close_before_read b));
   ("--no-output"%string,
      fun b => mk_bugs (bug_truncate_output b) (bug_short_output b) true (bug_close_after_read b) (bug_close_before_read b));
   ("--close-after-read"%string,
      fun b => mk_bugs (bug_truncate_output b) (bug_short_output b) (bug_no_output b) true (bug_close_before_read b));
   ("--close-before-read"%string,
      fun b => mk_bugs (bug_truncate_output b) (bug_short_output b) (bug_no_output b) (bug_close_after_read b) true)].

(** [option]: [None] is its -1. *)
Definition option_ (opt : string) (b : bugs) : option bugs :=
  (fun entry => snd entry b) <$> List.find (fun entry => String.eqb opt (fst entry)) bug_table.

(** [getport]: [None] is its -1. *)
Definition getport (opt : string) : option Z :=
  let '(p, endp) := strtol opt in
  if (p <? 0) || (65535 <? p) || negb (String.eqb endp "") then None else Some p.

(** The loop over the arguments: an unrecognized option, or the bugs, the port,
    the path and the number of addresses. *)
Fixpoint args_loop (argv : list string) (b : bugs) (port : Z) (path : option string) (n_addrs : Z)
  : string + (bugs * Z * option string * Z) :=
  match argv with
  | [] => inr (b, port, path, n_addrs)
  | arg :: argv =>
      if String.prefix "-" arg then
        match option_ arg b with
        | None => inl (puts ("Unrecognized option " ++ arg))
        | Some b => args_loop argv b port path n_addrs
        end
      else
        match getport arg with
        | Some port => args_loop argv b port path (n_addrs + 1)
        | None => args_loop argv b port (Some arg) (n_addrs + 1)
        end
  end.

(** The beginning of [main]: the text it ends with, or what it will serve. *)
Definition fake_egd_args (argv : list string) : string + (bugs * Z * option string) :=
  match args_loop argv no_bugs 0 None 0 with
  | inl text => inl text
  | inr (b, port, path, n_addrs) =>
      if 1 <? n_addrs then inl (puts "Too many arguments") else inr (b, port, path)
  end.

(** ** test/test_egd.c *)

(** [struct sockaddr_un] of the system. *)
Class UnixSockets := {
  AF_UNIX : Z;
  sizeof_sun_path : Z;
  sizeof_sockaddr_un : Z;
  sizeof_sockaddr_un_pos : 0 < sizeof_sockaddr_un;
}.

Section Client.
Context {W : Type} {OS0 : OS W} {PL : Platform} {UN : Uninit} {US : UnixSockets}.

Definition egd_addr (path : string) : sockaddr :=
  mk_sockaddr (if String.eqb path "_BROKEN_FAMILY_" then 0xf0 else AF_UNIX)
    (text path ++ zeros (sizeof_sun_path - strlen path)).

Definition egd_config (path : string) : ottery_entropy_config :=
  mk_entropy_config None 0 false (Some (egd_addr path)) sizeof_sockaddr_un
    (Z.ldiff OTTERY_ENTROPY_ALL_SOURCES OTTERY_ENTROPY_SRC_EGD) 0 false.

(** [main]: what it prints and its exit status. *)
Definition test_egd_main (argv : list string) : M W (string * Z) :=
  match argv with
  | arg :: path :: _ =>
      let '(n, endp) := strtol arg in
      if (n <? 0) || (256 <? n) || negb (String.eqb endp "") then
        ret (puts "First argument must be in 0..256", 1)
      else if sizeof_sun_path <=? strlen path + 1 then ret (puts "Path is too long", 1)
      else
        do er <- ottery_get_entropy_ (Some (egd_config path)) None 0 (uninit 257) n 257;
        if (er_err er =? 0) && (er_buflen er =? n) then
          do bytes <- lift (mread (er_bytes er) 0 n);
          ret ((puts ("FLAGS:" ++ print_x (er_flags_out er)) ++
                "BYTES:" ++ b2a_hex bytes ++ puts "")%string, 0)
        else ret (puts ("ERR:" ++ print_d (er_err er)), 0)
  | _ => ret (puts "I need a number of bytes and the address of an egd socket", 1)
  end.

(** A connection to a server with the bugs [b]: the client's socket connects, its
    request reaches the server (which may be gone already if it closes before it
    reads), and the client's reads yield what the server then writes, if it writes
    within its buffer, and then no more. *)
Definition served_by (b : bugs) (path : string) (n : Z) (w : W) : Prop :=
  exists fd w1 r2 w2 r3 w3,
    os_socket (sa_family (egd_addr path)) w = (fd, w1) /\ 0 <= fd /\
    os_connect fd (egd_addr path) sizeof_sockaddr_un w1 = (r2, w2) /\ 0 <= r2 /\
    os_write fd [x01; byte_of_Z n] w2 = (r3, w3) /\ (r3 = 2 \/ bug_close_before_read b = true) /\
    forall res out, reply_ b (2, [x01; byte_of_Z n]) id = Some (res, out) ->
    exists w4 w5, reads fd 1 w3 (take 1 out) w4 /\ reads fd n w4 (take (Z.to_nat n) (drop 1 out)) w5.

(** Nobody listens at [path]. *)
Definition unserved (path : string) (w : W) : Prop :=
  let '(fd, w1) := os_socket (sa_family (egd_addr path)) w in
  fd < 0 \/ (fst (os_connect fd (egd_addr path) sizeof_sockaddr_un w1) < 0).

(** What test/test_egd.py expects: the length comes back, with the text, unless a
    bug of the server shows. *)
Definition expected (b : bugs) (n : Z) : string :=
  if bug_close_before_read b || bug_close_after_read b || bug_truncate_output b ||
     (bug_short_output b || bug_no_output b) && negb (n =? 0)
  then puts "ERR:4"
  else puts "FLAGS:80401" ++ "BYTES:" ++ b2a_hex (take (Z.to_nat n) o_fortuna) ++ puts "".
End Client.

(** ** Lemmas *)

Lemma o_fortuna_len : zlen o_fortuna = 261.
Proof. reflexivity. Qed.

(** The length the server answers with, and what it writes. *)
Definition answered (b : bugs) (n : Z) : Z :=
  if bug_no_output b then 0 else if bug_short_output b then n / 2 else n.

Definition written (b : bugs) (n : Z) : list byte :=
  if bug_close_before_read b || bug_close_after_read b then []
  else take (Z.to_nat (if bug_truncate_output b then (answered b n + 1) / 2 else answered b n + 1))
         (byte_of_Z (answered b n) :: take (Z.to_nat (answered b n)) o_fortuna).

(** Whatever a read of two bytes gives it, the server stays within its buffers. *)
Lemma reply_in_bounds {UN : Uninit} b r bs write_ : zlen bs <= 2 -> is_Some (reply_ b (r, bs) write_).
Proof.
  intros Hl. unfold reply_. destruct (bug_close_before_read b); [by eexists|].
  pose proof (uninit_len 257 ltac:(lia)) as Hu. zlen_facts.
  rewrite mwrite_ok, bind_Some by lia. destruct (negb (r =? 2)); [by eexists|].
  destruct (bug_close_after_read b); [by eexists|]. set (buf := splice (uninit 257) 0 bs).
  assert (zlen buf = 257) as Hb by (unfold buf; rewrite zlen_splice; lia). clearbody buf.
  rewrite !mread_ok, !bind_Some by lia. destruct (negb _); [by eexists|]. cbv zeta.
  pose proof (le_decode_range (slice buf 1 1)) as Hd. rewrite zlen_slice in Hd by lia. change (2 ^ (8 * 1)) with 256 in Hd.
  set (len := le_decode (slice buf 1 1)) in *. clearbody len.
  assert (0 <= (if bug_no_output b then 0 else if bug_short_output b then len / 2 else len) <= 255) as Ha.
  { pose proof (Z.div_pos len 2). pose proof (Z.div_le_upper_bound len 2 255).
    destruct (bug_no_output b), (bug_short_output b); lia. }
  set (len' := if bug_no_output b then _ else _) in *. clearbody len'.
  assert (forall x : byte, zlen [x] = 1) as H1 by done. pose proof (H1 (byte_of_Z len')) as Hx.
  pose proof o_fortuna_len as Ho. assert (zlen (slice o_fortuna 0 len') = len') as Hs by (apply zlen_slice; lia).
  rewrite mwrite_ok, bind_Some by lia. rewrite memcpy_ok, bind_Some by (rewrite ?zlen_splice; lia).
  pose proof (Z.div_pos (len' + 1) 2). pose proof (Z.div_le_upper_bound (len' + 1) 2 (len' + 1)).
  rewrite mread_ok, bind_Some by (rewrite ?zlen_splice; rewrite ?zlen_splice; destruct (bug_truncate_output b); lia).
  by eexists.
Qed.

(** Asked for [n] bytes, it writes these. *)
Lemma reply_out {UN : Uninit} b n :
  0 <= n <= 255 -> exists res, reply_ b (2, [x01; byte_of_Z n]) id = Some (res, written b n).
Proof.
  intros Hn. unfold reply_, written. destruct (bug_close_before_read b); [by eexists|].
  pose proof (uninit_len 257 ltac:(lia)) as Hu.
  assert (forall x : byte, zlen [x] = 1) as H1 by done.
  assert (zlen [x01; byte_of_Z n] = 2) as H2 by done.
  rewrite mwrite_ok, bind_Some by lia. change (negb (2 =? 2)) with false. cbn [orb].
  destruct (bug_close_after_read b); [by eexists|].
  assert (0 <= answered b n <= 255) as Ha.
  { unfold answered. destruct (bug_no_output b), (bug_short_output b); try lia;
      (pose proof (Z.div_pos n 2); pose proof (Z.div_le_upper_bound n 2 255); lia). }
  set (buf := splice (uninit 257) 0 [x01; byte_of_Z n]).
  assert (zlen buf = 257) as Hb by (unfold buf; rewrite zlen_splice; lia).
  rewrite !mread_ok, !bind_Some by lia.
  assert (slice buf 0 1 = [x01] /\ slice buf 1 1 = [byte_of_Z n]) as [-> ->] by done.
  change (negb (le_decode [x01] =? 1)) with false.
  assert (le_decode [byte_of_Z n] = n) as -> by (cbn [le_decode]; rewrite Z_of_byte_of_Z, u8_small; lia).
  fold (answered b n). set (len := answered b n) in *. clearbody len.
  pose proof o_fortuna_len as Ho. assert (zlen (slice o_fortuna 0 len) = len) as Hs by (apply zlen_slice; lia).
  pose proof (H1 (byte_of_Z len)) as Hx. rewrite mwrite_ok, bind_Some by lia.
  rewrite memcpy_ok, bind_Some by (rewrite ?zlen_splice; lia).
  rewrite splice_splice_app by lia. set (ys := [byte_of_Z len] ++ _).
  assert (zlen ys = len + 1) as Hy by (unfold ys; rewrite zlen_app; lia).
  assert (0 <= (if bug_truncate_output b then (len + 1) / 2 else len + 1) <= len + 1) as Hk.
  { destruct (bug_truncate_output b); [|lia].
    pose proof (Z.div_pos (len + 1) 2). pose proof (Z.div_le_upper_bound (len + 1) 2 (len + 1)). lia. }
  rewrite mread_ok, bind_Some, slice_splice_0 by (rewrite ?zlen_splice; lia).
  by eexists.
Qed.

Lemma answered_range b n : 0 <= n -> 0 <= answered b n <= n.
Proof.
  intros Hn. unfold answered. pose proof (Z.div_pos n 2). pose proof (Z.div_le_upper_bound n 2 n).
  destruct (bug_no_output b), (bug_short_output b); lia.
Qed.

Lemma zlen_fortuna n : 0 <= n <= 255 -> zlen (take (Z.to_nat n) o_fortuna) = n.
Proof. intros Hn. pose proof o_fortuna_len. rewrite zlen_take. lia. Qed.

Lemma written_len b n : 0 <= n <= 255 -> zlen (written b n) <= n + 1.
Proof.
  intros Hn. pose proof (answered_range b n ltac:(lia)). unfold written.
  destruct (_ || _); [rewrite zlen_nil; lia|]. rewrite zlen_take, zlen_cons, zlen_fortuna by lia. lia.
Qed.

(** The answer is the one asked for exactly if no bug of the server shows. *)
Lemma written_good b n :
  0 <= n <= 255 ->
  bool_decide (take 1 (written b n) = [byte_of_Z n]) && (zlen (drop 1 (written b n)) =? n) =
    negb (bug_close_before_read b || bug_close_after_read b || bug_truncate_output b ||
          (bug_short_output b || bug_no_output b) && negb (n =? 0)) /\
  (bug_close_before_read b || bug_close_after_read b || bug_truncate_output b ||
     (bug_short_output b || bug_no_output b) && negb (n =? 0) = false ->
   drop 1 (written b n) = take (Z.to_nat n) o_fortuna).
Proof.
  intros Hn. pose proof (answered_range b n ltac:(lia)) as Ha. unfold written.
  destruct (bug_close_before_read b || bug_close_after_read b); [by split|]. cbn [orb].
  destruct (bug_truncate_output b); cbn [orb negb].
  - split; [|done]. destruct (Z.eq_dec n 0) as [->|Hnz]; [by assert (answered b 0 = 0) as -> by lia|].
    apply andb_false_iff. right. apply Z.eqb_neq. intros E.
    rewrite zlen_drop, zlen_take, zlen_cons, zlen_fortuna in E by lia.
    assert ((answered b n + 1) / 2 <= n) by (apply Z.div_le_upper_bound; lia). lia.
  - assert (zlen (byte_of_Z (answered b n) :: take (Z.to_nat (answered b n)) o_fortuna) = answered b n + 1) as Hl
      by (rewrite zlen_cons, zlen_fortuna; lia).
    rewrite !(take_ge (byte_of_Z (answered b n) :: _)) by (unfold zlen in Hl; lia).
    rewrite skipn_cons, skipn_O, firstn_cons, firstn_O.
    rewrite zlen_fortuna by lia.
    assert ((bug_short_output b || bug_no_output b) && negb (n =? 0) = negb (answered b n =? n)) as ->.
    { unfold answered. destruct (bug_no_output b), (bug_short_output b); cbn [orb andb];
        rewrite ?Z.eqb_refl; try done; try (by rewrite Z.eqb_sym);
        f_equal; apply eq_true_iff_eq; rewrite !Z.eqb_eq; pose proof (Z.div_mod n 2);
        pose proof (Z.mod_pos_bound n 2); lia. }
    rewrite negb_involutive. destruct (Z.eqb_spec (answered b n) n) as [->|Hne]; cbn [negb].
    + split; [|done]. rewrite andb_true_r. by apply bool_decide_eq_true_2.
    + split; [|done]. apply andb_false_r.
Qed.

Section Exchange.
Context {W : Type} {OS0 : OS W} {PL : Platform} {OL : OSLaws OS0} {UN : Uninit} {US : UnixSockets}.

(** One byte. *)
Lemma read_one fd w (out : list byte) w' :
  reads fd 1 w (take 1 out) w' ->
  exists r bs, os_read fd 1 w = (r, bs, w') /\
    ((exists b rest, out = b :: rest /\ r = 1 /\ bs = [b]) \/ (r <= 0 /\ out = [])).
Proof.
  intros H. inversion H as [|n w0 r bs w1 Hn E Hr|n w0 r bs w1 rest w2 Hn E Hr Hrest]; subst.
  - exists r, bs. split; [done|]. right. split; [done|]. by destruct out.
  - pose proof (os_read_law fd 1 w r bs w1 ltac:(lia) E) as [Hr1 Hl]. assert (r = 1) as -> by lia.
    inversion Hrest; subst; try lia. rewrite app_nil_r in *. exists 1, bs. split; [done|]. left.
    destruct out as [|b out]; [by specialize (Hl eq_refl); subst|]. by exists b, out.
Qed.

Lemma egd_exchange b path n st buf (s : process W) :
  0 <= n <= 255 -> n <= zlen buf -> served_by b path n (world s) ->
  exists r3 err buf' s', (r3 = 2 \/ bug_close_before_read b = true) /\
    ottery_get_entropy_egd (Some (egd_config path)) st buf 0 n s = Ret (err, st, buf', s') /\
    let out := written b n in
    if (r3 =? 2) && bool_decide (take 1 out = [byte_of_Z n]) && (zlen (drop 1 out) =? n)
    then err = 0 /\ buf' = splice buf 0 (drop 1 out)
    else err = OTTERY_ERR_ACCESS_STRONG_RNG.
Proof.
  intros Hn Hb (fd & w1 & r2 & w2 & r3 & w3 & E1 & Hfd & E2 & Hr2 & E3 & Hr3 & Hd).
  destruct (reply_out b n Hn) as [res Er]. destruct (Hd _ _ Er) as (w4 & w5 & Hd1 & Hd2). clear Hd.
  exists r3. unfold ottery_get_entropy_egd, egd_config.
  pose proof sizeof_sockaddr_un_pos. rewrite (proj2 (Z.eqb_neq sizeof_sockaddr_un 0)) by lia.
  rewrite (proj2 (Z.ltb_ge 255 n)) by lia. rewrite bind_sys, E1. cbn [fst snd].
  rewrite (proj2 (Z.ltb_ge fd 0)) by done. rewrite bind_sys. cbn [set_world world]. rewrite E2. cbn [fst snd].
  rewrite (proj2 (Z.ltb_ge r2 0)) by done. rewrite bind_sys. cbn [set_world world]. rewrite E3. cbn [fst snd].
  destruct (Z.eqb_spec r3 2) as [->|Hr]; cbn [negb andb].
  2:{ rewrite bind_sys_. do 3 eexists. split; [tauto|]. by split. }
  rewrite bind_sys. cbn [set_world world].
  pose proof (written_len b n Hn) as Hwl. clear Er. revert Hd1 Hd2 Hwl.
  generalize (written b n). intros out Hd1 Hd2 Hwl.
  destruct (read_one _ _ _ _ Hd1) as (r & bs & E4 & [(b0 & rest & -> & -> & ->)|[Hr ->]]); rewrite E4; cbn [fst snd].
  2:{ assert (negb (r =? 1) = true) as -> by (apply negb_true_iff, Z.eqb_neq; lia).
      rewrite bind_sys_. do 3 eexists. split; [tauto|]. by split. }
  change (negb (1 =? 1)) with false. rewrite mwrite_ok, bind_lift_Some by done.
  change (take 1 (splice _ 0 [b0])) with [b0]. change (take 1 (b0 :: rest)) with [b0].
  change (drop 1 (b0 :: rest)) with rest in *. cbn [le_decode]. rewrite Z.add_0_r.
  rewrite zlen_cons in Hwl. rewrite take_ge in Hd2 by (unfold zlen in Hwl; lia).
  destruct (Z.eqb_spec (Z_of_byte b0) n) as [Hb0|Hb0]; cbn [negb].
  2:{ rewrite bind_sys_, bool_decide_eq_false_2; [by do 3 eexists; split; [tauto|]|].
      intros [= ->]. apply Hb0. rewrite Z_of_byte_of_Z, u8_small; lia. }
  rewrite bool_decide_eq_true_2 by (by rewrite <-Hb0, byte_of_Z_of_byte).
  match goal with |- context [bind (ottery_read_n_bytes_from_file_ _ _ _ _) _ ?s0] =>
    destruct (read_n_bytes_ok fd buf 0 n s0) as (bs' & w' & Hrd & Hl & E); [lia..|] end.
  destruct (reads_det _ _ _ _ _ Hd2 _ _ Hrd) as [-> ->]. rewrite (bind_Ret _ _ _ _ _ E).
  rewrite (proj2 (Z.ltb_ge (zlen rest) 0)) by (zlen_facts; lia). cbn [orb andb].
  destruct (zlen rest =? n); cbn [negb]; rewrite bind_sys_; do 3 eexists; (split; [tauto|]); by split.
Qed.
(** The sources of a system with sockets, of which the client leaves one. *)
Lemma egd_sources :
  plat_win32 = false -> exists pre post, RAND_SOURCES = pre ++ ENTROPY_SOURCE_EGD :: post /\
    forall path, Forall (fun src => (Z.land (flags src) (disabled_sources (egd_config path)) =? 0) = false) pre /\
      Forall (fun src => (Z.land (flags src) (disabled_sources (egd_config path)) =? 0) = false) post.
Proof.
  intros Hw. exists [ENTROPY_SOURCE_URANDOM], (if rdrand_compiled then [ENTROPY_SOURCE_RDRAND] else []).
  unfold RAND_SOURCES. rewrite Hw. split; [done|]. intros path.
  destruct rdrand_compiled; split; repeat (apply Forall_cons_2; [reflexivity|]); apply Forall_nil_2.
Qed.

(** The client, for a run of the source. *)
Lemma client_run arg path n (s : process W) err buf s' :
  plat_win32 = false -> strtol arg = (n, ""%string) -> 0 <= n <= 256 -> strlen path + 1 < sizeof_sun_path ->
  (err = 0 -> n <= zlen buf) ->
  ottery_get_entropy_egd (Some (egd_config path)) None (zeros 257) 0 n s = Ret (err, None, buf, s') ->
  test_egd_main [arg; path] s =
    Ret (if err =? 0
         then (puts "FLAGS:80401" ++ "BYTES:" ++ b2a_hex (slice buf 0 n) ++ puts "")%string
         else puts ("ERR:" ++ print_d err), 0, s').
Proof.
  intros Hw Ha Hn Hp Hb E. unfold test_egd_main. rewrite Ha.
  rewrite (proj2 (Z.ltb_ge n 0)), (proj2 (Z.ltb_ge 256 n)), (proj2 (Z.leb_gt sizeof_sun_path _)) by lia.
  cbn [orb negb String.eqb]. pose proof (uninit_len 257 ltac:(lia)) as Hu.
  destruct (egd_sources Hw) as (pre & post & Hsrc & Hd). destruct (Hd path) as [Hpre Hpost].
  rewrite (bind_Ret _ _ _ _ _ (entropy_only (egd_config path) n 257 pre ENTROPY_SOURCE_EGD post None _ s
    err None buf s' Hsrc Hpre Hpost eq_refl eq_refl ltac:(done) ltac:(lia) Hu E)).
  destruct (err =? 0) eqn:He; cbn [er_err er_buflen er_bytes er_flags_out].
  - cbn [Z.eqb andb]. apply Z.eqb_eq, Hb in He. rewrite Z.eqb_refl, mread_ok by lia. by rewrite bind_lift_Some.
  - by rewrite He.
Qed.
(** The three outcomes of the client. *)
Section Outcomes.
Context (arg path : string) (n : Z) (s : process W).
Hypothesis (Hw : plat_win32 = false) (Ha : strtol arg = (n, ""%string)).
Hypothesis (Hp : strlen path + 1 < sizeof_sun_path).

Lemma client_fails err buf s' :
  err <> 0 -> 0 <= n <= 256 ->
  ottery_get_entropy_egd (Some (egd_config path)) None (zeros 257) 0 n s = Ret (err, None, buf, s') ->
  test_egd_main [arg; path] s = Ret (puts ("ERR:" ++ print_d err), 0, s').
Proof.
  intros He Hn E. rewrite (client_run arg path n s err buf s' Hw Ha Hn Hp ltac:(done) E).
  by rewrite (proj2 (Z.eqb_neq err 0) He).
Qed.

Lemma client_served b :
  0 <= n <= 255 -> served_by b path n (world s) ->
  exists s', test_egd_main [arg; path] s = Ret (expected b n, 0, s').
Proof.
  intros Hn Hs. pose proof (zlen_zeros 257 ltac:(lia)) as Hz.
  destruct (egd_exchange b path n None (zeros 257) s Hn ltac:(lia) Hs)
    as (r3 & err & buf' & s1 & Hr3 & E & Hout). cbv zeta in Hout.
  destruct (written_good b n Hn) as [Hg Hd]. rewrite <-andb_assoc, Hg in Hout. unfold expected.
  set (shows := _ || _) in *. assert ((r3 =? 2) && negb shows = negb shows) as Er.
  { destruct Hr3 as [->|Hb]; [done|]. unfold shows. rewrite Hb. by rewrite andb_false_r. }
  rewrite Er in Hout. destruct shows; cbn [negb] in Hout.
  - subst err. eexists. by eapply (client_fails OTTERY_ERR_ACCESS_STRONG_RNG); [..|exact E]; [|lia].
  - destruct Hout as [-> ->]. rewrite Hd in E by done. pose proof (zlen_fortuna n Hn) as Hl.
    assert (n <= zlen (splice (zeros 257) 0 (take (Z.to_nat n) o_fortuna))) as Hb
      by (rewrite zlen_splice; lia).
    eexists. rewrite (client_run arg path n s _ _ _ Hw Ha ltac:(lia) Hp (fun _ => Hb) E). cbn [Z.eqb]. by rewrite slice_splice_eq by lia.
Qed.

Lemma client_unserved :
  0 <= n <= 255 -> unserved path (world s) ->
  exists s', test_egd_main [arg; path] s = Ret (puts "ERR:3", 0, s').
Proof.
  intros Hn Hu. unfold unserved in Hu.
  assert (exists s1, ottery_get_entropy_egd (Some (egd_config path)) None (zeros 257) 0 n s =
    Ret (OTTERY_ERR_INIT_STRONG_RNG, None, zeros 257, s1)) as [s1 E].
  { unfold ottery_get_entropy_egd, egd_config. pose proof sizeof_sockaddr_un_pos.
    rewrite (proj2 (Z.eqb_neq sizeof_sockaddr_un 0)), (proj2 (Z.ltb_ge 255 n)), bind_sys by lia.
    destruct (os_socket _ (world s)) as [fd w1]. cbn [fst snd]. destruct (Z.ltb_spec fd 0); [by eexists|].
    rewrite bind_sys. cbn [world set_world]. destruct (os_connect _ _ _ w1) as [r w2]. cbn [fst snd] in *.
    rewrite (proj2 (Z.ltb_lt r 0)), bind_sys_ by lia. by eexists. }
  eexists. by eapply (client_fails OTTERY_ERR_INIT_STRONG_RNG); [..|exact E]; [|lia].
Qed.

Lemma client_too_long :
  n = 256 -> test_egd_main [arg; path] s = Ret (puts "ERR:4", 0, s).
Proof.
  intros Hn. assert (ottery_get_entropy_egd (Some (egd_config path)) None (zeros 257) 0 n s =
    Ret (OTTERY_ERR_ACCESS_STRONG_RNG, None, zeros 257, s)) as E.
  { unfold ottery_get_entropy_egd, egd_config. pose proof sizeof_sockaddr_un_pos.
    by rewrite (proj2 (Z.eqb_neq sizeof_sockaddr_un 0)), (proj2 (Z.ltb_lt 255 n)) by lia. }
  by eapply (client_fails OTTERY_ERR_ACCESS_STRONG_RNG); [..|exact E]; [|lia].
Qed.
End Outcomes.
End Exchange.

(** ** The properties *)

(** C22: over any connection that carries the bytes in both directions, and for
    every length and every server the arguments of test/fake_egd.c can ask for, the
    EGD test's client, through the library's EGD source, prints what
    test/test_egd.py expects: the flags of a strong EGD source and the very bytes the server has,
    in the number asked for, or the error of a source that could not be read. With
    no server the client prints the error of a source that could not be opened.
    Asked for 256 bytes, one more than the protocol can express, it prints an error
    without a single system call. The server never reads or writes outside its
    buffers, whatever two bytes a client sends it. *)
Theorem egd_tests_pass {W : Type} {OS0 : OS W} {PL : Platform} {OL : OSLaws OS0} {UN : Uninit}
    {US : UnixSockets} arg path n (s : process W) :
  plat_win32 = false -> strtol arg = (n, ""%string) -> strlen path + 1 < sizeof_sun_path ->
  (forall server_argv b port, fake_egd_args server_argv = inr (b, port, Some path) ->
     (forall r request write_, zlen request <= 2 -> is_Some (reply_ b (r, request) write_)) /\
     (0 <= n <= 255 -> served_by b path n (world s) ->
      exists s', test_egd_main [arg; path] s = Ret (expected b n, 0, s'))) /\
  (0 <= n <= 255 -> unserved path (world s) ->
     exists s', test_egd_main [arg; path] s = Ret (puts "ERR:3", 0, s')) /\
  (n = 256 -> test_egd_main [arg; path] s = Ret (puts "ERR:4", 0, s)).
Proof.
  intros Hw Ha Hp. split; [|split].
  - intros server_argv b port _. split; [intros; by apply reply_in_bounds|]. by apply client_served.
  - by apply client_unserved.
  - by apply client_too_long.
Qed.

(** A system in which the server answers the write at once; the world is the
    server's bugs and what it has written that the client has not read. *)
Record eworld := mk_eworld { ew_bugs : bugs; ew_sent : list byte }.

#[local] Instance egd_os : OS eworld := {|
  os_getpid _ := 77;
  os_open _ w := (-1, w);
  os_fstat _ w := (-1, mk_stat 0 0, w);
  os_read _ n w := (Z.min (Z.max 0 n) (zlen (ew_sent w)), take (Z.to_nat n) (ew_sent w),
    mk_eworld (ew_bugs w) (drop (Z.to_nat n) (ew_sent w)));
  os_write _ bs w := (zlen bs, mk_eworld (ew_bugs w)
    (match reply_ (ew_bugs w) (zlen bs, bs) id with Some (_, out) => out | None => [] end));
  os_close _ w := w;
  os_socket _ w := (4, w);
  os_connect _ _ _ w := (0, w);
  os_CryptAcquireContext w := (0, 0, w);
  os_CryptGenRandom _ _ w := (0, [], w);
  os_CryptReleaseContext _ w := w;
  os_rdrand w := (0, 0, w);
  os_cpuid _ _ := (0, 0, 0, 0);
  os_pthread_mutex_init w := (0, w);
  os_InitializeCriticalSection w := (1, w) |}.

#[local] Instance egd_os_laws : OSLaws egd_os.
Proof.
  split; [|intros pr n w r bs w' _ [= <- <- <-]; done].
  intros fd n w r bs w' Hn [= <- <- <-]. zlen_facts. split; [lia|]. intros _. rewrite zlen_take. lia.
Qed.

#[local] Instance linux_sockets : UnixSockets := {|
  AF_UNIX := 1; sizeof_sun_path := 108; sizeof_sockaddr_un := 110; sizeof_sockaddr_un_pos := eq_refl |}.

(** Reads yield what was sent. *)
Lemma egd_os_reads b n l :
  0 <= n -> reads 4 n (mk_eworld b l) (take (Z.to_nat n) l) (mk_eworld b (drop (Z.to_nat n) l)).
Proof.
  intros Hn. assert (forall k, 0 < k -> reads 4 k (mk_eworld b []) [] (mk_eworld b [])) as Hend.
  { intros k Hk. apply (reads_stop 4 k _ 0 []); [done| |done]. cbn [os_read egd_os ew_sent ew_bugs].
    assert (Z.min (Z.max 0 k) (zlen (@nil byte)) = 0) as -> by (unfold zlen; cbn [length]; lia).
    by rewrite take_nil, drop_nil. }
  destruct (Z.eq_dec n 0) as [->|Hnz]; [apply reads_done|]. destruct l as [|x l].
  { rewrite take_nil, drop_nil. apply Hend. lia. }
  set (l' := x :: l). assert (0 < zlen l') as Hl by (unfold l'; rewrite zlen_cons; zlen_facts; lia).
  rewrite <-(app_nil_r (take _ l')).
  apply (reads_more 4 n (mk_eworld b l') (Z.min n (zlen l')) _ (mk_eworld b (drop (Z.to_nat n) l'))); [lia| |lia|].
  { cbn [os_read egd_os ew_sent ew_bugs]. by rewrite Z.max_r by lia. }
  destruct (Z.leb_spec n (zlen l')).
  - rewrite Z.min_l, Z.sub_diag by lia. apply reads_done.
  - rewrite drop_ge by (unfold zlen in *; lia). apply Hend. lia.
Qed.

(** The server of [egd_os] keeps its side of the connection. *)
Lemma egd_os_serves b n : 0 <= n <= 255 -> served_by b "sock" n (mk_eworld b []).
Proof.
  intros Hn. destruct (reply_out b n Hn) as [res Er].
  exists 4, (mk_eworld b []), 0, (mk_eworld b []), 2, (mk_eworld b (written b n)).
  split_and!; try done; [|by left|].
  2:{ intros res' out. rewrite Er. intros [= _ <-].
      exists (mk_eworld b (drop 1 (written b n))), (mk_eworld b (drop (Z.to_nat n) (drop 1 (written b n)))).
      split; [apply (egd_os_reads b 1); lia|apply egd_os_reads; lia]. }
  - cbn [os_write egd_os ew_bugs]. change (zlen [x01; byte_of_Z n]) with 2. by rewrite Er.
Qed.

(** Sixteen bytes from a server without bugs, and none from one that halves the
    length. *)
Lemma egd_tests_pass_witness :
  (exists s', test_egd_main ["16"; "sock"]%string (mk_process (mk_eworld no_bugs []) 0 None) =
     Ret (expected no_bugs 16, 0, s')) /\
  (exists s', test_egd_main ["16"; "sock"]%string
     (mk_process (mk_eworld (mk_bugs false true false false false) []) 0 None) =
     Ret (puts "ERR:4", 0, s')) /\
  test_egd_main ["256"; "sock"]%string (mk_process (mk_eworld no_bugs []) 0 None) =
    Ret (puts "ERR:4", 0, mk_process (mk_eworld no_bugs []) 0 None).
Proof.
  split; [|split].
  - eapply (egd_tests_pass (PL := test_platform) (US := linux_sockets) "16" "sock" 16)
      with (server_argv := ["sock"%string]);
      [reflexivity..|lia|apply egd_os_serves; lia].
  - eapply (egd_tests_pass (PL := test_platform) (US := linux_sockets) "16" "sock" 16)
      with (server_argv := ["sock"; "--short-output"]%string) (b := mk_bugs false true false false false);
      [reflexivity..|lia|apply egd_os_serves; lia].
  - by apply (egd_tests_pass (PL := test_platform) (US := linux_sockets) "256" "sock" 256).
Defined.
