(* ===== verification/Safety.v ===== *)
(** * Safety of every sequence of calls

    The state API as a transition system: the calls a program may make on one
    [struct ottery_state], changes of the world between them (a fork among
    them), and what a program must respect. Every reachable state is healthy,
    and no permitted call has undefined behaviour or hangs. *)
From S2P Require Import Prelude Words Memory Internal Spec Prng Refine TestPrf Session.
From S2P Require Import ChaChaRef ChaChaMerged ChaChaKrovetz Os CpuInfo Entropy TestOs Config Api ApiRefine ApiProps.
Local Open Scope Z_scope.
Local Open Scope ottery_scope.

(** ** Definitions *)

(** The calls of the state API; [locked] chooses between a function and its
    [_nolock] twin. *)
Inductive call :=
  | CInit (locked : bool) (config : option ottery_config)
  | CBytes (locked : bool) (out : list byte) (off n : Z)
  | CUnsigned (locked : bool)
  | CUint32 (locked : bool)
  | CUint64 (locked : bool)
  | CRange (locked : bool) (fuel : nat) (upper : Z)
  | CRange64 (locked : bool) (fuel : nat) (upper : Z)
  | CAddSeed (locked : bool) (seed : option (list byte)) (n : Z)
  | CPreventBacktracking (locked : bool)
  | CWipe (locked : bool).

Definition is_range (c : call) : bool :=
  match c with CRange _ _ _ | CRange64 _ _ _ => true | _ => false end.

Section System.
Context {W : Type} {OS0 : OS W} {BC : BuildConfig} {PL : Platform}.

(** A call, its answer dropped. *)
Definition exec (addr : Z) (st : ottery_state) (c : call) : M W ottery_state :=
  match c with
  | CInit true cfg => do r <- ottery_st_init addr st cfg; ret (snd r)
  | CInit false cfg => do r <- ottery_st_init_nolock addr st cfg; ret (snd r)
  | CBytes true out off n => do r <- ottery_st_rand_bytes addr st out off n; ret (fst r)
  | CBytes false out off n => do r <- ottery_st_rand_bytes_nolock addr st out off n; ret (fst r)
  | CUnsigned true => do r <- ottery_st_rand_unsigned addr st; ret (snd r)
  | CUnsigned false => do r <- ottery_st_rand_unsigned_nolock addr st; ret (snd r)
  | CUint32 true => do r <- ottery_st_rand_uint32 addr st; ret (snd r)
  | CUint32 false => do r <- ottery_st_rand_uint32_nolock addr st; ret (snd r)
  | CUint64 true => do r <- ottery_st_rand_uint64 addr st; ret (snd r)
  | CUint64 false => do r <- ottery_st_rand_uint64_nolock addr st; ret (snd r)
  | CRange true fuel upper => do r <- ottery_st_rand_range fuel addr st upper; ret (snd r)
  | CRange false fuel upper => do r <- ottery_st_rand_range_nolock fuel addr st upper; ret (snd r)
  | CRange64 true fuel upper => do r <- ottery_st_rand_range64 fuel addr st upper; ret (snd r)
  | CRange64 false fuel upper =>
      do r <- ottery_st_rand_range64_nolock fuel addr st upper; ret (snd r)
  | CAddSeed true seed n => do r <- ottery_st_add_seed addr st seed n; ret (snd r)
  | CAddSeed false seed n => do r <- ottery_st_add_seed_nolock addr st seed n; ret (snd r)
  | CPreventBacktracking true => ottery_st_prevent_backtracking st
  | CPreventBacktracking false => lift (ottery_st_prevent_backtracking_nolock st)
  | CWipe true => ottery_st_wipe st
  | CWipe false => ret (ottery_st_wipe_nolock st)
  end.

(** A lock that can be taken, where the build has locks. *)
Definition lock_free (l : lock_state) : Prop := lock_impl = NO_LOCKS \/ l = LockFree.

(** The lock of an initialized state fits a call that takes it: a program does
    not mix [ottery_st_init_nolock] with the locking functions. *)
Definition lock_fits (addr : Z) (locked : bool) (st : ottery_state) : Prop :=
  locked = true -> st_magic st = MAGIC addr -> lock_free (st_mutex st).

(** What a program must respect: memory and lengths it passes are real, a PRF
    it supplies implements the interface, and the calls that check nothing
    ([prevent_backtracking], [wipe]) are made on states that have what they use.
    Output and seeding are permitted on any state. *)
Definition permitted (addr : Z) (st : ottery_state) (c : call) : Prop :=
  match c with
  | CInit _ cfg => config_good cfg
  | CBytes locked out off n =>
      lock_fits addr locked st /\ 0 <= off /\ 0 <= n < 2 ^ 63 /\ off + n <= zlen out
  | CUnsigned locked | CUint32 locked | CUint64 locked | CRange locked _ _
  | CRange64 locked _ _ => lock_fits addr locked st
  | CAddSeed locked seed n =>
      lock_fits addr locked st /\ 0 <= n /\ match seed with Some s => n <= zlen s | None => True end
  | CPreventBacktracking locked => lock_fits addr locked st /\ st_magic st = MAGIC addr
  | CWipe locked => locked = true -> lock_free (st_mutex st)
  end.

(** The states and processes a program can be in: it starts with memory that
    does not look initialized, makes permitted calls that return, and between
    them anything may happen to the world, the fatal handler and the disabled
    capabilities. *)
Inductive reachable (addr : Z) : ottery_state -> process W -> Prop :=
  | reach_start st s :
      st_magic st <> MAGIC addr -> st_mutex st = LockUninit -> reachable addr st s
  | reach_call st s c st' s' :
      reachable addr st s -> permitted addr st c -> exec addr st c s = Ret (st', s') ->
      reachable addr st' s'
  | reach_world st s s' : reachable addr st s -> reachable addr st s'.

(** The contents of an initialized structure whose lock is [l]. *)
Definition live_as (q : ottery_prf) {PS : PrfSpec q} (addr : Z) (l : lock_state)
    (st : ottery_state) : Prop :=
  (exists a, rep (p := q) st a) /\ st_magic st = MAGIC addr /\ st_mutex st = l.

Definition live (addr : Z) (st : ottery_state) : Prop :=
  exists q (PS : PrfSpec q) (PZ : PrfSizes q), live_as q addr (st_mutex st) st.

(** Between calls the lock is not held, and the structure either has no magic
    number or represents an abstract generator. *)
Record healthy (addr : Z) (st : ottery_state) : Prop := mk_healthy {
  he_lock : st_mutex st <> LockHeld;
  he_live : st_magic st <> MAGIC addr \/ live addr st;
}.

(** [m] started in [s] has no undefined behaviour, aborts only for want of a
    fatal handler, runs out of turns only if [div], and returns only values in
    [Q]; it does not change the handler. *)
Definition safe {A} (div : bool) (Q : A -> Prop) (m : M W A) (s : process W) : Prop :=
  match m s with
  | Ret (a, s') => ottery_fatal_handler s' = ottery_fatal_handler s /\ Q a
  | Aborted => ottery_fatal_handler s = None
  | Undefined => False
  | NoFuel => div = true
  end.

End System.

(** ** Rules for [safe] *)

Section Rules.
Context {W : Type} {OS0 : OS W} {BC : BuildConfig} {PL : Platform}.

Lemma safe_ret {A} div (Q : A -> Prop) a (s : process W) : Q a -> safe div Q (ret a) s.
Proof. by split. Qed.

Lemma safe_Ret {A} div (Q : A -> Prop) (m : M W A) a (s s' : process W) :
  m s = Ret (a, s') -> same_process s s' -> Q a -> safe div Q m s.
Proof. intros E [_ Hh] HQ. unfold safe. rewrite E. by split. Qed.

Lemma safe_bind {A B} div (P : A -> Prop) (Q : B -> Prop) (m : M W A) (k : A -> M W B)
    (s : process W) :
  safe div P m s -> (forall a s', P a -> safe div Q (k a) s') -> safe div Q (bind m k) s.
Proof.
  unfold safe, bind. destruct (m s) as [[a s']| | |]; try done.
  intros [Hh HP] Hk. specialize (Hk a s' HP). destruct (k a s') as [[b s2]| | |]; try done.
  - destruct Hk. split; [congruence|done].
  - congruence.
Qed.

Lemma safe_mono {A} div (P Q : A -> Prop) (m : M W A) (s : process W) :
  safe div P m s -> (forall a, P a -> Q a) -> safe div Q m s.
Proof. unfold safe. destruct (m s) as [[a s']| | |]; [|done..]. intros [] HPQ. split; auto. Qed.

Lemma safe_div {A} div (Q : A -> Prop) (m : M W A) (s : process W) :
  safe false Q m s -> safe div Q m s.
Proof. unfold safe. by destruct (m s) as [[a s']| | |]. Qed.

Lemma safe_fatal div (Q : unit -> Prop) err (s : process W) :
  Q tt -> safe div Q (ottery_fatal_error_ err) s.
Proof. intros HQ. unfold safe, ottery_fatal_error_. by destruct (ottery_fatal_handler s) eqn:E. Qed.

(** A core operation that succeeds. *)
Lemma safe_lift {A} div (Q : A -> Prop) (x : option A) a (s : process W) :
  x = Some a -> Q a -> safe div Q (lift x) s.
Proof. intros ->. by split. Qed.

End Rules.

(** ** Calls on an initialized state *)

Section Live.
Context {W : Type} {OS0 : OS W} {BC : BuildConfig} {PL : Platform} {OL : OSLaws OS0}.
Context {p : ottery_prf} {PS : PrfSpec p} {PZ : PrfSizes p}.
Context (addr : Z).

Abbreviation good l := (live_as p addr l).

Lemma live_frame l st st' a' :
  good l st -> same_frame st st' -> rep (p := p) st' a' -> good l st'.
Proof. intros (_ & Hm & Hl) [] Hr. split; [by exists a'|]. split; congruence. Qed.

Lemma live_seed_frame l st st' a' :
  good l st -> seed_frame st st' -> rep (p := p) st' a' -> good l st'.
Proof. intros (_ & Hm & Hl) [] Hr. split; [by exists a'|]. split; congruence. Qed.

Lemma live_set_mutex l l' st : good l st -> good l' (set_mutex l' st).
Proof. intros ([a Hr] & Hm & _). split; [exists a; by apply rep_set_mutex|]. by split. Qed.

Lemma safe_check_init div l st (s : process W) :
  good l st -> safe div (fun ok => ok = true) (ottery_st_rand_check_init addr st) s.
Proof.
  intros (_ & Hm & _). eapply safe_Ret; [by apply check_init_ok; right|done|done].
Qed.

(** The fork check keeps the state good even when reseeding fails. *)
Lemma safe_check_pid div l st (s : process W) :
  good l st -> safe div (fun r => good l (snd r)) (ottery_st_rand_check_pid addr st) s.
Proof.
  intros Hg. pose proof Hg as ([a Hr] & Hm & Hl). unfold ottery_st_rand_check_pid.
  destruct no_pid_check; [by apply safe_ret|]. unfold getpid.
  apply (safe_bind _ (fun _ : Z => True)); [by split|]. intros pid s1 _.
  destruct (negb _); [|by apply safe_ret].
  apply (safe_bind _ (fun r : Z * ottery_state => good l (snd r))).
  - destruct (reseed_ok addr st s1 (rep_seedable _ _ Hr)) as (err & st' & s' & E & Hp & Hf & H).
    eapply safe_Ret; [exact E|exact Hp|]. cbn.
    destruct H as [(_ & er & used & _ & Hr' & _)|(_ & Eb & Es & Ec & Ep)].
    + by eapply live_seed_frame.
    + eapply (live_seed_frame l st st' a); [done|done|].
      destruct Hf, Hr as [[] ???]. split; [split; congruence| |rewrite Ep|rewrite Ep, Eb]; congruence.
  - intros [err st'] s2 Hg'. cbn in Hg'. destruct (negb _).
    + apply (safe_bind _ (fun _ : unit => True)); [by apply safe_fatal|]. intros _ s3 _. by apply safe_ret.
    + apply (safe_bind _ (fun _ : Z => True)); [by split|]. intros pid' s3 _. apply safe_ret. cbn.
      destruct Hg' as ([a' Hr'] & Hm' & Hl'). split; [|done]. exists a'.
      by destruct Hr' as [[] ???].
Qed.

Lemma safe_LOCK div l st (s : process W) :
  lock_free l -> good l st -> safe div (good (held l)) (LOCK st) s.
Proof.
  intros Hf Hg. pose proof Hg as (_ & _ & <-). eapply safe_Ret; [by apply LOCK_ok|done|].
  by eapply live_set_mutex.
Qed.

Lemma safe_UNLOCK div l st (s : process W) :
  lock_free l -> good (held l) st -> safe div (good l) (UNLOCK st) s.
Proof.
  intros Hf Hg. pose proof Hg as (_ & _ & Hl).
  eapply safe_Ret; [apply (UNLOCK_ok (set_mutex l st) st); [exact Hf|exact Hl]|done|].
  by eapply live_set_mutex.
Qed.

(** A function between the locking prologue and the unlock. *)
Lemma safe_lock_and_check div l st (s : process W) :
  lock_free l -> good l st ->
  safe div (fun r : bool * ottery_state => good (if fst r then held l else l) (snd r))
    (ottery_st_rand_lock_and_check addr st) s.
Proof.
  intros Hf Hg. unfold ottery_st_rand_lock_and_check.
  eapply safe_bind; [by eapply safe_check_init|]. intros ? s1 ->. cbn [negb].
  eapply safe_bind; [by apply (safe_LOCK _ l)|]. intros st1 s2 Hg1.
  eapply safe_bind; [by apply safe_check_pid|]. intros [[] st2] s3 Hg2; cbn in Hg2 |- *.
  - by apply safe_ret.
  - eapply safe_bind; [by apply (safe_UNLOCK _ l)|]. intros st3 s4 Hg3. by apply safe_ret.
Qed.

Lemma safe_check_nolock div l st (s : process W) :
  good l st -> safe div (fun r => good l (snd r)) (ottery_st_rand_check_nolock addr st) s.
Proof.
  intros Hg. unfold ottery_st_rand_check_nolock.
  eapply safe_bind; [by eapply safe_check_init|]. intros ? s1 ->. cbn [negb].
  by apply safe_check_pid.
Qed.

Lemma safe_bytes_core div l st out off n (s : process W) :
  good l st -> 0 <= off -> 0 <= n < 2 ^ 63 -> off + n <= zlen out ->
  safe div (fun r => good l (fst r)) (lift (ottery_st_rand_bytes_impl st out off n)) s.
Proof.
  intros Hg Ho Hn Hout. pose proof Hg as ([a Hr] & _ & _).
  destruct (rand_bytes_impl_ok st a out off n Hr Ho Hn Hout) as (st' & E & Hr' & Hf & _).
  eapply safe_lift; [exact E|]. by eapply live_frame.
Qed.

Lemma safe_int_core div l st size (s : process W) :
  good l st -> 1 <= size <= 8 ->
  safe div (fun r => good l (snd r)) (lift (OTTERY_RETURN_RAND_INTTYPE_IMPL size st)) s.
Proof.
  intros Hg Hs. pose proof Hg as ([a Hr] & _ & _).
  destruct (rand_inttype_ok st a size Hr Hs) as (st' & E & Hr' & Hf & _).
  eapply safe_lift; [exact E|]. by eapply live_frame.
Qed.

Lemma safe_bytes div l st out off n (s : process W) :
  lock_free l -> good l st -> 0 <= off -> 0 <= n < 2 ^ 63 -> off + n <= zlen out ->
  safe div (fun r => good l (fst r)) (ottery_st_rand_bytes addr st out off n) s.
Proof.
  intros Hf Hg Ho Hn Hout. unfold ottery_st_rand_bytes.
  eapply safe_bind; [by eapply safe_lock_and_check|]. intros [[] st1] s1 Hg1; cbn in Hg1 |- *.
  - eapply safe_bind; [by apply safe_bytes_core|]. intros [st2 out2] s2 Hg2. cbn in Hg2.
    eapply safe_bind; [by apply (safe_UNLOCK _ l)|]. intros st3 s3 Hg3. by apply safe_ret.
  - by apply safe_ret.
Qed.

Lemma safe_bytes_nolock div l st out off n (s : process W) :
  good l st -> 0 <= off -> 0 <= n < 2 ^ 63 -> off + n <= zlen out ->
  safe div (fun r => good l (fst r)) (ottery_st_rand_bytes_nolock addr st out off n) s.
Proof.
  intros Hg Ho Hn Hout. unfold ottery_st_rand_bytes_nolock.
  eapply safe_bind; [by eapply safe_check_nolock|]. intros [[] st1] s1 Hg1; cbn in Hg1 |- *.
  - by apply safe_bytes_core.
  - by apply safe_ret.
Qed.

Lemma safe_int div l st size (s : process W) :
  lock_free l -> good l st -> 1 <= size <= 8 ->
  safe div (fun r => good l (snd r)) (OTTERY_RETURN_RAND_INTTYPE addr st size) s.
Proof.
  intros Hf Hg Hs. unfold OTTERY_RETURN_RAND_INTTYPE.
  eapply safe_bind; [by eapply safe_lock_and_check|]. intros [[] st1] s1 Hg1; cbn in Hg1 |- *.
  - eapply safe_bind; [by apply safe_int_core|]. intros [r st2] s2 Hg2. cbn in Hg2.
    eapply safe_bind; [by apply (safe_UNLOCK _ l)|]. intros st3 s3 Hg3. by apply safe_ret.
  - by apply safe_ret.
Qed.

Lemma safe_int_nolock div l st size (s : process W) :
  good l st -> 1 <= size <= 8 ->
  safe div (fun r => good l (snd r)) (OTTERY_RETURN_RAND_INTTYPE_NOLOCK addr st size) s.
Proof.
  intros Hg Hs. unfold OTTERY_RETURN_RAND_INTTYPE_NOLOCK.
  eapply safe_bind; [by eapply safe_check_nolock|]. intros [[] st1] s1 Hg1; cbn in Hg1 |- *.
  - by apply safe_int_core.
  - by apply safe_ret.
Qed.

Lemma safe_range_loop l fuel st size divisor upper (s : process W) :
  good l st -> 1 <= size <= 8 ->
  safe true (fun r => good l (snd r)) (rand_range_loop fuel addr st size divisor upper) s.
Proof.
  intros Hg Hs. revert st s Hg. induction fuel as [|fuel IH]; intros st s Hg; [done|].
  cbn [rand_range_loop]. eapply safe_bind; [by apply safe_int_nolock|].
  intros [r st1] s1 Hg1. cbn in Hg1 |- *. destruct (upper <? _); [by apply IH|by apply safe_ret].
Qed.

(** The locked range functions, for either width. *)
Lemma safe_range_locked l st size divisor upper fuel (s : process W) :
  lock_free l -> good l st -> 1 <= size <= 8 ->
  safe true (fun r => good l (snd r))
    (do ok <- ottery_st_rand_check_init addr st;
     if negb ok then ret (0, st)
     else
       do st <- LOCK st;
       do '(n, st) <- rand_range_loop fuel addr st size divisor upper;
       do st <- UNLOCK st;
       ret (n, st)) s.
Proof.
  intros Hf Hg Hs. eapply safe_bind; [by eapply safe_check_init|]. intros ? s1 ->. cbn [negb].
  eapply safe_bind; [by apply (safe_LOCK _ l)|]. intros st1 s2 Hg1.
  eapply safe_bind; [by apply safe_range_loop|]. intros [n st2] s3 Hg2. cbn in Hg2.
  eapply safe_bind; [by apply (safe_UNLOCK _ l)|]. intros st3 s4 Hg3. by apply safe_ret.
Qed.
End Live.

(** ** Calls on a state without a magic number *)

Section Blank.
Context {W : Type} {OS0 : OS W} {BC : BuildConfig} {PL : Platform}.
Context (addr : Z) (st : ottery_state).
Hypothesis Hb : OTTERY_NO_INIT_CHECK = false.
Hypothesis Hm : st_magic st <> MAGIC addr.

Lemma blank_check_init div (s : process W) :
  safe div (fun ok => ok = false) (ottery_st_rand_check_init addr st) s.
Proof.
  unfold ottery_st_rand_check_init. rewrite Hb, (proj2 (Z.eqb_neq _ _) Hm). cbn [negb andb].
  apply (safe_bind _ (fun _ : unit => True)); [by apply safe_fatal|]. intros _ s1 _. by apply safe_ret.
Qed.

Lemma blank_lock_and_check div (s : process W) :
  safe div (fun r => r = (false, st)) (ottery_st_rand_lock_and_check addr st) s.
Proof. eapply safe_bind; [by apply blank_check_init|]. intros ? s1 ->. by apply safe_ret. Qed.

Lemma blank_check_nolock div (s : process W) :
  safe div (fun r => r = (false, st)) (ottery_st_rand_check_nolock addr st) s.
Proof. eapply safe_bind; [by apply blank_check_init|]. intros ? s1 ->. by apply safe_ret. Qed.

Lemma blank_bytes div out off n (s : process W) :
  safe div (fun r => r = (st, out)) (ottery_st_rand_bytes addr st out off n) s.
Proof. eapply safe_bind; [by apply blank_lock_and_check|]. intros ? s1 ->. by apply safe_ret. Qed.

Lemma blank_bytes_nolock div out off n (s : process W) :
  safe div (fun r => r = (st, out)) (ottery_st_rand_bytes_nolock addr st out off n) s.
Proof. eapply safe_bind; [by apply blank_check_nolock|]. intros ? s1 ->. by apply safe_ret. Qed.

Lemma blank_int div size (s : process W) :
  safe div (fun r => r = (0, st)) (OTTERY_RETURN_RAND_INTTYPE addr st size) s.
Proof. eapply safe_bind; [by apply blank_lock_and_check|]. intros ? s1 ->. by apply safe_ret. Qed.

Lemma blank_int_nolock div size (s : process W) :
  safe div (fun r => r = (0, st)) (OTTERY_RETURN_RAND_INTTYPE_NOLOCK addr st size) s.
Proof. eapply safe_bind; [by apply blank_check_nolock|]. intros ? s1 ->. by apply safe_ret. Qed.

Lemma blank_range_loop fuel size divisor upper (s : process W) :
  safe true (fun r => snd r = st) (rand_range_loop fuel addr st size divisor upper) s.
Proof.
  revert s. induction fuel as [|fuel IH]; intros s; [done|]. cbn [rand_range_loop].
  eapply safe_bind; [by apply blank_int_nolock|]. intros ? s1 ->.
  destruct (upper <? _); [apply IH|by apply safe_ret].
Qed.

Lemma blank_add_seed div seed n locking (s : process W) :
  safe div (fun r => snd r = st) (ottery_st_add_seed_impl addr st seed n locking true) s.
Proof.
  unfold safe. rewrite add_seed_bad_magic by done.
  apply (safe_bind _ (fun _ : unit => True)); [by apply safe_fatal|]. intros _ s1 _. by apply safe_ret.
Qed.

Lemma blank_range div fuel upper (s : process W) :
  safe div (fun r => snd r = st) (ottery_st_rand_range fuel addr st upper) s.
Proof. eapply safe_bind; [by apply blank_check_init|]. intros ? s1 ->. by apply safe_ret. Qed.

Lemma blank_range64 div fuel upper (s : process W) :
  safe div (fun r => snd r = st) (ottery_st_rand_range64 fuel addr st upper) s.
Proof. eapply safe_bind; [by apply blank_check_init|]. intros ? s1 ->. by apply safe_ret. Qed.

(** Every output and seeding call leaves a blank state as it was. *)
Lemma blank_exec c (s : process W) :
  match c with CInit _ _ | CPreventBacktracking _ | CWipe _ => False | _ => True end ->
  safe (is_range c) (fun st' => st' = st) (exec addr st c) s.
Proof.
  intros Hc. destruct c as [| [] | [] | [] | [] | [] | [] | [] | |]; try done; cbn [exec is_range].
  all: eapply safe_bind;
    [first [apply blank_bytes|apply blank_bytes_nolock|apply blank_int|apply blank_int_nolock
           |apply blank_range_loop|apply blank_add_seed
           |apply blank_range|apply blank_range64]
    |intros r s1 H; apply safe_ret; first [exact H|by rewrite H]].
Qed.
End Blank.

(** ** Every permitted call is safe *)

Section Exec.
Context {W : Type} {OS0 : OS W} {BC : BuildConfig} {PL : Platform} {OL : OSLaws OS0}.
Context (addr : Z).

Lemma live_as_healthy {p} {PS : PrfSpec p} {PZ : PrfSizes p} l st :
  l <> LockHeld -> live_as p addr l st -> healthy addr st.
Proof.
  intros Hl Hg. pose proof Hg as (_ & _ & <-). split; [done|right]. by exists p, PS, PZ.
Qed.

Lemma init_safe div st config locked (s : process W) :
  config_good config -> healthy addr st -> Z.land addr 0xf = 0 ->
  safe div (fun r => healthy addr (snd r)) (ottery_st_initialize addr st config locked) s.
Proof.
  intros Hc Hh Ha.
  destruct (resolve_ok config s Hc) as (q & Hq & PS & PZ).
  destruct (initialize_ok addr st config locked s Hq) as (err & st' & s' & E & Hp & Hl & H).
  eapply safe_Ret; [exact E|exact Hp|]. cbn. split.
  - destruct Hl as [-> |Hl]; [by apply Hh|done].
  - destruct H as [H|(_ & _ & [(_ & Ha' & _)|[_ Hm]])]; [right|done|left].
    + destruct H as (_ & _ & er & used & _ & Hr & Hm & _). exists q, PS, PZ.
      split; [by eexists|done].
    + rewrite Hm. intros E0. by apply (MAGIC_nonzero addr Ha).
Qed.

Section Live.
Context {p : ottery_prf} {PS : PrfSpec p} {PZ : PrfSizes p}.

Lemma add_seed_safe div l st seed n locking (s : process W) :
  live_as p addr l st -> (locking = true -> lock_free l) -> 0 <= n ->
  match seed with Some sd => n <= zlen sd | None => True end ->
  safe div (fun r => live_as p addr l (snd r)) (ottery_st_add_seed_impl addr st seed n locking true) s.
Proof.
  intros Hg Hf Hn Hs. pose proof Hg as ([a Hr] & Hm & Hl).
  assert (locking = true -> lock_ready st) as Hlk
    by (intros Ht; destruct (Hf Ht) as [?|?]; [by left|right; congruence]).
  destruct (decide (n = 0 \/ seed = None)) as [Hos|Hno].
  - destruct (api_add_seed_os_ok addr st a seed n locking true s Hr Hlk) as
      (err & st' & s' & E & Hp & Hfr & H); [by right|done|].
    eapply safe_Ret; [exact E|exact Hp|]. cbn.
    destruct H as [(_ & er & used & _ & Hr' & _)|[_ Hr']]; by eapply live_seed_frame.
  - destruct seed as [sd|]; [|tauto].
    destruct (api_add_seed_ok addr st a sd n locking true s Hr Hlk) as (st' & E & Hr' & Hfr & _);
      [by right|lia|].
    eapply safe_Ret; [exact E|done|]. by eapply live_seed_frame.
Qed.

Lemma prevent_core_safe div l st (s : process W) :
  live_as p addr l st ->
  safe div (live_as p addr l) (lift (ottery_st_prevent_backtracking_nolock st)) s.
Proof.
  intros Hg. pose proof Hg as ([a Hr] & _ & _).
  destruct (prevent_ok st a Hr) as (st' & E & Hr' & Hfr & _).
  eapply safe_lift; [exact E|]. by eapply live_frame.
Qed.

Lemma prevent_safe div l st locked (s : process W) :
  live_as p addr l st -> (locked = true -> lock_free l) ->
  safe div (live_as p addr l) (exec addr st (CPreventBacktracking locked)) s.
Proof.
  intros Hg Hf. destruct locked; [|by apply prevent_core_safe].
  cbn [exec]. unfold ottery_st_prevent_backtracking.
  eapply safe_bind; [by apply (safe_LOCK addr _ l); [apply Hf|]|]. intros st1 s1 Hg1.
  eapply safe_bind; [by apply prevent_core_safe|]. intros st2 s2 Hg2.
  by apply (safe_UNLOCK addr _ l); [apply Hf|].
Qed.

(** Every call but initialization and wiping, on an initialized state. *)
Lemma live_exec l st c (s : process W) :
  live_as p addr l st -> permitted addr st c ->
  match c with CInit _ _ | CWipe _ => False | _ => True end ->
  safe (is_range c) (live_as p addr l) (exec addr st c) s.
Proof.
  intros Hg Hp Hc. pose proof Hg as (_ & Hm & Hl).
  assert (forall b, lock_fits addr b st -> b = true -> lock_free l) as Hfit
    by (intros b Hb Ht; rewrite <-Hl; by apply Hb).
  destruct c as [| [] out off n | [] | [] | [] | [] fuel upper | [] fuel upper | [] seed n | b |];
    try done; cbn [permitted] in Hp.
  all: lazymatch goal with
    | |- safe _ _ (exec _ _ (CPreventBacktracking _)) _ =>
        apply prevent_safe; [done|]; apply Hfit, Hp
    | _ => cbn [exec is_range]; eapply safe_bind;
        [|intros r s1 H; apply safe_ret; exact H]
    end.
  - destruct Hp as (Hf & Ho & Hn & Hout). apply safe_bytes; try done. by apply (Hfit true).
  - destruct Hp as (Hf & Ho & Hn & Hout). by apply safe_bytes_nolock.
  - apply safe_int; [by apply (Hfit true)|done|lia].
  - apply safe_int_nolock; [done|lia].
  - apply safe_int; [by apply (Hfit true)|done|lia].
  - apply safe_int_nolock; [done|lia].
  - apply safe_int; [by apply (Hfit true)|done|lia].
  - apply safe_int_nolock; [done|lia].
  - apply safe_range_locked; [by apply (Hfit true)|done|lia].
  - apply safe_range_loop; [done|lia].
  - apply safe_range_locked; [by apply (Hfit true)|done|lia].
  - apply safe_range_loop; [done|lia].
  - destruct Hp as (Hf & Hn & Hs). apply add_seed_safe; try done. by apply (Hfit true).
  - destruct Hp as (Hf & Hn & Hs). by apply add_seed_safe.
Qed.
End Live.

Lemma wipe_safe div st locked (s : process W) :
  OTTERY_NO_INIT_CHECK = false -> Z.land addr 0xf = 0 -> permitted addr st (CWipe locked) ->
  safe div (healthy addr) (exec addr st (CWipe locked)) s.
Proof.
  intros Hb Ha Hp. assert (healthy addr zero_state) as Hz.
  { split; [done|left]. intros E. by apply (MAGIC_nonzero addr Ha). }
  destruct locked; [|by apply safe_ret]. cbn [exec]. unfold ottery_st_wipe.
  apply (safe_bind _ (fun _ : lock_state => True)); [|intros; by apply safe_ret].
  unfold DESTROY_LOCK. cbn [permitted] in Hp. destruct (Hp eq_refl) as [-> | ->]; [by apply safe_ret|].
  by destruct lock_impl; apply safe_ret.
Qed.

Lemma exec_safe st c (s : process W) :
  OTTERY_NO_INIT_CHECK = false -> Z.land addr 0xf = 0 -> healthy addr st -> permitted addr st c ->
  safe (is_range c) (healthy addr) (exec addr st c) s.
Proof.
  intros Hb Ha Hh Hp. pose proof Hh as [Hl Hlive].
  destruct c as [locked cfg| | | | | | | |locked|locked]; try (by apply wipe_safe).
  { destruct locked; cbn [exec]; (eapply safe_bind; [by apply init_safe|]);
      intros r s1 H; apply safe_ret; exact H. }
  all: destruct Hlive as [Hm|(q & PS & PZ & Hg)];
    [|eapply safe_mono; [eapply live_exec; [exact Hg|exact Hp|done]|];
      intros st' Hg'; by eapply live_as_healthy].
  8: by destruct Hp.
  all: eapply safe_mono; [by apply blank_exec|]; intros ? ->; exact Hh.
Qed.

Lemma reachable_healthy st (s : process W) :
  OTTERY_NO_INIT_CHECK = false -> Z.land addr 0xf = 0 -> reachable addr st s -> healthy addr st.
Proof.
  intros Hb Ha. induction 1 as [st s Hm Hl|st s c st' s' _ IH Hp E|st s s' _ IH].
  - split; [by rewrite Hl|by left].
  - pose proof (exec_safe st c s Hb Ha IH Hp) as H. unfold safe in H. rewrite E in H. apply H.
  - exact IH.
Qed.
End Exec.

(** ** A concrete reachable state *)

#[local] Existing Instance default_build.

Definition is_ret {A} (o : outcome A) : bool := if o is Ret _ then true else false.

(** The state and process after initialization with the dummy PRF. *)
Definition initialised : ottery_state * process tworld :=
  match exec 4096 zero_state (CInit true (Some test_config)) proc0 with
  | Ret r => r
  | _ => (zero_state, proc0)
  end.

Lemma initialised_ret :
  exec 4096 zero_state (CInit true (Some test_config)) proc0 = Ret initialised.
Proof.
  assert (is_ret (exec 4096 zero_state (CInit true (Some test_config)) proc0) = true) as H
    by (vm_compute; reflexivity).
  unfold initialised. by destruct (exec _ _ _ _).
Qed.

Lemma initialised_reachable : reachable 4096 (fst initialised) (snd initialised).
Proof.
  apply (reach_call _ zero_state proc0 (CInit true (Some test_config))).
  - apply reach_start; [vm_compute; discriminate|done].
  - exact (prf_good_intro _ dummy_spec dummy_sizes).
  - rewrite initialised_ret. by destruct initialised.
Qed.

Lemma initialised_lock_fits locked : lock_fits 4096 locked (fst initialised).
Proof. intros _ _. right. vm_compute. reflexivity. Qed.

(** ** The properties *)

(** C7: whatever calls a program has made on a state, with forks, changed fatal
    handlers and failures of the operating system in between, a further
    permitted call has no undefined behaviour: it reads and writes only inside
    its buffers, passes every assertion, and takes and releases its lock in
    order. It aborts only when no fatal handler is set, only a range call can
    keep drawing, and a call that returns leaves the lock free and the state
    either refused by its magic number or a full generator. *)
Theorem api_calls_safe {W : Type} {OS0 : OS W} {BC : BuildConfig} {PL : Platform}
    {OL : OSLaws OS0} addr st c (s : process W) :
  OTTERY_NO_INIT_CHECK = false -> Z.land addr 0xf = 0 ->
  reachable addr st s -> permitted addr st c ->
  match exec addr st c s with
  | Ret (st', s') => ottery_fatal_handler s' = ottery_fatal_handler s /\ healthy addr st'
  | Aborted => ottery_fatal_handler s = None
  | Undefined => False
  | NoFuel => is_range c = true
  end.
Proof. intros Hb Ha Hr Hp. by apply exec_safe; [..|eapply reachable_healthy|]. Qed.

Lemma api_calls_safe_witness :
  match exec 4096 (fst initialised) (CBytes true (zeros 300) 0 300) (snd initialised) with
  | Ret (st', s') =>
      ottery_fatal_handler s' = ottery_fatal_handler (snd initialised) /\ healthy 4096 st'
  | Aborted => ottery_fatal_handler (snd initialised) = None
  | Undefined => False
  | NoFuel => is_range (CBytes true (zeros 300) 0 300) = true
  end.
Proof.
  apply (api_calls_safe 4096 (fst initialised) (CBytes true (zeros 300) 0 300) (snd initialised));
    [reflexivity|reflexivity|exact initialised_reachable|].
  split; [apply initialised_lock_fits|]. split; [lia|]. split; [lia|vm_compute; discriminate].
Defined.
