(* ===== verification/ConfigProps.v ===== *)
(** * Properties of the configuration, the PRF table and the build flags *)
From S2P Require Import Prelude Words Memory Internal Spec Prng Refine.
From S2P Require Import ChaChaRef ChaChaMerged ChaChaKrovetz Os CpuInfo Entropy TestOs Config Api ApiRefine.
Local Open Scope Z_scope.
Local Open Scope ottery_scope.

(** ** The properties *)

(** C14: whatever name and CPU, [ottery_get_impl] returns only a PRF of the table
    that the CPU's enabled capabilities cover and that answers to the name, and
    that PRF implements the PRF interface (a correct [setup] and [generate] at
    sizes the generator can use); asked for no name, it always finds one. *)
Theorem get_impl_contract {W : Type} {OS0 : OS W} {PL : Platform} (i : option string)
    (s : process W) :
  exists r, ottery_get_impl i s = Ret (r, s) /\
    match r with
    | Some q => In q ALL_PRFS /\ prf_good q /\
        Z.land (required_cpucap q)
          (Z.ldiff (cpu_capabilities (world s)) (disabled_cpu_capabilities s)) =
          required_cpucap q /\
        match i with Some n => n = name q \/ n = impl q \/ n = flav q | None => True end
    | None => i <> None
    end.
Proof.
  unfold ottery_get_impl, ottery_get_cpu_capabilities_. rewrite bind_gets.
  eexists. split; [reflexivity|]. set (cap := Z.ldiff _ _).
  destruct (get_impl_loop i cap ALL_PRFS) as [q|] eqn:E.
  - apply get_impl_loop_in in E as (Hin & Hc & Hi). split; [done|]. split; [|split; [done|]].
    + pose proof ALL_PRFS_ok as H. rewrite Forall_forall in H. by apply H, list_elem_of_In.
    + by destruct i.
  - intros ->. destruct (get_impl_default cap) as [q Hq]. congruence.
Qed.

(** The portable implementations are found by name and by implementation
    name on every CPU and in every build, whatever is disabled. *)
Theorem portable_names_found {W : Type} {OS0 : OS W} {PL : Platform} cfg (s : process W) n :
  In n [OTTERY_PRF_CHACHA8; OTTERY_PRF_CHACHA12; OTTERY_PRF_CHACHA20;
        OTTERY_PRF_CHACHA8_NO_SIMD; OTTERY_PRF_CHACHA12_NO_SIMD; OTTERY_PRF_CHACHA20_NO_SIMD] ->
  exists q, ottery_config_force_implementation cfg (Some n) s =
    Ret (0, mk_config (Some q) (cfg_entropy cfg), s) /\ prf_good q.
Proof.
  intros Hn. unfold ottery_config_force_implementation, ottery_get_impl,
    ottery_get_cpu_capabilities_. rewrite bind_assoc, bind_gets, bind_ret. set (cap := Z.ldiff _ _).
  assert (exists q, get_impl_loop (Some n) cap ALL_PRFS = Some q) as [q E].
  { unfold ALL_PRFS. rewrite app_assoc. generalize (match HAVE_SIMD_CHACHA_2 with
      | Some t => [ottery_prf_chacha20_krovetz_ t; ottery_prf_chacha12_krovetz_ t;
                   ottery_prf_chacha8_krovetz_ t] | None => [] end ++
      match HAVE_SIMD_CHACHA with
      | Some t => [ottery_prf_chacha20_krovetz_ t; ottery_prf_chacha12_krovetz_ t;
                   ottery_prf_chacha8_krovetz_ t] | None => [] end).
    intros l. induction l as [|r l IH].
    - cbn [app]. repeat (destruct Hn as [<-|Hn]; [by eexists|]). destruct Hn.
    - cbn [app get_impl_loop]. destruct (negb _); [done|].
      destruct (String.eqb n (name r)); [by eexists|].
      destruct (String.eqb n (impl r)); [by eexists|].
      destruct (String.eqb n (flav r)); [by eexists|done]. }
  rewrite E. exists q. split; [done|]. apply get_impl_loop_in in E as (Hin & _ & _).
  pose proof ALL_PRFS_ok as H. rewrite Forall_forall in H. by apply H, list_elem_of_In.
Qed.

Lemma portable_names_found_witness :
  exists q, ottery_config_force_implementation ottery_config_init (Some OTTERY_PRF_CHACHA12) proc0 =
    Ret (0, mk_config (Some q) (cfg_entropy ottery_config_init), proc0) /\ prf_good q.
Proof. apply (portable_names_found ottery_config_init proc0). right; left; reflexivity. Defined.

(** The three names without a round count that ottery_common.h offers match
    no PRF of any build on any CPU: forcing them fails with INVALID_ARGUMENT. *)
Theorem unnumbered_names_rejected {W : Type} {OS0 : OS W} {PL : Platform} cfg (s : process W) n :
  In n [OTTERY_PRF_CHACHA; OTTERY_PRF_CHACHA_SIMD; OTTERY_PRF_CHACHA_NO_SIMD] ->
  ottery_config_force_implementation cfg (Some n) s = Ret (OTTERY_ERR_INVALID_ARGUMENT, cfg, s).
Proof.
  intros Hn. unfold ottery_config_force_implementation, ottery_get_impl,
    ottery_get_cpu_capabilities_. rewrite bind_assoc, bind_gets, bind_ret. set (cap := Z.ldiff _ _).
  destruct (get_impl_loop (Some n) cap ALL_PRFS) as [q|] eqn:E; [exfalso|done].
  apply get_impl_loop_in in E as (Hin & _ & Hname).
  assert (forall q', name q' <> n /\ impl q' <> n /\ flav q' <> n -> q <> q') as Hne.
  { intros q' (?&?&?) ->. destruct Hname as [?|[?|?]]; congruence. }
  assert (forall t, ~ In q [ottery_prf_chacha20_krovetz_ t; ottery_prf_chacha12_krovetz_ t;
    ottery_prf_chacha8_krovetz_ t]) as Hk.
  { intros t Hq. assert (forall q', In q' [ottery_prf_chacha20_krovetz_ t;
      ottery_prf_chacha12_krovetz_ t; ottery_prf_chacha8_krovetz_ t] ->
      name q' <> n /\ impl q' <> n /\ flav q' <> n) as Hall; [|by apply (Hne q (Hall q Hq))].
    intros q' Hq'. destruct t as [|? []];
      repeat (destruct Hn as [<-|Hn]; [repeat (destruct Hq' as [<-|Hq'];
        [split_and!; discriminate|]); destruct Hq'|]); destruct Hn. }
  unfold ALL_PRFS in Hin. rewrite !in_app_iff in Hin. destruct Hin as [Hin|[Hin|Hin]].
  - destruct HAVE_SIMD_CHACHA_2; [by apply Hk in Hin|destruct Hin].
  - destruct HAVE_SIMD_CHACHA; [by apply Hk in Hin|destruct Hin].
  - repeat (destruct Hn as [<-|Hn]; [repeat (destruct Hin as [<-|Hin];
      [destruct Hname as [?|[?|?]]; discriminate|]); destruct Hin|]). destruct Hn.
Qed.

Lemma unnumbered_names_rejected_witness :
  ottery_config_force_implementation ottery_config_init (Some OTTERY_PRF_CHACHA) proc0 =
    Ret (OTTERY_ERR_INVALID_ARGUMENT, ottery_config_init, proc0).
Proof. apply (unnumbered_names_rejected ottery_config_init proc0). left. reflexivity. Defined.

(** A capability once disabled is never reported again, and a PRF that
    needs it is not chosen. *)
Theorem disabled_capability_not_used {W : Type} {OS0 : OS W} {PL : Platform} mask i q
    (s s1 s2 : process W) :
  ottery_disable_cpu_capabilities_ mask s = Ret (tt, s1) ->
  ottery_get_impl i s1 = Ret (Some q, s2) ->
  Z.land (required_cpucap q) mask = 0.
Proof.
  intros [= <-]. unfold ottery_get_impl, ottery_get_cpu_capabilities_. rewrite bind_gets.
  intros [= E <-]. apply get_impl_loop_in in E as (_ & Hc & _). cbn in Hc.
  apply Z.bits_inj'. intros b Hb. rewrite Z.bits_0, Z.land_spec.
  rewrite <-Hc, Z.land_spec, Z.ldiff_spec, Z.lor_spec.
  destruct (Z.testbit mask b); [|apply andb_false_r].
  rewrite orb_true_r. cbn [negb]. by rewrite !andb_false_r.
Qed.

Lemma disabled_capability_not_used_witness :
  Z.land (required_cpucap ottery_prf_chacha8_merged_) OTTERY_CPUCAP_SIMD = 0.
Proof.
  apply (disabled_capability_not_used OTTERY_CPUCAP_SIMD (Some OTTERY_PRF_CHACHA8)
    ottery_prf_chacha8_merged_ proc0 (mk_process tworld0 OTTERY_CPUCAP_SIMD None)
    (mk_process tworld0 OTTERY_CPUCAP_SIMD None)); reflexivity.
Defined.

(** [ottery_get_build_flags] reports each build option by its own bit, and
    nothing else; its safety bits are clear exactly when the build checks pids
    and initialization, locks, clears after yielding and wipes the stack. *)
Theorem build_flags_exact {BC : BuildConfig} {PL : Platform} :
  (forall b, Z.testbit ottery_get_build_flags b =
    ((b =? 0) && no_pid_check) || ((b =? 1) && OTTERY_NO_INIT_CHECK) ||
    ((b =? 2) && (if lock_impl is NO_LOCKS then true else false)) ||
    ((b =? 3) && OTTERY_NO_CLEAR_AFTER_YIELD) || ((b =? 4) && OTTERY_NO_WIPE_STACK) ||
    ((b =? 16) && OTTERY_NO_SIMD)) /\
  (Z.land ottery_get_build_flags OTTERY_BLDFLG_MASK_SAFETY = 0 <->
    no_pid_check = false /\ OTTERY_NO_INIT_CHECK = false /\ lock_impl <> NO_LOCKS /\
    OTTERY_NO_CLEAR_AFTER_YIELD = false /\ OTTERY_NO_WIPE_STACK = false).
Proof.
  unfold ottery_get_build_flags. generalize lock_impl as l. intros l. split.
  - intros b. destruct (Z.ltb_spec b 0).
    { rewrite Z.testbit_neg_r by lia.
      repeat match goal with |- context [b =? ?n] =>
        rewrite (proj2 (Z.eqb_neq b n)) by lia end. done. }
    destruct (Z.ltb_spec b 17).
    + assert (In b (seqZ 0 17)) as Hb.
      { apply list_elem_of_In, elem_of_seqZ. lia. }
      vm_compute in Hb.
      repeat (destruct Hb as [<-|Hb];
        [by destruct no_pid_check, OTTERY_NO_INIT_CHECK, l, OTTERY_NO_CLEAR_AFTER_YIELD,
           OTTERY_NO_WIPE_STACK, OTTERY_NO_SIMD|]). destruct Hb.
    + match goal with |- Z.testbit ?f b = _ => assert (0 <= f < 2 ^ 17) as Hf end.
      { destruct no_pid_check, OTTERY_NO_INIT_CHECK, l, OTTERY_NO_CLEAR_AFTER_YIELD,
          OTTERY_NO_WIPE_STACK, OTTERY_NO_SIMD; vm_compute; split; discriminate || reflexivity. }
      rewrite (testbit_high _ 17 b Hf) by lia.
      repeat match goal with |- context [b =? ?n] =>
        rewrite (proj2 (Z.eqb_neq b n)) by lia end. done.
  - destruct no_pid_check, OTTERY_NO_INIT_CHECK, l, OTTERY_NO_CLEAR_AFTER_YIELD,
      OTTERY_NO_WIPE_STACK, OTTERY_NO_SIMD; vm_compute; intuition (discriminate || congruence).
Qed.
