(* ===== verification/Global.v ===== *)
(** * The global generator: src/ottery_global.c

    The [ottery_] functions on the process-wide state, which the first call
    initializes. The structure has a fixed address. *)
From S2P Require Import Prelude Words Memory Internal Spec Prng Refine.
From S2P Require Import ChaChaRef ChaChaMerged ChaChaKrovetz Os CpuInfo Entropy Config Api.
Local Open Scope Z_scope.
Local Open Scope ottery_scope.

(** [ottery_global_state_initialized_] and [ottery_global_state_]. *)
Record global := mk_global {
  ottery_global_state_initialized_ : bool;
  ottery_global_state_ : ottery_state }.

Definition initial_global : global := mk_global false zero_state.

Section Global.
Context {W : Type} {OS0 : OS W} {BC : BuildConfig} {PL : Platform}.
(** The address of [ottery_global_state_]. *)
Context (addr : Z).

Definition ottery_init (g : global) (cfg : option ottery_config) : M W (Z * global) :=
  do '(n, st) <- ottery_st_init addr (ottery_global_state_ g) cfg;
  ret (n, mk_global (if n =? 0 then true else ottery_global_state_initialized_ g) st).

(** [CHECK_INIT(rv)]: [false] when the caller must return [rv]. Another thread may run
    between the test of the flag and the body of the [if]. *)
Definition CHECK_INIT_body (g : global) : M W (bool * global) :=
  do '(err, g) <- ottery_init g None;
  if negb (err =? 0) then
    do_ ottery_fatal_error_ (Z.lor OTTERY_ERR_FLAG_GLOBAL_PRNG_INIT err);
    ret (false, g)
  else ret (true, g).

Definition CHECK_INIT (g : global) : M W (bool * global) :=
  if ottery_global_state_initialized_ g then ret (true, g) else CHECK_INIT_body g.

(** A function of the global API: the check, then the [ottery_st_] function;
    [rv] is what the check's early return gives. *)
Definition with_global {A} (rv : A) (g : global)
    (f : ottery_state -> M W (A * ottery_state)) : M W (A * global) :=
  do '(ok, g) <- CHECK_INIT g;
  if negb ok then ret (rv, g)
  else
    do '(a, st) <- f (ottery_global_state_ g);
    ret (a, mk_global (ottery_global_state_initialized_ g) st).

Definition ottery_add_seed (g : global) (seed : option (list byte)) (n : Z) : M W (Z * global) :=
  with_global 0 g (fun st => ottery_st_add_seed addr st seed n).

Definition ottery_wipe (g : global) : M W global :=
  if ottery_global_state_initialized_ g then
    do st <- ottery_st_wipe (ottery_global_state_ g);
    ret (mk_global false st)
  else ret g.

Definition ottery_prevent_backtracking (g : global) : M W (unit * global) :=
  with_global tt g (fun st => do st <- ottery_st_prevent_backtracking st; ret (tt, st)).

Definition ottery_rand_bytes (g : global) (out : list byte) (off n : Z)
  : M W (list byte * global) :=
  with_global out g (fun st =>
    do '(st, out) <- ottery_st_rand_bytes addr st out off n; ret (out, st)).

Definition ottery_rand_unsigned (g : global) : M W (Z * global) :=
  with_global 0 g (ottery_st_rand_unsigned addr).

Definition ottery_rand_uint32 (g : global) : M W (Z * global) :=
  with_global 0 g (ottery_st_rand_uint32 addr).

Definition ottery_rand_uint64 (g : global) : M W (Z * global) :=
  with_global 0 g (ottery_st_rand_uint64 addr).

Definition ottery_rand_range (fuel : nat) (g : global) (top : Z) : M W (Z * global) :=
  with_global 0 g (fun st => ottery_st_rand_range fuel addr st top).

Definition ottery_rand_range64 (fuel : nat) (g : global) (top : Z) : M W (Z * global) :=
  with_global 0 g (fun st => ottery_st_rand_range64 fuel addr st top).

End Global.
