(* ===== verification/GlobalProps.v ===== *)
(** * Properties of the global API *)
From S2P Require Import Prelude Words Memory Internal Spec Prng Refine.
From S2P Require Import ChaChaRef ChaChaMerged ChaChaKrovetz Os CpuInfo Entropy TestOs Config Api ApiRefine ApiProps.
From S2P Require Import Global.
Local Open Scope Z_scope.
Local Open Scope ottery_scope.

#[local] Existing Instance default_build.

(** ** Lemmas *)

Section GlobalProps.
Context {W : Type} {OS0 : OS W} {BC : BuildConfig} {PL : Platform} {OL : OSLaws OS0}.
Context (addr : Z).

(** The check on an uninitialized global state: initialization, or a fatal
    error that leaves the flag clear. *)
Lemma CHECK_INIT_first g (s : process W) :
  ottery_global_state_initialized_ g = false ->
  (exists st' s' q (PS : PrfSpec q) (PZ : PrfSizes q) er used,
     CHECK_INIT addr g s = Ret (true, mk_global true st', s') /\ same_process s s' /\
     resolve_prf None s = Some q /\
     entropy_success (Some (cfg_entropy ottery_config_init)) 0 (state_bytes q)
       (ottery_get_entropy_bufsize_ (state_bytes q)) er used /\
     ready addr st' (construct (state_bytes q) (output_len q) (prf_out q) (seed_bytes er)) s') \/
  (exists err st' s', err <> 0 /\ OTTERY_ERR_IS_FATAL err = false /\ same_process s s' /\
     ottery_st_init addr (ottery_global_state_ g) None s = Ret (err, st', s') /\
     CHECK_INIT addr g s = fatal_then (Z.lor OTTERY_ERR_FLAG_GLOBAL_PRNG_INIT err)
       (false, mk_global false st') s').
Proof.
  intros Hg. unfold CHECK_INIT, CHECK_INIT_body, ottery_init. rewrite Hg.
  destruct (resolve_ok None s I) as (q & Hq & PS & PZ).
  destruct (initialize_ok addr (ottery_global_state_ g) None true s Hq)
    as (err & st' & s' & E & Hsp & _ & [H|H]).
  - destruct H as (-> & _ & er & used & Hok & Hr & Hm & Hp & Hl & _). left.
    exists st', s', q, PS, PZ, er, used.
    rewrite bind_assoc. unfold ottery_st_init. rewrite (bind_Ret _ _ _ _ _ E), bind_ret.
    cbn [Z.eqb negb]. split; [done|]. split; [done|]. split; [done|]. split; [done|].
    split; [|by apply Hl]. split; [done|by right..].
  - destruct H as (He & Hf & _). right. exists err, st', s'. split_and!; try done.
    rewrite bind_assoc. unfold ottery_st_init. rewrite (bind_Ret _ _ _ _ _ E), bind_ret.
    rewrite (proj2 (Z.eqb_neq err 0) He). cbn [negb]. by apply fatal_bind.
Qed.
End GlobalProps.

(** ** The properties *)

(** The first [ottery_rand_bytes] of a process initializes the global state
    with the defaults and then writes the bytes of the generator constructed
    from fresh entropy; if initialization fails it reports GLOBAL_PRNG_INIT
    with the error, writes nothing, and the state stays uninitialized, so that
    the next call tries again. *)
Theorem global_first_use {W : Type} {OS0 : OS W} {BC : BuildConfig} {PL : Platform}
    {OL : OSLaws OS0} addr g out off n (s : process W) :
  ottery_global_state_initialized_ g = false ->
  0 <= off -> 0 <= n < 2 ^ 63 -> off + n <= zlen out ->
  (exists q (PS : PrfSpec q) (PZ : PrfSizes q) er used a g' s',
     entropy_success (Some (cfg_entropy ottery_config_init)) 0 (state_bytes q)
       (ottery_get_entropy_bufsize_ (state_bytes q)) er used /\
     a = construct (state_bytes q) (output_len q) (prf_out q) (seed_bytes er) /\
     ottery_rand_bytes addr g out off n s =
       Ret (splice out off (fst (get_bytes (state_bytes q) (output_len q) (prf_out q) n a)), g', s') /\
     ottery_global_state_initialized_ g' = true /\
     rep (ottery_global_state_ g') (snd (get_bytes (state_bytes q) (output_len q) (prf_out q) n a))) \/
  (exists err g' s', err <> 0 /\ ottery_global_state_initialized_ g' = false /\
     ottery_rand_bytes addr g out off n s =
       fatal_then (Z.lor OTTERY_ERR_FLAG_GLOBAL_PRNG_INIT err) (out, g') s').
Proof.
  intros Hg Ho Hn Hout. unfold ottery_rand_bytes, with_global.
  destruct (CHECK_INIT_first addr g s Hg) as
    [(st' & s' & q & PS & PZ & er & used & E & _ & _ & Hok & Hrd)|(err & st' & s' & He & _ & Hsp & _ & E)].
  - left. exists q, PS, PZ, er, used. rewrite (bind_Ret _ _ _ _ _ E). cbn [negb].
    cbn [ottery_global_state_ ottery_global_state_initialized_].
    destruct (api_rand_bytes_ok addr st' _ out off n s' Hrd Ho Hn Hout) as (st2 & E2 & Hr2 & _).
    rewrite !bind_assoc, (bind_Ret _ _ _ _ _ E2), bind_ret.
    do 3 eexists. split; [exact Hok|]. split; [reflexivity|]. split; [reflexivity|]. by split.
  - right. exists err, (mk_global false st'), s'. split; [done|]. split; [done|].
    by apply (fatal_then_bind _ _ _ (false, mk_global false st')).
Qed.

Lemma global_first_use_witness :
  (exists q (PS : PrfSpec q) (PZ : PrfSizes q) er used a g' s',
     entropy_success (Some (cfg_entropy ottery_config_init)) 0 (state_bytes q)
       (ottery_get_entropy_bufsize_ (state_bytes q)) er used /\
     a = construct (state_bytes q) (output_len q) (prf_out q) (seed_bytes er) /\
     ottery_rand_bytes 8192 initial_global (zeros 9) 1 8 proc0 =
       Ret (splice (zeros 9) 1 (fst (get_bytes (state_bytes q) (output_len q) (prf_out q) 8 a)),
            g', s') /\
     ottery_global_state_initialized_ g' = true /\
     rep (ottery_global_state_ g') (snd (get_bytes (state_bytes q) (output_len q) (prf_out q) 8 a))) \/
  (exists err g' s', err <> 0 /\ ottery_global_state_initialized_ g' = false /\
     ottery_rand_bytes 8192 initial_global (zeros 9) 1 8 proc0 =
       fatal_then (Z.lor OTTERY_ERR_FLAG_GLOBAL_PRNG_INIT err) (zeros 9, g') s').
Proof.
  apply (global_first_use 8192 initial_global (zeros 9) 1 8 proc0);
    [reflexivity|lia|lia|vm_compute; discriminate].
Defined.

(** When the global state cannot be initialized and the fatal handler
    returns, [ottery_add_seed] returns 0, its code for success, though it has
    added nothing and there is no initialized generator. *)
Theorem global_add_seed_hides_failure {W : Type} {OS0 : OS W} {BC : BuildConfig} {PL : Platform}
    addr g seed n h err st' (s s' : process W) :
  ottery_global_state_initialized_ g = false -> ottery_fatal_handler s' = Some h ->
  ottery_st_init addr (ottery_global_state_ g) None s = Ret (err, st', s') -> err <> 0 ->
  exists s2, ottery_add_seed addr g seed n s = Ret (0, mk_global false st', s2) /\
    world s2 = h (Z.lor OTTERY_ERR_FLAG_GLOBAL_PRNG_INIT err) (world s').
Proof.
  intros Hg Hh E He. unfold ottery_add_seed, with_global, CHECK_INIT, CHECK_INIT_body, ottery_init. rewrite Hg.
  rewrite !bind_assoc, (bind_Ret _ _ _ _ _ E), bind_ret. rewrite (proj2 (Z.eqb_neq err 0) He).
  cbn [negb]. rewrite bind_assoc. unfold ottery_fatal_error_, bind. rewrite Hh. cbn.
  eexists. split; reflexivity.
Qed.

(** A process without any usable entropy source. *)
Definition no_entropy : process tworld :=
  mk_process (mk_tworld 77 12 0 x2a 0 [] []) 0 (Some record_error).

Lemma global_add_seed_hides_failure_witness :
  exists s2, ottery_add_seed 8192 initial_global (Some (zeros 16)) 16 no_entropy =
      Ret (0, mk_global false
        (match ottery_st_init 8192 zero_state None no_entropy with
         | Ret (_, st', _) => st' | _ => zero_state end), s2) /\
    world s2 = record_error (Z.lor OTTERY_ERR_FLAG_GLOBAL_PRNG_INIT OTTERY_ERR_INIT_STRONG_RNG)
      (world (match ottery_st_init 8192 zero_state None no_entropy with
         | Ret (_, _, s') => s' | _ => no_entropy end)).
Proof.
  apply (global_add_seed_hides_failure 8192 initial_global (Some (zeros 16)) 16 record_error
    OTTERY_ERR_INIT_STRONG_RNG); [reflexivity|reflexivity|reflexivity|discriminate].
Defined.

(** [ottery_wipe] erases an initialized global state and clears its flag;
    on one that is not initialized (a second wipe, too) it does nothing. *)
Theorem global_wipe {W : Type} {OS0 : OS W} {BC : BuildConfig} {PL : Platform} g (s : process W) :
  (ottery_global_state_initialized_ g = true -> lock_ready (ottery_global_state_ g)) ->
  exists g', ottery_wipe g s = Ret (g', s) /\
    ottery_global_state_initialized_ g' = false /\
    (if ottery_global_state_initialized_ g then ottery_global_state_ g' = zero_state else g' = g) /\
    ottery_wipe g' s = Ret (g', s).
Proof.
  intros Hl. destruct g as [[] st]; unfold ottery_wipe; cbn in *.
  - exists (mk_global false zero_state). split_and!; try done.
    unfold ottery_st_wipe, DESTROY_LOCK.
    destruct (Hl eq_refl) as [-> | Hm]; [done|]. rewrite Hm. by destruct lock_impl.
  - by exists (mk_global false st).
Qed.

Lemma global_wipe_witness :
  exists g', ottery_wipe (mk_global true api0) proc0 = Ret (g', proc0) /\
    ottery_global_state_initialized_ g' = false /\
    (if ottery_global_state_initialized_ (mk_global true api0)
     then ottery_global_state_ g' = zero_state else g' = mk_global true api0) /\
    ottery_wipe g' proc0 = Ret (g', proc0).
Proof. apply (global_wipe (mk_global true api0) proc0). intros _. by right. Defined.
