(* ===== verification/Public.v ===== *)
(** * The public interface

    src/ottery_st.h, src/ottery_nolock.h and src/ottery.h declare the same
    operations three times: on a state with a lock, on a state without, and on
    the process-wide state. [prng_ops] is what each header declares, one field
    per prototype; [PrngLaws] is what their comments promise, in terms of the
    abstract generator of Spec.v; the three headers are three instances. What is
    proved from the laws holds for all of them. *)
From S2P Require Import Prelude Words Memory Internal Spec Prng Refine TestPrf Session.
From S2P Require Import ChaChaRef ChaChaMerged ChaChaKrovetz Os CpuInfo Entropy TestOs Config Api ApiRefine ApiProps.
From S2P Require Import Global GlobalProps.
Local Open Scope Z_scope.
Local Open Scope ottery_scope.

(** ** The operations *)

(** [G] is what the pointer argument points to, or the global variables. *)
Record prng_ops (W G : Type) := mk_prng_ops {
  op_init : G -> option ottery_config -> M W (Z * G);
  op_add_seed : G -> option (list byte) -> Z -> M W (Z * G);
  op_wipe : G -> M W G;
  op_prevent_backtracking : G -> M W G;
  op_rand_bytes : G -> list byte -> Z -> Z -> M W (list byte * G);
  op_rand_unsigned : G -> M W (Z * G);
  op_rand_uint32 : G -> M W (Z * G);
  op_rand_uint64 : G -> M W (Z * G);
  op_rand_range : nat -> G -> Z -> M W (Z * G);
  op_rand_range64 : nat -> G -> Z -> M W (Z * G);
}.
Arguments op_init {W G} _ _ _.
Arguments op_add_seed {W G} _ _ _ _.
Arguments op_wipe {W G} _ _.
Arguments op_prevent_backtracking {W G} _ _.
Arguments op_rand_bytes {W G} _ _ _ _ _.
Arguments op_rand_unsigned {W G} _ _.
Arguments op_rand_uint32 {W G} _ _.
Arguments op_rand_uint64 {W G} _ _.
Arguments op_rand_range {W G} _ _ _ _.
Arguments op_rand_range64 {W G} _ _ _ _.

(** A call on an initialized generator; a seed is the caller's, never null. *)
Inductive query :=
  | QBytes (out : list byte) (off n : Z)
  | QUnsigned
  | QUint32
  | QUint64
  | QRange (fuel : nat) (upper : Z)
  | QRange64 (fuel : nat) (upper : Z)
  | QAddSeed (seed : list byte) (n : Z)
  | QPreventBacktracking.

Inductive reply :=
  | RBuffer (out : list byte)
  | RInt (v : Z)
  | RVoid.

(** Lengths and buffers are real, a seed is not empty, a bound has its type. *)
Definition qvalid (c : query) : Prop :=
  match c with
  | QBytes out off n => 0 <= off /\ 0 <= n < 2 ^ 63 /\ off + n <= zlen out
  | QRange _ upper => 0 <= upper < 2 ^ 32
  | QRange64 _ upper => 0 <= upper < 2 ^ 64
  | QAddSeed seed n => 0 < n <= zlen seed
  | _ => True
  end.

Definition qranges (c : query) : bool :=
  match c with QRange _ _ | QRange64 _ _ => true | _ => false end.

Definition ask {W G} (ops : prng_ops W G) (c : query) (g : G) : M W (reply * G) :=
  let int m := do '(v, g) <- m; ret (RInt v, g) in
  match c with
  | QBytes out off n => do '(out, g) <- op_rand_bytes ops g out off n; ret (RBuffer out, g)
  | QUnsigned => int (op_rand_unsigned ops g)
  | QUint32 => int (op_rand_uint32 ops g)
  | QUint64 => int (op_rand_uint64 ops g)
  | QRange fuel upper => int (op_rand_range ops fuel g upper)
  | QRange64 fuel upper => int (op_rand_range64 ops fuel g upper)
  | QAddSeed seed n => int (op_add_seed ops g (Some seed) n)
  | QPreventBacktracking => do g <- op_prevent_backtracking ops g; ret (RVoid, g)
  end.

(** Calls one after the other. *)
Fixpoint ask_all {W G} (ops : prng_ops W G) (cs : list query) (g : G) : M W (list reply * G) :=
  match cs with
  | [] => ret ([], g)
  | c :: cs =>
      do '(r, g) <- ask ops c g;
      do '(rs, g) <- ask_all ops cs g;
      ret (r :: rs, g)
  end.

(** ** What the abstract generator answers *)

Section Abstract.
Context (p : ottery_prf) {PS : PrfSpec p}.

(** [None] when a range call runs out of draws. *)
Definition spec_ask (c : query) (a : prng) : option (reply * prng) :=
  let int size :=
    let '(bs, a) := tiny (state_bytes p) (output_len p) (prf_out p) size a in
    Some (RInt (le_decode bs), a) in
  let ranged fuel size upper :=
    '(v, a) ← range (state_bytes p) (output_len p) (prf_out p) fuel size
      (range_divisor size upper) upper a;
    Some (RInt v, a) in
  match c with
  | QBytes out off n =>
      let '(bs, a) := get_bytes (state_bytes p) (output_len p) (prf_out p) n a in
      Some (RBuffer (splice out off bs), a)
  | QUnsigned | QUint32 => int 4
  | QUint64 => int 8
  | QRange fuel upper => ranged fuel 4 upper
  | QRange64 fuel upper => ranged fuel 8 upper
  | QAddSeed seed n =>
      Some (RInt 0, add (state_bytes p) (output_len p) (prf_out p) (slice seed 0 n) (mk_prng (K a) []))
  | QPreventBacktracking => Some (RVoid, a)
  end.

Fixpoint spec_ask_all (cs : list query) (a : prng) : option (list reply * prng) :=
  match cs with
  | [] => Some ([], a)
  | c :: cs => '(r, a) ← spec_ask c a; '(rs, a) ← spec_ask_all cs a; Some (r :: rs, a)
  end.
End Abstract.

(** ** What the headers promise *)

(** [serves q g a s]: in the process [s] the generator [g] works with the PRF
    [q] and represents [a]. *)
Class PrngLaws {W G} {OS0 : OS W} {PL : Platform} (ops : prng_ops W G) := {
  serves : forall q {PS : PrfSpec q}, G -> prng -> process W -> Prop;
  contents : G -> ottery_state;
  (** "Initialize": zero and a generator made from fresh entropy, or an error
      code that is not fatal. *)
  law_init : forall g cfg (s : process W),
    config_good cfg ->
    exists err g' s', op_init ops g cfg s = Ret (err, g', s') /\
      ((err = 0 /\ exists q (PS : PrfSpec q) (PZ : PrfSizes q) er used,
          resolve_prf cfg s = Some q /\
          entropy_success (Some (cfg_entropy (default ottery_config_init cfg))) 0 (state_bytes q)
            (ottery_get_entropy_bufsize_ (state_bytes q)) er used /\
          serves q g' (construct (state_bytes q) (output_len q) (prf_out q) (seed_bytes er)) s') \/
       (err <> 0 /\ OTTERY_ERR_IS_FATAL err = false));
  (** The other calls answer as the abstract generator and leave the process
      alone; a range call draws on while its fuel lasts. *)
  law_ask : forall q (PS : PrfSpec q) (PZ : PrfSizes q) c g a (s : process W),
    serves q g a s -> qvalid c ->
    match spec_ask q c a with
    | Some (r, a') => exists g', ask ops c g s = Ret (r, g', s) /\ serves q g' a' s
    | None => ask ops c g s = NoFuel
    end;
  (** "Destroy": nothing of the generator is left. *)
  law_wipe : forall q (PS : PrfSpec q) (PZ : PrfSizes q) g a (s : process W),
    serves q g a s -> exists g', op_wipe ops g s = Ret (g', s) /\ contents g' = zero_state;
}.

(** ** The three headers *)

Section Headers.
Context {W : Type} {OS0 : OS W} {BC : BuildConfig} {PL : Platform}.
Context (addr : Z).

(** ottery_st.h *)
Definition st_ops : prng_ops W ottery_state := {|
  op_init := ottery_st_init addr;
  op_add_seed := ottery_st_add_seed addr;
  op_wipe := ottery_st_wipe;
  op_prevent_backtracking := ottery_st_prevent_backtracking;
  op_rand_bytes st out off n := do '(st, out) <- ottery_st_rand_bytes addr st out off n; ret (out, st);
  op_rand_unsigned := ottery_st_rand_unsigned addr;
  op_rand_uint32 := ottery_st_rand_uint32 addr;
  op_rand_uint64 := ottery_st_rand_uint64 addr;
  op_rand_range fuel := ottery_st_rand_range fuel addr;
  op_rand_range64 fuel := ottery_st_rand_range64 fuel addr |}.

(** ottery_nolock.h *)
Definition nolock_ops : prng_ops W ottery_state := {|
  op_init := ottery_st_init_nolock addr;
  op_add_seed := ottery_st_add_seed_nolock addr;
  op_wipe st := ret (ottery_st_wipe_nolock st);
  op_prevent_backtracking st := lift (ottery_st_prevent_backtracking_nolock st);
  op_rand_bytes st out off n :=
    do '(st, out) <- ottery_st_rand_bytes_nolock addr st out off n; ret (out, st);
  op_rand_unsigned := ottery_st_rand_unsigned_nolock addr;
  op_rand_uint32 := ottery_st_rand_uint32_nolock addr;
  op_rand_uint64 := ottery_st_rand_uint64_nolock addr;
  op_rand_range fuel := ottery_st_rand_range_nolock fuel addr;
  op_rand_range64 fuel := ottery_st_rand_range64_nolock fuel addr |}.

(** ottery.h *)
Definition global_ops : prng_ops W global := {|
  op_init := ottery_init addr;
  op_add_seed := ottery_add_seed addr;
  op_wipe := ottery_wipe;
  op_prevent_backtracking g := do '(_, g) <- ottery_prevent_backtracking addr g; ret g;
  op_rand_bytes := ottery_rand_bytes addr;
  op_rand_unsigned := ottery_rand_unsigned addr;
  op_rand_uint32 := ottery_rand_uint32 addr;
  op_rand_uint64 := ottery_rand_uint64 addr;
  op_rand_range fuel := ottery_rand_range addr fuel;
  op_rand_range64 fuel := ottery_rand_range64 addr fuel |}.

(** A header, its argument and its operations. *)
Inductive header := OTTERY_ST_H | OTTERY_NOLOCK_H | OTTERY_H.

Definition carrier (h : header) : Type :=
  match h with OTTERY_H => global | _ => ottery_state end.

Definition header_ops (h : header) : prng_ops W (carrier h) :=
  match h with
  | OTTERY_ST_H => st_ops
  | OTTERY_NOLOCK_H => nolock_ops
  | OTTERY_H => global_ops
  end.
End Headers.

(** ** From the operations' contracts to the law *)

Section FromContracts.
Context {W G : Type} (ops : prng_ops W G).
Context (q : ottery_prf) {PS : PrfSpec q} (ok : G -> prng -> process W -> Prop).

Abbreviation sb := (state_bytes q).
Abbreviation ol := (output_len q).
Abbreviation PRF := (prf_out q).

(** [m] answers [v] and leaves a generator that represents [a]. *)
Definition answers {A} (m : M W (A * G)) (v : A) (a : prng) (s : process W) : Prop :=
  exists g, m s = Ret (v, g, s) /\ ok g a s.

Definition draws (m : M W (Z * G)) (size : Z) (a : prng) (s : process W) : Prop :=
  answers m (le_decode (fst (tiny sb ol PRF size a))) (snd (tiny sb ol PRF size a)) s.

Definition draws_range (m : M W (Z * G)) (fuel : nat) (size upper : Z) (a : prng) (s : process W)
  : Prop :=
  match range sb ol PRF fuel size (range_divisor size upper) upper a with
  | Some (v, a') => answers m v a' s
  | None => m s = NoFuel
  end.

(** The contract of each operation. *)
Record contracts : Prop := mk_contracts {
  ct_bytes : forall g a s out off n, ok g a s -> 0 <= off -> 0 <= n < 2 ^ 63 -> off + n <= zlen out ->
    answers (op_rand_bytes ops g out off n) (splice out off (fst (get_bytes sb ol PRF n a)))
      (snd (get_bytes sb ol PRF n a)) s;
  ct_unsigned : forall g a s, ok g a s -> draws (op_rand_unsigned ops g) 4 a s;
  ct_uint32 : forall g a s, ok g a s -> draws (op_rand_uint32 ops g) 4 a s;
  ct_uint64 : forall g a s, ok g a s -> draws (op_rand_uint64 ops g) 8 a s;
  ct_range : forall g a s fuel upper, ok g a s -> 0 <= upper < 2 ^ 32 ->
    draws_range (op_rand_range ops fuel g upper) fuel 4 upper a s;
  ct_range64 : forall g a s fuel upper, ok g a s -> 0 <= upper < 2 ^ 64 ->
    draws_range (op_rand_range64 ops fuel g upper) fuel 8 upper a s;
  ct_seed : forall g a s seed n, ok g a s -> 0 < n <= zlen seed ->
    answers (op_add_seed ops g (Some seed) n) 0
      (add sb ol PRF (slice seed 0 n) (mk_prng (K a) [])) s;
  ct_prevent : forall g a s, ok g a s ->
    exists g', op_prevent_backtracking ops g s = Ret (g', s) /\ ok g' a s;
}.

Lemma answers_bind {A B} (m : M W (A * G)) (f : A -> B) v a s :
  answers m v a s -> answers (do '(v, g) <- m; ret (f v, g)) (f v) a s.
Proof. intros (g & E & Hg). exists g. by rewrite (bind_Ret _ _ _ _ _ E). Qed.

Lemma ask_int (m : M W (Z * G)) size a s :
  draws m size a s ->
  match (let '(bs, a) := tiny sb ol PRF size a in Some (RInt (le_decode bs), a)) with
  | Some (r, a') => answers (do '(v, g) <- m; ret (RInt v, g)) r a' s
  | None => (do '(v, g) <- m; ret (RInt v, g)) s = NoFuel
  end.
Proof.
  unfold draws. destruct (tiny sb ol PRF size a) as [bs a']. cbn [fst snd].
  apply (answers_bind m RInt).
Qed.

Lemma ask_range (m : M W (Z * G)) fuel size upper a s :
  draws_range m fuel size upper a s ->
  match ('(v, a) ← range sb ol PRF fuel size (range_divisor size upper) upper a; Some (RInt v, a)) with
  | Some (r, a') => answers (do '(v, g) <- m; ret (RInt v, g)) r a' s
  | None => (do '(v, g) <- m; ret (RInt v, g)) s = NoFuel
  end.
Proof.
  unfold draws_range. destruct (range _ _ _ _ _ _ _ _) as [[v a']|]; cbn [mbind option_bind].
  - apply (answers_bind m RInt).
  - intros E. unfold bind. by rewrite E.
Qed.

Lemma contracts_ask c g a s :
  contracts -> ok g a s -> qvalid c ->
  match spec_ask q c a with
  | Some (r, a') => answers (ask ops c g) r a' s
  | None => ask ops c g s = NoFuel
  end.
Proof.
  intros [Hb Hu H32 H64 Hr Hr64 Hs Hp] Hg Hv.
  destruct c as [out off n| | | |fuel upper|fuel upper|seed n|]; cbn [spec_ask ask qvalid] in *.
  - rewrite (surjective_pairing (get_bytes _ _ _ _ _)).
    apply (answers_bind _ RBuffer), Hb; tauto.
  - by apply ask_int, Hu.
  - by apply ask_int, H32.
  - by apply ask_int, H64.
  - by apply ask_range, Hr.
  - by apply ask_range, Hr64.
  - by apply (answers_bind _ RInt), Hs.
  - destruct (Hp g a s Hg) as (g' & E & Hg'). exists g'. by rewrite (bind_Ret _ _ _ _ _ E).
Qed.
End FromContracts.

(** ** The implementations keep the promises *)

Section Instances.
Context {W : Type} {OS0 : OS W} {BC : BuildConfig} {PL : Platform} {OL : OSLaws OS0}.
Context (addr : Z).

(** A call that kept the frame left a generator of the same kind. *)
Ltac by_frame :=
  eexists; split; [eassumption|];
  first [by eapply ready_frame|by eapply checked_frame|by eapply ready_seed_frame
        |by eapply checked_seed_frame].

Section Contracts.
Context {q : ottery_prf} {PS : PrfSpec q} {PZ : PrfSizes q}.

Lemma st_contracts : contracts (st_ops addr) q (ready addr).
Proof.
  split; intros; unfold answers.
  - destruct (api_rand_bytes_ok addr g a out off n s) as (st' & E & Hr & Hf); [done..|].
    cbn [op_rand_bytes st_ops]. rewrite (bind_Ret _ _ _ _ _ E). eexists.
    split; [done|]. by eapply ready_frame.
  - destruct (api_rand_int_ok addr g a 4 s) as (st' & E & Hr & Hf); [done|lia|by_frame].
  - destruct (api_rand_int_ok addr g a 4 s) as (st' & E & Hr & Hf); [done|lia|by_frame].
  - destruct (api_rand_int_ok addr g a 8 s) as (st' & E & Hr & Hf); [done|lia|by_frame].
  - pose proof (range_call_ok false true fuel addr g a upper s H) as Hx.
    unfold draws_range, answers. destruct (range _ _ _ _ _ _ _ _) as [[v a']|]; [|exact Hx].
    destruct Hx as (st' & E & Hr & Hf). by_frame.
  - pose proof (range_call_ok true true fuel addr g a upper s H) as Hx.
    unfold draws_range, answers. destruct (range _ _ _ _ _ _ _ _) as [[v a']|]; [|exact Hx].
    destruct Hx as (st' & E & Hr & Hf). by_frame.
  - pose proof H as [[Hr Hm _] Hl].
    destruct (api_add_seed_ok addr g a seed n true true s Hr (fun _ => Hl) Hm) as (st' & E & Hr' & Hf & _);
      [done|by_frame].
  - destruct (api_prevent_ok addr g a s H) as (st' & E & Hr & Hf). by_frame.
Qed.

Lemma nolock_contracts : contracts (nolock_ops addr) q (checked addr).
Proof.
  split; intros; unfold answers.
  - destruct (api_rand_bytes_nolock_ok addr g a out off n s) as (st' & E & Hr & Hf); [done..|].
    cbn [op_rand_bytes nolock_ops]. rewrite (bind_Ret _ _ _ _ _ E). eexists.
    split; [done|]. by eapply checked_frame.
  - destruct (api_rand_int_nolock_ok addr g a 4 s) as (st' & E & Hr & Hf); [done|lia|by_frame].
  - destruct (api_rand_int_nolock_ok addr g a 4 s) as (st' & E & Hr & Hf); [done|lia|by_frame].
  - destruct (api_rand_int_nolock_ok addr g a 8 s) as (st' & E & Hr & Hf); [done|lia|by_frame].
  - pose proof (rand_range_loop_ok fuel addr g a 4 (range_divisor 4 upper) upper s H ltac:(lia)) as Hx.
    unfold draws_range, answers. destruct (range _ _ _ _ _ _ _ _) as [[v a']|]; [|exact Hx].
    destruct Hx as (st' & E & Hr & Hf). by_frame.
  - pose proof (rand_range_loop_ok fuel addr g a 8 (range_divisor 8 upper) upper s H ltac:(lia)) as Hx.
    unfold draws_range, answers. destruct (range _ _ _ _ _ _ _ _) as [[v a']|]; [|exact Hx].
    destruct Hx as (st' & E & Hr & Hf). by_frame.
  - pose proof H as [Hr Hm _].
    destruct (api_add_seed_ok addr g a seed n false true s Hr ltac:(done) Hm) as (st' & E & Hr' & Hf & _);
      [done|by_frame].
  - destruct (prevent_ok g a (ck_rep _ _ _ _ H)) as (st' & E & Hr & Hf & _).
    cbn [op_prevent_backtracking nolock_ops]. rewrite E. eexists. split; [done|].
    by eapply checked_frame.
Qed.

(** The global functions, once the state is initialized, are the locking ones. *)
Definition global_ready (g : global) (a : prng) (s : process W) : Prop :=
  ottery_global_state_initialized_ g = true /\ ready addr (ottery_global_state_ g) a s.

Lemma with_global_ok {A} (rv : A) g f v a (s : process W) :
  ottery_global_state_initialized_ g = true ->
  answers (ready addr) (f (ottery_global_state_ g)) v a s ->
  answers global_ready (with_global addr rv g f) v a s.
Proof.
  intros Hi (st & E & Hr). exists (mk_global true st). unfold with_global, CHECK_INIT. rewrite Hi.
  rewrite bind_ret. cbn [negb]. rewrite (bind_Ret _ _ _ _ _ E), Hi. done.
Qed.

Lemma with_global_NoFuel {A} (rv : A) g f (s : process W) :
  ottery_global_state_initialized_ g = true -> f (ottery_global_state_ g) s = NoFuel ->
  with_global addr rv g f s = NoFuel.
Proof.
  intros Hi E. unfold with_global, CHECK_INIT. rewrite Hi, bind_ret. cbn [negb].
  unfold bind. by rewrite E.
Qed.

Lemma with_global_range g m fuel size upper a (s : process W) :
  ottery_global_state_initialized_ g = true ->
  draws_range q (ready addr) (m (ottery_global_state_ g)) fuel size upper a s ->
  draws_range q global_ready (with_global addr 0 g m) fuel size upper a s.
Proof.
  intros Hi. unfold draws_range. destruct (range _ _ _ _ _ _ _ _) as [[v a']|].
  - by apply with_global_ok.
  - by apply with_global_NoFuel.
Qed.

Lemma global_contracts : contracts (global_ops addr) q global_ready.
Proof.
  destruct st_contracts as [Hb Hu H32 H64 Hr Hr64 Hs Hp].
  split; intros ? a s; intros; destruct H as [Hi Hg]; cbn [global_ops op_rand_bytes op_rand_unsigned
    op_rand_uint32 op_rand_uint64 op_rand_range op_rand_range64 op_add_seed op_prevent_backtracking].
  - apply with_global_ok; [done|by refine (Hb _ a s _ _ _ Hg _ _ _)].
  - apply with_global_ok; [done|exact (Hu _ a s Hg)].
  - apply with_global_ok; [done|exact (H32 _ a s Hg)].
  - apply with_global_ok; [done|exact (H64 _ a s Hg)].
  - apply with_global_range; [done|by refine (Hr _ a s _ _ Hg _)].
  - apply with_global_range; [done|by refine (Hr64 _ a s _ _ Hg _)].
  - apply with_global_ok; [done|by refine (Hs _ a s _ _ Hg _)].
  - destruct (Hp _ a s Hg) as (st' & E & Hg'). cbn [op_prevent_backtracking st_ops] in E.
    assert (answers global_ready (ottery_prevent_backtracking addr g) tt a s) as (g' & E' & Hg2).
    { apply with_global_ok; [done|]. exists st'. by rewrite (bind_Ret _ _ _ _ _ E). }
    exists g'. by rewrite (bind_Ret _ _ _ _ _ E').
Qed.
End Contracts.

(** Initialization, for the states. *)
Lemma init_law st cfg locked (s : process W) :
  config_good cfg ->
  exists err st' s', ottery_st_initialize addr st cfg locked s = Ret (err, st', s') /\
    ((err = 0 /\ exists q (PS : PrfSpec q) (PZ : PrfSizes q) er used,
        resolve_prf cfg s = Some q /\
        entropy_success (Some (cfg_entropy (default ottery_config_init cfg))) 0 (state_bytes q)
          (ottery_get_entropy_bufsize_ (state_bytes q)) er used /\
        let a := construct (state_bytes q) (output_len q) (prf_out q) (seed_bytes er) in
        checked addr st' a s' /\ (locked = true -> ready addr st' a s')) \/
     (err <> 0 /\ OTTERY_ERR_IS_FATAL err = false)).
Proof.
  intros Hc. destruct (resolve_ok cfg s Hc) as (q & Hq & PS & PZ).
  destruct (initialize_ok addr st cfg locked s Hq) as (err & st' & s' & E & _ & _ & H).
  exists err, st', s'. split; [done|]. destruct H as [H|(He & Hf & _)]; [left|by right].
  destruct H as (-> & _ & er & used & Hok & Hr & Hm & Hp & Hl & _). split; [done|].
  exists q, PS, PZ, er, used. split; [done|]. split; [done|]. cbv zeta.
  assert (checked addr st' (construct (state_bytes q) (output_len q) (prf_out q) (seed_bytes er)) s')
    by (split; [done|by right..]).
  split; [done|]. intros Ht. by split; [|apply Hl].
Qed.

#[export, refine] Instance st_laws : PrngLaws (st_ops addr) := {
  serves := fun q PS => ready (p := q) addr;
  contents := fun st => st;
}.
Proof.
  - intros st cfg s Hc. destruct (init_law st cfg true s Hc) as (err & st' & s' & E & H).
    exists err, st', s'. split; [exact E|]. destruct H as [(-> & H)|H]; [left|by right].
    split; [done|]. destruct H as (q & PS & PZ & er & used & Hq & Hok & _ & Hr).
    exists q, PS, PZ, er, used. split; [done|]. split; [done|]. by apply Hr.
  - intros q PS PZ c st a s Hs Hv. by apply (contracts_ask _ q (ready addr)); [apply st_contracts|..].
  - intros q PS PZ st a s [_ Hl]. exists zero_state. split; [|done].
    cbn [op_wipe st_ops]. unfold ottery_st_wipe, DESTROY_LOCK, lock_ready in *.
    destruct Hl as [-> | ->]; [done|]. by destruct lock_impl.
Defined.

#[export, refine] Instance nolock_laws : PrngLaws (nolock_ops addr) := {
  serves := fun q PS => checked (p := q) addr;
  contents := fun st => st;
}.
Proof.
  - intros st cfg s Hc. destruct (init_law st cfg false s Hc) as (err & st' & s' & E & H).
    exists err, st', s'. split; [exact E|]. destruct H as [(-> & H)|H]; [left|by right].
    split; [done|]. destruct H as (q & PS & PZ & er & used & Hq & Hok & Hr & _).
    by exists q, PS, PZ, er, used.
  - intros q PS PZ c st a s Hs Hv. by apply (contracts_ask _ q (checked addr)); [apply nolock_contracts|..].
  - intros q PS PZ st a s _. by exists zero_state.
Defined.

#[export, refine] Instance global_laws : PrngLaws (global_ops addr) := {
  serves := fun q PS => global_ready (q := q);
  contents := ottery_global_state_;
}.
Proof.
  - intros g cfg s Hc.
    destruct (law_init (PrngLaws := st_laws) (ottery_global_state_ g) cfg s Hc) as (err & st' & s' & E & H).
    exists err. eexists _, s'. cbn [op_init global_ops]. unfold ottery_init.
    cbn [op_init st_ops] in E. rewrite (bind_Ret _ _ _ _ _ E). split; [reflexivity|].
    destruct H as [(-> & q & PS & PZ & er & used & Hq & Hok & Hr)|H]; [left|by right].
    split; [done|]. by exists q, PS, PZ, er, used.
  - intros q PS PZ c g a s Hs Hv. by apply (contracts_ask _ q global_ready); [apply global_contracts|..].
  - intros q PS PZ g a s [Hi Hr].
    destruct (law_wipe (PrngLaws := st_laws) q PS PZ _ a s Hr) as (st' & E & Hz).
    exists (mk_global false st'). cbn [op_wipe global_ops]. unfold ottery_wipe. rewrite Hi.
    cbn [op_wipe st_ops] in E. by rewrite (bind_Ret _ _ _ _ _ E).
Defined.

#[export] Instance header_laws h : PrngLaws (header_ops addr h).
Proof. destruct h; [exact st_laws|exact nolock_laws|exact global_laws]. Defined.
End Instances.

(** ** Clients *)

Section Clients.
Context {W : Type} {OS0 : OS W} {BC : BuildConfig} {PL : Platform} {OL : OSLaws OS0}.

(** A client of any generator that keeps its promises. *)
Lemma ask_all_ok {G} (ops : prng_ops W G) {PLaws : PrngLaws ops} q (PS : PrfSpec q) (PZ : PrfSizes q)
    cs g a (s : process W) :
  serves q g a s -> Forall qvalid cs ->
  match spec_ask_all q cs a with
  | Some (rs, a') => exists g', ask_all ops cs g s = Ret (rs, g', s) /\ serves q g' a' s
  | None => ask_all ops cs g s = NoFuel
  end.
Proof.
  intros Hs Hv. revert g a Hs. induction Hv as [|c cs Hc _ IH]; intros g a Hs; cbn [spec_ask_all ask_all].
  { by exists g. }
  pose proof (law_ask q PS PZ c g a s Hs Hc) as H. destruct (spec_ask q c a) as [[r a1]|];
    cbn [mbind option_bind]; [|unfold bind; by rewrite H].
  destruct H as (g1 & E1 & Hs1). specialize (IH g1 a1 Hs1). rewrite (bind_Ret _ _ _ _ _ E1).
  destruct (spec_ask_all q cs a1) as [[rs a2]|]; cbn [mbind option_bind];
    [|unfold bind; by rewrite IH].
  destruct IH as (g2 & E2 & Hs2). exists g2. by rewrite (bind_Ret _ _ _ _ _ E2).
Qed.

(** The check on a global state not yet initialized, and the call behind it. *)
Lemma first_with_global {A} addr (rv : A) g f err g1 (s s1 : process W) :
  ottery_global_state_initialized_ g = false -> ottery_init addr g None s = Ret (err, g1, s1) ->
  (err = 0 /\ with_global addr rv g f s = with_global addr rv g1 f s1) \/
  (err <> 0 /\ ottery_global_state_initialized_ g1 = false /\
   with_global addr rv g f s = fatal_then (Z.lor OTTERY_ERR_FLAG_GLOBAL_PRNG_INIT err) (rv, g1) s1).
Proof.
  intros Hg E. unfold with_global, CHECK_INIT, CHECK_INIT_body. rewrite Hg, bind_assoc, (bind_Ret _ _ _ _ _ E).
  unfold ottery_init in E. apply bind_inv in E as ([err' st1] & s2 & _ & [= -> <- <-]).
  destruct (Z.eqb_spec err 0) as [->|He]; cbn [negb ottery_global_state_initialized_].
  - by left.
  - right. split; [done|]. split; [done|]. rewrite bind_assoc. by apply fatal_bind.
Qed.

Lemma first_bind {A B} (k : A * global -> M W (B * global)) (m m1 : M W (A * global)) v w g1
    error err (s s1 : process W) :
  (forall s, k (v, g1) s = Ret (w, g1, s)) ->
  (err = 0 /\ m s = m1 s1) \/
  (err <> 0 /\ ottery_global_state_initialized_ g1 = false /\ m s = fatal_then error (v, g1) s1) ->
  (err = 0 /\ bind m k s = bind m1 k s1) \/
  (err <> 0 /\ ottery_global_state_initialized_ g1 = false /\
   bind m k s = fatal_then error (w, g1) s1).
Proof.
  intros Hk [[-> E]|(He & Hg & E)]; [left|right].
  - split; [done|]. unfold bind. by rewrite E.
  - split; [done|]. split; [done|]. by apply (fatal_then_bind _ _ _ (v, g1)).
Qed.
End Clients.

(** What a global call returns when the state cannot be initialized: [CHECK_INIT]'s
    argument, and the buffer as it was. *)
Definition not_initialized (c : query) : reply :=
  match c with
  | QBytes out _ _ => RBuffer out
  | QPreventBacktracking => RVoid
  | _ => RInt 0
  end.

(** ** The properties *)

#[local] Existing Instance default_build.

(** C3: the three headers keep one promise. Whichever is used, initialization
    with any acceptable configuration either fails with an error code that is
    not fatal, or leaves a generator that answers every sequence of calls, of
    every kind and length, as the abstract generator constructed from the bytes
    that the entropy sources then gave; and destroying it leaves nothing. *)
Theorem headers_serve {W : Type} {OS0 : OS W} {BC : BuildConfig} {PL : Platform} {OL : OSLaws OS0}
    h addr (g : carrier h) cfg cs (s : process W) :
  config_good cfg -> Forall qvalid cs ->
  exists err g1 s1, op_init (header_ops addr h) g cfg s = Ret (err, g1, s1) /\
    ((err <> 0 /\ OTTERY_ERR_IS_FATAL err = false) \/
     (err = 0 /\ exists q (PS : PrfSpec q) er used,
        resolve_prf cfg s = Some q /\
        entropy_success (Some (cfg_entropy (default ottery_config_init cfg))) 0 (state_bytes q)
          (ottery_get_entropy_bufsize_ (state_bytes q)) er used /\
        match spec_ask_all q cs
                (construct (state_bytes q) (output_len q) (prf_out q) (seed_bytes er)) with
        | Some (rs, _) => exists g2 g3, ask_all (header_ops addr h) cs g1 s1 = Ret (rs, g2, s1) /\
            op_wipe (header_ops addr h) g2 s1 = Ret (g3, s1) /\
            contents (ops := header_ops addr h) g3 = zero_state
        | None => ask_all (header_ops addr h) cs g1 s1 = NoFuel
        end)).
Proof.
  intros Hc Hv. destruct (law_init (ops := header_ops addr h) g cfg s Hc) as (err & g1 & s1 & E & H).
  exists err, g1, s1. split; [exact E|]. destruct H as [(-> & q & PS & PZ & er & used & Hq & Hok & Hs)|H];
    [right|by left].
  split; [done|]. exists q, PS, er, used. split; [done|]. split; [done|].
  pose proof (ask_all_ok _ q PS PZ cs g1 _ s1 Hs Hv) as Ha.
  destruct (spec_ask_all q cs _) as [[rs a]|]; [|done]. destruct Ha as (g2 & E2 & Hs2).
  destruct (law_wipe q PS PZ g2 a s1 Hs2) as (g3 & E3 & Hz). by exists g2, g3.
Qed.

Lemma headers_serve_witness :
  exists err g1 s1,
    op_init (header_ops 4096 OTTERY_H) initial_global (Some test_config) proc0 = Ret (err, g1, s1) /\
    ((err <> 0 /\ OTTERY_ERR_IS_FATAL err = false) \/
     (err = 0 /\ exists q (PS : PrfSpec q) er used,
        resolve_prf (Some test_config) proc0 = Some q /\
        entropy_success (Some (cfg_entropy (default ottery_config_init (Some test_config)))) 0
          (state_bytes q) (ottery_get_entropy_bufsize_ (state_bytes q)) er used /\
        match spec_ask_all q [QBytes (zeros 300) 0 300; QRange 3 99; QUint64]
                (construct (state_bytes q) (output_len q) (prf_out q) (seed_bytes er)) with
        | Some (rs, _) => exists g2 g3,
            ask_all (header_ops 4096 OTTERY_H) [QBytes (zeros 300) 0 300; QRange 3 99; QUint64] g1 s1 =
              Ret (rs, g2, s1) /\
            op_wipe (header_ops 4096 OTTERY_H) g2 s1 = Ret (g3, s1) /\
            contents (ops := header_ops 4096 OTTERY_H) g3 = zero_state
        | None =>
            ask_all (header_ops 4096 OTTERY_H) [QBytes (zeros 300) 0 300; QRange 3 99; QUint64] g1 s1
              = NoFuel
        end)).
Proof.
  apply (headers_serve OTTERY_H 4096 initial_global (Some test_config)
    [QBytes (zeros 300) 0 300; QRange 3 99; QUint64] proc0).
  - exact (prf_good_intro _ dummy_spec dummy_sizes).
  - repeat constructor; try lia; vm_compute; discriminate.
Defined.


