(* ===== verification/DumpBytes.v ===== *)
(** * The statistics feed: test/dump_bytes.c

    The program that writes generator output for statistical tests: its nine
    strategies, its options and its endless loop; and that a strategy never writes
    outside its buffer and feeds its reading of the abstract generator's stream.
    DumpBytesProps.v has the options and the program. *)
From S2P Require Import Prelude Words Memory Internal Spec Prng Refine TestPrf Session.
From S2P Require Import ChaChaRef ChaChaMerged ChaChaKrovetz Os CpuInfo Entropy TestOs TestVectors.
From S2P Require Import Config Api ApiRefine ApiProps Global GlobalProps Public CString TestEgd.
Local Open Scope Z_scope.
Local Open Scope ottery_scope.

(** [MAX_OUTPUT_LEN] of this file, and [BUF_LEN]. *)
Definition DUMP_MAX_OUTPUT_LEN : Z := 8192.
Definition BUF_LEN : Z := DUMP_MAX_OUTPUT_LEN * 2.

(** The functions [generate] can point to. *)
Inductive strategy :=
  | gen_rand_bytes | gen_randnum_bytes | gen_u32 | gen_u64 | gen_u32_odd | gen_u64_odd
  | chop_range8 | chop_range16 | range16.

(** The table [strategies]: name, [takes_argument], function. *)
Definition strategies : list (string * bool * strategy) :=
  [("rand_bytes"%string, true, gen_rand_bytes);
   ("randnum_bytes"%string, false, gen_randnum_bytes);
   ("u32"%string, false, gen_u32);
   ("u64"%string, false, gen_u64);
   ("u32_odd"%string, false, gen_u32_odd);
   ("u64_odd"%string, false, gen_u64_odd);
   ("chop_range8"%string, true, chop_range8);
   ("chop_range16"%string, true, chop_range16);
   ("range16"%string, false, range16)].

Definition usage : string :=
  puts "dump_bytes [-i implementation] [-s strategy]" ++
  puts "   implementations include CHACHA{8,12,20}{,-SIMD,-NOSIMD}" ++
  puts "   strategies are:" ++
  String.concat "" (map (fun '(name, takes_argument, _) =>
    puts ("      " ++ name ++ if takes_argument : bool then ":<N>" else "")) strategies) ++
  puts "   recommended usage is:" ++
  puts "      dump_bytes [options] | dieharder -g 200 -a ".

(** [atoi]: a [long] cast to [int]. *)
Definition atoi (s : string) : Z := (fst (strtol s) + 2 ^ 31) mod 2 ^ 32 - 2 ^ 31.

(** The loop of [parse_strategy]: [None] is its -1; else the new [generator_param]
    and [generate]. *)
Fixpoint parse_strategy_loop (s : string) (colon : option nat) (len : nat) (generator_param : Z)
    (l : list (string * bool * strategy)) : option (Z * strategy) :=
  match l with
  | [] => None
  | (name, takes_argument, fn) :: l =>
      if strncmp_eq len name s && (String.length s =? len)%nat then
        if negb (Bool.eqb (if colon is None then true else false) (negb takes_argument)) then None
        else
          Some (match colon with
                | Some i => atoi (str_drop (i + 1) s)
                | None => generator_param
                end, fn)
      else parse_strategy_loop s colon len generator_param l
  end.

Definition colon_char : Ascii.ascii := Ascii.ascii_of_nat 58.

Definition parse_strategy (s : string) (generator_param : Z) : option (Z * strategy) :=
  let colon := strchr s colon_char in
  let len := match colon with Some i => i | None => String.length s end in
  parse_strategy_loop s colon len generator_param strategies.

(** ** The generators *)

Section Generators.
Context {W G : Type} {OS0 : OS W} {UN : Uninit} (ops : prng_ops W G).
(** Turns for the loops over random draws, and [generator_param]. *)
Context (fuel : nat) (generator_param : Z).

(** The result, the buffer and the generator. *)
Definition generated : Type := Z * list byte * G.

(** [do OTTERY_RAND_BYTES(&x, 1); while (!x);] *)
Fixpoint randnum_loop (turns : nat) (g : G) (x : list byte) : M W (list byte * G) :=
  match turns with
  | O => fun _ => NoFuel
  | S turns =>
      do '(x, g) <- op_rand_bytes ops g x 0 1;
      if le_decode x =? 0 then randnum_loop turns g x else ret (x, g)
  end.

(** [do u = OTTERY_RAND_RANGE(generator_param); while (u > lim);] *)
Fixpoint chop_loop (turns : nat) (g : G) (lim : Z) : M W (Z * G) :=
  match turns with
  | O => fun _ => NoFuel
  | S turns =>
      do '(u, g) <- op_rand_range ops fuel g (u32 generator_param);
      if lim <? u then chop_loop turns g lim else ret (u, g)
  end.

(** [if ((u & 7) == 0) OTTERY_RAND_BYTES(&x, 1);] *)
Definition odd_byte (u : Z) (g : G) : M W G :=
  if Z.land u 7 =? 0 then do '(_, g) <- op_rand_bytes ops g (uninit 1) 0 1; ret g else ret g.

Definition generate_ (f : strategy) (g : G) (buf : list byte) (off : Z) : M W generated :=
  match f with
  | gen_rand_bytes =>
      if (generator_param =? 0) || (DUMP_MAX_OUTPUT_LEN <? generator_param) then ret (-1, buf, g)
      else
        do '(buf, g) <- op_rand_bytes ops g buf off (u64 generator_param);
        ret (generator_param, buf, g)
  | gen_randnum_bytes =>
      do '(x, g) <- randnum_loop fuel g (uninit 1);
      do '(buf, g) <- op_rand_bytes ops g buf off (le_decode x);
      ret (le_decode x, buf, g)
  | gen_u32 =>
      do '(u, g) <- op_rand_unsigned ops g;
      do buf <- lift (mwrite buf off (le_encode 4 u));
      ret (4, buf, g)
  | gen_u64 =>
      do '(u, g) <- op_rand_uint64 ops g;
      do buf <- lift (mwrite buf off (le_encode 8 u));
      ret (8, buf, g)
  | gen_u32_odd =>
      do '(u, g) <- op_rand_unsigned ops g;
      do buf <- lift (mwrite buf off (le_encode 4 u));
      do g <- odd_byte u g;
      ret (4, buf, g)
  | gen_u64_odd =>
      do '(u, g) <- op_rand_uint64 ops g;
      do buf <- lift (mwrite buf off (le_encode 8 u));
      do g <- odd_byte u g;
      ret (8, buf, g)
  | chop_range8 =>
      if generator_param <? 255 then ret (-1, buf, g)
      else
        do '(u, g) <- chop_loop fuel g 255;
        do buf <- lift (mwrite buf off [byte_of_Z u]);
        ret (1, buf, g)
  | chop_range16 =>
      if generator_param <? 65535 then ret (-1, buf, g)
      else
        do '(u, g) <- chop_loop fuel g 65535;
        do buf <- lift (mwrite buf off (le_encode 2 u));
        ret (2, buf, g)
  | range16 =>
      do '(u, g) <- op_rand_range ops fuel g 65535;
      do _ <- lift (if u <=? 65535 then Some tt else None);
      do buf <- lift (mwrite buf off (le_encode 2 u));
      ret (2, buf, g)
  end.

(** [while (remaining >= MAX_OUTPUT_LEN)]: the buffer, [cp] and the generator. *)
Fixpoint fill_loop (turns : nat) (f : strategy) (g : G) (buf : list byte) (cp remaining : Z)
  : M W (list byte * Z * G) :=
  if DUMP_MAX_OUTPUT_LEN <=? remaining then
    match turns with
    | O => fun _ => NoFuel
    | S turns =>
        do '(n, buf, g) <- generate_ f g buf cp;
        fill_loop turns f g buf (cp + n) (remaining - n)
    end
  else ret (buf, cp, g).

(** One turn of [while (1)], with a bound on the turns of the loop inside: [None]
    where the program returns, else what it gave to [write]. *)
Definition dump_turn (turns : nat) (f : strategy) (g : G) : M W (option (list byte) * G) :=
  do '(n, buf, g) <- generate_ f g (uninit BUF_LEN) 0;
  if n <? 0 then ret (None, g)
  else
    do '(buf, cp, g) <- fill_loop turns f g buf n (BUF_LEN - n);
    do out <- lift (mread buf 0 cp);
    do _ <- sys (os_write 1 out);
    ret (Some out, g).

(** What the program has done after some turns: printed a text, written bytes,
    and returned a status if it has not gone on. *)
Record run := mk_run { run_text : string; run_written : list byte; run_exit : option Z }.

Fixpoint dump_loop (turns : nat) (f : strategy) (g : G) : M W run :=
  match turns with
  | O => ret (mk_run "" [] None)
  | S turns =>
      do '(r, g) <- dump_turn (Z.to_nat BUF_LEN) f g;
      match r with
      | None => ret (mk_run "" [] (Some 1))
      | Some out =>
          do r <- dump_loop turns f g;
          ret (mk_run (run_text r) (out ++ run_written r) (run_exit r))
      end
  end.
End Generators.

(** ** The program *)

Section Main.
Context {W : Type} {OS0 : OS W} {BC : BuildConfig} {PL : Platform} {UN : Uninit}.
(** The addresses of [state] and of the library's global state. *)
Context (state_addr global_addr : Z).

(** The variables that the options set. *)
Record options := mk_options {
  opt_cfg : ottery_config;
  opt_param : Z;
  opt_generate : option strategy;
  use_global_state : bool }.

(** The loop over what [getopt] returns: option characters with their arguments. *)
Fixpoint options_loop (opts : list (Ascii.ascii * string)) (o : options) : M W (run + options) :=
  match opts with
  | [] => ret (inr o)
  | (ch, optarg) :: opts =>
      let is_ (c : string) := String.eqb (String ch EmptyString) c in
      if is_ "?" || is_ "h" then ret (inl (mk_run usage [] (Some 0)))
      else if is_ "i" then
        do '(r, cfg) <- ottery_config_force_implementation (opt_cfg o) (Some optarg);
        if r <? 0 then ret (inl (mk_run "" [] (Some 1)))
        else options_loop opts (mk_options cfg (opt_param o) (opt_generate o) (use_global_state o))
      else if is_ "s" then
        match parse_strategy optarg (opt_param o) with
        | None => ret (inl (mk_run "" [] (Some 1)))
        | Some (param, f) => options_loop opts (mk_options (opt_cfg o) param (Some f) (use_global_state o))
        end
      else if is_ "T" then ret (inl (mk_run "" [] (Some 1)))
      else if is_ "G" then
        options_loop opts (mk_options (opt_cfg o) (opt_param o) (opt_generate o) true)
      else ret (inl (mk_run usage [] (Some 1)))
  end.

(** [main], stopped after some turns of its loop. What goes to [stderr] is left
    out. The wrappers choose [USING_STATE()], which is [use_global_state]. *)
Definition dump_main (fuel turns : nat) (argc : Z) (opts : list (Ascii.ascii * string)) : M W run :=
  if argc =? 1 then ret (mk_run usage [] (Some 1))
  else
    do r <- options_loop opts (mk_options ottery_config_init 0 None false);
    match r with
    | inl r => ret r
    | inr o =>
        let state := zero_state in
        let g := initial_global in
        do '(err, state, g) <-
          (if use_global_state o then
             do '(err, g) <- ottery_init global_addr g (Some (opt_cfg o)); ret (err, state, g)
           else
             do '(err, st) <- ottery_st_init state_addr state (Some (opt_cfg o)); ret (err, st, g));
        if negb (err =? 0) then ret (mk_run "" [] (Some 1))
        else
          let '(f, param) :=
            match opt_generate o with
            | Some f => (f, opt_param o)
            | None => (gen_rand_bytes, DUMP_MAX_OUTPUT_LEN)
            end in
          if use_global_state o then dump_loop (st_ops state_addr) fuel param turns f state
          else dump_loop (global_ops global_addr) fuel param turns f g
    end.
End Main.

(** ** What the strategies read from the abstract generator *)

Section Stream.
Context (q : ottery_prf) {PS : PrfSpec q} (fuel : nat) (param : Z).

Abbreviation sb := (state_bytes q).
Abbreviation ol := (output_len q).
Abbreviation PRF := (prf_out q).

(** The first byte that is not zero, then as many bytes. *)
Fixpoint spec_randnum (turns : nat) (a : prng) : option (list byte * prng) :=
  match turns with
  | O => None
  | S turns =>
      let '(x, a) := get_bytes sb ol PRF 1 a in
      if le_decode x =? 0 then spec_randnum turns a
      else Some (get_bytes sb ol PRF (le_decode x) a)
  end.

(** The first integer up to [upper] that is at most [lim]. *)
Fixpoint spec_chop (turns : nat) (upper lim : Z) (a : prng) : option (Z * prng) :=
  match turns with
  | O => None
  | S turns =>
      '(u, a) ← range sb ol PRF fuel 4 (range_divisor 4 upper) upper a;
      if lim <? u then spec_chop turns upper lim a else Some (u, a)
  end.

(** An integer, and one byte more for each whose low three bits are zero. *)
Definition spec_odd (size : Z) (a : prng) : list byte * prng :=
  let '(bs, a) := tiny sb ol PRF size a in
  (bs, if Z.land (le_decode bs) 7 =? 0 then snd (get_bytes sb ol PRF 1 a) else a).

Definition spec_chunk (f : strategy) (a : prng) : option (list byte * prng) :=
  match f with
  | gen_rand_bytes => Some (get_bytes sb ol PRF param a)
  | gen_randnum_bytes => spec_randnum fuel a
  | gen_u32 => Some (tiny sb ol PRF 4 a)
  | gen_u64 => Some (tiny sb ol PRF 8 a)
  | gen_u32_odd => Some (spec_odd 4 a)
  | gen_u64_odd => Some (spec_odd 8 a)
  | chop_range8 => '(u, a) ← spec_chop fuel param 255 a; Some ([byte_of_Z u], a)
  | chop_range16 => '(u, a) ← spec_chop fuel param 65535 a; Some (le_encode 2 u, a)
  | range16 => '(u, a) ← range sb ol PRF fuel 4 (range_divisor 4 65535) 65535 a; Some (le_encode 2 u, a)
  end.

(** Chunks until less than 8192 of [remaining] are left. *)
Fixpoint spec_fill (turns : nat) (f : strategy) (remaining : Z) (a : prng) : option (list byte * prng) :=
  if DUMP_MAX_OUTPUT_LEN <=? remaining then
    match turns with
    | O => None
    | S turns =>
        '(bs, a) ← spec_chunk f a;
        '(rest, a) ← spec_fill turns f (remaining - zlen bs) a;
        Some (bs ++ rest, a)
    end
  else Some ([], a).

(** The bytes of some turns of the program: each is filled from an empty buffer. *)
Fixpoint spec_dump (turns : nat) (f : strategy) (a : prng) : option (list byte) :=
  match turns with
  | O => Some []
  | S turns =>
      '(out, a) ← spec_fill (S (Z.to_nat BUF_LEN)) f BUF_LEN a;
      rest ← spec_dump turns f a;
      Some (out ++ rest)
  end.
End Stream.

(** ** The generators read it *)

Section Feed.
Context {W G : Type} {OS0 : OS W} {BC : BuildConfig} {UN : Uninit}.
Context (ops : prng_ops W G) {q : ottery_prf} {PS : PrfSpec q} {PZ : PrfSizes q}.
Context (ok : G -> prng -> process W -> Prop) (CT : contracts ops q ok).
Context (Hrep : forall g a s, ok g a s -> exists st, rep (p := q) st a).
Context (fuel : nat) (param : Z).

Abbreviation sb := (state_bytes q).
Abbreviation ol := (output_len q).
Abbreviation PRF := (prf_out q).
Abbreviation bytes n a := (get_bytes sb ol PRF n a).
Abbreviation int size a := (tiny sb ol PRF size a).

Lemma bytes_len g a s n : ok g a s -> 0 <= n < 2 ^ 63 -> zlen (fst (bytes n a)) = n.
Proof.
  intros Hg Hn. destruct (Hrep g a s Hg) as [st Hst].
  destruct (rand_bytes_impl_ok st a (zeros n) 0 n) as (_ & _ & _ & _ & Hl); try done; try lia.
  rewrite zlen_zeros; lia.
Qed.

Lemma int_len g a s size : ok g a s -> 1 <= size <= 8 -> zlen (fst (int size a)) = size.
Proof.
  intros Hg Hs. destruct (Hrep g a s Hg) as [st Hst].
  destruct (rand_inttype_ok st a size) as (_ & _ & _ & _ & Hl); try done; lia.
Qed.

(** A one-byte variable. *)
Lemma draw_byte g a s x :
  ok g a s -> zlen x = 1 ->
  exists g', op_rand_bytes ops g x 0 1 s = Ret (fst (bytes 1 a), g', s) /\ ok g' (snd (bytes 1 a)) s.
Proof.
  intros Hg Hx. destruct (ct_bytes _ _ _ CT g a s x 0 1) as (g' & E & Hg'); [done|lia..|].
  exists g'. split; [|done]. rewrite E, splice_all; [done|]. rewrite (bytes_len g a s); [lia|done|lia].
Qed.

Lemma byte_range g a s : ok g a s -> 0 <= le_decode (fst (bytes 1 a)) < 256.
Proof.
  intros Hg. pose proof (le_decode_range (fst (bytes 1 a))) as H.
  by rewrite (bytes_len g a s) in H by (done || lia).
Qed.

(** [m] gives [n] bytes at [off] of [buf], those of the chunk, or runs out of draws. *)
Definition feeds (m : M W (generated (G := G))) (buf : list byte) (off : Z) (r : option (list byte * prng))
    (s : process W) : Prop :=
  match r with
  | Some (bs, a) => 1 <= zlen bs <= DUMP_MAX_OUTPUT_LEN /\
      exists g, m s = Ret (zlen bs, splice buf off bs, g, s) /\ ok g a s
  | None => m s = NoFuel
  end.

Lemma feed_bytes g a n buf off s :
  ok g a s -> 1 <= n <= DUMP_MAX_OUTPUT_LEN -> 0 <= off -> off + n <= zlen buf ->
  feeds (do '(buf, g) <- op_rand_bytes ops g buf off n; ret (n, buf, g)) buf off (Some (bytes n a)) s.
Proof.
  intros Hg Hn Ho Hb. unfold DUMP_MAX_OUTPUT_LEN in *.
  destruct (ct_bytes _ _ _ CT g a s buf off n) as (g' & E & Hg'); [done|lia..|].
  pose proof (bytes_len g a s n Hg ltac:(lia)) as Hl. destruct (bytes n a) as [bs a'].
  cbn [fst snd feeds] in *. split; [unfold DUMP_MAX_OUTPUT_LEN; lia|]. exists g'.
  rewrite (bind_Ret _ _ _ _ _ E), Hl. done.
Qed.

Lemma feed_randnum turns g a buf off s x :
  ok g a s -> zlen x = 1 -> 0 <= off -> off + DUMP_MAX_OUTPUT_LEN <= zlen buf ->
  feeds (do '(x, g) <- randnum_loop ops turns g x;
         do '(buf, g) <- op_rand_bytes ops g buf off (le_decode x); ret (le_decode x, buf, g))
    buf off (spec_randnum q turns a) s.
Proof.
  intros Hg Hx Ho Hb. revert g a x Hg Hx. induction turns as [|turns IH]; intros g a x Hg Hx; [done|].
  cbn [randnum_loop spec_randnum]. destruct (draw_byte g a s x Hg Hx) as (g1 & E & Hg1).
  pose proof (byte_range g a s Hg). pose proof (bytes_len g a s 1 Hg ltac:(lia)) as Hl.
  destruct (bytes 1 a) as [x1 a1]. cbn [fst snd] in *.
  unfold feeds. rewrite bind_assoc, (bind_Ret _ _ _ _ _ E). cbn beta iota.
  destruct (Z.eqb_spec (le_decode x1) 0) as [|Hnz]; [by apply IH|]. rewrite bind_ret.
  unfold DUMP_MAX_OUTPUT_LEN in *. apply feed_bytes; unfold DUMP_MAX_OUTPUT_LEN; [done|lia..].
Qed.

Lemma feed_uint (g : G) a (m : M W (Z * G)) size (k : Z -> G -> M W G) (next : list byte -> prng -> prng) buf off s :
  draws q ok m size a s -> zlen (fst (int size a)) = size -> 1 <= size <= 8 ->
  0 <= off -> off + DUMP_MAX_OUTPUT_LEN <= zlen buf ->
  (forall u g' a', ok g' a' s -> exists g'', k (le_decode u) g' s = Ret (g'', s) /\ ok g'' (next u a') s) ->
  feeds (do '(u, g) <- m;
         do buf <- lift (mwrite buf off (le_encode (Z.to_nat size) u));
         do g <- k u g;
         ret (size, buf, g)) buf off
    (let '(bs, a) := int size a in Some (bs, next bs a)) s.
Proof.
  intros (g' & E & Hg') Hl Hs Ho Hb Hk. unfold DUMP_MAX_OUTPUT_LEN in *.
  destruct (int size a) as [bs a']. cbn [fst snd] in *.
  destruct (Hk bs g' a' Hg') as (g'' & Ek & Hg''). cbn [feeds].
  split; [unfold DUMP_MAX_OUTPUT_LEN; lia|]. exists g''. rewrite (bind_Ret _ _ _ _ _ E).
  assert (le_encode (Z.to_nat size) (le_decode bs) = bs) as ->.
  { rewrite <-(le_encode_decode bs) at 2. f_equal. unfold zlen in Hl. lia. }
  rewrite mwrite_ok, bind_lift_Some, (bind_Ret _ _ _ _ _ Ek) by lia. by rewrite Hl.
Qed.

(** The range functions. *)
Lemma feed_chop turns g a upper lim buf off s size enc (chunk : Z -> list byte) :
  ok g a s -> 0 <= upper < 2 ^ 32 -> u32 param = upper -> (forall u, zlen (chunk u) = size) ->
  (forall u, enc u = chunk u) ->
  1 <= size <= DUMP_MAX_OUTPUT_LEN -> 0 <= off -> off + size <= zlen buf ->
  feeds (do '(u, g) <- chop_loop ops fuel param turns g lim;
         do buf <- lift (mwrite buf off (enc u)); ret (size, buf, g))
    buf off ('(u, a) ← spec_chop q fuel turns upper lim a; Some (chunk u, a)) s.
Proof.
  intros Hg Hu Hp Hc He Hs Ho Hb. revert g a Hg. induction turns as [|turns IH]; intros g a Hg; [done|].
  cbn [chop_loop spec_chop]. rewrite Hp. pose proof (ct_range _ _ _ CT g a s fuel upper Hg Hu) as H.
  unfold draws_range in H. destruct (range _ _ _ _ _ _ _ _) as [[u a1]|]; cbn [mbind option_bind].
  2:{ unfold feeds, bind. by rewrite H. }
  destruct H as (g1 & E & Hg1). unfold feeds. rewrite bind_assoc, (bind_Ret _ _ _ _ _ E). cbn beta iota.
  destruct (lim <? u); [by apply IH|]. cbn [mbind option_bind]. rewrite bind_ret, Hc. split; [done|].
  exists g1. rewrite He, mwrite_ok by (rewrite ?Hc; lia). done.
Qed.

Lemma feed_range16 g a buf off s :
  ok g a s -> 0 <= off -> off + 2 <= zlen buf ->
  feeds (generate_ ops fuel param range16 g buf off) buf off (spec_chunk q fuel param range16 a) s.
Proof.
  intros Hg Ho Hb. cbn [generate_ spec_chunk].
  pose proof (ct_range _ _ _ CT g a s fuel 65535 Hg ltac:(lia)) as H. unfold draws_range in H.
  destruct (range sb ol PRF fuel 4 (range_divisor 4 65535) 65535 a) as [[u a1]|] eqn:Er;
    cbn [mbind option_bind].
  2:{ unfold feeds, bind. by rewrite H. }
  assert (0 <= u <= 65535) as Hu.
  { apply (range_bound fuel 4 (range_divisor 4 65535) 65535 a u a1); [vm_compute; done|exact Er]. }
  destruct H as (g1 & E & Hg1). split; [done|]. exists g1. rewrite (bind_Ret _ _ _ _ _ E).
  rewrite (proj2 (Z.leb_le u 65535)), bind_lift_Some by lia.
  by rewrite mwrite_ok, bind_lift_Some by (rewrite ?zlen_le_encode; lia).
Qed.

Lemma odd_byte_ok bs g a s :
  ok g a s ->
  exists g', odd_byte ops (le_decode bs) g s = Ret (g', s) /\
    ok g' (if Z.land (le_decode bs) 7 =? 0 then snd (bytes 1 a) else a) s.
Proof.
  intros Hg. unfold odd_byte. destruct (_ =? 0); [|by exists g].
  destruct (draw_byte g a s (uninit 1) Hg ltac:(apply uninit_len; lia)) as (g' & E & Hg').
  exists g'. by rewrite (bind_Ret _ _ _ _ _ E).
Qed.

(** The parameter a strategy can work with. *)
Definition param_ok (f : strategy) : Prop :=
  match f with
  | gen_rand_bytes => 0 < param <= DUMP_MAX_OUTPUT_LEN
  | chop_range8 => 255 <= param < 2 ^ 31
  | chop_range16 => 65535 <= param < 2 ^ 31
  | _ => True
  end.

(** Every strategy gives the bytes of its chunk, and only those, within the
    buffer. *)
Lemma generate_ok f g a buf off s :
  ok g a s -> param_ok f -> 0 <= off -> off + DUMP_MAX_OUTPUT_LEN <= zlen buf ->
  feeds (generate_ ops fuel param f g buf off) buf off (spec_chunk q fuel param f a) s.
Proof.
  intros Hg Hp Ho Hb. destruct f; cbn [generate_ spec_chunk param_ok] in *.
  - unfold DUMP_MAX_OUTPUT_LEN in *.
    rewrite (proj2 (Z.eqb_neq param 0)), (proj2 (Z.ltb_ge 8192 param)), u64_small by lia.
    by apply feed_bytes; unfold DUMP_MAX_OUTPUT_LEN; [|lia..].
  - by apply feed_randnum; [|apply uninit_len|..].
  - pose proof (int_len g a s 4 Hg ltac:(lia)) as Hl.
    pose proof (feed_uint g a (op_rand_unsigned ops g) 4 (fun _ g => ret g) (fun _ a => a) buf off s) as H.
    destruct (int 4 a) as [bs a']. apply H; try done; [by apply CT|]. intros u g' a1 Hg'. by exists g'.
  - pose proof (int_len g a s 8 Hg ltac:(lia)) as Hl.
    pose proof (feed_uint g a (op_rand_uint64 ops g) 8 (fun _ g => ret g) (fun _ a => a) buf off s) as H.
    destruct (int 8 a) as [bs a']. apply H; try done; [by apply CT|]. intros u g' a1 Hg'. by exists g'.
  - pose proof (int_len g a s 4 Hg ltac:(lia)) as Hl.
    pose proof (feed_uint g a (op_rand_unsigned ops g) 4 (odd_byte ops)
      (fun u a => if Z.land (le_decode u) 7 =? 0 then snd (bytes 1 a) else a) buf off s) as H.
    unfold spec_odd. destruct (int 4 a) as [bs a']. apply H; try done; [by apply CT|].
    intros u g' a1 Hg'. by apply odd_byte_ok.
  - pose proof (int_len g a s 8 Hg ltac:(lia)) as Hl.
    pose proof (feed_uint g a (op_rand_uint64 ops g) 8 (odd_byte ops)
      (fun u a => if Z.land (le_decode u) 7 =? 0 then snd (bytes 1 a) else a) buf off s) as H.
    unfold spec_odd. destruct (int 8 a) as [bs a']. apply H; try done; [by apply CT|].
    intros u g' a1 Hg'. by apply odd_byte_ok.
  - rewrite (proj2 (Z.ltb_ge _ _)) by lia.
    apply feed_chop; try done; unfold DUMP_MAX_OUTPUT_LEN in *; try lia. apply u32_small. lia.
  - rewrite (proj2 (Z.ltb_ge _ _)) by lia.
    apply feed_chop; try done; unfold DUMP_MAX_OUTPUT_LEN in *; try lia. apply u32_small. lia.
  - apply feed_range16; unfold DUMP_MAX_OUTPUT_LEN in *; [done|lia..].
Qed.

(** ** The buffer and the loop *)

Lemma fill_ok f : param_ok f -> forall turns g a buf cp remaining s,
  ok g a s -> 0 <= cp -> 0 <= remaining -> cp + remaining = zlen buf ->
  (Z.to_nat remaining <= turns)%nat ->
  match spec_fill q fuel param turns f remaining a with
  | Some (bs, a') => zlen bs <= remaining < zlen bs + DUMP_MAX_OUTPUT_LEN /\
      exists g', fill_loop ops fuel param turns f g buf cp remaining s =
        Ret (splice buf cp bs, cp + zlen bs, g', s) /\ ok g' a' s
  | None => fill_loop ops fuel param turns f g buf cp remaining s = NoFuel /\
      exists a', spec_chunk q fuel param f a' = None
  end.
Proof.
  intros Hp. induction turns as [|turns IH]; intros g a buf cp remaining s Hg Hcp Hr Hb Ht;
    cbn [spec_fill fill_loop]; destruct (Z.leb_spec DUMP_MAX_OUTPUT_LEN remaining) as [Hge|Hlt].
  1: { unfold DUMP_MAX_OUTPUT_LEN in *. lia. }
  1, 3: rewrite zlen_nil, splice_nil, Z.add_0_r; split; [lia|]; by exists g.
  pose proof (generate_ok f g a buf cp s Hg Hp Hcp ltac:(lia)) as H. unfold feeds in H.
  destruct (spec_chunk q fuel param f a) as [[bs a1]|] eqn:Ec; cbn [mbind option_bind].
  2:{ split; [unfold bind; by rewrite H|by exists a]. }
  destruct H as (Hl & g1 & E & Hg1). rewrite (bind_Ret _ _ _ _ _ E).
  specialize (IH g1 a1 (splice buf cp bs) (cp + zlen bs) (remaining - zlen bs) s Hg1).
  rewrite zlen_splice in IH by lia. specialize (IH ltac:(lia) ltac:(lia) ltac:(lia) ltac:(lia)).
  destruct (spec_fill _ _ _ _ _ _ _) as [[rest a2]|]; cbn [mbind option_bind]; [|done].
  destruct IH as (Hl2 & g2 & E2 & Hg2). rewrite zlen_app. split; [lia|]. exists g2.
  rewrite E2, splice_splice_app by lia. split; [|done]. do 3 f_equal. f_equal. lia.
Qed.

Context (Hworld : forall g a s w, ok g a s -> os_getpid w = os_getpid (world s) -> ok g a (set_world w s)).
Context (Hwrite : forall bs w, os_getpid (snd (os_write 1 bs w)) = os_getpid w).

(** A turn gives [write] the bytes of [spec_fill], more than 8192 and at most
    16384 of them. *)
Lemma dump_turn_ok t f g a s :
  ok g a s -> param_ok f -> (Z.to_nat BUF_LEN <= t)%nat ->
  match spec_fill q fuel param (S t) f BUF_LEN a with
  | Some (out, a') => DUMP_MAX_OUTPUT_LEN < zlen out <= BUF_LEN /\
      exists g' s', dump_turn ops fuel param t f g s = Ret (Some out, g', s') /\ ok g' a' s'
  | None => dump_turn ops fuel param t f g s = NoFuel /\ exists a', spec_chunk q fuel param f a' = None
  end.
Proof.
  intros Hg Hp Ht. assert (BUF_LEN = 16384 /\ DUMP_MAX_OUTPUT_LEN = 8192) as [HB HM] by done.
  pose proof (uninit_len BUF_LEN ltac:(lia)) as Hu. unfold dump_turn. cbn [spec_fill].
  pose proof (generate_ok f g a (uninit BUF_LEN) 0 s Hg Hp ltac:(lia)) as H. unfold feeds in H.
  specialize (H ltac:(lia)).
  rewrite (proj2 (Z.leb_le DUMP_MAX_OUTPUT_LEN BUF_LEN)) by lia.
  destruct (spec_chunk q fuel param f a) as [[bs a1]|] eqn:Ec; cbn [mbind option_bind].
  2:{ split; [unfold bind; by rewrite H|by exists a]. }
  destruct H as (Hl & g1 & E & Hg1). rewrite (bind_Ret _ _ _ _ _ E).
  rewrite (proj2 (Z.ltb_ge (zlen bs) 0)) by lia.
  pose proof (fill_ok f Hp t g1 a1 (splice (uninit BUF_LEN) 0 bs) (zlen bs)
    (BUF_LEN - zlen bs) s Hg1) as Hf.
  rewrite zlen_splice in Hf by lia. specialize (Hf ltac:(lia) ltac:(lia) ltac:(lia) ltac:(lia)).
  destruct (spec_fill _ _ _ _ _ _ _) as [[rest a2]|]; cbn [mbind option_bind].
  2:{ destruct Hf as [Ef Hc]. split; [unfold bind; by rewrite Ef|done]. }
  destruct Hf as (Hl2 & g2 & E2 & Hg2). rewrite zlen_app. split; [lia|].
  exists g2, (set_world (snd (os_write 1 (bs ++ rest) (world s))) s).
  rewrite (bind_Ret _ _ _ _ _ E2), splice_splice_app, <-zlen_app by lia. cbn beta iota.
  rewrite mread_ok, bind_lift_Some by (rewrite ?zlen_splice; rewrite ?zlen_app; lia).
  rewrite slice_splice_eq, bind_sys by (rewrite ?zlen_app; lia).
  split; [done|]. by apply Hworld; [|apply Hwrite].
Qed.

Lemma loop_ok f : param_ok f -> forall turns g a s,
  ok g a s ->
  match spec_dump q fuel param turns f a with
  | Some out => Z.of_nat turns * DUMP_MAX_OUTPUT_LEN <= zlen out <= Z.of_nat turns * BUF_LEN /\
      exists s', dump_loop ops fuel param turns f g s = Ret (mk_run "" out None, s')
  | None => dump_loop ops fuel param turns f g s = NoFuel /\
      exists a', spec_chunk q fuel param f a' = None
  end.
Proof.
  intros Hp. induction turns as [|turns IH]; intros g a s Hg; cbn [spec_dump dump_loop].
  { split; [by rewrite (zlen_nil (A := byte))|]. by exists s. }
  pose proof (dump_turn_ok (Z.to_nat BUF_LEN) f g a s Hg Hp ltac:(reflexivity)) as H.
  destruct (spec_fill _ _ _ _ _ _ _) as [[out a1]|]; cbn [mbind option_bind].
  2:{ destruct H as [H Hc]. split; [unfold bind; by rewrite H|done]. }
  destruct H as (Hl & g1 & s1 & E & Hg1). rewrite (bind_Ret _ _ _ _ _ E). specialize (IH g1 a1 s1 Hg1).
  destruct (spec_dump _ _ _ _ _ _) as [rest|]; cbn [mbind option_bind].
  2:{ destruct IH as [IH Hc]. split; [unfold bind; by rewrite IH|done]. }
  destruct IH as (Hl2 & s2 & E2). split; [rewrite zlen_app; lia|]. exists s2.
  by rewrite (bind_Ret _ _ _ _ _ E2).
Qed.
End Feed.
