(* ===== verification/DumpBytesProps.v ===== *)
(** * Properties of test/dump_bytes.c

    Its options, its first call, and what its output is. *)
From Stdlib Require Import Ascii.
From S2P Require Import Prelude Words Memory Internal Spec Prng Refine TestPrf Session.
From S2P Require Import ChaChaRef ChaChaMerged ChaChaKrovetz Os CpuInfo Entropy TestOs TestVectors.
From S2P Require Import Config Api ApiRefine ApiProps Global GlobalProps Public CString TestEgd DumpBytes.
Local Open Scope Z_scope.
Local Open Scope ottery_scope.

(** ** Options *)

Definition without_argument : list strategy :=
  [gen_randnum_bytes; gen_u32; gen_u64; gen_u32_odd; gen_u64_odd; range16].

(** What can follow -s, with what it chooses: the name of a strategy that takes no
    argument, or the beginning of one, when no earlier name of the table begins so.
    Nothing chooses the three that take an argument, with one or without. *)
Definition strategy_names : list (strategy * list string) :=
  [(gen_randnum_bytes, ["randn"; "randnu"; "randnum"; "randnum_"; "randnum_b"; "randnum_by"; "randnum_byt";
      "randnum_byte"; "randnum_bytes"]);
   (gen_u32, ["u"; "u3"; "u32"]);
   (gen_u64, ["u6"; "u64"]);
   (gen_u32_odd, ["u32_"; "u32_o"; "u32_od"; "u32_odd"]);
   (gen_u64_odd, ["u64_"; "u64_o"; "u64_od"; "u64_odd"]);
   (range16, ["rang"; "range"; "range1"; "range16"])]%string.

Definition named_strategy (s : string) : option strategy :=
  fst <$> List.find (fun '(_, names) => existsb (String.eqb s) names) strategy_names.

(** The beginnings of a string. *)
Fixpoint beginnings (s : string) : list string :=
  EmptyString :: match s with EmptyString => [] | String c s => String c <$> beginnings s end.

Lemma prefix_beginnings s name : String.prefix s name = true -> In s (beginnings name).
Proof.
  revert name. induction s as [|c s IH]; intros name; [by destruct name; left|].
  destruct name as [|d name]; [done|]. cbn. destruct (Ascii.ascii_dec c d) as [<-|]; [|done].
  intros H. right. apply in_map_iff. exists s. split; [done|by apply IH].
Qed.

Lemma strncmp_prefix s name : strncmp_eq (String.length s) name s = String.prefix s name.
Proof. by rewrite strncmp_substring, substring_short by done. Qed.

Lemma named_short s f : named_strategy s = Some f -> In s (strategies ≫= fun r => beginnings r.1.1).
Proof.
  unfold named_strategy. intros H. apply fmap_Some in H as ([g names] & H & _).
  apply List.find_some in H as [Hin H]. apply existsb_exists in H as (s' & Hs & ->%String.eqb_eq).
  revert g names s' Hin Hs. 
  assert (forallb (fun '(_, names) => forallb (fun s => existsb (String.eqb s) (strategies ≫= fun r => beginnings r.1.1))
    names) strategy_names = true) as Hall by (by vm_compute).
  intros g names s' Hin Hs. rewrite forallb_forall in Hall. specialize (Hall _ Hin). cbn beta iota in Hall.
  rewrite forallb_forall in Hall. specialize (Hall _ Hs). apply existsb_exists in Hall as (x & Hx & ->%String.eqb_eq).
  exact Hx.
Qed.

(** [parse_strategy] knows these names, keeps the parameter, and refuses all else; a
    name with a colon, and so with an argument, is always refused. *)
Lemma parse_strategy_ok s param : parse_strategy s param = (fun f => (param, f)) <$> named_strategy s.
Proof.
  unfold parse_strategy. destruct (existsb (String.eqb s) (strategies ≫= fun r => beginnings r.1.1)) eqn:Es.
  - apply existsb_exists in Es as (s' & Hs & ->%String.eqb_eq). cbn in Hs.
    repeat (destruct Hs as [<-|Hs]; [reflexivity|]). done.
  - assert (~ In s (strategies ≫= fun r => beginnings r.1.1)) as Hn.
    { intros Hin. by rewrite (proj2 (existsb_exists _ _) (ex_intro _ s (conj Hin (String.eqb_refl s)))) in Es. }
    destruct (named_strategy s) as [f|] eqn:Ef; [by apply named_short in Ef|].
    assert (forall len colon (l : list (string * bool * strategy)), (forall r, In r l -> ~ In s (beginnings r.1.1)) ->
      (len = String.length s \/ (String.length s =? len)%nat = false) ->
      parse_strategy_loop s colon len param l = None) as Hl.
    { intros len colon l Hl Hlen. induction l as [|[[name arg] g] l IH]; [done|]. cbn [parse_strategy_loop].
      rewrite IH by (intros r Hr; apply Hl; by right).
      destruct Hlen as [-> | ->]; [|by rewrite andb_false_r]. rewrite strncmp_prefix.
      destruct (String.prefix s name) eqn:Ep; [|done]. apply prefix_beginnings in Ep.
      destruct (Hl (name, arg, g) (or_introl eq_refl) Ep). }
    apply Hl.
    + intros r Hr Hin. apply Hn, list_elem_of_In, list_elem_of_bind. exists r. split; by apply list_elem_of_In.
    + destruct (strchr s colon_char) as [i|] eqn:E; [right|by left].
      apply strchr_lt in E. apply Nat.eqb_neq. lia.
Qed.

Lemma colon_refused s param : strchr s colon_char <> None -> parse_strategy s param = None.
Proof.
  intros Hc. rewrite parse_strategy_ok. destruct (named_strategy s) as [f|] eqn:E; [|done].
  apply named_short in E. cbn in E. exfalso. apply Hc. by repeat (destruct E as [<-|E]; [reflexivity|]).
Qed.

Lemma named_without_argument s f : named_strategy s = Some f -> In f without_argument.
Proof.
  unfold named_strategy. intros H. apply fmap_Some in H as ([g names] & H & ->).
  apply List.find_some in H as [Hin _]. cbn in *. by repeat (destruct Hin as [[= <- <-]|Hin]; [tauto|]).
Qed.

(** How an option ends the program, if it does. *)
Definition bad_option (opt : Ascii.ascii * string) : option run :=
  match opt.1 with
  | "i" | "G" => None
  | "s" => if named_strategy opt.2 is Some _ then None else Some (mk_run "" [] (Some 1))
  | "T" => Some (mk_run "" [] (Some 1))
  | "?" | "h" => Some (mk_run usage [] (Some 0))
  | _ => Some (mk_run usage [] (Some 1))
  end%char.

Fixpoint first_bad (opts : list (Ascii.ascii * string)) : option run :=
  match opts with
  | [] => None
  | opt :: opts => match bad_option opt with Some r => Some r | None => first_bad opts end
  end.

(** The last strategy named, after [f]. *)
Definition last_strategy (f : option strategy) (opts : list (Ascii.ascii * string)) : option strategy :=
  fold_left (fun f opt => if Ascii.eqb opt.1 "s" then named_strategy opt.2 else f) opts f.

(** The strategy and its parameter. *)
Definition strategy_of (opts : list (Ascii.ascii * string)) : strategy * Z :=
  match last_strategy None opts with
  | Some f => (f, 0)
  | None => (gen_rand_bytes, DUMP_MAX_OUTPUT_LEN)
  end.

Section Options.
Context {W : Type} {OS0 : OS W} {BC : BuildConfig} {PL : Platform}.

Definition is_G (opt : Ascii.ascii * string) : bool := String.eqb (String opt.1 EmptyString) "G".

(** The PRF that a name stands for, on the process's CPU. *)
Definition impl_named (s : process W) (i : string) : option ottery_prf :=
  get_impl_loop (Some i) (Z.ldiff (cpu_capabilities (world s)) (disabled_cpu_capabilities s)) ALL_PRFS.

(** The configuration: the last implementation asked for and known, after [cfg]. *)
Definition forced_config (s : process W) (cfg : ottery_config) (opts : list (Ascii.ascii * string)) : ottery_config :=
  fold_left (fun cfg opt =>
    if Ascii.eqb opt.1 "i"
    then match impl_named s opt.2 with Some q => mk_config (Some q) (cfg_entropy cfg) | None => cfg end
    else cfg) opts cfg.

Lemma force_eq cfg i (s : process W) :
  exists r, 0 <= r /\ ottery_config_force_implementation cfg (Some i) s =
    Ret (r, match impl_named s i with Some q => mk_config (Some q) (cfg_entropy cfg) | None => cfg end, s).
Proof.
  unfold ottery_config_force_implementation, ottery_get_impl, ottery_get_cpu_capabilities_, impl_named.
  rewrite bind_assoc, bind_gets, bind_ret. destruct (get_impl_loop _ _ _) as [q|].
  - by exists 0.
  - by exists OTTERY_ERR_INVALID_ARGUMENT.
Qed.

Lemma forced_good (s : process W) cfg opts :
  config_good (Some cfg) -> config_good (Some (forced_config s cfg opts)).
Proof.
  revert cfg. induction opts as [|[ch arg] opts IH]; intros cfg Hc; [done|]. cbn [forced_config fold_left fst snd].
  apply IH. destruct (Ascii.eqb ch "i"); [|done]. destruct (impl_named s arg) as [q|] eqn:E; [|done].
  apply get_impl_loop_in in E as (Hin & _). pose proof ALL_PRFS_ok as H. rewrite Forall_forall in H.
  by apply H, list_elem_of_In.
Qed.

(** The loop over the options. *)
Lemma options_loop_ok opts o (s : process W) :
  options_loop opts o s = Ret (match first_bad opts with
    | Some r => inl r
    | None => inr (mk_options (forced_config s (opt_cfg o) opts) (opt_param o) (last_strategy (opt_generate o) opts)
                     (use_global_state o || existsb is_G opts))
    end, s).
Proof.
  revert o. induction opts as [|[ch arg] opts IH]; intros o; cbn [options_loop first_bad].
  { cbn. rewrite orb_false_r. by destruct o. }
  unfold forced_config, last_strategy. cbn [fold_left existsb]. fold (forced_config s). unfold is_G at 1.
  unfold bad_option. cbn [fst snd].
  destruct (ascii_dec ch "i") as [->|Hi].
  { destruct (force_eq (opt_cfg o) arg s) as (r & Hr & E). cbn [String.eqb Ascii.eqb Bool.eqb orb].
    rewrite (bind_Ret _ _ _ _ _ E), (proj2 (Z.ltb_ge r 0)) by done. rewrite IH. cbn. reflexivity. }
  destruct (ascii_dec ch "s") as [->|Hs].
  { cbn [String.eqb Ascii.eqb Bool.eqb orb]. rewrite parse_strategy_ok.
    destruct (named_strategy arg) as [f|]; cbn [fmap option_fmap option_map]; [rewrite IH|]; reflexivity. }
  destruct (ascii_dec ch "G") as [->|HG].
  { cbn [String.eqb Ascii.eqb Bool.eqb orb]. rewrite IH. cbn. by rewrite orb_true_r. }
  by destruct ch as [[] [] [] [] [] [] [] []].
Qed.

(** An implementation nobody knows is accepted like any other option. *)
Lemma unknown_implementation_accepted i opts o (s : process W) :
  get_impl_loop (Some i) (Z.ldiff (cpu_capabilities (world s)) (disabled_cpu_capabilities s)) ALL_PRFS = None ->
  options_loop (("i"%char, i) :: opts) o s = options_loop opts o s.
Proof.
  intros H. cbn [options_loop]. change (String "i" EmptyString) with "i"%string. cbv zeta.
  change ("i" =? "?")%string with false. change ("i" =? "h")%string with false.
  change ("i" =? "i")%string with true. cbn [orb].
  unfold ottery_config_force_implementation, ottery_get_impl, ottery_get_cpu_capabilities_.
  rewrite !bind_assoc, bind_gets, bind_ret, H, bind_ret. by destruct o.
Qed.
End Options.

(** ** The first call *)

Section FirstCall.
Context {W : Type} {OS0 : OS W} {BC : BuildConfig} {PL : Platform} {UN : Uninit}.

(** From [s], [m] does what [m1] does from another process, or aborts. *)
Definition goes_on_as {A} (m m1 : M W A) (s : process W) (s1 : option (process W)) : Prop :=
  match s1 with Some s1 => m s = m1 s1 | None => m s = Aborted end.

Lemma goes_on_bind {A B} (m m1 : M W A) (k : A -> M W B) s s1 :
  goes_on_as m m1 s s1 -> goes_on_as (bind m k) (bind m1 k) s s1.
Proof. unfold goes_on_as, bind. by destruct s1 as [s1|]; intros ->. Qed.

(** Two generators whose calls go on as one another. *)
Record same_calls {G} (ops : prng_ops W G) (g g1 : G) (s : process W) (s1 : option (process W)) : Prop := {
  sc_bytes : forall out off n, goes_on_as (op_rand_bytes ops g out off n) (op_rand_bytes ops g1 out off n) s s1;
  sc_unsigned : goes_on_as (op_rand_unsigned ops g) (op_rand_unsigned ops g1) s s1;
  sc_uint64 : goes_on_as (op_rand_uint64 ops g) (op_rand_uint64 ops g1) s s1;
  sc_range : forall fuel upper, goes_on_as (op_rand_range ops fuel g upper) (op_rand_range ops fuel g1 upper) s s1 }.

(** Whatever the strategy, the first thing the program does is such a call. *)
Lemma turn_goes_on {G} (ops : prng_ops W G) g g1 s s1 fuel param t f :
  same_calls ops g g1 s s1 -> param_ok param f -> (0 < fuel)%nat ->
  goes_on_as (dump_turn ops fuel param t f g) (dump_turn ops fuel param t f g1) s s1.
Proof.
  intros [Hb Hu H64 Hr] Hp Hf. destruct fuel as [|fuel]; [lia|]. unfold dump_turn. apply goes_on_bind.
  assert (forall A B C (m : M W A) (k : A -> M W B) (k' : B -> M W C) m1,
    goes_on_as (bind m (fun a => bind (k a) k')) m1 s s1 -> goes_on_as (bind (bind m k) k') m1 s s1) as Ha.
  { intros *. unfold goes_on_as. by rewrite bind_assoc. }
  assert (forall A B C (m : M W A) (k : A -> M W B) (k' : B -> M W C) m1,
    goes_on_as m1 (bind m (fun a => bind (k a) k')) s s1 -> goes_on_as m1 (bind (bind m k) k') s s1) as Ha'.
  { intros *. unfold goes_on_as. destruct s1; [by rewrite bind_assoc|done]. }
  destruct f; cbn [generate_ param_ok randnum_loop chop_loop] in *; unfold DUMP_MAX_OUTPUT_LEN in *;
    try (rewrite (proj2 (Z.eqb_neq _ _)), (proj2 (Z.ltb_ge _ _)) by lia; cbn [orb]);
    try (rewrite (proj2 (Z.ltb_ge _ _)) by lia);
    try (apply Ha, Ha'); apply goes_on_bind; auto.
Qed.

Lemma loop_goes_on {G} (ops : prng_ops W G) g g1 s s1 fuel param turns f :
  same_calls ops g g1 s s1 -> param_ok param f -> (0 < fuel)%nat -> (0 < turns)%nat ->
  goes_on_as (dump_loop ops fuel param turns f g) (dump_loop ops fuel param turns f g1) s s1.
Proof.
  intros Hs Hp Hf Ht. destruct turns as [|turns]; [lia|]. cbn [dump_loop].
  by apply goes_on_bind, turn_goes_on.
Qed.

(** A call of the global API whose check initializes the state, or aborts. *)
Lemma global_same_calls addr g g1 s s1 :
  goes_on_as (CHECK_INIT addr g) (ret (true, g1)) s s1 -> ottery_global_state_initialized_ g1 = true ->
  same_calls (global_ops addr) g g1 s s1.
Proof.
  intros Hc Hi. assert (CHECK_INIT addr g1 = ret (true, g1)) as E1 by (unfold CHECK_INIT; by rewrite Hi).
  split; intros; cbn; unfold ottery_rand_bytes, ottery_rand_unsigned, ottery_rand_uint64, ottery_rand_range,
    with_global; apply goes_on_bind; by rewrite E1.
Qed.

Lemma global_same_calls_abort addr g s :
  CHECK_INIT addr g s = Aborted -> same_calls (global_ops addr) g g s None.
Proof.
  intros E. split; intros; cbn; unfold ottery_rand_bytes, ottery_rand_unsigned, ottery_rand_uint64, ottery_rand_range,
    with_global, bind; by rewrite E.
Qed.

(** The check on an uninitialized global state is its initialization. *)
Lemma CHECK_INIT_outcome {OL : OSLaws OS0} addr g (s : process W) :
  ottery_global_state_initialized_ g = false ->
  exists err g' s', ottery_init addr g None s = Ret (err, g', s') /\ same_process s s' /\
    CHECK_INIT addr g s =
      if negb (err =? 0) then fatal_then (Z.lor OTTERY_ERR_FLAG_GLOBAL_PRNG_INIT err) (false, g') s'
      else Ret (true, g', s').
Proof.
  intros Hg. destruct (resolve_ok None s I) as (q & Hq & PS & PZ).
  destruct (initialize_ok addr (ottery_global_state_ g) None true s Hq) as (err & st' & s' & E & Hsp & _).
  assert (ottery_init addr g None s = Ret (err, mk_global (err =? 0) st', s')) as Ei.
  { unfold ottery_init, ottery_st_init. rewrite (bind_Ret _ _ _ _ _ E), Hg. by destruct (err =? 0). }
  exists err, (mk_global (err =? 0) st'), s'. split; [done|]. split; [done|].
  unfold CHECK_INIT, CHECK_INIT_body. rewrite Hg, (bind_Ret _ _ _ _ _ Ei). destruct (negb (err =? 0)); [|done]. by apply fatal_bind.
Qed.

(** A call on a state without its magic number, with no fatal handler. *)
Lemma blank_same_calls addr st (s : process W) :
  OTTERY_NO_INIT_CHECK = false -> st_magic st <> MAGIC addr -> ottery_fatal_handler s = None ->
  same_calls (st_ops addr) st st s None.
Proof.
  intros Hb Hm Hh.
  assert (forall A (k : bool -> M W A), bind (ottery_st_rand_check_init addr st) k s = Aborted) as Hc.
  { intros A k. unfold ottery_st_rand_check_init. rewrite Hb, (proj2 (Z.eqb_neq _ _) Hm). cbn [negb andb].
    rewrite bind_assoc. unfold bind, ottery_fatal_error_. by rewrite Hh. }
  split; intros; cbn; unfold ottery_st_rand_bytes, ottery_st_rand_unsigned, ottery_st_rand_uint64,
    OTTERY_RETURN_RAND_INTTYPE, ottery_st_rand_lock_and_check, ottery_st_rand_range;
    rewrite ?bind_assoc; apply Hc.
Qed.
End FirstCall.

Section Main.
Context {W : Type} {OS0 : OS W} {BC : BuildConfig} {PL : Platform} {OL : OSLaws OS0} {UN : Uninit}.
Context (state_addr global_addr : Z).

(** The strategy works with its parameter. *)
Lemma strategy_of_ok opts :
  let '(f, param) := strategy_of opts in
  param_ok param f /\ (In f without_argument \/ f = gen_rand_bytes /\ param = DUMP_MAX_OUTPUT_LEN).
Proof.
  unfold strategy_of. assert (forall f0, (forall f, f0 = Some f -> In f without_argument) ->
    forall f, last_strategy f0 opts = Some f -> In f without_argument) as H.
  { induction opts as [|[ch arg] opts IH]; intros f0 Hf0; [done|]. unfold last_strategy. cbn [fold_left fst snd].
    apply IH. destruct (Ascii.eqb ch "s"); [|done]. intros f. apply named_without_argument. }
  destruct (last_strategy None opts) as [f|] eqn:E; [|split; [done|by right]].
  assert (In f without_argument) as Hf by (by apply (H None)). split; [|by left].
  cbn in Hf. by repeat destruct Hf as [<-|Hf].
Qed.

Lemma first_bad_exits opts r : first_bad opts = Some r -> is_Some (run_exit r) /\ run_written r = [].
Proof.
  induction opts as [|[ch arg] opts IH]; [done|]. cbn [first_bad]. destruct (bad_option (ch, arg)) as [r'|] eqn:E; [|done].
  intros [= <-]. revert E. unfold bad_option. cbn [fst snd].
  destruct ch as [[] [] [] [] [] [] [] []]; try (intros [= <-]; by split; [eexists|]); try done.
  destruct (named_strategy arg); [done|]. intros [= <-]. by split; [eexists|].
Qed.

(** The program, up to its loop. *)
Lemma dump_main_ok fuel turns argc opts (s : process W) :
  let '(f, param) := strategy_of opts in
  let cfg := forced_config s ottery_config_init opts in
  let m := dump_main state_addr global_addr fuel turns argc opts s in
  if argc =? 1 then m = Ret (mk_run usage [] (Some 1), s)
  else match first_bad opts with
  | Some r => m = Ret (r, s)
  | None =>
      if existsb is_G opts then
        exists err g s1, ottery_init global_addr initial_global (Some cfg) s = Ret (err, g, s1) /\ same_process s s1 /\
          m = if negb (err =? 0) then Ret (mk_run "" [] (Some 1), s1)
              else dump_loop (st_ops state_addr) fuel param turns f zero_state s1
      else
        exists err st s1, ottery_st_init state_addr zero_state (Some cfg) s = Ret (err, st, s1) /\ same_process s s1 /\
          m = if negb (err =? 0) then Ret (mk_run "" [] (Some 1), s1)
              else dump_loop (global_ops global_addr) fuel param turns f initial_global s1
  end.
Proof.
  unfold strategy_of, dump_main. destruct (argc =? 1); [by destruct (last_strategy None opts)|]. cbv zeta.
  rewrite (bind_Ret _ _ _ _ _ (options_loop_ok _ _ s)). cbn [opt_cfg opt_param opt_generate use_global_state orb].
  destruct (first_bad opts) as [r|]; [by destruct (last_strategy None opts)|].
  set (cfg := forced_config s ottery_config_init opts).
  destruct (resolve_ok (Some cfg) s (forced_good s ottery_config_init opts I)) as (q & Hq & PS & PZ).
  cbn [use_global_state opt_generate opt_param opt_cfg].
  destruct (existsb is_G opts).
  - destruct (initialize_ok global_addr (ottery_global_state_ initial_global) (Some cfg) true s Hq)
      as (err & st & s1 & Ei & Hsp & _).
    assert (ottery_init global_addr initial_global (Some cfg) s = Ret (err, mk_global (err =? 0) st, s1)) as E.
    { unfold ottery_init, ottery_st_init. rewrite (bind_Ret _ _ _ _ _ Ei). by destruct (err =? 0). }
    rewrite bind_assoc, (bind_Ret _ _ _ _ _ E), bind_ret.
    destruct (last_strategy None opts); do 3 eexists; (split; [exact E|]); (split; [done|]);
      by destruct (negb (err =? 0)).
  - destruct (initialize_ok state_addr zero_state (Some cfg) true s Hq) as (err & st & s1 & Ei & Hsp & _).
    unfold ottery_st_init. rewrite bind_assoc, (bind_Ret _ _ _ _ _ Ei), bind_ret.
    destruct (last_strategy None opts); do 3 eexists; (split; [exact Ei|]); (split; [done|]);
      by destruct (negb (err =? 0)).
Qed.

(** Only the strategies that wait for a suitable draw can run out of draws. *)
Lemma chunk_none q {PS : PrfSpec q} fuel param f a :
  In f without_argument \/ f = gen_rand_bytes /\ param = DUMP_MAX_OUTPUT_LEN ->
  spec_chunk q fuel param f a = None -> In f [gen_randnum_bytes; range16].
Proof.
  intros [Hf|[-> _]]; [|done]. cbn in Hf. repeat destruct Hf as [<-|Hf]; try done; cbn; tauto.
Qed.

Lemma global_ready_world {q} {PS : PrfSpec q} g a (s : process W) w :
  global_ready (q := q) global_addr g a s -> os_getpid w = os_getpid (world s) ->
  global_ready (q := q) global_addr g a (set_world w s).
Proof.
  intros [Hi [[Hr Hm Hp] Hl]] Hw. split; [done|]. split; [|done]. split; [done..|].
  destruct Hp as [Hp|Hp]; [by left|]. right. cbn [world set_world]. by rewrite Hw.
Qed.

Lemma global_ready_rep {q} {PS : PrfSpec q} g a (s : process W) :
  global_ready (q := q) global_addr g a s -> exists st, rep (p := q) st a.
Proof. intros [_ [[Hr _ _] _]]. by exists (ottery_global_state_ g). Qed.
End Main.

(** ** The properties *)

(** C23: what dump_bytes feeds to a statistical test. Without arguments it prints
    its usage and returns 1. Given options other than -G, the first that is bad ends it
    with nothing written: with its usage and 0 for -h or -?, with 1 for -T, and with 1
    for a strategy that is not in [strategy_names]: the names of those that take no
    argument, and such beginnings of these as no earlier name of the program's table
    has; so an option that gives its strategy an argument is always refused. If
    none is bad, it initializes its own state as -i asks, and returns 1 exactly when
    that fails. Then it draws, not from that state, but from the global one, which its
    first draw initializes as if there were no configuration: if that fails, it aborts.
    Else it goes on for ever: on any machine whose [write] leaves the process id alone,
    and however its uninitialized buffer was filled, after any number of turns it has
    written exactly what the last strategy named, or 8192 random bytes at a time if
    none was, reads from the stream of the default PRF's generator constructed from
    fresh entropy, never outside its buffer, and at least 8192 bytes a turn; it can
    only wait for draws with the two strategies that reject some. *)
Theorem dump_bytes_stream {W : Type} {OS0 : OS W} {BC : BuildConfig} {PL : Platform} {OL : OSLaws OS0}
    {UN : Uninit} state_addr global_addr fuel turns argc opts (s : process W) :
  (forall bs w, os_getpid (snd (os_write 1 bs w)) = os_getpid w) -> ottery_fatal_handler s = None ->
  (0 < fuel)%nat -> (0 < turns)%nat -> existsb is_G opts = false ->
  let m := dump_main state_addr global_addr fuel turns argc opts s in
  if argc =? 1 then m = Ret (mk_run usage [] (Some 1), s)
  else match first_bad opts with
  | Some r => m = Ret (r, s) /\ is_Some (run_exit r) /\ run_written r = []
  | None =>
      exists err st s1,
        ottery_st_init state_addr zero_state (Some (forced_config s ottery_config_init opts)) s = Ret (err, st, s1) /\
        if negb (err =? 0) then m = Ret (mk_run "" [] (Some 1), s1)
        else exists err' g s2,
          ottery_init global_addr initial_global None s1 = Ret (err', g, s2) /\
          if negb (err' =? 0) then m = Aborted
          else exists q (PS : PrfSpec q) er used,
            resolve_prf None s1 = Some q /\
            entropy_success (Some (cfg_entropy ottery_config_init)) 0 (state_bytes q)
              (ottery_get_entropy_bufsize_ (state_bytes q)) er used /\
            let '(f, param) := strategy_of opts in
            match spec_dump q fuel param turns f
                    (construct (state_bytes q) (output_len q) (prf_out q) (seed_bytes er)) with
            | Some out => Z.of_nat turns * DUMP_MAX_OUTPUT_LEN <= zlen out <= Z.of_nat turns * BUF_LEN /\
                exists s', m = Ret (mk_run "" out None, s')
            | None => m = NoFuel /\ In f [gen_randnum_bytes; range16]
            end
  end.
Proof.
  intros Hw Hh Hf Ht HG m. pose proof (dump_main_ok state_addr global_addr fuel turns argc opts s) as H.
  pose proof (strategy_of_ok opts) as Hc. destruct (strategy_of opts) as [f param]. cbv zeta in H. fold m in H.
  destruct (argc =? 1); [done|]. destruct (first_bad opts) as [r|] eqn:Er; [split; [done|by apply (first_bad_exits opts)]|].
  rewrite HG in H. destruct H as (err & st & s1 & E & Hsp & Em). exists err, st, s1. split; [done|].
  destruct (negb (err =? 0)); [done|].
  destruct (CHECK_INIT_outcome global_addr initial_global s1 eq_refl) as (err' & g & s2 & Ei & Hsp2 & Ec).
  exists err', g, s2. split; [done|]. destruct Hc as [Hp Hc].
  destruct (CHECK_INIT_first global_addr initial_global s1 eq_refl) as
    [(st' & s2' & q & PS & PZ & er & used & E' & _ & Hq & Hok & Hr)|(err2 & st' & s2' & He & _ & _ & Ei' & _)].
  - rewrite E' in Ec. destruct (negb (err' =? 0)).
    { unfold fatal_then in Ec. by rewrite (sp_handler _ _ Hsp2), (sp_handler _ _ Hsp), Hh in Ec. }
    exists q, PS, er, used. split; [done|]. split; [done|].
    rewrite Em, (loop_goes_on (global_ops global_addr) initial_global (mk_global true st') s1 (Some s2'));
      [|by apply global_same_calls|done..].
    pose proof (loop_ok (global_ops global_addr) (global_ready (q := q) global_addr)
      (global_contracts global_addr) (global_ready_rep global_addr) fuel param (global_ready_world global_addr) Hw f Hp
      turns (mk_global true st') _ s2' (conj eq_refl Hr)) as H.
    destruct (spec_dump _ _ _ _ _ _); [done|]. destruct H as [H (a & Ha)]. split; [done|].
    by apply (chunk_none q fuel param f a).
  - unfold ottery_init in Ei. rewrite (bind_Ret _ _ _ _ _ Ei') in Ei. injection Ei as <- <- <-.
    rewrite (proj2 (Z.eqb_neq err2 0) He) in Ec |- *. cbn [negb] in Ec |- *.
    rewrite Em. apply (loop_goes_on (global_ops global_addr) initial_global initial_global s1 None); try done.
    apply global_same_calls_abort. rewrite Ec. unfold fatal_then.
    by rewrite (sp_handler _ _ Hsp2), (sp_handler _ _ Hsp), Hh.
Qed.

(** A concrete machine for the witnesses. Asked for an implementation nobody knows
    and for two strategies, one cut short, it follows the second; an argument is
    refused. *)
Definition err_of {W G} (o : outcome (Z * G * process W)) : option (Z * process W) :=
  match o with Ret (err, _, s) => Some (err, s) | _ => None end.

Definition some_opts : list (ascii * string) :=
  [("i"%char, "rc4"%string); ("s"%char, "u32_o"%string); ("s"%char, "u6"%string)].

Lemma dump_bytes_stream_witness :
  (exists q (PS : PrfSpec q) a out s',
    spec_dump q 1 0 3 gen_u64 a = Some out /\ 3 * DUMP_MAX_OUTPUT_LEN <= zlen out /\
    dump_main (BC := default_build) 4096 8192 1 3 7 some_opts proc0 =
      Ret (mk_run "" out None, s')) /\
  dump_main (BC := default_build) 4096 8192 1 3 3 [("s"%char, "rand_bytes:64"%string)] proc0 =
    Ret (mk_run "" [] (Some 1), proc0).
Proof.
  split.
  - pose proof (dump_bytes_stream (BC := default_build) 4096 8192 1 3 7
      some_opts proc0 ltac:(done) eq_refl ltac:(lia) ltac:(lia) eq_refl) as H.
    cbv zeta in H. remember (dump_main _ _ _ _ _ _ _) as m eqn:Em. clear Em.
    change (strategy_of _) with (gen_u64, 0) in H.
    cbn [Z.eqb Pos.eqb first_bad bad_option fst snd named_strategy] in H.
    destruct H as (err & st & s1 & E & H). apply (f_equal err_of) in E. vm_compute in E. injection E as <- <-. cbn [Z.eqb negb] in H.
    destruct H as (err' & g & s2 & E & H). apply (f_equal err_of) in E. vm_compute in E. injection E as <- <-. cbn [Z.eqb negb] in H.
    destruct H as (q & PS & er & used & _ & _ & H). exists q, PS. eexists.
    destruct (spec_dump q 1 0 3 gen_u64 _) as [out|] eqn:Eo; [|destruct H as [_ H]; cbn in H; by destruct_or?].
    destruct H as (Hl & s' & ->). exists out, s'. split; [exact Eo|]. split; [lia|done].
  - exact (proj1 (dump_bytes_stream (BC := default_build) 4096 8192 1 3 3
      [("s"%char, "rand_bytes:64"%string)] proc0 ltac:(done) eq_refl ltac:(lia) ltac:(lia) eq_refl)).
Defined.

(** C40: the option -G of dump_bytes does not work: the wrappers use the program's
    own state exactly when -G has initialized the other one. Where the build keeps
    the check on uninitialized states, such a run ends without writing, or aborts. *)
Theorem dump_bytes_global_aborts {W : Type} {OS0 : OS W} {BC : BuildConfig} {PL : Platform}
    {OL : OSLaws OS0} {UN : Uninit} state_addr global_addr fuel turns argc opts (s : process W) :
  OTTERY_NO_INIT_CHECK = false -> Z.land state_addr 0xf = 0 -> ottery_fatal_handler s = None ->
  (0 < fuel)%nat -> (0 < turns)%nat -> existsb is_G opts = true ->
  let m := dump_main state_addr global_addr fuel turns argc opts s in
  (exists r s', m = Ret (r, s') /\ is_Some (run_exit r) /\ run_written r = []) \/ m = Aborted.
Proof.
  intros Hb Ha Hh Hf Ht HG m. unfold m.
  pose proof (dump_main_ok state_addr global_addr fuel turns argc opts s) as H.
  pose proof (strategy_of_ok opts) as Hc. destruct (strategy_of opts) as [f param]. destruct Hc as [Hp _]. cbv zeta in H.
  destruct (argc =? 1).
  { left. do 2 eexists. split; [exact H|]. by split; [eexists|]. }
  destruct (first_bad opts) as [r|] eqn:Er.
  { left. exists r, s. split; [exact H|]. by apply (first_bad_exits opts). }
  rewrite HG in H. destruct H as (err & g & s1 & _ & Hsp & ->). destruct (negb (err =? 0)).
  { left. do 2 eexists. split; [reflexivity|]. by split; [eexists|]. }
  right. apply (loop_goes_on (st_ops state_addr) zero_state zero_state s1 None); try done.
  apply blank_same_calls; [done| |by rewrite (sp_handler _ _ Hsp)].
  intros E. symmetry in E. by apply MAGIC_nonzero in E.
Qed.

Lemma dump_bytes_global_aborts_witness :
  let m := dump_main (BC := default_build) 4096 8192 1 1 2 [("G"%char, ""%string)] proc0 in
  (exists r s', m = Ret (r, s') /\ is_Some (run_exit r) /\ run_written r = []) \/ m = Aborted.
Proof.
  apply (dump_bytes_global_aborts (BC := default_build) 4096 8192 1 1 2 [("G"%char, ""%string)] proc0);
    try done; lia.
Defined.
