(* ===== verification/Configure.v ===== *)
(** * Configuring a generator

    The configuration functions of src/ottery_common.h as a client calls them:
    any sequence of calls on an [ottery_config] after [ottery_config_init], and
    then the initialization of a generator with it, through any of the three
    headers. What a sequence of calls leaves is the last setting of each kind;
    what the comments of the header say of disabled and weak sources holds of the
    seed the generator is then made from. *)
From S2P Require Import Prelude Words Memory Internal Spec Prng Refine TestPrf Session.
From S2P Require Import ChaChaRef ChaChaMerged ChaChaKrovetz Os CpuInfo Entropy TestOs Config Api ApiRefine ApiProps.
From S2P Require Import Global GlobalProps Public.
Local Open Scope Z_scope.
Local Open Scope ottery_scope.

(** A call of the public configuration functions. *)
Inductive config_call :=
  | ForceImplementation (name : string)
  | SetUrandomDevice (fname : option string)
  | SetUrandomFd (fd : Z)
  | SetEgdSocket (addr : option sockaddr) (len : Z)
  | DisableEntropySources (mask : Z)
  | MarkEntropySourcesWeak (mask : Z).

Section Configure.
Context {W : Type} {OS0 : OS W} {PL : Platform}.

(** The functions without a result return 0 here. *)
Definition config_do (c : config_call) (cfg : ottery_config) : M W (Z * ottery_config) :=
  match c with
  | ForceImplementation n => ottery_config_force_implementation cfg (Some n)
  | SetUrandomDevice fname => ret (0, ottery_config_set_urandom_device cfg fname)
  | SetUrandomFd fd => ret (0, ottery_config_set_urandom_fd cfg fd)
  | SetEgdSocket addr len => ret (0, ottery_config_set_egd_socket cfg addr len)
  | DisableEntropySources mask => ret (0, ottery_config_disable_entropy_sources cfg mask)
  | MarkEntropySourcesWeak mask => ret (0, ottery_config_mark_entropy_sources_weak cfg mask)
  end.

Fixpoint configure (calls : list config_call) (cfg : ottery_config) : M W (list Z * ottery_config) :=
  match calls with
  | [] => ret ([], cfg)
  | c :: calls =>
      do '(err, cfg) <- config_do c cfg;
      do '(errs, cfg) <- configure calls cfg;
      ret (err :: errs, cfg)
  end.

(** ** What a sequence of calls settles *)

(** The PRF of the table a name stands for, with the capabilities in force. *)
Definition named_prf (s : process W) (n : string) : option ottery_prf :=
  get_impl_loop (Some n) (Z.ldiff (cpu_capabilities (world s)) (disabled_cpu_capabilities s)) ALL_PRFS.

Definition chosen (s : process W) (c : config_call) : option ottery_prf :=
  if c is ForceImplementation n then named_prf s n else None.

Definition urandom_device_of (c : config_call) : option (option string) :=
  if c is SetUrandomDevice fname then Some fname else None.

Definition urandom_fd_of (c : config_call) : option Z :=
  if c is SetUrandomFd fd then Some fd else None.

Definition egd_of (c : config_call) : option (option sockaddr * Z) :=
  if c is SetEgdSocket addr len then Some (addr, len) else None.

Definition disabled_of (c : config_call) : option Z :=
  if c is DisableEntropySources mask then Some mask else None.

Definition weak_of (c : config_call) : option Z :=
  if c is MarkEntropySourcesWeak mask then Some mask else None.

(** The last setting of a kind, if any call made one. *)
Definition last_set {A} (f : config_call -> option A) (calls : list config_call) : option A :=
  last (omap f calls).

Definition settled (s : process W) (calls : list config_call) : ottery_config :=
  let fd := default (-1) (last_set urandom_fd_of calls) in
  let egd := default (None, 0) (last_set egd_of calls) in
  let mask f := Z.land (default 0 (last_set f calls)) OTTERY_ENTROPY_ALL_SOURCES in
  mk_config (last_set (chosen s) calls)
    (mk_entropy_config (default None (last_set urandom_device_of calls)) fd (0 <=? fd)
       (fst egd) (snd egd) (mask disabled_of) (mask weak_of) false).

(** The code a call returns. *)
Definition config_code (s : process W) (c : config_call) : Z :=
  match c with
  | ForceImplementation n => if named_prf s n is Some _ then 0 else OTTERY_ERR_INVALID_ARGUMENT
  | _ => 0
  end.

Lemma last_set_snoc {A} (f : config_call -> option A) calls c :
  last_set f (calls ++ [c]) = match f c with Some x => Some x | None => last_set f calls end.
Proof.
  unfold last_set. rewrite omap_app. cbn. destruct (f c); [by rewrite last_snoc|by rewrite app_nil_r].
Qed.

Lemma config_do_settled c calls (s : process W) :
  config_do c (settled s calls) s = Ret (config_code s c, settled s (calls ++ [c]), s).
Proof.
  unfold settled at 2. rewrite !last_set_snoc. destruct c as [n| | | | |]; try reflexivity.
  cbn [config_do config_code chosen]. unfold ottery_config_force_implementation, ottery_get_impl,
    ottery_get_cpu_capabilities_. rewrite bind_assoc, bind_gets, bind_ret. fold (named_prf s n).
  by destruct (named_prf s n).
Qed.

Lemma configure_from done calls (s : process W) :
  configure calls (settled s done) s =
    Ret (config_code s <$> calls, settled s (done ++ calls), s).
Proof.
  revert done. induction calls as [|c calls IH]; intros done; cbn [configure].
  { by rewrite app_nil_r. }
  rewrite (bind_Ret _ _ _ _ _ (config_do_settled c done s)).
  rewrite (bind_Ret _ _ _ _ _ (IH (done ++ [c]))). by rewrite <- app_assoc.
Qed.

(** Every name stands for a good PRF or none. *)
Lemma settled_good calls (s : process W) : config_good (Some (settled s calls)).
Proof.
  unfold config_good, settled. cbn [default cfg_impl id from_option].
  induction calls as [|c calls IH] using rev_ind; [done|]. rewrite last_set_snoc.
  destruct c as [n| | | | |]; try exact IH. cbn [chosen].
  destruct (named_prf s n) as [q|] eqn:E; [|exact IH].
  apply get_impl_loop_in in E as (Hin & _ & _).
  pose proof ALL_PRFS_ok as H. rewrite Forall_forall in H. by apply H, list_elem_of_In.
Qed.
End Configure.

(** ** The properties *)

#[local] Existing Instance default_build.

(** A source that counts as strong is strong and not marked weak. *)
Lemma effective_strong {W : Type} {OS0 : OS W} c (src : ottery_randbytes_source W) :
  Z.land (effective_flags (Some c) src) OTTERY_ENTROPY_FL_STRONG <> 0 ->
  Z.land (flags src) OTTERY_ENTROPY_FL_STRONG <> 0 /\ Z.land (flags src) (weak_sources c) = 0.
Proof.
  unfold effective_flags. destruct (Z.eqb_spec (Z.land (flags src) (weak_sources c)) 0); [done|].
  cbn [negb]. intros []. apply Z.bits_inj'. intros i _.
  rewrite Z.land_spec, Z.ldiff_spec, Z.bits_0. by destruct (Z.testbit _ _), (Z.testbit _ _).
Qed.

(** C10: from configuration calls to a generator, through any header: whatever
    sequence of public configuration calls is made after ottery_config_init, each
    returns the code its name and arguments call for, and what they leave is, field
    by field, the last setting of each kind (device name, device descriptor, EGD
    address, disabled and weak sources, and the last name that stood for a PRF), or
    its default. Initialization with it either fails with a code that is not fatal
    or leaves a generator with the PRF chosen last, made from a seed to which only
    the configured devices and addresses and no disabled source contributed, and at
    least one strong source not marked weak did. *)
Theorem configured_generator {W : Type} {OS0 : OS W} {BC : BuildConfig} {PL : Platform}
    {OL : OSLaws OS0} h addr (g : carrier h) calls (s : process W) :
  let mask f := Z.land (default 0 (last_set f calls)) OTTERY_ENTROPY_ALL_SOURCES in
  let fd := default (-1) (last_set urandom_fd_of calls) in
  let '(egd_addr, egd_len) := default (None, 0) (last_set egd_of calls) in
  let cfg := mk_config (last_set (chosen s) calls)
    (mk_entropy_config (default None (last_set urandom_device_of calls)) fd (0 <=? fd) egd_addr egd_len
       (mask disabled_of) (mask weak_of) false) in
  configure calls ottery_config_init s = Ret (config_code s <$> calls, cfg, s) /\
  exists err g1 s1, op_init (header_ops addr h) g (Some cfg) s = Ret (err, g1, s1) /\
    ((err <> 0 /\ OTTERY_ERR_IS_FATAL err = false) \/
     (err = 0 /\ exists q (PS : PrfSpec q) er used chunks,
        from_option (eq q) (resolve_prf None s = Some q) (last_set (chosen s) calls) /\
        used `sublist_of` RAND_SOURCES /\
        Forall (fun src => Z.land (flags src) (mask disabled_of) = 0) used /\
        Exists (fun src => Z.land (flags src) OTTERY_ENTROPY_FL_STRONG <> 0 /\
                           Z.land (flags src) (mask weak_of) = 0) used /\
        Forall2 (yielded (Some (cfg_entropy cfg)) (state_bytes q)) used chunks /\
        seed_bytes er = mjoin chunks /\
        serves (ops := header_ops addr h) q g1
          (construct (state_bytes q) (output_len q) (prf_out q) (seed_bytes er)) s1)).
Proof.
  intros mask fd. destruct (default (None, 0) (last_set egd_of calls)) as [egd_addr egd_len] eqn:Eegd. intros cfg.
  assert (cfg = settled s calls) as -> by (unfold cfg, settled; by rewrite Eegd).
  split; [exact (configure_from [] calls s)|].
  destruct (law_init (ops := header_ops addr h) g _ s (settled_good calls s))
    as (err & g1 & s1 & E & H).
  exists err, g1, s1. split; [exact E|]. destruct H as [(-> & q & PS & PZ & er & used & Hq & Hok & Hs)|H];
    [right|by left].
  destruct Hok as [_ Hu Ha _ _ _ _ Hst (chunks & Hy & Hb)].
  split; [done|]. exists q, PS, er, used, chunks. split; [|split; [done|]; split; [|split; [|done]]].
  - unfold resolve_prf, settled in Hq. cbn [default cfg_impl id from_option] in Hq.
    by destruct (last_set (chosen s) calls); [injection Hq|].
  - eapply Forall_impl; [exact Ha|]. by intros src [Hd _].
  - eapply Exists_impl; [exact Hst|]. intros src Hsrc. by apply effective_strong in Hsrc.
Qed.

(** Two PRF names, the second a mistake; the CPU's generator disabled; a device, a
    descriptor and an EGD address. *)
Definition sample_calls : list config_call :=
  [ForceImplementation "CHACHA8"; MarkEntropySourcesWeak OTTERY_ENTROPY_SRC_RDRAND;
   ForceImplementation "CHACHA-9"; DisableEntropySources OTTERY_ENTROPY_SRC_RDRAND;
   SetUrandomDevice (Some "/dev/random"); SetUrandomFd 5; SetEgdSocket (Some (mk_sockaddr 1 [])) 2].

Lemma configured_generator_witness :
  let e := mk_entropy_config (Some "/dev/random"%string) 5 true (Some (mk_sockaddr 1 [])) 2
    OTTERY_ENTROPY_SRC_RDRAND OTTERY_ENTROPY_SRC_RDRAND false in
  configure sample_calls ottery_config_init proc0 =
    Ret ([0; 0; OTTERY_ERR_INVALID_ARGUMENT; 0; 0; 0; 0], mk_config (named_prf proc0 "CHACHA8") e, proc0) /\
  exists err g1 s1,
    op_init (header_ops 4096 OTTERY_ST_H) zero_state (Some (mk_config (named_prf proc0 "CHACHA8") e)) proc0 =
      Ret (err, g1, s1) /\
    ((err <> 0 /\ OTTERY_ERR_IS_FATAL err = false) \/
     (err = 0 /\ exists q (PS : PrfSpec q) er used chunks,
        from_option (eq q) (resolve_prf None proc0 = Some q) (last_set (chosen proc0) sample_calls) /\
        used `sublist_of` RAND_SOURCES /\
        Forall (fun src => Z.land (flags src) OTTERY_ENTROPY_SRC_RDRAND = 0) used /\
        Exists (fun src => Z.land (flags src) OTTERY_ENTROPY_FL_STRONG <> 0 /\
                           Z.land (flags src) OTTERY_ENTROPY_SRC_RDRAND = 0) used /\
        Forall2 (yielded (Some e) (state_bytes q)) used chunks /\
        seed_bytes er = mjoin chunks /\
        serves (ops := header_ops 4096 OTTERY_ST_H) q g1
          (construct (state_bytes q) (output_len q) (prf_out q) (seed_bytes er)) s1)).
Proof. exact (configured_generator OTTERY_ST_H 4096 zero_state sample_calls proc0). Defined.
