(* ===== verification/Threads.v ===== *)
(** * Threads sharing one state

    Several threads of one process call the locking functions of src/ottery.c on
    the same [struct ottery_state]. Each function is cut into the steps between
    which another thread may run: the check of the magic number, taking the
    lock, the calls made while it is held, releasing it. A schedule, a list of
    thread numbers, interleaves them. Whatever the schedule, at most one thread
    is between its lock and its unlock, the replies are those of the same calls
    made one after the other, and every thread gets all its replies. *)
From S2P Require Import Prelude Words Memory Internal Spec Prng Refine TestPrf Session.
From S2P Require Import ChaChaRef ChaChaMerged ChaChaKrovetz Os CpuInfo Entropy TestOs Config Api ApiRefine ApiProps.
From S2P Require Import Safety Global GlobalProps Public.
Local Open Scope Z_scope.
Local Open Scope ottery_scope.

(** ** Calls cut into steps *)

(** What a function does while it holds the lock: a sequence of steps, each on
    the state and the process, the next chosen by the result of the last. *)
Inductive crit (W A : Type) :=
  | Leave (a : A)
  | Do {B : Type} (m : ottery_state -> M W (B * ottery_state)) (k : B -> crit W A).
Arguments Leave {W A} a.
Arguments Do {W A B} m k.

Section Calls.
Context {W : Type} {OS0 : OS W} {BC : BuildConfig} {PL : Platform}.
Context (addr : Z).

(** Before the lock: the magic number. *)
Definition entry (c : query) (st : ottery_state) : M W bool :=
  match c with
  | QPreventBacktracking => ret true
  | _ => ottery_st_rand_check_init addr st
  end.

(** The reply when that check fails. *)
Definition refused (c : query) : reply :=
  match c with
  | QBytes out _ _ => RBuffer out
  | QAddSeed _ _ => RInt OTTERY_ERR_STATE_INIT
  | QPreventBacktracking => RVoid
  | _ => RInt 0
  end.

(** The fork check, then an operation of the core. *)
Definition checked_section {B} (failed : reply) (m : ottery_state -> M W (B * ottery_state))
    (k : B -> crit W reply) : crit W reply :=
  Do (ottery_st_rand_check_pid addr) (fun ok : bool => if ok then Do m k else Leave failed).

Definition int_section (size : Z) : crit W reply :=
  checked_section (RInt 0) (fun st => lift (OTTERY_RETURN_RAND_INTTYPE_IMPL size st))
    (fun v => Leave (RInt v)).

(** The loop of the range functions: each turn makes the checks of a lock-free
    draw, then draws. *)
Fixpoint range_section (fuel : nat) (size divisor upper : Z) : crit W reply :=
  match fuel with
  | O => Do (fun _ _ => NoFuel) (fun r => Leave r)
  | S fuel =>
      let next r :=
        if upper <? r / divisor then range_section fuel size divisor upper
        else Leave (RInt (r / divisor)) in
      Do (ottery_st_rand_check_nolock addr) (fun ok : bool =>
        if ok then Do (fun st => lift (OTTERY_RETURN_RAND_INTTYPE_IMPL size st)) next
        else next 0)
  end.

(** Between the lock and the unlock. *)
Definition locked_section (c : query) : crit W reply :=
  match c with
  | QBytes out off n =>
      checked_section (RBuffer out)
        (fun st => do '(st, out) <- lift (ottery_st_rand_bytes_impl st out off n); ret (out, st))
        (fun out => Leave (RBuffer out))
  | QUnsigned | QUint32 => int_section 4
  | QUint64 => int_section 8
  | QRange fuel upper => range_section fuel 4 (range_divisor 4 upper) upper
  | QRange64 fuel upper => range_section fuel 8 (range_divisor 8 upper) upper
  | QAddSeed seed n =>
      Do (fun st => do st <- lift (mix_seed st seed n); ret (tt, st)) (fun _ =>
      Do (fun st => ret (tt, set_last_entropy_flags 0
            (set_entropy_src_flags (Z.lor (st_entropy_src_flags st) 0) st))) (fun _ =>
      Leave (RInt 0)))
  | QPreventBacktracking =>
      Do (fun st => do st <- lift (ottery_st_prevent_backtracking_nolock st); ret (tt, st))
        (fun _ => Leave RVoid)
  end.

(** The steps run without interruption. *)
Fixpoint run_crit {A} (k : crit W A) (st : ottery_state) : M W (A * ottery_state) :=
  match k with
  | Leave a => ret (a, st)
  | Do m k => do '(b, st) <- m st; run_crit (k b) st
  end.

(** ** Threads and schedules *)

Inductive pc :=
  | Between
  | Entered (c : query)
  | Inside (c : query) (k : crit W reply).

(** The calls a thread has still to make, the replies it got, where it is. *)
Record thread := mk_thread { pending : list query; replies : list reply; at_pc : pc }.

Record system := mk_system {
  threads : list thread;
  shared : ottery_state;
  proc : process W }.

(** A completed call: thread, call, reply. *)
Record event := mk_event { ev_thread : nat; ev_call : query; ev_reply : reply }.

(** A thread at [LOCK] waits while another holds the lock. *)
Definition waits (st : ottery_state) : bool :=
  match lock_impl, st_mutex st with
  | NO_LOCKS, _ => false
  | _, LockHeld => true
  | _, _ => false
  end.

(** One step of thread [i], and the call it completed, if any; [None] when the
    thread cannot move. *)
Definition turn (i : nat) (sys : system) : option (outcome (option event * system)) :=
  let goto t st s := mk_system (<[i := t]> (threads sys)) st s in
  t ← threads sys !! i;
  let st := shared sys in
  match at_pc t with
  | Between =>
      match pending t with
      | [] => None
      | c :: rest => Some
          match entry c st (proc sys) with
          | Ret (true, s) => Ret (None, goto (mk_thread rest (replies t) (Entered c)) st s)
          | Ret (false, s) =>
              Ret (Some (mk_event i c (refused c)),
                   goto (mk_thread rest (replies t ++ [refused c]) Between) st s)
          | Aborted => Aborted | Undefined => Undefined | NoFuel => NoFuel
          end
      end
  | Entered c =>
      if waits st then None else Some
        match LOCK st (proc sys) with
        | Ret (st, s) =>
            Ret (None, goto (mk_thread (pending t) (replies t) (Inside c (locked_section c))) st s)
        | Aborted => Aborted | Undefined => Undefined | NoFuel => NoFuel
        end
  | Inside c (Do m k) => Some
      match m st (proc sys) with
      | Ret (b, st, s) => Ret (None, goto (mk_thread (pending t) (replies t) (Inside c (k b))) st s)
      | Aborted => Aborted | Undefined => Undefined | NoFuel => NoFuel
      end
  | Inside c (Leave r) => Some
      match UNLOCK st (proc sys) with
      | Ret (st, s) =>
          Ret (Some (mk_event i c r), goto (mk_thread (pending t) (replies t ++ [r]) Between) st s)
      | Aborted => Aborted | Undefined => Undefined | NoFuel => NoFuel
      end
  end.

(** The threads named by [sched] take a step each, in that order: the calls
    completed on the way, in order, and the system reached. *)
Fixpoint run (sched : list nat) (sys : system) : option (list event * system) :=
  match sched with
  | [] => Some ([], sys)
  | i :: sched =>
      match turn i sys with
      | Some (Ret (ev, sys')) =>
          '(log, sys'') ← run sched sys'; Some (match ev with Some e => e :: log | None => log end, sys'')
      | _ => None
      end
  end.

(** Threads that have made no call yet. *)
Definition start (calls : list (list query)) : list thread :=
  (fun cs => mk_thread cs [] Between) <$> calls.

Definition inside (t : thread) : bool :=
  match at_pc t with Inside _ _ => true | _ => false end.

Definition finished (t : thread) : bool :=
  match pending t, at_pc t with [], Between => true | _, _ => false end.

End Calls.

(** ** The steps of a call make up the call *)

Section Phases.
Context {W : Type} {OS0 : OS W} {BC : BuildConfig} {PL : Platform}.
Context (addr : Z).

Lemma bind_ext {A B} (m : M W A) (f g : A -> M W B) s :
  (forall a s', f a s' = g a s') -> bind m f s = bind m g s.
Proof. intros H. unfold bind. destruct (m s) as [[a s']| | |]; [apply H|done..]. Qed.

Lemma bind_ret_r {A} (m : M W A) s : bind m ret s = m s.
Proof. unfold bind, ret. by destruct (m s) as [[]| | |]. Qed.

Lemma bind_congr {A B} (m m' : M W A) (f : A -> M W B) s :
  m s = m' s -> bind m f s = bind m' f s.
Proof. intros H. unfold bind. by rewrite H. Qed.

Lemma checked_section_run {B} failed (m : ottery_state -> M W (B * ottery_state)) (f : B -> reply)
    st (s : process W) :
  run_crit (checked_section addr failed m (fun b => Leave (f b))) st s =
  (do '(ok, st) <- ottery_st_rand_check_pid addr st;
   if negb ok then ret (failed, st) else do '(b, st) <- m st; ret (f b, st)) s.
Proof. cbn [checked_section run_crit]. apply bind_ext. by intros [[] st1] s1. Qed.

Lemma range_section_run fuel size divisor upper st (s : process W) :
  run_crit (range_section addr fuel size divisor upper) st s =
  (do '(v, st) <- rand_range_loop fuel addr st size divisor upper; ret (RInt v, st)) s.
Proof.
  revert st s. induction fuel as [|fuel IH]; intros st s; [done|].
  cbn [range_section run_crit rand_range_loop]. unfold OTTERY_RETURN_RAND_INTTYPE_NOLOCK.
  rewrite !bind_assoc. apply bind_ext. intros [ok st1] s1.
  assert (forall r st s, run_crit (if upper <? r / divisor
      then range_section addr fuel size divisor upper else Leave (RInt (r / divisor))) st s =
    (do '(v, st) <- (if upper <? r / divisor then rand_range_loop fuel addr st size divisor upper
                     else ret (r / divisor, st)); ret (RInt v, st)) s) as Hnext.
  { intros r st2 s2. destruct (upper <? _); [apply IH|done]. }
  destruct ok; cbn [negb run_crit].
  - apply bind_ext. intros [r st2] s2. apply Hnext.
  - rewrite bind_ret. apply Hnext.
Qed.

(** A call that starts by checking, as a bind. *)
Lemma add_seed_phases st seed n (s : process W) :
  0 < n ->
  ottery_st_add_seed addr st (Some seed) n s =
  (do ok <- ottery_st_rand_check_init addr st;
   if negb ok then ret (OTTERY_ERR_STATE_INIT, st) else add_seed_locked true st seed n 0) s.
Proof.
  intros Hn. unfold ottery_st_add_seed, ottery_st_add_seed_impl, add_seed_frame,
    ottery_st_rand_check_init.
  cbn [andb]. destruct (negb OTTERY_NO_INIT_CHECK && _); rewrite !bind_assoc.
  - by apply bind_ext.
  - unfold add_seed_input. rewrite (proj2 (Z.eqb_neq n 0)), bind_ret by lia.
    rewrite bind_ret. cbn [negb]. rewrite bind_assoc. etransitivity; [|apply bind_ret_r].
    apply bind_ext. by intros [e st1] s1.
Qed.

(** The functions that check, lock, check again, and run one core operation. *)
Lemma locked_phases {B} st (failed : B) (core : ottery_state -> M W (B * ottery_state))
    (f : B -> reply) (s : process W) :
  (do '(b, st) <-
     (do '(ok, st) <- ottery_st_rand_lock_and_check addr st;
      if negb ok then ret (failed, st)
      else do '(b, st) <- core st; do st <- UNLOCK st; ret (b, st));
   ret (f b, st)) s =
  (do ok <- ottery_st_rand_check_init addr st;
   if negb ok then ret (f failed, st)
   else
     do st <- LOCK st;
     do '(r, st) <- run_crit (checked_section addr (f failed) core (fun b => Leave (f b))) st;
     do st <- UNLOCK st;
     ret (r, st)) s.
Proof.
  unfold ottery_st_rand_lock_and_check. rewrite !bind_assoc.
  apply bind_ext. intros [] s1; cbn [negb]; [|done]. rewrite !bind_assoc.
  apply bind_ext. intros st1 s2. rewrite !bind_assoc.
  etransitivity; [|symmetry; apply bind_congr, checked_section_run]. rewrite !bind_assoc.
  apply bind_ext. intros [[] st2] s3; cbv beta iota delta [negb]; rewrite ?bind_ret, ?bind_assoc.
  - apply bind_ext. intros [b st3] s4. rewrite ?bind_assoc, bind_ret.
    apply bind_ext. intros st4 s5. done.
  - apply bind_ext. by intros st3 s4.
Qed.

Lemma range_phases fuel st size divisor upper (s : process W) :
  (do '(v, st) <-
     (do ok <- ottery_st_rand_check_init addr st;
      if negb ok then ret (0, st)
      else
        do st <- LOCK st;
        do '(n, st) <- rand_range_loop fuel addr st size divisor upper;
        do st <- UNLOCK st;
        ret (n, st));
   ret (RInt v, st)) s =
  (do ok <- ottery_st_rand_check_init addr st;
   if negb ok then ret (RInt 0, st)
   else
     do st <- LOCK st;
     do '(r, st) <- run_crit (range_section addr fuel size divisor upper) st;
     do st <- UNLOCK st;
     ret (r, st)) s.
Proof.
  rewrite bind_assoc. apply bind_ext. intros [] s1; cbn [negb]; [|done]. rewrite bind_assoc.
  apply bind_ext. intros st1 s2. rewrite bind_assoc.
  etransitivity; [|symmetry; apply bind_congr, range_section_run]. rewrite bind_assoc.
  apply bind_ext. intros [n st2] s3. rewrite bind_assoc, bind_ret.
  apply bind_ext. by intros st3 s4.
Qed.

(** What the steps of a call are cut from. *)
Lemma ask_phases c st (s : process W) :
  qvalid c ->
  ask (st_ops addr) c st s =
  (do ok <- entry addr c st;
   if negb ok then ret (refused c, st)
   else
     do st <- LOCK st;
     do '(r, st) <- run_crit (locked_section addr c) st;
     do st <- UNLOCK st;
     ret (r, st)) s.
Proof.
  intros Hv. destruct c as [out off n| | | |fuel upper|fuel upper|seed n|].
  - etransitivity; [|apply (locked_phases st out (fun st =>
      do '(st, out) <- lift (ottery_st_rand_bytes_impl st out off n); ret (out, st)) RBuffer s)].
    cbn [ask st_ops op_rand_bytes op_add_seed op_prevent_backtracking]. unfold ottery_st_rand_bytes.
    rewrite !bind_assoc. apply bind_ext. intros [[] st1] s1; cbn [negb]; [|done].
    rewrite !bind_assoc. apply bind_ext. intros [st2 out2] s2. rewrite bind_assoc, bind_ret.
    rewrite bind_assoc. apply bind_ext. by intros st3 s3.
  - apply (locked_phases st 0 _ RInt s).
  - apply (locked_phases st 0 _ RInt s).
  - apply (locked_phases st 0 _ RInt s).
  - apply range_phases.
  - apply range_phases.
  - cbn [ask st_ops op_rand_bytes op_add_seed op_prevent_backtracking]. etransitivity; [apply bind_congr, add_seed_phases, Hv|].
    rewrite bind_assoc. apply bind_ext. intros [] s1; cbn [negb]; [|done].
    unfold add_seed_locked. rewrite bind_assoc. apply bind_ext. intros st1 s2.
    cbn [locked_section run_crit]. rewrite !bind_assoc. apply bind_ext. intros st2 s3.
    rewrite !bind_ret, !bind_assoc, !bind_ret. apply bind_ext. by intros st3 s4.
  - cbn [ask st_ops op_prevent_backtracking entry]. rewrite bind_ret. cbn [negb].
    unfold ottery_st_prevent_backtracking. rewrite bind_assoc. apply bind_ext. intros st1 s1.
    cbn [locked_section run_crit]. rewrite !bind_assoc. apply bind_ext. intros st2 s2. done.
Qed.
End Phases.
