(* ===== verification/ThreadsInv.v ===== *)
(** * The lock invariant of threads sharing one state

    At every point of a schedule either the lock is free and the state is where
    replaying the completed calls leads, or exactly one thread is inside and what
    it has left to do ends where its whole call would. Every step keeps this, and
    every step uses up one of a bounded number. *)
From S2P Require Import Prelude Words Memory Internal Spec Prng Refine TestPrf Session.
From S2P Require Import ChaChaRef ChaChaMerged ChaChaKrovetz Os CpuInfo Entropy TestOs Config Api ApiRefine ApiProps.
From S2P Require Import Safety Global GlobalProps Public Threads.
Local Open Scope Z_scope.
Local Open Scope ottery_scope.

(** ** The invariant *)

Section Invariant.
Context {W : Type} {OS0 : OS W} {BC : BuildConfig} {PL : Platform} {OL : OSLaws OS0}.
Context {p : ottery_prf} {PS : PrfSpec p} {PZ : PrfSizes p}.
Context (addr : Z).
Hypothesis Hlocks : lock_impl <> NO_LOCKS.

Abbreviation good l := (live_as p addr l).

(** Every step of [k] is safe on an initialized state whose lock is held. *)
Fixpoint section_ok {A} (div : bool) (k : crit W A) : Prop :=
  match k with
  | Leave _ => True
  | Do m k =>
      (forall st s, good LockHeld st -> safe div (fun r => good LockHeld (snd r)) (m st) s) /\
      (forall b, section_ok div (k b))
  end.

Lemma checked_section_ok {B} div failed (m : ottery_state -> M W (B * ottery_state))
    (k : B -> crit W reply) :
  (forall st s, good LockHeld st -> safe div (fun r => good LockHeld (snd r)) (m st) s) ->
  (forall b, section_ok div (k b)) -> section_ok div (checked_section addr failed m k).
Proof.
  intros Hm Hk. split; [intros; by apply safe_check_pid|]. by intros [].
Qed.

Lemma range_section_ok fuel size divisor upper :
  1 <= size <= 8 -> section_ok true (range_section addr fuel size divisor upper).
Proof.
  intros Hs. induction fuel as [|fuel IH]; cbn [range_section].
  { by split. }
  assert (forall r, section_ok true (if upper <? r / divisor
      then range_section addr fuel size divisor upper else Leave (RInt (r / divisor)))) as Hnext
    by (intros r; by destruct (upper <? _)).
  split; [intros; by apply safe_check_nolock|]. intros []; [|apply Hnext].
  split; [intros; by apply safe_int_core|apply Hnext].
Qed.

Lemma locked_section_ok c : qvalid c -> section_ok (qranges c) (locked_section addr c).
Proof.
  intros Hv. destruct c as [out off n| | | |fuel upper|fuel upper|seed n|];
    cbn [locked_section qranges]; try (apply range_section_ok; lia).
  2-4: apply checked_section_ok; [|done]; intros; apply safe_int_core; [done|lia].
  - destruct Hv as (Ho & Hn & Hout). apply checked_section_ok; [|done]. intros st s Hg.
    eapply safe_bind; [by apply safe_bytes_core|]. intros [st1 out1] s1 Hg1. by apply safe_ret.
  - split; [|intros _; split; [|done]].
    + intros st s Hg. pose proof Hg as ([a Hr] & _ & _).
      destruct (mix_seed_ok st a seed n (rep_keyed _ _ Hr) (rep_ctr _ _ Hr) ltac:(cbn in Hv; lia))
        as (st' & E & Hr' & Hf).
      eapply safe_bind; [eapply (safe_lift _ (good LockHeld)); [exact E|]|].
      * by eapply live_frame.
      * intros st2 s2 Hg2. by apply safe_ret.
    + intros st s ([a Hr] & Hm & Hl). apply safe_ret. split; [exists a; by apply rep_flags|done].
  - split; [|done]. intros st s Hg.
    eapply safe_bind; [by apply prevent_core_safe|]. intros st2 s2 Hg2. by apply safe_ret.
Qed.

Abbreviation log_of := (log_of ev_thread).

Definition current (t : thread (W := W)) : list query :=
  match at_pc t with Between => [] | Entered c | Inside c _ => [c] end.

(** Thread [i], which was to make the calls [cs], agrees with the log. *)
Record thread_ok (cs : list query) (i : nat) (log : list event) (t : thread (W := W)) : Prop :=
  mk_thread_ok {
  to_valid : Forall qvalid cs;
  to_calls : cs = (ev_call <$> log_of i log) ++ current t ++ pending t;
  to_replies : replies t = ev_reply <$> log_of i log;
  to_section : forall c k, at_pc t = Inside c k -> section_ok (qranges c) k;
}.

Definition pool_ok (calls : list (list query)) (log : list event) (ths : list (thread (W := W)))
  : Prop :=
  length ths = length calls /\
  Forall (fun e => (ev_thread e < length ths)%nat) log /\
  forall i t, ths !! i = Some t -> exists cs, calls !! i = Some cs /\ thread_ok cs i log t.

(** The lock is free, and the system is where replaying the log leads; or one
    thread is inside, and what it has left to do leads from here to where its
    whole section leads from there. *)
Inductive lock_inv (ths : list (thread (W := W))) (st : ottery_state) (s : process W)
    (st1 : ottery_state) (s1 : process W) : Prop :=
  | lock_inv_free :
      (forall i t, ths !! i = Some t -> inside t = false) -> st = st1 -> s = s1 ->
      lock_inv ths st s st1 s1
  | lock_inv_held i t c k :
      ths !! i = Some t -> at_pc t = Inside c k ->
      (forall j u, ths !! j = Some u -> inside u = true -> j = i) ->
      good LockHeld st ->
      run_crit (locked_section addr c) (set_mutex LockHeld st1) s1 = run_crit k st s ->
      lock_inv ths st s st1 s1.

Definition inv (calls : list (list query)) (st0 : ottery_state) (s0 : process W)
    (log : list event) (sys : system) : Prop :=
  pool_ok calls log (threads sys) /\
  exists st1 s1, ask_all (st_ops addr) (ev_call <$> log) st0 s0 = Ret (ev_reply <$> log, st1, s1) /\
    good LockFree st1 /\ lock_inv (threads sys) (shared sys) (proc sys) st1 s1.

(** ** Steps keep the invariant *)

Lemma held_LockFree : held LockFree = LockHeld.
Proof. unfold held. by destruct lock_impl. Qed.

Lemma lock_inv_good ths st s st1 s1 :
  good LockFree st1 -> lock_inv ths st s st1 s1 -> exists l, good l st.
Proof. intros Hg [Hi -> ->|]; eauto. Qed.

Lemma waits_held st : good LockHeld st -> waits st = true.
Proof. intros (_ & _ & Hm). unfold waits. rewrite Hm. by destruct lock_impl. Qed.

Lemma waits_free st : good LockFree st -> waits st = false.
Proof. intros (_ & _ & Hm). unfold waits. rewrite Hm. by destruct lock_impl. Qed.

Lemma entry_ok c l st (s : process W) : good l st -> entry addr c st s = Ret (true, s).
Proof. intros (_ & Hm & _). destruct c; first [done|apply check_init_ok; by right]. Qed.

Lemma acquire_ok st (s : process W) :
  good LockFree st -> LOCK st s = Ret (set_mutex LockHeld st, s) /\ good LockHeld (set_mutex LockHeld st).
Proof.
  intros Hg. pose proof Hg as (_ & _ & Hm). split; [|by eapply live_set_mutex].
  rewrite LOCK_ok by (by right). by rewrite Hm, held_LockFree.
Qed.

Lemma release_ok st (s : process W) :
  good LockHeld st -> UNLOCK st s = Ret (set_mutex LockFree st, s) /\ good LockFree (set_mutex LockFree st).
Proof.
  intros Hg. pose proof Hg as (_ & _ & Hm). split; [|by eapply live_set_mutex].
  rewrite (UNLOCK_ok (set_mutex LockFree st) st); [done|by right|].
  rewrite Hm. symmetry. apply held_LockFree.
Qed.

Lemma ask_all_snoc cs c st (s : process W) rs st1 s1 r st2 s2 :
  ask_all (st_ops addr) cs st s = Ret (rs, st1, s1) -> ask (st_ops addr) c st1 s1 = Ret (r, st2, s2) ->
  ask_all (st_ops addr) (cs ++ [c]) st s = Ret (rs ++ [r], st2, s2).
Proof.
  revert st s rs. induction cs as [|c0 cs IH]; intros st s rs; cbn [app ask_all].
  - intros [= <- -> ->] E. by rewrite (bind_Ret _ _ _ _ _ E), bind_ret.
  - intros H E. apply bind_inv in H as ([r0 st3] & s3 & E0 & H). rewrite (bind_Ret _ _ _ _ _ E0).
    apply bind_inv in H as ([rs0 st4] & s4 & E1 & [= <- -> ->]).
    by rewrite (bind_Ret _ _ _ _ _ (IH _ _ _ E1 E)).
Qed.

(** ** A step keeps the pool of threads in agreement with the log *)

Lemma pool_step calls log ths i t t' ev :
  pool_ok calls log ths -> ths !! i = Some t -> (forall e, ev = Some e -> ev_thread e = i) ->
  (forall cs, thread_ok cs i log t -> thread_ok cs i (log ++ ext ev) t') ->
  pool_ok calls (log ++ ext ev) (<[i := t']> ths).
Proof.
  intros (Hlen & Hlog & Hp) Ht Hev Hok. rewrite <-(length_insert ths i t') in Hlog.
  split; [by rewrite length_insert|]. split.
  { apply Forall_ext; [done|]. intros e ->.
    rewrite (Hev e eq_refl), length_insert. by eapply lookup_lt_Some. }
  intros j u Hu. destruct (decide (i = j)) as [<-|Hne].
  - rewrite list_lookup_insert_eq in Hu by (by eapply lookup_lt_Some). injection Hu as <-.
    destruct (Hp i t Ht) as (cs & Hcs & Htok). exists cs. auto.
  - rewrite list_lookup_insert_ne in Hu by done. destruct (Hp j u Hu) as (cs & Hcs & []).
    exists cs. split; [done|]. split; try done; by rewrite (log_of_other ev_thread i).
Qed.

(** A thread that is outside before and after. *)
Lemma lock_inv_outside ths st s st1 s1 i t t' :
  lock_inv ths st s st1 s1 -> ths !! i = Some t -> inside t = false -> inside t' = false ->
  lock_inv (<[i := t']> ths) st s st1 s1.
Proof.
  intros Hl Ht Ho Ho'.
  assert (forall j u, <[i := t']> ths !! j = Some u -> inside u = true -> ths !! j = Some u) as Hsub.
  { intros j u Hu Hin. destruct (decide (i = j)) as [<-|Hne].
    - rewrite list_lookup_insert_eq in Hu by (by eapply lookup_lt_Some). congruence.
    - by rewrite list_lookup_insert_ne in Hu. }
  destruct Hl as [Hn -> ->|j u c k Hu Hpc Hx Hg Hr].
  - apply lock_inv_free; [|done|done]. intros j u Hu. destruct (inside u) eqn:E; [|done].
    rewrite <-E. eapply Hn, Hsub; done.
  - apply (lock_inv_held _ _ _ _ _ j u c k); [|done| |done|done].
    + rewrite list_lookup_insert_ne; [done|]. intros ->. unfold inside in Ho.
      assert (t = u) as -> by congruence. by rewrite Hpc in Ho.
    + intros j' u' Hu' Hin. by eapply Hx; [apply Hsub|].
Qed.

(** A thread that enters a free lock, or goes on inside. *)
Lemma lock_inv_inside ths st s st1 s1 i t t' c k :
  ths !! i = Some t -> at_pc t' = Inside c k ->
  (forall j u, ths !! j = Some u -> inside u = true -> j = i) -> good LockHeld st ->
  run_crit (locked_section addr c) (set_mutex LockHeld st1) s1 = run_crit k st s ->
  lock_inv (<[i := t']> ths) st s st1 s1.
Proof.
  intros Ht Hpc Hx Hg Hr. apply (lock_inv_held _ _ _ _ _ i t' c k); [|done| |done|done].
  - apply list_lookup_insert_eq. by eapply lookup_lt_Some.
  - intros j u Hu Hin. destruct (decide (i = j)) as [|Hne]; [done|].
    rewrite list_lookup_insert_ne in Hu by done. by eapply Hx.
Qed.

(** A thread that leaves. *)
Lemma lock_inv_leave ths st s i t' :
  (forall j u, ths !! j = Some u -> inside u = true -> j = i) -> inside t' = false ->
  (i < length ths)%nat -> lock_inv (<[i := t']> ths) st s st s.
Proof.
  intros Hx Ho Hi. apply lock_inv_free; [|done|done]. intros j u Hu.
  destruct (decide (i = j)) as [<-|Hne].
  - rewrite list_lookup_insert_eq in Hu by done. congruence.
  - rewrite list_lookup_insert_ne in Hu by done. destruct (inside u) eqn:E; [|done].
    exfalso. apply Hne. symmetry. by eapply Hx.
Qed.

(** ** Steps keep the invariant *)

Definition is_ranging (t : thread (W := W)) : Prop :=
  exists c k, at_pc t = Inside c k /\ qranges c = true.

(** What a step may lead to. *)
Definition turn_post (calls : list (list query)) (st0 : ottery_state) (s0 : process W)
    (log : list event) (sys : system) (r : option (outcome (option event * system))) : Prop :=
  match r with
  | None => True
  | Some (Ret (ev, sys')) =>
      inv calls st0 s0 (log ++ ext ev) sys' /\
      ottery_fatal_handler (proc sys') = ottery_fatal_handler (proc sys)
  | Some Aborted => ottery_fatal_handler (proc sys) = None
  | Some Undefined => False
  | Some NoFuel => exists i t, threads sys !! i = Some t /\ is_ranging t
  end.

Lemma enter_ok calls st0 s0 log sys i t c rest :
  inv calls st0 s0 log sys -> threads sys !! i = Some t ->
  at_pc t = Between -> pending t = c :: rest ->
  entry addr c (shared sys) (proc sys) = Ret (true, proc sys) /\
  inv calls st0 s0 log (mk_system (<[i := mk_thread rest (replies t) (Entered c)]> (threads sys))
    (shared sys) (proc sys)).
Proof.
  intros (Hp & st1 & s1 & Hr & Hg1 & Hl) Ht Hpc Hpe.
  destruct (lock_inv_good _ _ _ _ _ Hg1 Hl) as [l Hg]. split; [by eapply entry_ok|].
  split; cbn [threads shared proc].
  - rewrite <-(ext_None log). eapply pool_step; [done|done|done|]. rewrite ext_None.
    intros cs [Hv Hc Hre _]. split; [done| |done|done].
    cbn [current at_pc pending]. unfold current in Hc. rewrite Hpc, Hpe in Hc. exact Hc.
  - exists st1, s1. split; [done|]. split; [done|]. eapply lock_inv_outside; [done|done| |done].
    unfold inside. by rewrite Hpc.
Qed.

Lemma lock_step_ok calls st0 s0 log sys i t c :
  inv calls st0 s0 log sys -> threads sys !! i = Some t -> at_pc t = Entered c ->
  waits (shared sys) = false ->
  exists st', LOCK (shared sys) (proc sys) = Ret (st', proc sys) /\
  inv calls st0 s0 log (mk_system (<[i := mk_thread (pending t) (replies t)
    (Inside c (locked_section addr c))]> (threads sys)) st' (proc sys)).
Proof.
  intros (Hp & st1 & s1 & Hr & Hg1 & Hl) Ht Hpc Hw.
  destruct Hl as [Hn Est Es|j u c' k _ _ _ Hgh _]; [|by rewrite (waits_held _ Hgh) in Hw].
  rewrite Est, Es. destruct (acquire_ok st1 s1 Hg1) as [E Hgh].
  exists (set_mutex LockHeld st1). split; [done|]. split; cbn [threads shared proc].
  - rewrite <-(ext_None log). eapply pool_step; [done|done|done|]. rewrite ext_None.
    intros cs [Hv Hc Hre _]. unfold current in Hc. rewrite Hpc in Hc.
    split; [done|exact Hc|done|]. intros c' k [= <- <-]. apply locked_section_ok.
    rewrite Hc in Hv. apply Forall_app in Hv as [_ Hv]. by apply Forall_cons_1 in Hv as [Hv _].
  - exists st1, s1. split; [done|]. split; [done|].
    eapply lock_inv_inside; [done|done| |done|done].
    intros j u Hu Hin. by rewrite (Hn j u Hu) in Hin.
Qed.

(** The thread inside is the one the lock invariant speaks of. *)
Lemma inside_inv ths st s st1 s1 i t c k :
  lock_inv ths st s st1 s1 -> ths !! i = Some t -> at_pc t = Inside c k ->
  (forall j u, ths !! j = Some u -> inside u = true -> j = i) /\ good LockHeld st /\
  run_crit (locked_section addr c) (set_mutex LockHeld st1) s1 = run_crit k st s.
Proof.
  intros Hl Ht Hpc. assert (inside t = true) as Hin by (unfold inside; by rewrite Hpc).
  destruct Hl as [Hn _ _|j u c' k' Hu Hpc' Hx Hg Hr]; [by rewrite (Hn i t Ht) in Hin|].
  assert (i = j) as <- by (by eapply Hx). assert (t = u) as <- by congruence.
  rewrite Hpc in Hpc'. injection Hpc' as <- <-. done.
Qed.

Lemma do_step_ok calls st0 s0 log sys i t c {B} (m : ottery_state -> M W (B * ottery_state))
    (k : B -> crit W reply) :
  inv calls st0 s0 log sys -> threads sys !! i = Some t -> at_pc t = Inside c (Do m k) ->
  safe (qranges c) (fun r : B * ottery_state => forall s',
      m (shared sys) (proc sys) = Ret (r, s') ->
      inv calls st0 s0 log (mk_system (<[i := mk_thread (pending t) (replies t)
        (Inside c (k (fst r)))]> (threads sys)) (snd r) s'))
    (m (shared sys)) (proc sys).
Proof.
  intros (Hp & st1 & s1 & Hr & Hg1 & Hl) Ht Hpc.
  destruct (inside_inv _ _ _ _ _ _ _ _ _ Hl Ht Hpc) as (Hx & Hg & Hrun).
  pose proof Hp as (_ & _ & Hth). destruct (Hth i t Ht) as (cs & Hcs & Hto).
  destruct (to_section _ _ _ _ Hto _ _ Hpc) as [Hm Hk].
  pose proof (Hm _ (proc sys) Hg) as Hsafe. unfold safe in *.
  destruct (m (shared sys) (proc sys)) as [[[b st'] s']| | |] eqn:E; try done.
  destruct Hsafe as [Hh Hg']. split; [done|]. intros ? [= <-]. cbn [fst snd] in *.
  split; cbn [threads shared proc].
  - rewrite <-(ext_None log). eapply pool_step; [done|done|done|]. rewrite ext_None.
    intros cs' [Hv Hc Hre Hsec]. unfold current in Hc. rewrite Hpc in Hc.
    split; [done|exact Hc|done|]. intros c' k' [= <- <-]. apply Hk.
  - exists st1, s1. split; [done|]. split; [done|].
    eapply lock_inv_inside; [done|done|done|done|]. rewrite Hrun. cbn [run_crit].
    by rewrite (bind_Ret _ _ _ _ _ E).
Qed.

Lemma leave_ok calls st0 s0 log sys i t c r :
  inv calls st0 s0 log sys -> threads sys !! i = Some t -> at_pc t = Inside c (Leave r) ->
  exists st', UNLOCK (shared sys) (proc sys) = Ret (st', proc sys) /\
  inv calls st0 s0 (log ++ ext (Some (mk_event i c r)))
    (mk_system (<[i := mk_thread (pending t) (replies t ++ [r]) Between]> (threads sys))
       st' (proc sys)).
Proof.
  intros (Hp & st1 & s1 & Hr & Hg1 & Hl) Ht Hpc.
  destruct (inside_inv _ _ _ _ _ _ _ _ _ Hl Ht Hpc) as (Hx & Hg & Hrun).
  destruct (release_ok _ (proc sys) Hg) as [E Hgf]. eexists. split; [exact E|].
  assert (qvalid c) as Hv.
  { destruct Hp as (_ & _ & Hp). destruct (Hp i t Ht) as (cs & _ & [Hv Hc _ _]).
    unfold current in Hc. rewrite Hpc in Hc. rewrite Hc in Hv.
    apply Forall_app in Hv as [_ Hv]. by apply Forall_cons_1 in Hv as [Hv _]. }
  split; cbn [threads shared proc].
  - eapply pool_step; [done|done|by intros ? [= <-]|].
    intros cs [Hvs Hc Hre _]. unfold current in Hc. rewrite Hpc in Hc.
    split; rewrite ?log_of_ext by (by intros ? [= <-]); rewrite ?fmap_app; cbn [ext fmap list_fmap ev_call ev_reply].
    + done.
    + cbn [current at_pc pending]. rewrite Hc. by rewrite <-app_assoc.
    + cbn [replies]. by rewrite Hre.
    + done.
  - exists (set_mutex LockFree (shared sys)), (proc sys). split.
    + cbn [ext]. rewrite !fmap_app. eapply ask_all_snoc; [exact Hr|].
      rewrite (ask_phases _ _ _ _ Hv), (bind_Ret _ _ _ _ _ (entry_ok c LockFree st1 s1 Hg1)).
      cbn [negb]. rewrite (bind_Ret _ _ _ _ _ (proj1 (acquire_ok st1 s1 Hg1))).
      assert (run_crit (locked_section addr c) (set_mutex LockHeld st1) s1 =
        Ret (r, shared sys, proc sys)) as E1 by (by rewrite Hrun).
      by rewrite (bind_Ret _ _ _ _ _ E1), (bind_Ret _ _ _ _ _ E).
    + split; [done|]. apply lock_inv_leave; [done|done|]. by eapply lookup_lt_Some.
Qed.

Lemma turn_ok calls st0 s0 log sys i :
  inv calls st0 s0 log sys -> turn_post calls st0 s0 log sys (turn addr i sys).
Proof.
  intros Hi. unfold turn. destruct (threads sys !! i) as [t|] eqn:Ht; [|done].
  cbn [mbind option_bind]. destruct (at_pc t) as [|c|c k] eqn:Hpc.
  - destruct (pending t) as [|c rest] eqn:Hpe; [done|].
    destruct (enter_ok _ _ _ _ _ _ _ _ _ Hi Ht Hpc Hpe) as [-> Hi'].
    cbn [turn_post]. by rewrite ext_None.
  - destruct (waits (shared sys)) eqn:Hw; [done|].
    destruct (lock_step_ok _ _ _ _ _ _ _ _ Hi Ht Hpc Hw) as (st' & -> & Hi').
    cbn [turn_post]. by rewrite ext_None.
  - destruct k as [r|B m k].
    + destruct (leave_ok _ _ _ _ _ _ _ _ _ Hi Ht Hpc) as (st' & -> & Hi'). done.
    + pose proof (do_step_ok _ _ _ _ _ _ _ _ m k Hi Ht Hpc) as H. unfold safe in H.
      destruct (m (shared sys) (proc sys)) as [[[b st'] s']| | |]; cbn [turn_post]; try done.
      * destruct H as [Hh H]. rewrite ext_None. split; [by apply H|done].
      * exists i, t. split; [done|]. by exists c, (Do m k).
Qed.

Lemma run_ok calls st0 s0 log sched sys log' sys' :
  inv calls st0 s0 log sys -> run addr sched sys = Some (log', sys') ->
  inv calls st0 s0 (log ++ log') sys' /\
  ottery_fatal_handler (proc sys') = ottery_fatal_handler (proc sys).
Proof.
  revert log sys log'. induction sched as [|i sched IH]; intros log sys log' Hi; cbn [run].
  { intros [= <- <-]. by rewrite app_nil_r. }
  pose proof (turn_ok _ _ _ _ _ i Hi) as Ht.
  destruct (turn addr i sys) as [[[ev sys1]| | |]|]; try done. destruct Ht as [Hi1 Hh1].
  intros H. inv_bind H. destruct x as [log1 sys2]. injection H as <- <-.
  destruct (IH _ _ _ Hi1 Hx) as [Hi2 Hh2]. split; [|congruence].
  rewrite <-app_assoc in Hi2. by destruct ev.
Qed.

Lemma start_ok calls st (s : process W) :
  Forall (Forall qvalid) calls -> good LockFree st ->
  inv calls st s [] (mk_system (start calls) st s).
Proof.
  intros Hv Hg. split; cbn [threads shared proc].
  - split; [unfold start; by rewrite length_fmap|]. split; [done|]. intros i t Ht.
    unfold start in Ht. rewrite list_lookup_fmap in Ht.
    destruct (calls !! i) as [cs|] eqn:E; [|done]. injection Ht as <-.
    exists cs. split; [done|]. split; [|done|done|done].
    rewrite Forall_lookup in Hv. by eapply Hv.
  - exists st, s. split; [done|]. split; [done|]. apply lock_inv_free; [|done|done].
    intros i t Ht. unfold start in Ht. rewrite list_lookup_fmap in Ht.
    destruct (calls !! i); [|done]. by injection Ht as <-.
Qed.

(** ** What the invariant implies *)

Lemma log_valid calls log ths : pool_ok calls log ths -> Forall qvalid (ev_call <$> log).
Proof.
  intros (_ & Hlt & Hp). rewrite Forall_fmap, Forall_forall. intros e He.
  rewrite Forall_forall in Hlt. specialize (Hlt e He).
  apply lookup_lt_is_Some in Hlt as [t Ht]. destruct (Hp _ _ Ht) as (cs & _ & [Hv Hc _ _]).
  rewrite Hc in Hv. apply Forall_app in Hv as [Hv _]. rewrite Forall_fmap, Forall_forall in Hv.
  apply (Hv e). unfold Prelude.log_of. by apply list_elem_of_filter.
Qed.

Lemma inside_alone calls st0 s0 log sys i j t u :
  inv calls st0 s0 log sys -> threads sys !! i = Some t -> threads sys !! j = Some u ->
  inside t = true -> inside u = true -> i = j.
Proof.
  intros [_ (st1 & s1 & _ & _ & Hl)] Ht Hu It Iu.
  destruct Hl as [Ho _ _|k v c k' _ _ Hx _ _]; [by rewrite (Ho i t Ht) in It|].
  by rewrite (Hx i t Ht It), (Hx j u Hu Iu).
Qed.

Lemma no_ranging calls log ths i t :
  Forall (Forall (fun c => qranges c = false)) calls -> pool_ok calls log ths ->
  ths !! i = Some t -> ~ is_ranging t.
Proof.
  intros Hn (_ & _ & Hp) Ht (c & k & Hpc & Hr). destruct (Hp i t Ht) as (cs & Hcs & [_ Hc _ _]).
  rewrite Forall_lookup in Hn. specialize (Hn i cs Hcs). unfold current in Hc.
  rewrite Hpc in Hc. rewrite Hc in Hn. apply Forall_app in Hn as [_ Hn].
  apply Forall_cons_1 in Hn as [Hn _]. congruence.
Qed.

Lemma movable_or_finished calls st0 s0 log sys :
  inv calls st0 s0 log sys ->
  (exists i r, turn addr i sys = Some r) \/
  (forall i t, threads sys !! i = Some t -> finished t = true).
Proof.
  intros (_ & st1 & s1 & _ & Hg1 & Hl). destruct Hl as [Ho Est Es|i t c k Ht Hpc _ _ _].
  - destruct (decide (Forall (fun t => finished t = true) (threads sys))) as [H|H].
    + right. intros i t Ht. rewrite Forall_lookup in H. by eapply H.
    + left. apply not_Forall_Exists in H; [|apply _].
      apply Exists_exists in H as (t & Hin & Hnf). apply list_elem_of_lookup in Hin as [i Ht].
      exists i. unfold turn. rewrite Ht. cbn [mbind option_bind].
      pose proof (Ho i t Ht) as Hout. unfold inside in Hout. cbn in Hnf. unfold finished in Hnf.
      destruct (at_pc t) as [|c|]; [| |done].
      * destruct (pending t); [done|by eexists].
      * rewrite Est, (waits_free _ Hg1). by eexists.
  - left. exists i. unfold turn. rewrite Ht. cbn [mbind option_bind]. rewrite Hpc.
    destruct k; by eexists.
Qed.
End Invariant.

(** ** Every schedule ends *)

Section Termination.
Context {W : Type} {OS0 : OS W} {BC : BuildConfig} {PL : Platform}.
Context (addr : Z).

(** [k] leaves after at most [n] steps, whatever they return. *)
Fixpoint within {A} (n : nat) (k : crit W A) {struct k} : Prop :=
  match k with
  | Leave _ => True
  | Do m k => match n with O => False | S n => forall b, within n (k b) end
  end.

(** The most steps a call can take under the lock. *)
Definition section_steps (c : query) : nat :=
  match c with
  | QRange fuel _ | QRange64 fuel _ => 2 * fuel + 1
  | QPreventBacktracking => 1
  | _ => 2
  end.

Lemma within_mono {A} (k : crit W A) m n : (m <= n)%nat -> within m k -> within n k.
Proof.
  revert m n. induction k as [|B m' k IH]; intros m n Hn; [done|].
  destruct m as [|m]; [done|]. destruct n as [|n]; [lia|]. cbn [within].
  intros H b. apply (IH b m n); [lia|apply H].
Qed.

Lemma range_section_within fuel size divisor upper :
  within (2 * fuel + 1) (range_section (W := W) addr fuel size divisor upper).
Proof.
  induction fuel as [|fuel IH]; [done|].
  replace (2 * S fuel + 1)%nat with (S (S (2 * fuel + 1))) by lia. cbn [range_section within].
  assert (forall n, (2 * fuel + 1 <= n)%nat -> forall r, within n (if upper <? r / divisor
    then range_section (W := W) addr fuel size divisor upper else Leave (RInt (r / divisor)))) as Hnext.
  { intros n Hn r. destruct (upper <? _); [|done]. by eapply within_mono. }
  intros []; [intros r|]; apply Hnext; lia.
Qed.

Lemma locked_section_within c : within (section_steps c) (locked_section (W := W) addr c).
Proof.
  destruct c; try apply range_section_within; cbn; try done; by intros [].
Qed.

(** The steps a call takes: the check, the lock, the section, the unlock. *)
Definition call_steps (c : query) : nat := 3 + section_steps c.

Definition calls_steps (cs : list query) : nat := sum_list_with call_steps cs.

Lemma calls_steps_cons c cs : calls_steps (c :: cs) = (3 + section_steps c + calls_steps cs)%nat.
Proof. reflexivity. Qed.

(** Thread [t] can take at most [n] more steps. *)
Definition owes (t : thread (W := W)) (n : nat) : Prop :=
  match at_pc t with
  | Between => n = calls_steps (pending t)
  | Entered c => n = (2 + section_steps c + calls_steps (pending t))%nat
  | Inside c k => exists d, within d k /\ n = (1 + d + calls_steps (pending t))%nat
  end.

Lemma turn_decreases i sys ns ev sys' :
  Forall2 owes (threads sys) ns -> turn addr i sys = Some (Ret (ev, sys')) ->
  exists ns', Forall2 owes (threads sys') ns' /\ (sum_list ns' < sum_list ns)%nat.
Proof.
  intros Ho. unfold turn. destruct (threads sys !! i) as [t|] eqn:Ht; [|done].
  cbn [mbind option_bind].
  destruct (Forall2_lookup_l _ _ _ _ _ Ho Ht) as (n & Hn & Ht').
  assert (forall t' n' st s, owes t' n' -> (n' < n)%nat ->
    exists ns', Forall2 owes (threads (mk_system (<[i := t']> (threads sys)) st s)) ns' /\
      (sum_list ns' < sum_list ns)%nat) as Hstep.
  { intros t' n' st s Ho' Hlt. exists (<[i := n']> ns). cbn [threads].
    split; [by apply Forall2_insert|by eapply sum_list_insert_lt]. }
  unfold owes in Ht'. destruct (at_pc t) as [|c|c [r|B m k]].
  - destruct (pending t) as [|c rest]; [done|]. rewrite calls_steps_cons in Ht'.
    destruct (entry addr c (shared sys) (proc sys)) as [[[] s]| | |]; try done; intros [= <- <-].
    + apply (Hstep _ (2 + section_steps c + calls_steps rest)%nat); [done|lia].
    + apply (Hstep _ (calls_steps rest)); [done|lia].
  - destruct (waits (shared sys)); [done|].
    destruct (LOCK (shared sys) (proc sys)) as [[st s]| | |]; try done; intros [= <- <-].
    apply (Hstep _ (1 + section_steps c + calls_steps (pending t))%nat); [|lia].
    exists (section_steps c). split; [apply locked_section_within|done].
  - destruct Ht' as (d & _ & ->).
    destruct (UNLOCK (shared sys) (proc sys)) as [[st s]| | |]; try done; intros [= <- <-].
    apply (Hstep _ (calls_steps (pending t))); [done|lia].
  - destruct Ht' as (d & Hd & ->).
    destruct (m (shared sys) (proc sys)) as [[[b st] s]| | |]; try done; intros [= <- <-].
    cbn in Hd. destruct d as [|d]; [done|].
    apply (Hstep _ (1 + d + calls_steps (pending t))%nat); [|lia]. by exists d.
Qed.

Lemma run_bounded sched sys ns log sys' :
  Forall2 owes (threads sys) ns -> run addr sched sys = Some (log, sys') ->
  (length sched <= sum_list ns)%nat.
Proof.
  revert sys ns log. induction sched as [|i sched IH]; intros sys ns log Ho; cbn [run length]; [lia|].
  destruct (turn addr i sys) as [[[ev sys1]| | |]|] eqn:Et; try done. intros H.
  destruct (turn_decreases _ _ _ _ _ Ho Et) as (ns' & Ho' & Hlt).
  inv_bind H. destruct x as [log1 sys2]. injection H as _ ->. specialize (IH _ _ _ Ho' Hx). lia.
Qed.

Lemma start_owes calls : Forall2 owes (start (W := W) calls) (calls_steps <$> calls).
Proof. unfold start. induction calls as [|cs calls IH]; cbn; by constructor. Qed.
End Termination.
