(* ===== verification/ThreadsProps.v ===== *)
(** * Properties of threads sharing one state

    Linearizability, one stream, mutual exclusion, completion; and a place where the
    program leaves the protection of the lock: the entropy state used by a null seed.
    ThreadsGlobal.v has the other, the lazy initialization of the global state. *)
From S2P Require Import Prelude Words Memory Internal Spec Prng Refine TestPrf Session.
From S2P Require Import ChaChaRef ChaChaMerged ChaChaKrovetz Os CpuInfo Entropy TestOs Config Api ApiRefine ApiProps.
From S2P Require Import Safety Global GlobalProps Public Threads ThreadsInv.
Local Open Scope Z_scope.
Local Open Scope ottery_scope.

(** ** Lemmas *)

Section Refinement.
Context {W : Type} {OS0 : OS W} {BC : BuildConfig} {PL : Platform} {OL : OSLaws OS0}.
Context {p : ottery_prf} {PS : PrfSpec p} {PZ : PrfSizes p}.
Context (addr : Z).

Lemma ready_live st a (s : process W) :
  ready addr st a s -> st_magic st = MAGIC addr -> lock_impl <> NO_LOCKS ->
  live_as p addr LockFree st.
Proof.
  intros [[Hr _ _] Hl] Hm Hn. split; [by exists a|]. split; [done|]. by destruct Hl.
Qed.
End Refinement.

(** ** Concrete threads *)

#[local] Existing Instance default_build.

(** Two threads on one state, interleaved: thread 1 enters while thread 0 is
    inside, and waits. *)
Definition two_threads : list (list query) :=
  [[QBytes (zeros 40) 0 40; QUint32]; [QUint64]].
Definition two_schedule : list nat := [0; 0; 1; 0; 0; 0; 1; 1; 0; 1; 1]%nat.
Definition two_system : system := mk_system (start two_threads) api0 proc_handler.

Definition two_run : list event * system :=
  default ([], two_system) (run 4096 two_schedule two_system).

Lemma two_run_eq : run 4096 two_schedule two_system = Some two_run.
Proof.
  assert (bool_decide (is_Some (run 4096 two_schedule two_system)) = true) as H by (vm_compute; reflexivity).
  unfold two_run. by destruct (run _ _ _).
Qed.

Lemma two_valid : Forall (Forall qvalid) two_threads.
Proof. by repeat constructor. Qed.

Lemma api0_ready_handler : ready (p := dummy_prf) 4096 api0 ready0_prng proc_handler.
Proof. destruct api0_ready as [[Hr Hm Hp] Hl]. by repeat split. Qed.

Lemma api0_live : live_as dummy_prf 4096 LockFree api0.
Proof. apply (ready_live 4096 api0 ready0_prng proc0); [exact api0_ready|done|done]. Qed.

(** ** Outside the lock *)

(** With a null seed, [ottery_st_add_seed] reads and writes the entropy state
    before it takes the lock: here the inode of the random device is recorded
    while another thread holds the lock. *)
Lemma os_seed_outside_lock :
  match add_seed_input (set_mutex LockHeld api0) None 0 proc0 with
  | Ret (inr (st, _, _, _, _), _) =>
      (urandom_fd_inode (st_entropy_state api0) =? urandom_fd_inode (st_entropy_state st)) = false /\
      st_mutex st = LockHeld
  | _ => False
  end.
Proof. vm_compute. by split. Qed.

(** In a build without locks two threads are inside together. *)
Definition unlocked_build : BuildConfig := {|
  OTTERY_NO_PID_CHECK := false;
  OTTERY_NO_INIT_CHECK := false;
  OTTERY_NO_LOCKS := true;
  OTTERY_NO_CLEAR_AFTER_YIELD := false;
  OTTERY_NO_WIPE_STACK := false;
  OTTERY_NO_SIMD := false |}.

Lemma no_locks_no_exclusion :
  match run (BC := unlocked_build) 4096 [0; 1; 0; 1]%nat
          (mk_system (start [[QUint32]; [QUint32]]) api0 proc0) with
  | Some (_, sys) => inside <$> threads sys
  | None => []
  end = [true; true].
Proof. vm_compute. reflexivity. Qed.

(** ** The properties *)

(** C4: however the calls of several threads on one initialized state are
    interleaved, the replies are those of the same calls made one after the
    other, in the order in which the threads held the lock: each thread has the
    replies to its own calls, in its own order, and when no thread is between
    its lock and its unlock the state and the process are those the sequential
    calls leave. Forks, failing sources and fatal handlers included. *)
Theorem threads_linearize {W : Type} {OS0 : OS W} {BC : BuildConfig} {PL : Platform}
    {OL : OSLaws OS0} {p} {PS : PrfSpec p} {PZ : PrfSizes p}
    addr calls sched st0 (s0 : process W) log sys :
  lock_impl <> NO_LOCKS -> live_as p addr LockFree st0 -> Forall (Forall qvalid) calls ->
  run addr sched (mk_system (start calls) st0 s0) = Some (log, sys) ->
  (exists st1 s1,
     ask_all (st_ops addr) (ev_call <$> log) st0 s0 = Ret (ev_reply <$> log, st1, s1) /\
     ((forall i t, threads sys !! i = Some t -> inside t = false) ->
      shared sys = st1 /\ proc sys = s1)) /\
  (forall i t, threads sys !! i = Some t -> exists cs, calls !! i = Some cs /\
     cs = (ev_call <$> log_of ev_thread i log) ++ current t ++ pending t /\
     replies t = ev_reply <$> log_of ev_thread i log).
Proof.
  intros Hn Hg Hv Hrun.
  destruct (run_ok addr Hn _ _ _ [] _ _ _ _ (start_ok (p := p) addr calls st0 s0 Hv Hg) Hrun)
    as [[(_ & _ & Hp) (st1 & s1 & Hr & _ & Hl)] _]. split.
  - exists st1, s1. split; [exact Hr|]. intros Ho. destruct Hl as [_ -> ->|i t c k Ht Hpc _ _ _]; [done|].
    specialize (Ho i t Ht). unfold inside in Ho. by rewrite Hpc in Ho.
  - intros i t Ht. destruct (Hp i t Ht) as (cs & Hcs & [_ Hc Hre _]). by exists cs.
Qed.

Lemma threads_linearize_witness :
  (exists st1 s1,
     ask_all (st_ops 4096) (ev_call <$> fst two_run) api0 proc_handler = Ret (ev_reply <$> fst two_run, st1, s1) /\
     ((forall i t, threads (snd two_run) !! i = Some t -> inside t = false) ->
      shared (snd two_run) = st1 /\ proc (snd two_run) = s1)) /\
  (forall i t, threads (snd two_run) !! i = Some t -> exists cs, two_threads !! i = Some cs /\
     cs = (ev_call <$> log_of ev_thread i (fst two_run)) ++ current t ++ pending t /\
     replies t = ev_reply <$> log_of ev_thread i (fst two_run)).
Proof.
  apply (threads_linearize (p := dummy_prf) 4096 two_threads two_schedule api0 proc_handler
    (fst two_run) (snd two_run)); [discriminate|exact api0_live|exact two_valid|].
  rewrite <-surjective_pairing. exact two_run_eq.
Defined.

(** Threads of the process that seeded the state share one stream: the
    replies, in the order of the lock, are those of the abstract generator to
    the calls in that order, so that no two threads are given the same part of
    its output, and with the lock free the state represents what is left. *)
Theorem threads_share_one_stream {W : Type} {OS0 : OS W} {BC : BuildConfig} {PL : Platform}
    {OL : OSLaws OS0} {p} {PS : PrfSpec p} {PZ : PrfSizes p}
    addr calls sched st0 a0 (s0 : process W) log sys :
  lock_impl <> NO_LOCKS -> ready addr st0 a0 s0 -> st_magic st0 = MAGIC addr ->
  Forall (Forall qvalid) calls ->
  run addr sched (mk_system (start calls) st0 s0) = Some (log, sys) ->
  exists a1, spec_ask_all p (ev_call <$> log) a0 = Some (ev_reply <$> log, a1) /\
    ((forall i t, threads sys !! i = Some t -> inside t = false) ->
     ready addr (shared sys) a1 s0).
Proof.
  intros Hn Hd Hm Hv Hrun. pose proof (ready_live addr st0 a0 s0 Hd Hm Hn) as Hg.
  destruct (run_ok addr Hn _ _ _ [] _ _ _ _ (start_ok (p := p) addr calls st0 s0 Hv Hg) Hrun)
    as [[Hp (st1 & s1 & Hr & _ & Hl)] _].
  pose proof (ask_all_ok (st_ops addr) p PS PZ _ st0 a0 s0 Hd (log_valid _ _ _ _ Hp)) as Ha.
  cbn [app] in Ha, Hr. rewrite Hr in Ha. destruct (spec_ask_all p _ a0) as [[rs a1]|]; [|done].
  destruct Ha as (g' & [= -> -> ->] & Hd1).
  exists a1. split; [done|]. intros Ho. destruct Hl as [_ -> _|i t c k Ht Hpc _ _ _]; [done|].
  specialize (Ho i t Ht). unfold inside in Ho. by rewrite Hpc in Ho.
Qed.

Lemma threads_share_one_stream_witness :
  exists a1, spec_ask_all dummy_prf (ev_call <$> fst two_run) ready0_prng =
      Some (ev_reply <$> fst two_run, a1) /\
    ((forall i t, threads (snd two_run) !! i = Some t -> inside t = false) ->
     ready (p := dummy_prf) 4096 (shared (snd two_run)) a1 proc_handler).
Proof.
  apply (threads_share_one_stream (p := dummy_prf) 4096 two_threads two_schedule api0 ready0_prng proc_handler
    (fst two_run) (snd two_run)); [discriminate|exact api0_ready_handler|reflexivity|exact two_valid|].
  rewrite <-surjective_pairing. exact two_run_eq.
Defined.

(** At every point of every schedule at most one thread is between its lock
    and its unlock, and no thread's next step has undefined behaviour: in
    particular none releases a lock it does not hold or acquires one twice. A
    step aborts only when no fatal handler is set, and only a range call can
    run out of draws. *)
Theorem threads_exclude {W : Type} {OS0 : OS W} {BC : BuildConfig} {PL : Platform}
    {OL : OSLaws OS0} {p} {PS : PrfSpec p} {PZ : PrfSizes p}
    addr calls sched st0 (s0 : process W) log sys :
  lock_impl <> NO_LOCKS -> live_as p addr LockFree st0 -> Forall (Forall qvalid) calls ->
  run addr sched (mk_system (start calls) st0 s0) = Some (log, sys) ->
  (forall i j t u, threads sys !! i = Some t -> threads sys !! j = Some u ->
     inside t = true -> inside u = true -> i = j) /\
  (forall i, match turn addr i sys with
     | Some Undefined => False
     | Some Aborted => ottery_fatal_handler s0 = None
     | Some NoFuel => exists i t, threads sys !! i = Some t /\ is_ranging t
     | _ => True
     end).
Proof.
  intros Hn Hg Hv Hrun.
  destruct (run_ok addr Hn _ _ _ [] _ _ _ _ (start_ok (p := p) addr calls st0 s0 Hv Hg) Hrun)
    as [Hi Hh]. split.
  - intros i j t u. by apply (inside_alone addr calls st0 s0 ([] ++ log) sys).
  - intros i. pose proof (turn_ok addr Hn _ _ _ _ _ i Hi) as H.
    cbn [proc] in Hh.
    destruct (turn addr i sys) as [[]|]; try done. cbn [turn_post] in H. congruence.
Qed.

Lemma threads_exclude_witness :
  (forall i j t u, threads (snd two_run) !! i = Some t -> threads (snd two_run) !! j = Some u ->
     inside t = true -> inside u = true -> i = j) /\
  (forall i, match turn 4096 i (snd two_run) with
     | Some Undefined => False
     | Some Aborted => ottery_fatal_handler proc_handler = None
     | Some NoFuel => exists i t, threads (snd two_run) !! i = Some t /\ is_ranging t
     | _ => True
     end).
Proof.
  apply (threads_exclude (p := dummy_prf) 4096 two_threads two_schedule api0 proc_handler
    (fst two_run) (snd two_run)); [discriminate|exact api0_live|exact two_valid|].
  rewrite <-surjective_pairing. exact two_run_eq.
Defined.

(** C8: every thread gets all its replies. With a fatal handler set and no range
    call, no schedule is longer than the steps of the calls add up to, and while
    some thread has calls to make or to finish, some thread can move: there is
    no deadlock, and whoever is scheduled, when no one can move everyone is
    done. *)
Theorem threads_complete {W : Type} {OS0 : OS W} {BC : BuildConfig} {PL : Platform}
    {OL : OSLaws OS0} {p} {PS : PrfSpec p} {PZ : PrfSizes p}
    addr calls sched st0 (s0 : process W) log sys :
  lock_impl <> NO_LOCKS -> live_as p addr LockFree st0 -> Forall (Forall qvalid) calls ->
  Forall (Forall (fun c => qranges c = false)) calls -> ottery_fatal_handler s0 <> None ->
  run addr sched (mk_system (start calls) st0 s0) = Some (log, sys) ->
  (length sched <= sum_list (calls_steps <$> calls))%nat /\
  ((exists i ev sys', turn addr i sys = Some (Ret (ev, sys'))) \/
   forall i t, threads sys !! i = Some t ->
     finished t = true /\ exists cs, calls !! i = Some cs /\ length (replies t) = length cs).
Proof.
  intros Hn Hg Hv Hnr Hh Hrun. split.
  { eapply (run_bounded addr); [|exact Hrun]. apply start_owes. }
  destruct (run_ok addr Hn _ _ _ [] _ _ _ _ (start_ok (p := p) addr calls st0 s0 Hv Hg) Hrun)
    as [Hi Eh].
  destruct (movable_or_finished addr Hn _ _ _ _ _ Hi) as [(i & r & Hr)|Hf].
  - left. exists i. pose proof (turn_ok addr Hn _ _ _ _ _ i Hi) as H. rewrite Hr in H |- *.
    destruct r as [[ev sys']| | |]; [by exists ev, sys'| |done|]; exfalso.
    + cbn [turn_post] in H. cbn [proc] in Eh. congruence.
    + destruct H as (j & t & Ht & Hrg). eapply no_ranging; [exact Hnr|apply Hi|exact Ht|exact Hrg].
  - right. intros i t Ht. split; [by eapply Hf|]. destruct Hi as [(_ & _ & Hp) _].
    destruct (Hp i t Ht) as (cs & Hcs & [_ Hc Hre _]). exists cs. split; [done|].
    specialize (Hf i t Ht). unfold finished in Hf. unfold current in Hc.
    destruct (pending t), (at_pc t); try done. rewrite app_nil_r in Hc.
    by rewrite Hre, Hc, !length_fmap.
Qed.

Lemma threads_complete_witness :
  (length two_schedule <= sum_list (calls_steps <$> two_threads))%nat /\
  ((exists i ev sys', turn 4096 i (snd two_run) = Some (Ret (ev, sys'))) \/
   forall i t, threads (snd two_run) !! i = Some t ->
     finished t = true /\
     exists cs, two_threads !! i = Some cs /\ length (replies t) = length cs).
Proof.
  apply (threads_complete (p := dummy_prf) 4096 two_threads two_schedule api0 proc_handler
    (fst two_run) (snd two_run));
    [discriminate|exact api0_live|exact two_valid|by repeat constructor|discriminate|].
  rewrite <-surjective_pairing. exact two_run_eq.
Defined.
