(* ===== verification/ThreadsGlobal.v ===== *)
(** * Threads sharing the global state

    Several threads call the functions of src/ottery_global.c. Before each call comes
    [CHECK_INIT]: a thread reads the flag, and, if it was clear, initializes the state;
    then it makes the call on the state, in the steps of Threads.v. Nothing orders the
    reading of the flag by one thread and the initialization by another: threads that
    start before the state is initialized can be between lock and unlock together;
    threads that start after cannot. *)
From S2P Require Import Prelude Words Memory Internal Spec Prng Refine TestPrf Session.
From S2P Require Import ChaChaRef ChaChaMerged ChaChaKrovetz Os CpuInfo Entropy TestOs Config Api ApiRefine UnixMachine ApiProps.
From S2P Require Import Safety Global GlobalProps Public Threads ThreadsInv ThreadsProps.
Local Open Scope Z_scope.
Local Open Scope ottery_scope.

Section Steps.
Context {W : Type} {OS0 : OS W} {BC : BuildConfig} {PL : Platform}.
Context (addr : Z).

(** Where a thread is in its call's [CHECK_INIT]: it has yet to read the flag, it has
    found it clear, or it is past. *)
Inductive check_pc := AtFlag | AtInit | Past.

(** The flag, the threads and the state, and the threads' places. *)
Record gsystem := mk_gsystem {
  g_flag : bool;
  g_sys : system (W := W);
  g_checks : list check_pc }.

(** One step of thread [i], and the call it completed, if any. *)
Definition gturn (i : nat) (gs : gsystem) : option (outcome (option event * gsystem)) :=
  let sys := g_sys gs in
  t ← threads sys !! i;
  pc ← g_checks gs !! i;
  match pc, pending t with
  | AtFlag, [] => None
  | AtFlag, _ :: _ =>
      let pc := if g_flag gs then Past else AtInit in
      Some (Ret (None, mk_gsystem (g_flag gs) sys (<[i := pc]> (g_checks gs))))
  | AtInit, [] => None
  | AtInit, c :: rest => Some
      match CHECK_INIT_body addr (mk_global (g_flag gs) (shared sys)) (proc sys) with
      | Ret (true, g, s) =>
          Ret (None, mk_gsystem (ottery_global_state_initialized_ g)
                 (mk_system (threads sys) (ottery_global_state_ g) s) (<[i := Past]> (g_checks gs)))
      | Ret (false, g, s) =>
          let t := mk_thread rest (replies t ++ [not_initialized c]) Between in
          Ret (Some (mk_event i c (not_initialized c)),
               mk_gsystem (ottery_global_state_initialized_ g)
                 (mk_system (<[i := t]> (threads sys)) (ottery_global_state_ g) s) (<[i := AtFlag]> (g_checks gs)))
      | Aborted => Aborted | Undefined => Undefined | NoFuel => NoFuel
      end
  | Past, _ =>
      r ← turn addr i sys;
      Some match r with
      | Ret (ev, sys) =>
          let pc := match ev with Some _ => AtFlag | None => Past end in
          Ret (ev, mk_gsystem (g_flag gs) sys (<[i := pc]> (g_checks gs)))
      | Aborted => Aborted | Undefined => Undefined | NoFuel => NoFuel
      end
  end.

Fixpoint grun (sched : list nat) (gs : gsystem) : option (list event * gsystem) :=
  match sched with
  | [] => Some ([], gs)
  | i :: sched =>
      match gturn i gs with
      | Some (Ret (ev, gs)) =>
          '(log, gs) ← grun sched gs; Some (match ev with Some e => e :: log | None => log end, gs)
      | _ => None
      end
  end.

(** Threads that have made no call yet, on a global state. *)
Definition gstart (calls : list (list query)) (g : global) (s : process W) : gsystem :=
  mk_gsystem (ottery_global_state_initialized_ g) (mk_system (start calls) (ottery_global_state_ g) s)
    (replicate (length calls) AtFlag).

(** ** The steps of a call make up the call *)

(** The functions of the API are [CHECK_INIT] and the call on the state. *)
Lemma ask_global c g (s : process W) :
  ask (global_ops addr) c g s =
  (do '(ok, g) <- CHECK_INIT addr g;
   if negb ok then ret (not_initialized c, g)
   else do '(r, st) <- ask (st_ops addr) c (ottery_global_state_ g);
        ret (r, mk_global (ottery_global_state_initialized_ g) st)) s.
Proof.
  destruct c; cbn [ask global_ops st_ops op_rand_bytes op_rand_unsigned op_rand_uint32 op_rand_uint64 op_rand_range
    op_rand_range64 op_add_seed op_prevent_backtracking not_initialized];
    unfold ottery_rand_bytes, ottery_rand_unsigned, ottery_rand_uint32, ottery_rand_uint64, ottery_rand_range,
      ottery_rand_range64, ottery_add_seed, ottery_prevent_backtracking, with_global;
    rewrite ?bind_assoc; apply bind_ext; intros [[] g1] s1; cbn [negb]; rewrite ?bind_ret, ?bind_assoc; try done;
    apply bind_ext; intros r s2; destruct r; rewrite ?bind_ret, ?bind_assoc, ?bind_ret; try done.
Qed.
End Steps.

(** ** Once the state is initialized *)

Section Initialized.
Context {W : Type} {OS0 : OS W} {BC : BuildConfig} {PL : Platform}.
Context (addr : Z).

(** The flag is set, and no thread has found it clear. *)
Definition all_past (gs : gsystem (W := W)) : Prop :=
  g_flag gs = true /\ forall i, g_checks gs !! i <> Some AtInit.

Lemma all_past_insert flag sys checks i pc (sys' : system (W := W)) :
  all_past (mk_gsystem flag sys checks) -> pc <> AtInit -> all_past (mk_gsystem flag sys' (<[i := pc]> checks)).
Proof.
  intros [Hf Hi] Hpc. split; [done|]. cbn [g_checks]. intros j Hj.
  apply list_lookup_insert_Some in Hj as [(<- & [= ->] & _)|(_ & Hj)]; [done|by apply (Hi j)].
Qed.

(** Then the threads only make steps of calls on the state. *)
Lemma grun_run sched gs log gs' :
  all_past gs -> grun addr sched gs = Some (log, gs') ->
  exists sched', run addr sched' (g_sys gs) = Some (log, g_sys gs').
Proof.
  revert gs log. induction sched as [|i sched IH]; intros [flag sys checks] log Hp; cbn [grun].
  { intros [= <- <-]. by exists []. }
  unfold gturn. cbn [g_sys g_flag g_checks]. destruct (threads sys !! i) as [t|] eqn:Ht; [|done].
  cbn [mbind option_bind]. destruct (checks !! i) as [pc|] eqn:Hc; [|done]. destruct pc.
  - destruct (pending t); [done|]. pose proof Hp as [Hf _]. cbn [g_flag] in Hf. subst flag. intros H. inv_bind H.
    destruct x as [log1 gs1]. injection H as <- <-. apply IH in Hx; [done|by eapply all_past_insert].
  - by destruct (proj2 Hp i).
  - destruct (turn addr i sys) as [[[ev sys1]| | |]|] eqn:Et; try done. cbn [mbind option_bind].
    intros H. inv_bind H. destruct x as [log1 gs1]. injection H as <- <-.
    apply IH in Hx as (sched' & E); [|eapply all_past_insert; [exact Hp|by destruct ev]].
    exists (i :: sched'). cbn [run]. rewrite Et. cbn [g_sys] in E. by rewrite E.
Qed.

Lemma gstart_past calls g (s : process W) :
  ottery_global_state_initialized_ g = true -> all_past (gstart calls g s).
Proof.
  intros Hg. split; [done|]. intros i H. cbn [gstart g_checks] in H.
  by apply lookup_replicate in H as [? _].
Qed.
End Initialized.

(** ** Before it is *)

Section Race.
Context {W : Type} {OS0 : OS W} {BC : BuildConfig} {PL : Platform} {OL : OSLaws OS0} {UM : UnixMachine OS0}.
Context (addr : Z).

(** On a Unix machine with its devices, the check initializes the state, with a free
    lock, whatever is going on in it. *)
Lemma check_init_machine g (s : process W) :
  Z.land addr 0xf = 0 -> lock_impl <> NO_LOCKS ->
  exists q (PS : PrfSpec q) st' s', CHECK_INIT_body addr g s = Ret (true, mk_global true st', s') /\
    live_as q addr LockFree st'.
Proof.
  intros Ha Hn. destruct (resolve_ok None s I) as (q & Hq & PS & PZ).
  destruct (machine_initialize (q := q) addr (ottery_global_state_ g) None true s 0 Hq Ha) as (st' & s' & E & _ & Hok);
    [done|done|by apply expected_success; [..|exact um_urandom|]|].
  destruct (Hok eq_refl) as (a & Hc & Hm & _ & Hl & _). exists q, PS, st', s'. split.
  - unfold CHECK_INIT_body, ottery_init, ottery_st_init. by rewrite bind_assoc, (bind_Ret _ _ _ _ _ E).
  - split; [exists a; by destruct Hc as [[] _ _]|]. split; [done|]. by destruct (Hl eq_refl).
Qed.

(** A thread past the check, on a state with a free lock, enters and locks it. *)
Lemma past_enters i c rest rs sys checks flag q {PS : PrfSpec q} :
  lock_impl <> NO_LOCKS -> threads sys !! i = Some (mk_thread (c :: rest) rs Between) ->
  checks !! i = Some Past -> live_as q addr LockFree (shared sys) ->
  grun addr [i; i] (mk_gsystem flag sys checks) =
    Some ([], mk_gsystem flag
      (mk_system (<[i := mk_thread rest rs (Inside c (locked_section addr c))]> (threads sys))
        (set_mutex LockHeld (shared sys)) (proc sys)) (<[i := Past]> checks)).
Proof.
  intros Hn Ht Hc Hg. pose proof (entry_ok addr c LockFree _ (proc sys) Hg) as He.
  destruct (acquire_ok addr Hn _ (proc sys) Hg) as [El _].
  assert (i < length (threads sys))%nat as Hi by (by eapply lookup_lt_Some).
  assert (i < length checks)%nat as Hk by (by eapply lookup_lt_Some).
  cbn [grun]. unfold gturn at 1. cbn [g_sys g_flag g_checks]. rewrite Ht, Hc. cbn [mbind option_bind].
  unfold turn at 1. rewrite Ht. cbn [mbind option_bind at_pc pending replies]. rewrite He. cbn [grun].
  unfold gturn. cbn [g_sys g_flag g_checks threads]. rewrite !list_lookup_insert_eq by done.
  cbn [mbind option_bind]. unfold turn. cbn [threads shared proc]. rewrite list_lookup_insert_eq by done.
  cbn [mbind option_bind at_pc pending replies]. rewrite (waits_free addr Hn _ Hg), El. cbn [mbind option_bind].
  by rewrite !list_insert_insert_eq.
Qed.

(** A thread that has found the flag clear initializes the state. *)
Lemma init_passes i c rest rs flag sys checks :
  Z.land addr 0xf = 0 -> lock_impl <> NO_LOCKS -> threads sys !! i = Some (mk_thread (c :: rest) rs Between) ->
  checks !! i = Some AtInit ->
  exists q (PS : PrfSpec q) st' s', live_as q addr LockFree st' /\
    gturn addr i (mk_gsystem flag sys checks) =
      Some (Ret (None, mk_gsystem true (mk_system (threads sys) st' s') (<[i := Past]> checks))).
Proof.
  intros Ha Hn Ht Hc.
  destruct (check_init_machine (mk_global flag (shared sys)) (proc sys) Ha Hn) as (q & PS & st' & s' & E & Hl).
  exists q, PS, st', s'. split; [done|]. unfold gturn. cbn [g_sys g_flag g_checks]. rewrite Ht, Hc.
  cbn [mbind option_bind pending]. by rewrite E.
Qed.
End Race.

Lemma grun_app {W : Type} {OS0 : OS W} {BC : BuildConfig} {PL : Platform} addr sched sched' gs log gs1 log' gs2 :
  grun addr sched gs = Some (log, gs1) -> grun addr sched' gs1 = Some (log', gs2) ->
  grun addr (sched ++ sched') gs = Some (log ++ log', gs2).
Proof.
  revert gs log. induction sched as [|i sched IH]; intros gs log; cbn [grun app].
  { by intros [= <- ->] ->. }
  destruct (gturn addr i gs) as [[[ev gs0]| | |]|]; try done. intros H H'. inv_bind H. destruct x as [log0 gs0'].
  injection H as <- ->. rewrite (IH _ _ Hx H'). by destruct ev.
Qed.

Section Together.
Context {W : Type} {OS0 : OS W} {BC : BuildConfig} {PL : Platform} {OL : OSLaws OS0} {UM : UnixMachine OS0}.
Context (addr : Z) (aligned : Z.land addr 0xf = 0) (locks : lock_impl <> NO_LOCKS).

Definition entered (c : query) (rest : list query) : thread := mk_thread rest [] (Inside c (locked_section addr c)).

(** From where it has found the flag clear, a thread gets into its critical section,
    whoever is there. *)
Lemma init_enters i c rest flag sys checks :
  threads sys !! i = Some (mk_thread (c :: rest) [] Between) -> checks !! i = Some AtInit ->
  exists st' s', grun addr [i; i; i] (mk_gsystem flag sys checks) =
    Some ([], mk_gsystem true (mk_system (<[i := entered c rest]> (threads sys)) st' s') (<[i := Past]> checks)).
Proof.
  intros Ht Hc. destruct (init_passes addr i c rest [] flag sys checks aligned locks Ht Hc) as (q & PS & st1 & s1 & Hl & E).
  pose proof (past_enters addr i c rest [] (mk_system (threads sys) st1 s1) (<[i := Past]> checks) true q locks Ht
    (list_lookup_insert_eq _ _ _ (lookup_lt_Some _ _ _ Hc)) Hl) as E2.
  cbn [threads shared proc] in E2. rewrite list_insert_insert_eq in E2. do 2 eexists.
  change [i; i; i] with ([i] ++ [i; i]). eapply (grun_app addr _ _ _ []); [cbn [grun]; by rewrite E|exact E2].
Qed.

(** Two threads read the flag before either initializes the state. *)
Lemma both_read calls g (s : process W) i j ci cj ri rj :
  ottery_global_state_initialized_ g = false -> i <> j -> calls !! i = Some (ci :: ri) -> calls !! j = Some (cj :: rj) ->
  exists checks, checks !! i = Some AtInit /\ checks !! j = Some AtInit /\
    grun addr [i; j] (gstart calls g s) =
      Some ([], mk_gsystem false (mk_system (start calls) (ottery_global_state_ g) s) checks).
Proof.
  intros Hg Hij Hi Hj. set (checks := replicate (length calls) AtFlag).
  assert (forall k c r, calls !! k = Some (c :: r) ->
    start (W := W) calls !! k = Some (mk_thread (c :: r) [] Between) /\ (k < length checks)%nat /\
    checks !! k = Some AtFlag) as H.
  { intros k c r Hk. pose proof (lookup_lt_Some _ _ _ Hk) as Hlt. unfold start, checks.
    rewrite list_lookup_fmap, Hk, length_replicate, lookup_replicate_2 by done. done. }
  destruct (H i ci ri Hi) as (Ht & Hil & Hci), (H j cj rj Hj) as (Hu & Hjl & Hcj).
  exists (<[j := AtInit]> (<[i := AtInit]> checks)).
  rewrite list_lookup_insert_ne, list_lookup_insert_eq by (congruence || done).
  rewrite list_lookup_insert_eq by (by rewrite length_insert). split; [done|]. split; [done|].
  unfold gstart. rewrite Hg. fold checks. cbn [grun]. unfold gturn. cbn [g_sys g_flag g_checks threads].
  rewrite Ht, Hci. cbn [mbind option_bind pending g_checks g_sys g_flag threads]. rewrite Hu. cbn [mbind option_bind].
  rewrite list_lookup_insert_ne, Hcj by congruence. done.
Qed.

Lemma race calls g (s : process W) i j ci cj ri rj :
  ottery_global_state_initialized_ g = false -> i <> j -> calls !! i = Some (ci :: ri) -> calls !! j = Some (cj :: rj) ->
  exists gs t u, grun addr [i; j; i; i; i; j; j; j] (gstart calls g s) = Some ([], gs) /\
    threads (g_sys gs) !! i = Some t /\ threads (g_sys gs) !! j = Some u /\
    at_pc t = Inside ci (locked_section addr ci) /\ at_pc u = Inside cj (locked_section addr cj).
Proof.
  intros Hg Hij Hi Hj. destruct (both_read calls g s i j ci cj ri rj Hg Hij Hi Hj) as (checks & Hci & Hcj & E1).
  assert (forall k c r, calls !! k = Some (c :: r) -> start (W := W) calls !! k = Some (mk_thread (c :: r) [] Between)) as H
    by (intros k c r Hk; unfold start; by rewrite list_lookup_fmap, Hk).
  destruct (init_enters i ci ri false (mk_system (start calls) (ottery_global_state_ g) s) checks (H _ _ _ Hi) Hci)
    as (st1 & s1 & E2). cbn [threads] in E2.
  destruct (init_enters j cj rj true (mk_system (<[i := entered ci ri]> (start calls)) st1 s1) (<[i := Past]> checks))
    as (st2 & s2 & E3); [cbn [threads]; rewrite list_lookup_insert_ne by congruence; by apply H|
      by rewrite list_lookup_insert_ne by congruence|]. cbn [threads] in E3.
  eexists _, (entered ci ri), (entered cj rj). split; [|split; [|split; [|done]]].
  - change [i; j; i; i; i; j; j; j] with ([i; j] ++ [i; i; i] ++ [j; j; j]).
    eapply (grun_app addr _ _ _ [] _ []); [exact E1|]. eapply (grun_app addr _ _ _ []); [exact E2|exact E3].
  - cbn [g_sys threads]. rewrite list_lookup_insert_ne by congruence.
    by apply list_lookup_insert_eq, (lookup_lt_Some _ _ _ (H _ _ _ Hi)).
  - cbn [g_sys threads]. apply list_lookup_insert_eq. rewrite length_insert. by apply (lookup_lt_Some _ _ _ (H _ _ _ Hj)).
Qed.
End Together.

(** ** The property *)

(** C37: the lazy initialization of the global state defeats its lock. On a Unix
    machine with its devices, in any build with locks, whatever two threads first call
    through the global functions before the state is initialized, there is a schedule
    that leaves both between the lock and the unlock of those calls: each reads the
    flag of [CHECK_INIT] before the other has initialized the state, so the second
    initializes it again, with a fresh lock, under the first. Once the flag is set and
    the state live when the threads start, on any machine, no schedule does that: the
    threads only make the steps of calls on the state, in some schedule of these, so
    that at most one of them is inside. *)
Theorem global_init_breaks_lock {W : Type} {OS0 : OS W} {BC : BuildConfig} {PL : Platform} {OL : OSLaws OS0}
    addr calls g (s : process W) :
  lock_impl <> NO_LOCKS ->
  (forall (UM : UnixMachine OS0) i j ci cj ri rj,
     Z.land addr 0xf = 0 -> ottery_global_state_initialized_ g = false ->
     i <> j -> calls !! i = Some (ci :: ri) -> calls !! j = Some (cj :: rj) ->
     exists sched gs t u, grun addr sched (gstart calls g s) = Some ([], gs) /\
       threads (g_sys gs) !! i = Some t /\ threads (g_sys gs) !! j = Some u /\
       at_pc t = Inside ci (locked_section addr ci) /\ at_pc u = Inside cj (locked_section addr cj)) /\
  (forall p (PS : PrfSpec p) (PZ : PrfSizes p) sched log gs,
     ottery_global_state_initialized_ g = true -> live_as p addr LockFree (ottery_global_state_ g) ->
     Forall (Forall qvalid) calls -> grun addr sched (gstart calls g s) = Some (log, gs) ->
     (exists sched', run addr sched' (mk_system (start calls) (ottery_global_state_ g) s) = Some (log, g_sys gs)) /\
     forall i j t u, threads (g_sys gs) !! i = Some t -> threads (g_sys gs) !! j = Some u ->
       inside t = true -> inside u = true -> i = j).
Proof.
  intros Hn. split.
  - intros UM i j ci cj ri rj Ha Hg Hij Hi Hj. exists [i; j; i; i; i; j; j; j]. by eapply race.
  - intros p PS PZ sched log gs Hg Hl Hv Hrun.
    destruct (grun_run addr sched _ _ _ (gstart_past calls g s Hg) Hrun) as (sched' & E). cbn [gstart g_sys] in E.
    split; [by exists sched'|].
    destruct (run_ok addr Hn _ _ _ [] _ _ _ _ (start_ok (p := p) addr calls _ s Hv Hl) E) as [Hi _].
    intros i j t u. by apply (inside_alone addr calls (ottery_global_state_ g) s ([] ++ log) (g_sys gs)).
Qed.

(** Two threads that start before the state is initialized, on the machine of the
    witnesses; and two that start after. *)
#[local] Existing Instances default_build unix_os unix_os_laws unix_machine.

Definition late_global : global := mk_global true api0.
Definition late_run : list event * gsystem :=
  default ([], gstart two_threads late_global proc_handler)
    (grun 4096 [0; 1; 0; 0; 1; 0; 0; 0; 1; 0; 1]%nat (gstart two_threads late_global proc_handler)).

Lemma late_run_eq :
  grun 4096 [0; 1; 0; 0; 1; 0; 0; 0; 1; 0; 1]%nat (gstart two_threads late_global proc_handler) = Some late_run.
Proof.
  assert (bool_decide (is_Some (grun 4096 [0; 1; 0; 0; 1; 0; 0; 0; 1; 0; 1]%nat
    (gstart two_threads late_global proc_handler))) = true) as H by (vm_compute; reflexivity).
  unfold late_run. by destruct (grun _ _ _).
Qed.

Lemma global_init_breaks_lock_witness :
  (exists sched gs t u, grun 8192 sched (gstart two_threads initial_global proc_handler) = Some ([], gs) /\
     threads (g_sys gs) !! 0%nat = Some t /\ threads (g_sys gs) !! 1%nat = Some u /\
     at_pc t = Inside (QBytes (zeros 40) 0 40) (locked_section 8192 (QBytes (zeros 40) 0 40)) /\
     at_pc u = Inside QUint64 (locked_section 8192 QUint64)) /\
  (forall i j t u, threads (g_sys (snd late_run)) !! i = Some t -> threads (g_sys (snd late_run)) !! j = Some u ->
     inside t = true -> inside u = true -> i = j).
Proof.
  assert (lock_impl <> NO_LOCKS) as Hn by discriminate. split.
  - by apply (proj1 (global_init_breaks_lock 8192 two_threads initial_global proc_handler Hn) unix_machine
      0%nat 1%nat (QBytes (zeros 40) 0 40) QUint64 [QUint32] []).
  - apply (proj2 (global_init_breaks_lock 4096 two_threads late_global proc_handler Hn) dummy_prf _ _
      [0; 1; 0; 0; 1; 0; 0; 0; 1; 0; 1]%nat (fst late_run) (snd late_run));
      [reflexivity|exact api0_live|exact two_valid|rewrite <-surjective_pairing; exact late_run_eq].
Defined.
