(* ===== verification/ThreadsOs.v ===== *)
(** * Threads that add entropy, in a changing world

    Threads.v leaves two things out: the call [ottery_st_add_seed(st, NULL, 0)],
    which runs the entropy sources and stores their state before it takes the
    lock, and a world that changes while threads run. Here both are in: a null
    seed is gathered, stored and mixed in in separate steps, other threads write
    the stored entropy state even while one is inside the lock, and between steps
    the world may become any other in which the process keeps its id. *)
From S2P Require Import Prelude Words Memory Internal Spec Prng Refine TestPrf Session.
From S2P Require Import ChaChaRef ChaChaMerged ChaChaKrovetz Os CpuInfo Entropy TestOs Config Api ApiRefine ApiProps.
From S2P Require Import Safety Global GlobalProps Public Threads.
Local Open Scope Z_scope.
Local Open Scope ottery_scope.

(** ** The steps *)

(** A call: one of Public.v's, or [ottery_st_add_seed(st, NULL, 0)]. *)
Inductive tcall := Asks (c : query) | OsSeed.

Section Steps.
Context {W : Type} {OS0 : OS W} {BC : BuildConfig} {PL : Platform}.
Context (addr : Z).

Definition enters (c : tcall) (st : ottery_state) : M W bool :=
  match c with
  | Asks c => entry addr c st
  | OsSeed => ottery_st_rand_check_init addr st
  end.

Definition turned_away (c : tcall) : reply :=
  match c with
  | Asks c => refused c
  | OsSeed => RInt OTTERY_ERR_STATE_INIT
  end.

(** The sources, with the state they find; with the length of the stack buffer
    they fill. *)
Definition gather (st : ottery_state) : M W (entropy_result * Z) :=
  let sb := state_bytes (st_prf st) in
  let tmp_seed_len := ottery_get_entropy_bufsize_ sb in
  do er <- ottery_get_entropy_ (Some (st_entropy_config st)) (Some (st_entropy_state st)) 0
    (zeros tmp_seed_len) sb tmp_seed_len;
  ret (er, tmp_seed_len).

(** What the sources leave in the shared entropy state. *)
Definition store (er : entropy_result) (st : ottery_state) : ottery_state :=
  set_entropy_state (default (st_entropy_state st) (er_state er)) st.

(** The error with which the call ends there, if it does. *)
Definition unseeded (er : entropy_result) (st : ottery_state) : option Z :=
  if negb (er_err er =? 0) then Some (er_err er)
  else if er_buflen er <? state_bytes (st_prf st) then Some OTTERY_ERR_ACCESS_STRONG_RNG
  else None.

(** Between the lock and the unlock. *)
Definition seed_section (bytes : list byte) (n flags : Z) : crit W reply :=
  Do (fun st => do st <- lift (mix_seed st bytes n); ret (tt, st)) (fun _ =>
  Do (fun st => ret (tt, set_last_entropy_flags flags
        (set_entropy_src_flags (Z.lor (st_entropy_src_flags st) flags) st))) (fun _ =>
  Leave (RInt 0))).

(** After the unlock: the copy of the seed on the stack. *)
Definition clear_seed (seed : option (entropy_result * Z)) : M W unit :=
  do _ <- clear_tmp_seed ((fun '(er, tmp_seed_len) => (er_bytes er, tmp_seed_len)) <$> seed);
  ret tt.

(** Where a thread is: between calls, past the check, with the sources' result
    not yet stored, about to lock with a seed, inside. *)
Inductive place :=
  | Out
  | Past (c : tcall)
  | Holding (er : entropy_result) (tmp_seed_len : Z)
  | Seeded (er : entropy_result) (tmp_seed_len : Z)
  | In (c : tcall) (seed : option (entropy_result * Z)) (k : crit W reply).

Record worker := mk_worker { todo : list tcall; answers_ : list reply; place_ : place }.

Record shop := mk_shop {
  workers : list worker;
  common : ottery_state;
  process_ : process W }.

(** A completed call, with what the sources gave it. *)
Record happening := mk_happening {
  hp_thread : nat; hp_call : tcall; hp_reply : reply; hp_seed : option entropy_result }.

(** Continue an outcome of the monad. *)
Definition then_ {A B} (r : outcome (A * process W)) (f : A -> process W -> B) : outcome B :=
  match r with
  | Ret (a, s) => Ret (f a s)
  | Aborted => Aborted
  | Undefined => Undefined
  | NoFuel => NoFuel
  end.

(** One step of thread [i]. *)
Definition tick (i : nat) (sys : shop) : option (outcome (option happening * shop)) :=
  t ← workers sys !! i;
  let st := common sys in
  let goto t st s := mk_shop (<[i := t]> (workers sys)) st s in
  let stay p st s := (None, goto (mk_worker (todo t) (answers_ t) p) st s) in
  let answer c r er rest st s :=
    (Some (mk_happening i c r er), goto (mk_worker rest (answers_ t ++ [r]) Out) st s) in
  match place_ t with
  | Out =>
      match todo t with
      | [] => None
      | c :: rest => Some (then_ (enters c st (process_ sys)) (fun ok s =>
          if ok : bool then (None, goto (mk_worker rest (answers_ t) (Past c)) st s)
          else answer c (turned_away c) None rest st s))
      end
  | Past OsSeed => Some (then_ (gather st (process_ sys)) (fun '(er, n) => stay (Holding er n) st))
  | Holding er n =>
      let st := store er st in
      Some match unseeded er st with
      | Some err => Ret (answer OsSeed (RInt err) (Some er) (todo t) st (process_ sys))
      | None => Ret (stay (Seeded er n) st (process_ sys))
      end
  | Past (Asks c) =>
      if waits st then None else
        Some (then_ (LOCK st (process_ sys)) (fun st => stay (In (Asks c) None (locked_section addr c)) st))
  | Seeded er n =>
      if waits st then None else
        Some (then_ (LOCK st (process_ sys)) (fun st =>
          stay (In OsSeed (Some (er, n)) (seed_section (er_bytes er) (er_buflen er) (er_flags_out er))) st))
  | In c seed (Do m k) => Some (then_ (m st (process_ sys)) (fun '(b, st) => stay (In c seed (k b)) st))
  | In c seed (Leave r) => Some
      (then_ ((do st <- UNLOCK st; do_ clear_seed seed; ret st) (process_ sys))
        (fun st => answer c r (fst <$> seed) (todo t) st))
  end.

(** A schedule also says when the world changes, and to what. *)
Inductive item := Tick (i : nat) | World (w : W).

Definition happens (it : item) (sys : shop) : option (option happening * shop) :=
  match it with
  | Tick i => match tick i sys with Some (Ret r) => Some r | _ => None end
  | World w => Some (None, mk_shop (workers sys) (common sys) (set_world w (process_ sys)))
  end.

(** What a schedule leads to, as long as the process keeps its id: the child of
    a fork runs a schedule of its own. *)
Fixpoint work (sched : list item) (sys : shop) : option (list happening * shop) :=
  match sched with
  | [] => Some ([], sys)
  | it :: sched =>
      '(ev, sys1) ← happens it sys;
      guard (os_getpid (world (process_ sys1)) = os_getpid (world (process_ sys)));;
      '(log, sys2) ← work sched sys1;
      Some (match ev with Some e => e :: log | None => log end, sys2)
  end.

Definition hire (calls : list (list tcall)) : list worker := (fun cs => mk_worker cs [] Out) <$> calls.

Definition is_in (t : worker) : bool := match place_ t with In _ _ _ => true | _ => false end.

Definition done_ (t : worker) : bool :=
  match todo t, place_ t with [], Out => true | _, _ => false end.

End Steps.

(** ** What the abstract generator makes of the completed calls *)

#[export] Instance reply_eq_dec : EqDecision reply.
Proof. solve_decision. Defined.

Section Replay.
Context (p : ottery_prf) {PS : PrfSpec p}.

(** The generator after a completed call; [None] when the reply is not the one
    the generator gives. A seed from the sources adds their bytes, or ends in
    their error and changes nothing. *)
Definition replay1 (e : happening) (a : prng) : option prng :=
  match hp_call e, hp_seed e with
  | Asks c, None => '(r, a) ← spec_ask p c a; guard (hp_reply e = r);; Some a
  | OsSeed, Some er =>
      if er_err er =? 0 then
        guard (hp_reply e = RInt 0);;
        Some (add (state_bytes p) (output_len p) (prf_out p) (seed_bytes er) (mk_prng (K a) []))
      else guard (hp_reply e = RInt (er_err er));; Some a
  | _, _ => None
  end.

Fixpoint replay (log : list happening) (a : prng) : option prng :=
  match log with
  | [] => Some a
  | e :: log => a ← replay1 e a; replay log a
  end.
End Replay.
