(* ===== verification/ThreadsOsInv.v ===== *)
(** * The invariant of threads that add entropy

    What a thread inside its lock has left to do is described by what it will
    reply and where it takes the abstract generator, from any state that
    represents the same generator: so the writes of other threads to the entropy
    state, and changes of the world, cannot disturb it. *)
From S2P Require Import Prelude Words Memory Internal Spec Prng Refine TestPrf Session.
From S2P Require Import ChaChaRef ChaChaMerged ChaChaKrovetz Os CpuInfo Entropy TestOs Config Api ApiRefine ApiProps.
From S2P Require Import Safety Global GlobalProps Public Threads ThreadsInv ThreadsOs.
Local Open Scope Z_scope.
Local Open Scope ottery_scope.

(** One step of a schedule, then the rest. *)
Lemma work_cons {W : Type} {OS0 : OS W} {BC : BuildConfig} {PL : Platform} addr it sched (sys : shop) log sys' :
  work addr (it :: sched) sys = Some (log, sys') ->
  exists ev sys1 log1, happens addr it sys = Some (ev, sys1) /\
    os_getpid (world (process_ sys1)) = os_getpid (world (process_ sys)) /\
    work addr sched sys1 = Some (log1, sys') /\ log = ext ev ++ log1.
Proof.
  cbn [work]. intros H. inv_bind H. destruct x as [ev sys1]. inv_bind H. case_guard as Hpid; [|done].
  inv_bind H. destruct x0 as [log1 sys2]. injection H as <- <-.
  exists ev, sys1, log1. by destruct ev.
Qed.

Section Invariant.
Context {W : Type} {OS0 : OS W} {BC : BuildConfig} {PL : Platform} {OL : OSLaws OS0}.
Context {p : ottery_prf} {PS : PrfSpec p} {PZ : PrfSizes p}.
Context (addr : Z) (cfg : ottery_entropy_config).
Hypothesis Hlocks : lock_impl <> NO_LOCKS.

(** ** The shared state *)

(** A state with the lock [l], seeded in the process [pid], that represents [a]. *)
Record holds (l : lock_state) (pid : Z) (st : ottery_state) (a : prng) : Prop := mk_holds {
  ho_rep : rep st a;
  ho_magic : st_magic st = MAGIC addr;
  ho_pid : no_pid_check = true \/ st_pid st = pid;
  ho_cfg : st_entropy_config st = cfg;
  ho_lock : st_mutex st = l;
}.

Lemma holds_store l pid st a er : holds l pid st a -> holds l pid (store er st) a.
Proof. intros [[[] ???] ? Hp ??]. split; [by split; [split|..]|done|exact Hp|done|done]. Qed.

Lemma holds_frame l pid st st' a a' :
  holds l pid st a -> same_frame st st' -> rep st' a' -> holds l pid st' a'.
Proof. intros [? ? Hp ? ?] [? Em Ei ? ? Ec ? El] ?. split; [done|congruence|by rewrite Ei|congruence..]. Qed.

Lemma holds_flags l pid st a f g :
  holds l pid st a -> holds l pid (set_last_entropy_flags f (set_entropy_src_flags g st)) a.
Proof. intros [[[] ???] ? Hp ??]. split; [by split; [split|..]|done|exact Hp|done|done]. Qed.

Lemma holds_mutex l l' pid st a : holds l pid st a -> holds l' pid (set_mutex l' st) a.
Proof. intros [[[] ???] ? Hp ??]. split; [by split; [split|..]|done|exact Hp|done|done]. Qed.

Lemma holds_checked l st a (s : process W) :
  holds l (os_getpid (world s)) st a -> checked addr st a s.
Proof. intros []. split; [done|by right|done]. Qed.

Lemma holds_waits l pid st a : holds l pid st a -> l = LockHeld \/ l = LockFree -> waits st =
  match l with LockHeld => true | _ => false end.
Proof. intros [_ _ _ _ Hl] [-> | ->]; unfold waits; rewrite Hl; by destruct lock_impl. Qed.

Lemma holds_lock pid st a (s : process W) :
  holds LockFree pid st a ->
  LOCK st s = Ret (set_mutex LockHeld st, s) /\ holds LockHeld pid (set_mutex LockHeld st) a.
Proof.
  intros Hh. split; [|by eapply holds_mutex]. rewrite LOCK_ok by (right; apply (ho_lock _ _ _ _ Hh)).
  by rewrite (ho_lock _ _ _ _ Hh), held_LockFree.
Qed.

Lemma holds_unlock pid st a (s : process W) :
  holds LockHeld pid st a ->
  UNLOCK st s = Ret (set_mutex LockFree st, s) /\ holds LockFree pid (set_mutex LockFree st) a.
Proof.
  intros Hh. split; [|by eapply holds_mutex].
  rewrite (UNLOCK_ok (set_mutex LockFree st) st); [done|by right|].
  rewrite (ho_lock _ _ _ _ Hh). symmetry. by apply held_LockFree.
Qed.

(** ** What a section promises *)

(** From any state that holds [a], in any world, [k] ends with the reply and the
    generator of [res], or runs out of draws if that is [None]. *)
Fixpoint promises (k : crit W reply) (a : prng) (res : option (reply * prng)) : Prop :=
  match k with
  | Leave r => res = Some (r, a)
  | Do m k => forall st s, holds LockHeld (os_getpid (world s)) st a ->
      (m st s = NoFuel /\ res = None) \/
      exists b st' a', m st s = Ret (b, st', s) /\ holds LockHeld (os_getpid (world s)) st' a' /\
        promises (k b) a' res
  end.

(** A step that does one operation of the core. *)
Lemma promises_core {B} (m : ottery_state -> M W (B * ottery_state)) (k : B -> crit W reply) a a' b res :
  (forall st (s : process W), rep st a -> exists st', m st s = Ret (b, st', s) /\ rep st' a' /\ same_frame st st') ->
  promises (k b) a' res -> promises (Do m k) a res.
Proof.
  intros Hm Hk st s Hh. destruct (Hm st s (ho_rep _ _ _ _ Hh)) as (st' & E & Hr & Hf).
  right. exists b, st', a'. split; [done|]. split; [by eapply holds_frame|done].
Qed.

Lemma promises_checked {B} failed (m : ottery_state -> M W (B * ottery_state)) (k : B -> crit W reply) a res :
  promises (Do m k) a res -> promises (checked_section addr failed m k) a res.
Proof.
  intros Hm st s Hh. right. exists true, st, a.
  destruct (holds_checked _ _ _ _ Hh) as [_ _ Hp]. split; [by apply check_pid_ok|done].
Qed.

Lemma promises_int size a (k : Z -> crit W reply) res :
  1 <= size <= 8 ->
  promises (k (le_decode (fst (tiny (state_bytes p) (output_len p) (prf_out p) size a))))
    (snd (tiny (state_bytes p) (output_len p) (prf_out p) size a)) res ->
  promises (Do (fun st => lift (OTTERY_RETURN_RAND_INTTYPE_IMPL size st)) k) a res.
Proof.
  intros Hs Hk. eapply promises_core; [|exact Hk]. intros st s Hr.
  destruct (rand_inttype_ok st a size Hr Hs) as (st' & E & Hr' & Hf & _). exists st'. by rewrite E.
Qed.

Lemma promises_int_section size a :
  1 <= size <= 8 ->
  promises (int_section addr size) a
    (let '(bs, a) := tiny (state_bytes p) (output_len p) (prf_out p) size a in
     Some (RInt (le_decode bs), a)).
Proof.
  intros Hs. apply promises_checked, promises_int; [done|]. by destruct (tiny _ _ _ _ _).
Qed.

Lemma promises_range fuel size divisor upper a :
  1 <= size <= 8 ->
  promises (range_section addr fuel size divisor upper) a
    ('(v, a) ← range (state_bytes p) (output_len p) (prf_out p) fuel size divisor upper a;
     Some (RInt v, a)).
Proof.
  intros Hs. revert a. induction fuel as [|fuel IH]; intros a; [intros st s _; by left|].
  cbn [range_section range]. intros st s Hh. right. exists true, st, a.
  split; [by apply (check_nolock_ok addr st a), (holds_checked LockHeld)|]. split; [done|].
  apply promises_int; [done|]. destruct (tiny _ _ _ _ _) as [bs a1]. cbn [fst snd].
  destruct (upper <? _); [apply IH|done].
Qed.

Lemma promises_section c a : qvalid c -> promises (locked_section addr c) a (spec_ask p c a).
Proof.
  intros Hv. destruct c as [out off n| | | |fuel upper|fuel upper|seed n|];
    cbn [locked_section spec_ask]; try (apply promises_int_section; lia);
    try (apply promises_range; lia).
  - destruct Hv as (Ho & Hn & Hout). apply promises_checked.
    eapply (promises_core _ _ _ (snd (get_bytes _ _ _ n a)) (splice out off (fst (get_bytes _ _ _ n a)))).
    + intros st s Hr. destruct (rand_bytes_impl_ok st a out off n Hr Ho Hn Hout) as (st' & E & Hr' & Hf & _).
      exists st'. by rewrite E.
    + by destruct (get_bytes _ _ _ _ _).
  - eapply (promises_core _ _ _ (add _ _ _ (slice seed 0 n) (mk_prng (K a) [])) tt).
    + intros st s Hr. destruct (mix_seed_ok st a seed n (rep_keyed _ _ Hr) (rep_ctr _ _ Hr))
        as (st' & E & Hr' & Hf); [cbn in Hv; lia|]. exists st'. by rewrite E.
    + intros st s Hh. right. do 3 eexists. split; [reflexivity|]. split; [by apply holds_flags|done].
  - eapply (promises_core _ _ _ a tt); [|done]. intros st s Hr.
    destruct (prevent_ok st a Hr) as (st' & E & Hr' & Hf & _). exists st'. by rewrite E.
Qed.

Lemma promises_seed bytes n fl a :
  0 <= n <= zlen bytes ->
  promises (seed_section bytes n fl) a (Some (RInt 0,
    add (state_bytes p) (output_len p) (prf_out p) (slice bytes 0 n) (mk_prng (K a) []))).
Proof.
  intros Hn. eapply (promises_core _ _ _ (add _ _ _ (slice bytes 0 n) (mk_prng (K a) [])) tt).
  - intros st s Hr. destruct (mix_seed_ok st a bytes n (rep_keyed _ _ Hr) (rep_ctr _ _ Hr) Hn)
      as (st' & E & Hr' & Hf). exists st'. by rewrite E.
  - intros st s Hh. right. do 3 eexists. split; [reflexivity|]. split; [by apply holds_flags|done].
Qed.

(** ** The invariant *)

Abbreviation sb := (state_bytes p).

(** What running the sources can leave in a buffer of [n] bytes: as much as the
    generator needs, or a failure. *)
Definition gathered (er : entropy_result) (n : Z) : Prop :=
  n = ottery_get_entropy_bufsize_ sb /\ zlen (er_bytes er) = n /\
  ((er_err er = 0 /\ sb <= er_buflen er <= zlen (er_bytes er) /\
    (exists used, entropy_success (Some cfg) 0 sb (ottery_get_entropy_bufsize_ sb) er used)) \/
   entropy_failure (ottery_get_entropy_bufsize_ sb) er).

Definition tvalid (c : tcall) : Prop := match c with Asks c => qvalid c | OsSeed => True end.

Definition place_ok (pl : place (W := W)) : Prop :=
  match pl with
  | Out | Past _ | In (Asks _) None _ => True
  | Holding er n => gathered er n
  | Seeded er n | In OsSeed (Some (er, n)) _ => gathered er n /\ er_err er = 0
  | In _ _ _ => False
  end.

(** The call a thread is making. *)
Definition underway (t : worker (W := W)) : list tcall :=
  match place_ t with
  | Out => []
  | Past c | In c _ _ => [c]
  | Holding _ _ | Seeded _ _ => [OsSeed]
  end.

Abbreviation events_of := (log_of hp_thread).

(** Thread [i], which was to make the calls [cs], agrees with the log. *)
Record worker_ok (cs : list tcall) (i : nat) (log : list happening) (t : worker (W := W)) : Prop :=
  mk_worker_ok {
  wo_valid : Forall tvalid cs;
  wo_calls : cs = (hp_call <$> events_of i log) ++ underway t ++ todo t;
  wo_answers : answers_ t = hp_reply <$> events_of i log;
  wo_place : place_ok (place_ t);
}.

(** The seed of an event was gathered. *)
Definition sourced (e : happening) : Prop := forall er, hp_seed e = Some er -> exists n, gathered er n.

Definition crew_ok (calls : list (list tcall)) (log : list happening) (ws : list (worker (W := W)))
  : Prop :=
  length ws = length calls /\ Forall sourced log /\
  forall i t, ws !! i = Some t -> exists cs, calls !! i = Some cs /\ worker_ok cs i log t.

(** Where the call of a thread that is inside leads from [a]. *)
Definition leads (c : tcall) (er : option (entropy_result * Z)) (a : prng) : option (reply * prng) :=
  match c, er with
  | Asks c, None => spec_ask p c a
  | OsSeed, Some (er, _) =>
      Some (RInt 0, add sb (output_len p) (prf_out p) (seed_bytes er) (mk_prng (K a) []))
  | _, _ => None
  end.

(** The lock is free and the state represents [a], or one thread is inside and
    has left to do what takes the state where its call leads from [a]. *)
Inductive door (pid : Z) (ws : list (worker (W := W))) (st : ottery_state) (a : prng) : Prop :=
  | door_free :
      (forall i t, ws !! i = Some t -> is_in t = false) -> holds LockFree pid st a -> door pid ws st a
  | door_held i t c er k a1 :
      ws !! i = Some t -> place_ t = In c er k ->
      (forall j u, ws !! j = Some u -> is_in u = true -> j = i) ->
      holds LockHeld pid st a1 -> promises k a1 (leads c er a) -> door pid ws st a.

Definition shop_ok (pid : Z) (calls : list (list tcall)) (a0 : prng)
    (log : list happening) (sys : shop) : Prop :=
  crew_ok calls log (workers sys) /\
  exists a, replay p log a0 = Some a /\ door pid (workers sys) (common sys) a.

(** ** The parts of a step *)

Lemma replay_snoc log e a0 a a' :
  replay p log a0 = Some a -> replay1 p e a = Some a' -> replay p (log ++ [e]) a0 = Some a'.
Proof.
  revert a0. induction log as [|e0 log IH]; intros a0; cbn [app replay].
  - by intros [= ->] ->.
  - intros H E. inv_bind H. rewrite Hx, bind_Some. by apply IH.
Qed.

Lemma crew_step calls log ws i t t' ev :
  crew_ok calls log ws -> ws !! i = Some t ->
  (forall e, ev = Some e -> hp_thread e = i /\ sourced e) ->
  (forall cs, worker_ok cs i log t -> worker_ok cs i (log ++ ext ev) t') ->
  crew_ok calls (log ++ ext ev) (<[i := t']> ws).
Proof.
  intros (Hlen & Hlog & Hp) Ht Hev Hok. split; [by rewrite length_insert|]. split.
  { apply Forall_ext; [done|]. intros e He. by apply Hev. }
  intros j u Hu. apply list_lookup_insert_Some in Hu as [(<- & <- & _)|[Hne Hu]].
  - destruct (Hp i t Ht) as (cs & Hcs & Htok). exists cs. auto.
  - destruct (Hp j u Hu) as (cs & Hcs & []). exists cs. split; [done|].
    assert (events_of j (log ++ ext ev) = events_of j log) as He
      by (apply (log_of_other hp_thread i); [intros e Ee; by apply Hev|done]).
    split; try done; by rewrite He.
Qed.

(** A thread that is outside before and after, and changes the state to one that
    holds the same. *)
Lemma door_outside pid ws st st' a i t t' :
  door pid ws st a -> ws !! i = Some t -> is_in t = false -> is_in t' = false ->
  (forall l a, holds l pid st a -> holds l pid st' a) -> door pid (<[i := t']> ws) st' a.
Proof.
  intros Hd Ht Ho Ho' Hst. destruct Hd as [Hn Hh|j u c er k a1 Hu Hpc Hx Hh Hr].
  - apply door_free; [|by apply Hst]. intros j u Hu.
    apply list_lookup_insert_Some in Hu as [(_ & <- & _)|[_ Hu]]; [done|by eapply Hn].
  - apply (door_held _ _ _ _ j u c er k a1); [|done| |by apply Hst|done].
    + rewrite list_lookup_insert_ne; [done|]. intros ->. simplify_eq. unfold is_in in Ho. by rewrite Hpc in Ho.
    + intros j' u' Hu' Hin. apply list_lookup_insert_Some in Hu' as [(_ & <- & _)|[_ Hu']];
        [congruence|by eapply Hx].
Qed.

(** A thread that goes in, or goes on inside. *)
Lemma door_inside pid ws st a a1 i t t' c er k :
  ws !! i = Some t -> place_ t' = In c er k ->
  (forall j u, ws !! j = Some u -> is_in u = true -> j = i) ->
  holds LockHeld pid st a1 -> promises k a1 (leads c er a) -> door pid (<[i := t']> ws) st a.
Proof.
  intros Ht Hpc Hx Hh Hr. apply (door_held _ _ _ _ i t' c er k a1); [|done| |done|done].
  - apply list_lookup_insert_eq. by eapply lookup_lt_Some.
  - intros j u Hu Hin. apply list_lookup_insert_Some in Hu as [(<- & _)|[_ Hu]]; [done|by eapply Hx].
Qed.

(** A thread that comes out. *)
Lemma door_leave pid ws st a i t' :
  (forall j u, ws !! j = Some u -> is_in u = true -> j = i) -> is_in t' = false ->
  holds LockFree pid st a -> door pid (<[i := t']> ws) st a.
Proof.
  intros Hx Ho Hh. apply door_free; [|done]. intros j u Hu.
  apply list_lookup_insert_Some in Hu as [(_ & <- & _)|[Hne Hu]]; [done|].
  destruct (is_in u) eqn:E; [|done]. exfalso. apply Hne. symmetry. by eapply Hx.
Qed.

Lemma door_holds pid ws st a : door pid ws st a -> exists l a, holds l pid st a /\ (l = LockHeld \/ l = LockFree).
Proof. intros [? Hh|? ? ? ? ? a1 ? ? ? Hh ?]; [by exists LockFree, a; auto|by exists LockHeld, a1; auto]. Qed.

(** The door is open to whoever need not wait. *)
Lemma door_open pid ws st a :
  door pid ws st a -> waits st = false ->
  (forall i t, ws !! i = Some t -> is_in t = false) /\ holds LockFree pid st a.
Proof.
  intros [Hn Hh|i t c er k a1 ? ? ? Hh ?] Hw; [done|].
  rewrite (holds_waits _ _ _ _ Hh) in Hw by (by left). done.
Qed.

(** The thread that is inside is the one the door knows. *)
Lemma door_in pid ws st a i t c er k :
  door pid ws st a -> ws !! i = Some t -> place_ t = In c er k ->
  (forall j u, ws !! j = Some u -> is_in u = true -> j = i) /\
  exists a1, holds LockHeld pid st a1 /\ promises k a1 (leads c er a).
Proof.
  intros Hd Ht Hpc. assert (is_in t = true) as Hin by (unfold is_in; by rewrite Hpc).
  destruct Hd as [Hn _|j u c' er' k' a1 Hu Hpc' Hx Hh Hr]; [by rewrite (Hn i t Ht) in Hin|].
  assert (i = j) as <- by (by eapply Hx). assert (t = u) as <- by congruence.
  rewrite Hpc in Hpc'. injection Hpc' as <- <- <-. split; [done|]. by exists a1.
Qed.

(** ** Steps keep the invariant *)

Lemma enters_ok c l pid st a (s : process W) :
  holds l pid st a -> enters addr c st s = Ret (true, s).
Proof.
  intros []. destruct c as [[]|]; first [done|apply check_init_ok; by right].
Qed.

Lemma gather_ok l pid st a (s : process W) :
  holds l pid st a -> exists er n s', gather st s = Ret (er, n, s') /\ gathered er n.
Proof.
  intros [Hr _ _ Hc _]. unfold gather. rewrite (keyed_prf _ _ (rep_keyed _ _ Hr)), Hc.
  destruct (seed_entropy_ok (p := p) cfg (st_entropy_state st) s) as (er & s' & E & _ & Hl & H).
  eexists er, _, s'. split; [by rewrite (bind_Ret _ _ _ _ _ E)|]. by repeat split.
Qed.

(** Gathered bytes are a seed, or the error is the sources'. *)
Lemma unseeded_ok l pid st a er n :
  holds l pid st a -> gathered er n ->
  (unseeded er st = None /\ er_err er = 0) \/ (unseeded er st = Some (er_err er) /\ er_err er <> 0).
Proof.
  intros [Hr _ _ _ _]. unfold unseeded. rewrite (keyed_prf _ _ (rep_keyed _ _ Hr)).
  intros (_ & _ & [(He & Hb & _)|[He _ _]]).
  - left. rewrite He, (proj2 (Z.ltb_ge _ _)) by lia. done.
  - right. assert (er_err er <> 0) as Hn by (by destruct He as [-> | ->]).
    by rewrite (proj2 (Z.eqb_neq _ _) Hn).
Qed.

(** What a thread is about to do inside leads where its call does. *)
Lemma promises_In c er a :
  tvalid c -> place_ok (In c er (Leave RVoid) : place (W := W)) ->
  promises (match c, er with
            | OsSeed, Some (er, _) => seed_section (er_bytes er) (er_buflen er) (er_flags_out er)
            | Asks c, _ => locked_section addr c
            | _, _ => Leave RVoid end) a (leads c er a).
Proof.
  destruct c as [c|], er as [[er n]|]; cbn [tvalid place_ok leads]; try done.
  - intros Hv _. by apply promises_section.
  - intros _ [(_ & _ & [(_ & Hb & _)|[[He|He] _ _]]) H0]; [|by rewrite He in H0..].
    pose proof (sizes_facts (p := p)). apply promises_seed. lia.
Qed.

Definition ranging (t : worker (W := W)) : Prop :=
  exists c er k, place_ t = In (Asks c) er k /\ qranges c = true.

Lemma leads_None c er k a :
  place_ok (In c er k : place (W := W)) -> leads c er a = None -> exists q, c = Asks q /\ qranges q = true.
Proof.
  destruct c as [q|], er as [[er n]|]; cbn [place_ok leads]; try done. intros _ H. exists q.
  split; [done|]. destruct q; cbn [spec_ask qranges] in *; try done;
    by destruct (tiny _ _ _ _ _) || destruct (get_bytes _ _ _ _ _).
Qed.

(** A finished section replays. *)
Lemma leads_replay i c er k a r a1 :
  place_ok (In c er k : place (W := W)) -> leads c er a = Some (r, a1) ->
  replay1 p (mk_happening i c r (fst <$> er)) a = Some a1.
Proof.
  destruct c as [q|], er as [[er n]|]; cbn [place_ok leads]; try done; unfold replay1; cbn.
  - intros _ ->. rewrite bind_Some. by rewrite option_guard_True.
  - intros [_ ->] [= <- <-]. cbn. by rewrite option_guard_True.
Qed.

Definition tick_post (pid : Z) (calls : list (list tcall)) (a0 : prng) (log : list happening)
    (sys : shop) (r : option (outcome (option happening * shop))) : Prop :=
  match r with
  | None => True
  | Some (Ret (ev, sys')) =>
      os_getpid (world (process_ sys')) = pid -> shop_ok pid calls a0 (log ++ ext ev) sys'
  | Some NoFuel => exists i t, workers sys !! i = Some t /\ ranging t
  | Some Undefined | Some Aborted => False
  end.

(** A thread that moves on and replies nothing. *)
Lemma crew_on calls log ws i t t' :
  crew_ok calls log ws -> ws !! i = Some t -> answers_ t' = answers_ t ->
  underway t' ++ todo t' = underway t ++ todo t ->
  (forall cs, calls !! i = Some cs -> worker_ok cs i log t -> place_ok (place_ t')) ->
  crew_ok calls log (<[i := t']> ws).
Proof.
  intros Hc Ht Ha Hu Hp. rewrite <-(ext_None log). pose proof Hc as (Hlen & _ & Hw).
  destruct (Hw i t Ht) as (cs0 & Hcs & Hok0).
  eapply crew_step; [done|done|done|]. rewrite ext_None. intros cs [Hv Hcl Hre Hpl].
  split; [done|by rewrite Hu|by rewrite Ha|by eapply Hp].
Qed.

(** A thread that replies. *)
Lemma crew_reply calls log ws i t c r er rest :
  crew_ok calls log ws -> ws !! i = Some t -> (forall er', er = Some er' -> exists n, gathered er' n) ->
  underway t ++ todo t = c :: rest ->
  crew_ok calls (log ++ ext (Some (mk_happening i c r er)))
    (<[i := mk_worker rest (answers_ t ++ [r]) Out]> ws).
Proof.
  intros Hc Ht Her Hu. eapply crew_step; [done|done|by intros ? [= <-]|].
  intros cs [Hv Hcl Hre Hpl].
  split; rewrite ?log_of_ext by (by intros ? [= <-]); rewrite ?fmap_app; cbn [ext fmap list_fmap hp_call hp_reply].
  - done.
  - cbn [underway place_ todo]. rewrite Hcl, Hu. by rewrite <-app_assoc.
  - cbn [answers_]. by rewrite Hre.
  - done.
Qed.

Section Steps.
Context (calls : list (list tcall)) (a0 : prng) (log : list happening) (sys : shop (W := W)).
Hypothesis Hsys : shop_ok (os_getpid (world (process_ sys))) calls a0 log sys.

Abbreviation pid := (os_getpid (world (process_ sys))).
Abbreviation post := (tick_post pid calls a0 log sys).

Lemma enter_step i t c rest :
  workers sys !! i = Some t -> place_ t = Out -> todo t = c :: rest -> post (tick addr i sys).
Proof.
  intros Ht Hpc Hto. unfold tick. rewrite Ht, bind_Some, Hpc, Hto.
  destruct Hsys as (Hc & a & Hr & Hd). destruct (door_holds _ _ _ _ Hd) as (l & a1 & Hh & _).
  rewrite (enters_ok c _ _ _ _ _ Hh). cbn [then_ tick_post]. intros _. rewrite ext_None. split.
  - eapply crew_on; [done|done|done| |done]. unfold underway. by rewrite Hpc, Hto.
  - exists a. split; [done|]. eapply door_outside; [done|done| |done|done]. unfold is_in. by rewrite Hpc.
Qed.

Lemma gather_step i t :
  workers sys !! i = Some t -> place_ t = Past OsSeed -> post (tick addr i sys).
Proof.
  intros Ht Hpc. unfold tick. rewrite Ht, bind_Some, Hpc.
  destruct Hsys as (Hc & a & Hr & Hd). destruct (door_holds _ _ _ _ Hd) as (l & a1 & Hh & _).
  destruct (gather_ok _ _ _ _ (process_ sys) Hh) as (er & n & s' & -> & Her).
  cbn [then_ tick_post]. intros _. rewrite ext_None. split.
  - eapply crew_on; [done|done|done| |done]. unfold underway. by rewrite Hpc.
  - exists a. split; [done|]. eapply door_outside; [done|done| |done|done]. unfold is_in. by rewrite Hpc.
Qed.

Lemma store_step i t er n :
  workers sys !! i = Some t -> place_ t = Holding er n -> post (tick addr i sys).
Proof.
  intros Ht Hpc. unfold tick. rewrite Ht, bind_Some, Hpc.
  destruct Hsys as (Hc & a & Hr & Hd). destruct (door_holds _ _ _ _ Hd) as (l & a1 & Hh & _).
  assert (gathered er n) as Her.
  { destruct Hc as (_ & _ & Hw). destruct (Hw i t Ht) as (cs & _ & []). by rewrite Hpc in wo_place0. }
  assert (forall t', is_in t' = false ->
    door pid (<[i := t']> (workers sys)) (store er (common sys)) a) as Hd'.
  { intros t' Ho. eapply door_outside; [done|done| |done|by intros; apply holds_store].
    unfold is_in. by rewrite Hpc. }
  destruct (unseeded_ok _ _ _ _ _ _ (holds_store _ _ _ _ er Hh) Her) as [[-> H0]|[-> H0]];
    cbn [tick_post]; intros _; split; cbn [workers common].
  - rewrite ext_None. eapply crew_on; [done|done|done| |done]. unfold underway. by rewrite Hpc.
  - exists a. split; [by rewrite ext_None|by apply Hd'].
  - eapply crew_reply; [done|done|intros ? [= <-]; by exists n|]. unfold underway. by rewrite Hpc.
  - exists a. split; [|by apply Hd']. eapply replay_snoc; [exact Hr|]. unfold replay1. cbn.
    rewrite (proj2 (Z.eqb_neq _ _) H0). by rewrite option_guard_True.
Qed.

(** Taking the lock. *)
Lemma lock_step i t c er k :
  workers sys !! i = Some t -> is_in t = false -> waits (common sys) = false ->
  underway t = [c] -> place_ok (In c er k) ->
  (forall a, promises k a (leads c er a)) ->
  post (Some (then_ (LOCK (common sys) (process_ sys)) (fun st s =>
    (None, mk_shop (<[i := mk_worker (todo t) (answers_ t) (In c er k)]> (workers sys)) st s)))).
Proof.
  intros Ht Ho Hw Hu Hpl Hk. destruct Hsys as (Hc & a & Hr & Hd).
  destruct (door_open _ _ _ _ Hd Hw) as [Hn Hh].
  destruct (holds_lock _ _ _ (process_ sys) Hh) as [-> Hh']. cbn [then_ tick_post]. intros _.
  rewrite ext_None. split.
  - eapply crew_on; [done|done|done| |done]. by rewrite Hu.
  - exists a. split; [done|]. eapply door_inside; [done|done| |exact Hh'|apply Hk].
    intros j u Hj Hin. by rewrite (Hn j u Hj) in Hin.
Qed.

(** A step of a section. *)
Lemma section_step i t c er {B} (m : ottery_state -> M W (B * ottery_state)) k :
  workers sys !! i = Some t -> place_ t = In c er (Do m k) -> post (tick addr i sys).
Proof.
  intros Ht Hpc. unfold tick. rewrite Ht, bind_Some, Hpc. destruct Hsys as (Hc & a & Hr & Hd).
  destruct (door_in _ _ _ _ _ _ _ _ _ Hd Ht Hpc) as (Hx & a1 & Hh & Hk).
  assert (place_ok (In c er (Do m k))) as Hpl.
  { destruct Hc as (_ & _ & Hw). destruct (Hw i t Ht) as (cs & _ & []). by rewrite <-Hpc. }
  destruct (Hk _ _ Hh) as [[-> Hnone]|(b & st' & a' & -> & Hh' & Hk')]; cbn [then_ tick_post].
  - exists i, t. split; [done|]. destruct (leads_None _ _ _ _ Hpl Hnone) as (q & -> & Hq).
    by exists q, er, (Do m k).
  - intros _. rewrite ext_None. split.
    + eapply crew_on; [done|done|done| |by destruct c, er as [[]|]]. unfold underway. by rewrite Hpc.
    + exists a. split; [done|]. by eapply door_inside.
Qed.

(** The seed on the stack can be cleared. *)
Lemma clear_seed_ok c er k (s : process W) :
  place_ok (In c er k : place (W := W)) -> clear_seed er s = Ret (tt, s).
Proof.
  intros Hpl. unfold clear_seed. destruct er as [[er n]|]; [|done]. destruct c as [c|]; [done|].
  destruct Hpl as [(_ & Hl & _) _]. pose proof (zlen_nonneg (er_bytes er)).
  cbn [fmap option_fmap option_map clear_tmp_seed]. rewrite memclear_ok; [done|lia].
Qed.

Lemma leave_step i t c er r :
  workers sys !! i = Some t -> place_ t = In c er (Leave r) -> post (tick addr i sys).
Proof.
  intros Ht Hpc. unfold tick. rewrite Ht, bind_Some, Hpc. destruct Hsys as (Hc & a & Hr & Hd).
  destruct (door_in _ _ _ _ _ _ _ _ _ Hd Ht Hpc) as (Hx & a1 & Hh & Hk).
  assert (place_ok (In c er (Leave r))) as Hpl.
  { destruct Hc as (_ & _ & Hw). destruct (Hw i t Ht) as (cs & _ & []). by rewrite <-Hpc. }
  destruct (holds_unlock _ _ _ (process_ sys) Hh) as [E Hh'].
  rewrite (bind_Ret _ _ _ _ _ E), (bind_Ret _ _ _ _ _ (clear_seed_ok _ _ _ _ Hpl)).
  cbn [then_ tick_post]. intros _. split; cbn [workers common].
  - eapply crew_reply; [done|done| |].
    + intros er' He. destruct er as [[er n]|]; [|done]. injection He as <-.
      destruct c; [done|]. exists n. apply Hpl.
    + unfold underway. by rewrite Hpc.
  - exists a1. split; [eapply replay_snoc; [exact Hr|]; by eapply leads_replay|].
    eapply door_leave; [done|done|exact Hh'].
Qed.

Lemma tick_ok i : post (tick addr i sys).
Proof.
  destruct (workers sys !! i) as [t|] eqn:Ht; [|by unfold tick; rewrite Ht].
  destruct Hsys as ((_ & _ & Hw) & _). destruct (Hw i t Ht) as (cs & _ & [Hv Hcl _ Hpl]).
  destruct (place_ t) as [|[c|]|er n|er n|c er [r|B m k]] eqn:Hpc.
  - destruct (todo t) as [|c rest] eqn:Hto; [unfold tick; by rewrite Ht, bind_Some, Hpc, Hto|].
    by eapply enter_step.
  - unfold tick. rewrite Ht, bind_Some, Hpc. destruct (waits (common sys)) eqn:Hwt; [done|].
    eapply lock_step; [done|unfold is_in; by rewrite Hpc|done|unfold underway; by rewrite Hpc|done|].
    intros a. apply (promises_In (Asks c) None); [|done]. unfold underway in Hcl. rewrite Hpc in Hcl.
    rewrite Hcl in Hv. apply Forall_app in Hv as [_ Hv]. by apply Forall_cons_1 in Hv as [Hv _].
  - by eapply gather_step.
  - by eapply store_step.
  - unfold tick. rewrite Ht, bind_Some, Hpc. destruct (waits (common sys)) eqn:Hwt; [done|].
    eapply lock_step; [done|unfold is_in; by rewrite Hpc|done|unfold underway; by rewrite Hpc|done|].
    intros a. by apply (promises_In OsSeed (Some (er, n))).
  - by eapply leave_step.
  - by eapply section_step.
Qed.
End Steps.

(** ** Schedules keep the invariant *)

Definition shop_inv (pid : Z) (calls : list (list tcall)) (a0 : prng) (log : list happening)
    (sys : shop) : Prop :=
  os_getpid (world (process_ sys)) = pid /\ shop_ok pid calls a0 log sys.

Lemma happens_ok pid calls a0 log it sys ev sys' :
  shop_inv pid calls a0 log sys -> happens addr it sys = Some (ev, sys') ->
  os_getpid (world (process_ sys')) = os_getpid (world (process_ sys)) ->
  shop_inv pid calls a0 (log ++ ext ev) sys'.
Proof.
  intros [Hp Hs] Hh Hpid. split; [congruence|]. destruct it as [i|w]; cbn [happens] in Hh.
  - subst pid. pose proof (tick_ok calls a0 log sys Hs i) as H.
    destruct (tick addr i sys) as [[[ev1 sys1]| | |]|]; try done. injection Hh as -> ->. by apply H.
  - injection Hh as <- <-. by rewrite ext_None.
Qed.

Lemma work_ok pid calls a0 log sched sys log' sys' :
  shop_inv pid calls a0 log sys -> work addr sched sys = Some (log', sys') ->
  shop_inv pid calls a0 (log ++ log') sys'.
Proof.
  revert log sys log'. induction sched as [|it sched IH]; intros log sys log' Hi.
  { intros [= <- <-]. by rewrite app_nil_r. }
  intros H. apply work_cons in H as (ev & sys1 & log1 & Hx & Hpid & Hw & ->).
  rewrite app_assoc. eapply IH; [|exact Hw]. by eapply happens_ok.
Qed.

Lemma hire_ok calls st a (s : process W) :
  Forall (Forall tvalid) calls -> holds LockFree (os_getpid (world s)) st a ->
  shop_inv (os_getpid (world s)) calls a [] (mk_shop (hire calls) st s).
Proof.
  intros Hv Hh. split; [done|]. split; cbn [workers common].
  - split; [unfold hire; by rewrite length_fmap|]. split; [done|]. intros i t Ht.
    unfold hire in Ht. rewrite list_lookup_fmap in Ht.
    destruct (calls !! i) as [cs|] eqn:E; [|done]. injection Ht as <-.
    exists cs. split; [done|]. split; try done. rewrite Forall_lookup in Hv. by eapply Hv.
  - exists a. split; [done|]. apply door_free; [|done].
    intros i t Ht. unfold hire in Ht. rewrite list_lookup_fmap in Ht.
    destruct (calls !! i); [|done]. by injection Ht as <-.
Qed.

Lemma ticks_or_done pid calls a0 log sys :
  shop_inv pid calls a0 log sys ->
  (exists i r, tick addr i sys = Some r) \/
  (forall i t, workers sys !! i = Some t -> done_ t = true).
Proof.
  intros (_ & _ & a & _ & Hd). destruct Hd as [Ho Hh|i t c er k a1 Ht Hpc _ _ _].
  - destruct (decide (Forall (fun t => done_ t = true) (workers sys))) as [H|H].
    + right. intros i t Ht. rewrite Forall_lookup in H. by eapply H.
    + left. apply not_Forall_Exists in H; [|apply _].
      apply Exists_exists in H as (t & Hin & Hnf). apply list_elem_of_lookup in Hin as [i Ht].
      exists i. unfold tick. rewrite Ht, bind_Some. pose proof (Ho i t Ht) as Hout.
      unfold is_in in Hout. cbn in Hnf. unfold done_ in Hnf.
      rewrite (holds_waits _ _ _ _ Hh) by (by right).
      destruct (place_ t) as [|[]| | |]; try done; try by eexists.
      destruct (todo t); [done|by eexists].
  - left. exists i. unfold tick. rewrite Ht, bind_Some, Hpc. destruct k; by eexists.
Qed.

Lemma no_ranging_ calls log ws i t :
  Forall (Forall (fun c => match c with Asks c => qranges c = false | OsSeed => True end)) calls ->
  crew_ok calls log ws -> ws !! i = Some t -> ~ ranging t.
Proof.
  intros Hn (_ & _ & Hp) Ht (c & er & k & Hpc & Hr). destruct (Hp i t Ht) as (cs & Hcs & [_ Hc _ _]).
  rewrite Forall_lookup in Hn. specialize (Hn i cs Hcs). unfold underway in Hc.
  rewrite Hpc in Hc. rewrite Hc in Hn. apply Forall_app in Hn as [_ Hn].
  apply Forall_cons_1 in Hn as [Hn _]. congruence.
Qed.
End Invariant.

(** ** Every schedule has a bounded number of threads' steps *)

Section Termination.
Context {W : Type} {OS0 : OS W} {BC : BuildConfig} {PL : Platform}.
Context (addr : Z).

(** The check, the lock, the section, the unlock; for a null seed also the
    sources and the store. *)
Definition tcall_steps (c : tcall) : nat :=
  match c with Asks c => call_steps c | OsSeed => 7 end.

Definition tcalls_steps (cs : list tcall) : nat := sum_list_with tcall_steps cs.

(** Worker [t] can take at most [n] more steps. *)
Definition owes_ (t : worker (W := W)) (n : nat) : Prop :=
  match place_ t with
  | Out => n = tcalls_steps (todo t)
  | Past (Asks c) => n = (2 + section_steps c + tcalls_steps (todo t))%nat
  | Past OsSeed => n = (6 + tcalls_steps (todo t))%nat
  | Holding _ _ => n = (5 + tcalls_steps (todo t))%nat
  | Seeded _ _ => n = (4 + tcalls_steps (todo t))%nat
  | In _ _ k => exists d, within d k /\ n = (1 + d + tcalls_steps (todo t))%nat
  end.

(** A step by which a thread that owed [n] owes less. *)
Lemma then_decreases {A} (r : outcome (A * process W)) (f : A -> process W -> option happening * shop)
    ws ns i n ev sys' :
  Forall2 owes_ ws ns -> ns !! i = Some n ->
  then_ r f = Ret (ev, sys') ->
  (forall b s, exists t', workers (snd (f b s)) = <[i := t']> ws /\
     exists n', owes_ t' n' /\ (n' < n)%nat) ->
  exists ns', Forall2 owes_ (workers sys') ns' /\ (sum_list ns' < sum_list ns)%nat.
Proof.
  intros Ho Hn Hr Hf. destruct r as [[b s]| | |]; try done. injection Hr as Hr.
  destruct (Hf b s) as (t' & Ew & n' & Ho' & Hlt). rewrite Hr in Ew. cbn [snd] in Ew. rewrite Ew.
  exists (<[i := n']> ns). split; [by apply Forall2_insert|by eapply sum_list_insert_lt].
Qed.

Lemma tcalls_steps_cons c cs : tcalls_steps (c :: cs) = (tcall_steps c + tcalls_steps cs)%nat.
Proof. reflexivity. Qed.

Lemma seed_section_within bytes n fl : within 2 (seed_section (W := W) bytes n fl).
Proof. done. Qed.

Lemma tick_decreases i sys ns ev sys' :
  Forall2 owes_ (workers sys) ns -> tick addr i sys = Some (Ret (ev, sys')) ->
  exists ns', Forall2 owes_ (workers sys') ns' /\ (sum_list ns' < sum_list ns)%nat.
Proof.
  intros Ho. unfold tick. destruct (workers sys !! i) as [t|] eqn:Ht; [|done]. rewrite bind_Some.
  destruct (Forall2_lookup_l _ _ _ _ _ Ho Ht) as (n & Hn & Ht'). unfold owes_ in Ht'.
  destruct (place_ t) as [|[c|]|er len|er len|c er [r|B m k]].
  - destruct (todo t) as [|c rest]; [done|]. rewrite tcalls_steps_cons in Ht'. intros [= H].
    eapply then_decreases; [done|done|exact H|]. intros [] s; eexists; (split; [reflexivity|]).
    + exists (n - 1)%nat. destruct c; cbn [owes_ place_ todo tcall_steps] in *; unfold owes_, call_steps in *; cbn; lia.
    + exists (tcalls_steps rest). split; [done|]. destruct c; cbn [tcall_steps] in Ht'; unfold call_steps in *; lia.
  - destruct (waits _); [done|]. intros [= H]. eapply then_decreases; [done|done|exact H|].
    intros st s. eexists. split; [reflexivity|]. exists (1 + section_steps c + tcalls_steps (todo t))%nat.
    split; [|lia]. exists (section_steps c). split; [apply locked_section_within|done].
  - intros [= H]. eapply then_decreases; [done|done|exact H|]. intros [er len] s. eexists.
    split; [reflexivity|]. exists (5 + tcalls_steps (todo t))%nat. split; [done|lia].
  - intros [= H]. destruct (unseeded er _);
      (eapply (then_decreases (Ret (tt, process_ sys)) (fun _ _ => (ev, sys'))); [done|done|done|]);
      injection H as <- <-; intros _ _; eexists; (split; [reflexivity|]).
    + exists (tcalls_steps (todo t)). split; [done|lia].
    + exists (4 + tcalls_steps (todo t))%nat. split; [done|lia].
  - destruct (waits _); [done|]. intros [= H]. eapply then_decreases; [done|done|exact H|].
    intros st s. eexists. split; [reflexivity|]. exists (3 + tcalls_steps (todo t))%nat.
    split; [|lia]. exists 2%nat. split; [apply seed_section_within|done].
  - destruct Ht' as (d & _ & ->). intros [= H]. eapply then_decreases; [done|done|exact H|].
    intros st s. eexists. split; [reflexivity|]. exists (tcalls_steps (todo t)). split; [done|lia].
  - destruct Ht' as (d & Hd & ->). cbn in Hd. destruct d as [|d]; [done|]. intros [= H].
    eapply then_decreases; [done|done|exact H|]. intros [b st] s. eexists. split; [reflexivity|].
    exists (1 + d + tcalls_steps (todo t))%nat. split; [by exists d|lia].
Qed.

(** The steps of threads in a schedule. *)
Definition ticks (sched : list (item (W := W))) : nat :=
  sum_list_with (fun it => match it with Tick _ => 1%nat | World _ => 0%nat end) sched.

Lemma work_bounded sched sys ns log sys' :
  Forall2 owes_ (workers sys) ns -> work addr sched sys = Some (log, sys') ->
  (ticks sched <= sum_list ns)%nat.
Proof.
  revert sys ns log. induction sched as [|it sched IH]; intros sys ns log Ho; [intros _; cbn; lia|].
  intros H. apply work_cons in H as (ev & sys1 & log1 & Hx & _ & Hx0 & _). destruct it as [i|w]; cbn [happens] in Hx.
  - destruct (tick addr i sys) as [[[ev' sys1']| | |]|] eqn:Et; try done. injection Hx as -> ->.
    destruct (tick_decreases _ _ _ _ _ Ho Et) as (ns' & Ho' & Hlt). specialize (IH _ _ _ Ho' Hx0).
    change (S (ticks sched) <= sum_list ns)%nat. lia.
  - injection Hx as <- <-. exact (IH (mk_shop (workers sys) (common sys) _) ns log1 Ho Hx0).
Qed.

Lemma hire_owes calls : Forall2 owes_ (hire (W := W) calls) (tcalls_steps <$> calls).
Proof. unfold hire. induction calls as [|cs calls IH]; cbn; by constructor. Qed.
End Termination.
