(* ===== verification/ThreadsOsProps.v ===== *)
(** * Properties of threads that add entropy

    One stream, exclusion and completion, for threads that also gather entropy
    outside the lock, while the world around them changes. *)
From S2P Require Import Prelude Words Memory Internal Spec Prng Refine TestPrf Session.
From S2P Require Import ChaChaRef ChaChaMerged ChaChaKrovetz Os CpuInfo Entropy TestOs Config Api ApiRefine ApiProps.
From S2P Require Import Safety Global GlobalProps Public Threads ThreadsInv ThreadsProps ThreadsOs ThreadsOsInv.
Local Open Scope Z_scope.
Local Open Scope ottery_scope.

(** ** The steps of a null seed make up the call *)

Section Phases.
Context {W : Type} {OS0 : OS W} {BC : BuildConfig} {PL : Platform}.
Context (addr : Z).

Lemma os_seed_phases st n (s : process W) :
  (do '(e, st) <- ottery_st_add_seed addr st None n; ret (RInt e, st)) s =
  (do ok <- enters addr OsSeed st;
   if negb ok then ret (turned_away OsSeed, st)
   else
     do '(er, tmp_seed_len) <- gather st;
     let st := store er st in
     match unseeded er st with
     | Some err => ret (RInt err, st)
     | None =>
         do st <- LOCK st;
         do '(r, st) <- run_crit (seed_section (er_bytes er) (er_buflen er) (er_flags_out er)) st;
         do st <- UNLOCK st;
         do_ clear_seed (Some (er, tmp_seed_len));
         ret (r, st)
     end) s.
Proof.
  unfold ottery_st_add_seed, ottery_st_add_seed_impl, add_seed_frame, enters, turned_away,
    ottery_st_rand_check_init. cbn [andb].
  destruct (negb OTTERY_NO_INIT_CHECK && _); rewrite !bind_assoc; [by apply bind_ext|].
  rewrite bind_ret. cbn [negb]. unfold add_seed_input, gather.
  replace (if n =? 0 then None else None) with (@None (list byte)) by (by destruct (n =? 0)).
  rewrite !bind_assoc. apply bind_ext. intros er s1. rewrite bind_ret. cbv zeta. unfold unseeded.
  fold (store er st). change (st_prf (store er st)) with (st_prf st).
  destruct (negb (er_err er =? 0)); [done|]. destruct (er_buflen er <? state_bytes (st_prf st)); [done|].
  rewrite bind_ret. unfold add_seed_locked. rewrite !bind_assoc. apply bind_ext. intros st2 s2.
  cbn [seed_section run_crit]. rewrite !bind_assoc. apply bind_ext. intros st3 s3.
  rewrite !bind_ret, !bind_assoc, !bind_ret. apply bind_ext. intros st4 s4.
  rewrite bind_ret, !bind_assoc. unfold clear_seed. rewrite !bind_assoc. apply bind_ext. by intros b s5.
Qed.
End Phases.

(** ** Concrete threads *)

#[local] Existing Instance default_build.

(** Thread 0 adds fresh entropy and draws a number, thread 1 draws a number and
    adds fresh entropy. *)
Definition two_crews : list (list tcall) := [[OsSeed; Asks QUint32]; [Asks QUint64; OsSeed]].

(** Later the random device is no longer one, and the CPU offers no numbers. *)
Definition poor_world : tworld := mk_tworld 77 12 0 x17 0 [] [].

(** Thread 0 gathers its seed; while thread 1 is inside, thread 0 stores what
    the sources left and the world gets poor; thread 0 mixes its seed in; the
    sources have nothing for thread 1. *)
Definition crew_schedule : list item :=
  [Tick 0; Tick 0; Tick 1; Tick 1; Tick 0; World poor_world; Tick 1; Tick 1; Tick 1; Tick 0;
   Tick 1; Tick 1; Tick 0; Tick 0; Tick 0; Tick 1]%nat.

Definition crew_system : shop := mk_shop (hire two_crews) api0 proc_handler.

Definition crew_run : list happening * shop :=
  default ([], crew_system) (work 4096 crew_schedule crew_system).

Lemma crew_run_eq : work 4096 crew_schedule crew_system = Some crew_run.
Proof.
  assert (bool_decide (is_Some (work 4096 crew_schedule crew_system)) = true) as H by (vm_compute; reflexivity).
  unfold crew_run. by destruct (work _ _ _).
Qed.

(** The seed of thread 0 was mixed in after thread 1's number; thread 1 found no
    entropy. *)
Lemma crew_run_events :
  (fun e => (hp_thread e, match hp_call e with OsSeed => true | _ => false end, er_err <$> hp_seed e)) <$> fst crew_run =
  [(1%nat, false, None); (0%nat, true, Some 0); (1%nat, true, Some OTTERY_ERR_INIT_STRONG_RNG)].
Proof. vm_compute. reflexivity. Qed.

Lemma crews_valid : Forall (Forall tvalid) two_crews.
Proof. by repeat constructor. Qed.

(** ** The properties *)

Section Start.
Context {W : Type} {OS0 : OS W} {BC : BuildConfig} {PL : Platform} {OL : OSLaws OS0}.
Context {p : ottery_prf} {PS : PrfSpec p} {PZ : PrfSizes p}.
Context (addr : Z) (st0 : ottery_state) (a0 : prng) (s0 : process W).
Hypothesis (Hn : lock_impl <> NO_LOCKS) (Hr : ready addr st0 a0 s0) (Hm : st_magic st0 = MAGIC addr).

(** What a schedule reaches from a state that is ready. *)
Lemma reached calls sched log sys :
  Forall (Forall tvalid) calls -> work addr sched (mk_shop (hire calls) st0 s0) = Some (log, sys) ->
  shop_inv (p := p) addr (st_entropy_config st0) (os_getpid (world s0)) calls a0 log sys.
Proof.
  intros Hv Hw. eapply (work_ok addr (st_entropy_config st0) Hn _ calls a0 [] sched); [|exact Hw].
  apply hire_ok; [done|]. destruct Hr as [[] Hl]. split; try done. by destruct Hl.
Qed.

Lemma holds_ready cfg st a (s : process W) :
  holds addr cfg LockFree (os_getpid (world s)) st a -> ready addr st a s.
Proof. intros []. split; [by split; [|right|]|by right]. Qed.
End Start.

(** C5: threads that draw from one state and threads that add fresh entropy to
    it share one stream, even while the world changes between their steps and
    the state of the entropy sources is written outside the lock: the replies,
    in the order of the locks, are those of the abstract generator, to which
    each null seed adds bytes its sources gave in that call, or nothing when
    they failed; with no thread inside, the state represents what is left. Each
    thread has the replies to its calls in its own order. *)
Theorem entropy_threads_share_one_stream {W : Type} {OS0 : OS W} {BC : BuildConfig} {PL : Platform}
    {OL : OSLaws OS0} {p} {PS : PrfSpec p} {PZ : PrfSizes p}
    addr calls sched st0 a0 (s0 : process W) log sys :
  lock_impl <> NO_LOCKS -> ready addr st0 a0 s0 -> st_magic st0 = MAGIC addr ->
  Forall (Forall tvalid) calls ->
  work addr sched (mk_shop (hire calls) st0 s0) = Some (log, sys) ->
  (exists a1, replay p log a0 = Some a1 /\
     ((forall i t, workers sys !! i = Some t -> is_in t = false) ->
      ready addr (common sys) a1 (process_ sys))) /\
  (forall e er, e ∈ log -> hp_seed e = Some er -> er_err er = 0 ->
     exists used, entropy_success (Some (st_entropy_config st0)) 0 (state_bytes p)
       (ottery_get_entropy_bufsize_ (state_bytes p)) er used) /\
  (forall i t, workers sys !! i = Some t -> exists cs, calls !! i = Some cs /\
     cs = (hp_call <$> log_of hp_thread i log) ++ underway t ++ todo t /\
     answers_ t = hp_reply <$> log_of hp_thread i log).
Proof.
  intros Hn Hr Hm Hv Hw.
  destruct (reached addr st0 a0 s0 Hn Hr Hm _ _ _ _ Hv Hw) as [Hp ((_ & Hs & Hc) & a1 & Ha & Hd)].
  split; [|split].
  - exists a1. split; [done|]. intros Ho. destruct Hd as [_ Hh|i t c er k a2 Ht Hpc _ _ _].
    + eapply holds_ready. by rewrite Hp.
    + specialize (Ho i t Ht). unfold is_in in Ho. by rewrite Hpc in Ho.
  - intros e er He Hse H0. rewrite Forall_forall in Hs.
    destruct (Hs e He er Hse) as (n & _ & _ & [(_ & _ & Hu)|[[H|H] _ _]]); [done|by rewrite H in H0..].
  - intros i t Ht. destruct (Hc i t Ht) as (cs & Hcs & []). by exists cs.
Qed.

Lemma entropy_threads_share_one_stream_witness :
  (exists a1, replay dummy_prf (fst crew_run) ready0_prng = Some a1 /\
     ((forall i t, workers (snd crew_run) !! i = Some t -> is_in t = false) ->
      ready (p := dummy_prf) 4096 (common (snd crew_run)) a1 (process_ (snd crew_run)))) /\
  (forall e er, e ∈ fst crew_run -> hp_seed e = Some er -> er_err er = 0 ->
     exists used, entropy_success (Some (st_entropy_config api0)) 0 (state_bytes dummy_prf)
       (ottery_get_entropy_bufsize_ (state_bytes dummy_prf)) er used) /\
  (forall i t, workers (snd crew_run) !! i = Some t -> exists cs, two_crews !! i = Some cs /\
     cs = (hp_call <$> log_of hp_thread i (fst crew_run)) ++ underway t ++ todo t /\
     answers_ t = hp_reply <$> log_of hp_thread i (fst crew_run)).
Proof.
  apply (entropy_threads_share_one_stream (p := dummy_prf) 4096 two_crews crew_schedule api0 ready0_prng
    proc_handler (fst crew_run) (snd crew_run));
    [discriminate|exact api0_ready_handler|reflexivity|exact crews_valid|].
  rewrite <-surjective_pairing. exact crew_run_eq.
Defined.

(** C21: whatever the schedule, the sources and the changes of the world, at
    most one thread is between its lock and its unlock, no step has undefined
    behaviour or aborts, and only a range call can run out of draws. *)
Theorem entropy_threads_exclude {W : Type} {OS0 : OS W} {BC : BuildConfig} {PL : Platform}
    {OL : OSLaws OS0} {p} {PS : PrfSpec p} {PZ : PrfSizes p}
    addr calls sched st0 a0 (s0 : process W) log sys :
  lock_impl <> NO_LOCKS -> ready addr st0 a0 s0 -> st_magic st0 = MAGIC addr ->
  Forall (Forall tvalid) calls ->
  work addr sched (mk_shop (hire calls) st0 s0) = Some (log, sys) ->
  (forall i j t u, workers sys !! i = Some t -> workers sys !! j = Some u ->
     is_in t = true -> is_in u = true -> i = j) /\
  (forall i, match tick addr i sys with
     | Some Undefined | Some Aborted => False
     | Some NoFuel => exists i t, workers sys !! i = Some t /\ ranging t
     | _ => True
     end).
Proof.
  intros Hn Hr Hm Hv Hw. pose proof (reached addr st0 a0 s0 Hn Hr Hm _ _ _ _ Hv Hw) as [Hp Hs]. split.
  - intros i j t u Ht Hu It Iu. destruct Hs as (_ & a1 & _ & Hd).
    destruct Hd as [Ho _|k v c er k' a2 _ _ Hx _ _]; [by rewrite (Ho i t Ht) in It|].
    by rewrite (Hx i t Ht It), (Hx j u Hu Iu).
  - intros i. rewrite <-Hp in Hs. pose proof (tick_ok addr _ Hn calls a0 log sys Hs i) as H.
    by destruct (tick addr i sys) as [[]|].
Qed.

Lemma entropy_threads_exclude_witness :
  (forall i j t u, workers (snd crew_run) !! i = Some t -> workers (snd crew_run) !! j = Some u ->
     is_in t = true -> is_in u = true -> i = j) /\
  (forall i, match tick 4096 i (snd crew_run) with
     | Some Undefined | Some Aborted => False
     | Some NoFuel => exists i t, workers (snd crew_run) !! i = Some t /\ ranging t
     | _ => True
     end).
Proof.
  apply (entropy_threads_exclude (p := dummy_prf) 4096 two_crews crew_schedule api0 ready0_prng
    proc_handler (fst crew_run) (snd crew_run));
    [discriminate|exact api0_ready_handler|reflexivity|exact crews_valid|].
  rewrite <-surjective_pairing. exact crew_run_eq.
Defined.

(** C20: without range calls every thread gets all its replies, whatever the
    sources do: the threads' steps in a schedule are at most those of their
    calls, and while a call is to be made or finished, some thread can move. *)
Theorem entropy_threads_complete {W : Type} {OS0 : OS W} {BC : BuildConfig} {PL : Platform}
    {OL : OSLaws OS0} {p} {PS : PrfSpec p} {PZ : PrfSizes p}
    addr calls sched st0 a0 (s0 : process W) log sys :
  lock_impl <> NO_LOCKS -> ready addr st0 a0 s0 -> st_magic st0 = MAGIC addr ->
  Forall (Forall tvalid) calls ->
  Forall (Forall (fun c => match c with Asks c => qranges c = false | OsSeed => True end)) calls ->
  work addr sched (mk_shop (hire calls) st0 s0) = Some (log, sys) ->
  (ticks sched <= sum_list (tcalls_steps <$> calls))%nat /\
  ((exists i ev sys', tick addr i sys = Some (Ret (ev, sys'))) \/
   forall i t, workers sys !! i = Some t ->
     done_ t = true /\ exists cs, calls !! i = Some cs /\ length (answers_ t) = length cs).
Proof.
  intros Hn Hr Hm Hv Hnr Hw. split.
  { eapply (work_bounded addr); [|exact Hw]. apply hire_owes. }
  pose proof (reached addr st0 a0 s0 Hn Hr Hm _ _ _ _ Hv Hw) as Hi. pose proof Hi as [Hp Hs].
  destruct (ticks_or_done addr _ Hn _ _ _ _ _ Hi) as [(i & r & E)|Hf].
  - left. exists i. rewrite <-Hp in Hs. pose proof (tick_ok addr _ Hn calls a0 log sys Hs i) as H.
    rewrite E in H |- *. destruct r as [[ev sys']| | |]; try done; [by exists ev, sys'|].
    destruct H as (j & t & Ht & Hrg). exfalso. eapply no_ranging_; [exact Hnr|apply Hs|exact Ht|exact Hrg].
  - right. intros i t Ht. split; [by eapply Hf|]. destruct Hs as [(_ & _ & Hc) _].
    destruct (Hc i t Ht) as (cs & Hcs & [_ Hcl Ha _]). exists cs. split; [done|].
    specialize (Hf i t Ht). unfold done_ in Hf. unfold underway in Hcl.
    destruct (todo t), (place_ t); try done. rewrite app_nil_r in Hcl.
    by rewrite Ha, Hcl, !length_fmap.
Qed.

Lemma entropy_threads_complete_witness :
  (ticks crew_schedule <= sum_list (tcalls_steps <$> two_crews))%nat /\
  ((exists i ev sys', tick 4096 i (snd crew_run) = Some (Ret (ev, sys'))) \/
   forall i t, workers (snd crew_run) !! i = Some t ->
     done_ t = true /\ exists cs, two_crews !! i = Some cs /\ length (answers_ t) = length cs).
Proof.
  apply (entropy_threads_complete (p := dummy_prf) 4096 two_crews crew_schedule api0 ready0_prng
    proc_handler (fst crew_run) (snd crew_run));
    [discriminate|exact api0_ready_handler|reflexivity|exact crews_valid|by repeat constructor|].
  rewrite <-surjective_pairing. exact crew_run_eq.
Defined.
