(* ===== verification/TestDeep.v ===== *)
(** * The deep tests of test/test_deep.c, run on the model

    The repository's tests of how the generator core drives a PRF: outputs and
    states written down by hand for the dummy PRF. They are transcribed over the
    wrappers of test/st_wrappers.h, for the state, the lock-free and the global
    functions. TestMain.v runs them as the repository's program does. *)
From S2P Require Import Prelude Words Memory Internal Spec Prng Refine TestPrf.
From S2P Require Import ChaChaRef ChaChaMerged ChaChaKrovetz Os CpuInfo Entropy TestOs Config Api Global.
Local Open Scope Z_scope.
Local Open Scope ottery_scope.

(** ** The wrappers of st_wrappers.h *)

(** A generator under test: the calls the wrappers choose between, and
    [USING_STATE() ? STATE() : NULL]. *)
Record api (G W : Type) := mk_api {
  OTTERY_INIT : option ottery_config -> M W (Z * G);
  OTTERY_RAND_BYTES : G -> list byte -> Z -> M W (list byte * G);
  OTTERY_RAND_UINT32 : G -> M W (Z * G);
  OTTERY_RAND_UINT64 : G -> M W (Z * G);
  OTTERY_ADD_SEED : G -> option (list byte) -> Z -> M W (Z * G);
  STATE : G -> option ottery_state }.
Arguments mk_api {G W} _ _ _ _ _ _.
Arguments OTTERY_INIT {G W} _ _.
Arguments OTTERY_RAND_BYTES {G W} _ _ _ _.
Arguments OTTERY_RAND_UINT32 {G W} _ _.
Arguments OTTERY_RAND_UINT64 {G W} _ _.
Arguments OTTERY_ADD_SEED {G W} _ _ _ _.
Arguments STATE {G W} _ _.

Section DeepTests.
Context {W : Type} {OS0 : OS W} {BC : BuildConfig} {PL : Platform}.

Definition swap {A B} (m : M W (A * B)) : M W (B * A) := do '(a, b) <- m; ret (b, a).

Definition state_api : api ottery_state W :=
  mk_api (ottery_st_init 4096 zero_state)
    (fun st out n => swap (ottery_st_rand_bytes 4096 st out 0 n))
    (ottery_st_rand_uint32 4096) (ottery_st_rand_uint64 4096)
    (ottery_st_add_seed 4096) Some.

Definition nolock_api : api ottery_state W :=
  mk_api (ottery_st_init_nolock 4096 zero_state)
    (fun st out n => swap (ottery_st_rand_bytes_nolock 4096 st out 0 n))
    (ottery_st_rand_uint32_nolock 4096) (ottery_st_rand_uint64_nolock 4096)
    (ottery_st_add_seed_nolock 4096) Some.

Definition global_api : api global W :=
  mk_api (ottery_init 4096 initial_global)
    (fun g out n => ottery_rand_bytes 4096 g out 0 n)
    (ottery_rand_uint32 4096) (ottery_rand_uint64 4096)
    (ottery_add_seed 4096) (fun _ => None).

(** ** The tests *)

Context {G : Type} (a : api G W).

(** A test tells whether it passed, and leaves its generator. *)
Definition deep_test : Type := G -> M W (bool * G).

(** [tt_assert] and its variants: a failed check goes to [end]. *)
Definition tt_assert (b : bool) (k : deep_test) : deep_test := fun g => if b then k g else ret (false, g).
Definition passed : deep_test := fun g => ret (true, g).

Definition get_u (s : string) : Z := le_decode (String.list_byte_of_string s).
Definition get_u64 : string -> Z := get_u.

(** The configuration of [setup_state]. *)
Definition deep_config : ottery_config :=
  ottery_config_disable_entropy_sources
    (ottery_config_set_urandom_device
       (ottery_config_set_manual_prf_ ottery_config_init (Some dummy_prf))
       (Some "/dev/zero"%string))
    OTTERY_ENTROPY_SRC_RDRAND.

(** Its result is null when the initialization fails. *)
Definition setup_state : M W (option G) :=
  do '(err, g) <- OTTERY_INIT a (Some deep_config);
  ret (if negb (err =? 0) then None else Some g).

Definition cleanup_state (g : G) : M W bool :=
  match STATE a g with
  | Some st =>
      do pid <- getpid;
      ret (negb ((512 <? st_block_counter st) || (output_len (st_prf st) <=? st_pos st)
                 || negb (st_pid st =? pid)))
  | None => ret true
  end.

(** Consecutive [tt_int_op(OTTERY_RAND_UINT...(), ==, get_u(...))]: the width
    is that of the string. *)
Fixpoint expect_uints (l : list string) (k : deep_test) : deep_test := fun g =>
  match l with
  | [] => k g
  | s :: l =>
      do '(u, g) <- (if Nat.eqb (String.length s) 4
                     then OTTERY_RAND_UINT32 a g else OTTERY_RAND_UINT64 a g);
      tt_assert (u =? get_u s) (expect_uints l k) g
  end.

(** [OTTERY_RAND_BYTES(buf, n)] and [tt_str_op] on the result. *)
Definition expect_bytes (buf : list byte) (s : string) (k : list byte -> deep_test) : deep_test := fun g =>
  let bs := String.list_byte_of_string s in
  do '(buf, g) <- OTTERY_RAND_BYTES a g buf (zlen bs);
  tt_assert (bool_decide (slice buf 0 (zlen bs) = bs)) (k buf) g.

(** The checks on the state: the cleared prefix of the buffer, the counter,
    the position and the dummy PRF's rotations. *)
Definition check_state (cleared pos r0 r1 r2 r3 : Z) (k : deep_test) : deep_test := fun g =>
  match STATE a g with
  | None => k g
  | Some st =>
      tt_assert (OTTERY_NO_CLEAR_AFTER_YIELD
                 || bool_decide (slice (st_buffer st) 0 cleared = zeros cleared))
        (tt_assert ((st_block_counter st =? 0) && (st_pos st =? pos))
           (tt_assert
              (bool_decide (slice (st_state st) 0 16 =
                 le_encode 4 r0 ++ le_encode 4 r1 ++ le_encode 4 r2 ++ le_encode 4 r3)) k)) g
  end.

Definition test_uints : deep_test :=
  expect_uints ["agai"; "n is"; " the"; "re anyon"; "e who lo"; "ves "; "or pursu"; "es or de";
    "sires to"; "atozn-wj"; " gvvrr.r"; "nlcee-ky"; "o-zfvrg1"; "oe.g"; "uegl"; "ef.f";
    "r-rvsvfv"; "s-hf bpk"; "rtbne-jx"; "1gij"]%string
    (check_state 16 16 5 4 1 18 passed).

Definition test_add_seed : deep_test := fun g =>
  do '(r, g) <- OTTERY_ADD_SEED a g (Some (String.list_byte_of_string "Lorem")) 5;
  tt_assert (r =? 0)
    (expect_bytes (zeros 21) "ekltr$td$xspvi+lrczy"
       (fun _ => check_state 24 24 11 17 18 2 passed)) g.

Definition test_buf_short : deep_test :=
  expect_bytes (zeros 128) "again is there a" (fun buf =>
  expect_bytes buf
    ("nyone who loves or pursues or desires to obt" ++
     "atozn-wj gvvrr.rnlcee-kyo-zfvrg1oe.gueglef.fr-rvsvfvs-hf bp") (fun _ => passed)).

Definition test_buf_long_1 : deep_test :=
  expect_bytes (zeros 304) "again is there a" (fun buf =>
  expect_bytes buf
    ("nyone who loves or pursues or desires to obt" ++
     "Nbf1atozn-wj gvvrr.rnlcee-kyo-zfvrg1oe.gueglef.fr-rvsvfvs-hf bpk" ++
     "avb1pnwe bt1iggvls.1brqrufs1ig.zs-dria.1bhh1brqrufs1opqrsvceayzp" ++
     " pwichajtnbtef.fcpii vb1wuwth-hfiy.rnq.gavb1cnb1pectues1hva1sbav" ++
     " tfvag.glrojues1 Gc1tnyv n.krvjzay.vxnaglr.1wuwth-cw hg1eisi hbu" ++
     "krg") (fun buf =>
  check_state 7 7 17 4 4 7
  (expect_bytes buf
    ("1lnpfrvcls-dyyfwtay.vxrftifs1 rltech1tb.fbgozn-gfmr.rdioe" ++ "rkepe$mz1x") (fun _ => passed)))).

Definition deep_tests : list deep_test :=
  [test_uints; test_add_seed; test_buf_short; test_buf_long_1].

(** Set-up, test and cleanup, in a process of their own. *)
Definition passes (s : process W) (test : deep_test) : bool :=
  match (do g <- setup_state;
         match g with
         | None => ret false
         | Some g =>
             do '(b, g) <- test g;
             do ok <- cleanup_state g;
             ret (b && ok)
         end) s with
  | Ret (true, _) => true
  | _ => false
  end.

End DeepTests.

(** A machine whose random device reads as zeros, with the dummy PRF. *)
Definition zero_process : process tworld :=
  mk_process (mk_tworld 77 12 0x21b6 x00 (2 ^ 30 + 2 ^ 9) [] []) 0 None.

(** The tests also pass through the lock-free functions, on which the repository
    does not run them; on a state and on the global one they are run by the program
    in TestMain.v. *)
Lemma deep_tests_pass_nolock (BC : BuildConfig) :
  forallb (passes nolock_api zero_process) (deep_tests nolock_api) = true.
Proof. by destruct BC as [[] [] [] [] [] []]; vm_compute. Qed.
