(* ===== verification/TestMain.v ===== *)
(** * Two programs that run under the test driver

    doc/tinytest/tinytest_demo.c, which shows the driver's use, and the program of
    test/test_deep.c. *)
From Stdlib Require Import Ascii.
From S2P Require Import Prelude Words Memory Internal TestVectors CString Os CpuInfo TestOs TestSpec.
From S2P Require Import Config Api Global TestDeep Tinytest TinytestProps.
Local Open Scope string_scope.
Local Open Scope Z_scope.

(** ** Checks: test/tinytest_macros.h *)

(** The events of a list of checks: [tt_assert] and its kin leave the test at the
    first that fails, [tt_want] goes on. What a failed check prints is left out. *)
Inductive check := tt_assert_ (b : bool) | tt_want_ (b : bool).

Fixpoint checks (l : list check) : list event :=
  match l with
  | [] => []
  | tt_assert_ b :: l => if b then checks l else [SetFailed]
  | tt_want_ b :: l => (if b then [] else [SetFailed]) ++ checks l
  end%list.

(** ** doc/tinytest/tinytest_demo.c *)

(** [strcmp] *)
Fixpoint strcmp (a b : string) : Z :=
  match a, b with
  | "", "" => 0
  | "", String _ _ => -1
  | String _ _, "" => 1
  | String c a, String d b =>
      if Ascii.eqb c d then strcmp a b
      else if (Ascii.nat_of_ascii c <? Ascii.nat_of_ascii d)%nat then -1 else 1
  end.

(** The string at the start of a buffer; [None] if no null byte ends it. *)
Fixpoint c_string (m : list byte) : option string :=
  match m with
  | [] => None
  | x00 :: _ => Some ""
  | b :: m => String (Ascii.ascii_of_byte b) <$> c_string m
  end.

Section Demo.
Context {World : Type} {FK : Forks (World := World)} {HP : Heap}.
Context (time : World -> Z) (sleep : Z -> World -> World).

(** [struct data_buffer], where a test has one. *)
Record data_buffer := mk_data_buffer { buffer1 : list byte; buffer2 : list byte }.

Definition demo_code (A : Type) : Type := code (Mem := option data_buffer) (World := World) A.

Definition test_strcmp : demo_code unit := fun m w =>
  (checks
     [tt_assert_ (strcmp "" "" =? 0);
      tt_assert_ (strcmp "testcase" "testcase" =? 0);
      tt_want_ (0 <? strcmp "tinytest" "testcase");
      tt_assert_ (strcmp "abc" "abc" =? 0);
      tt_assert_ (strcmp "abc" "abcd" <? 0);
      tt_assert_ (strcmp "abc" "abcd" <? 0)], w, Finishes tt m).

Definition setup_data_buffer (flags : Z) : demo_code setup_result := fun m w =>
  match malloc 1024 with
  | Some p => ([], w, Finishes SetupEnv (Some (mk_data_buffer (slice p 0 512) (slice p 512 512))))
  | None => ([], w, Finishes SetupNull m)
  end.

Definition clean_data_buffer (flags : Z) : demo_code bool := fun m w =>
  match m with
  | Some db => ([], w, Finishes true None)
  | None => ([], w, Finishes false None)
  end.

(** The buffers, and the copy that [strdup] makes; undefined behaviour kills. *)
Definition test_memcpy : demo_code unit := fun m w =>
  let r :=
    db ← m;
    b1 ← mwrite (buffer1 db) 0 (text "String 0" ++ [x00])%list;
    b2 ← memcpy (buffer2 db) 0 b1 0 512;
    s1 ← c_string b1;
    s2 ← c_string b2;
    Some (s1, s2, mk_data_buffer b1 b2) in
  match r with
  | None => ([], w, Killed)
  | Some (s1, s2, db) =>
      let mem := if malloc (strlen "Hello world." + 1) is Some _ then Some "Hello world." else None in
      (checks
         [tt_assert_ (strcmp s1 s2 =? 0);
          tt_assert_ (if mem is Some _ then true else false);
          tt_assert_ (if mem is Some mem then negb (strcmp s1 mem =? 0) else false)],
       w, Finishes tt (Some db))
  end.

Definition test_timeout : demo_code unit := fun m w =>
  let t1 := time w in
  let w := sleep 5 w in
  let t2 := time w in
  (checks [tt_assert_ (4 <=? t2 - t1); tt_assert_ (t2 - t1 <=? 6)], w, Finishes tt m).

Definition demo_tests : list testcase_t :=
  [mk_testcase "strcmp" test_strcmp 0 None;
   mk_testcase "memcpy" test_memcpy TT_FORK (Some (setup_data_buffer, clean_data_buffer));
   mk_testcase "timeout" test_timeout TT_OFF_BY_DEFAULT None].

Definition demo_groups : list testgroup_t := [mk_testgroup "demo/" demo_tests].

Definition alltests : list string := ["+.."].
Definition slowtests : list string := ["+demo/timeout"].
Definition demo_aliases : list testlist_alias_t := [mk_alias "ALL" alltests; mk_alias "SLOW" slowtests].

(** [main], on the arguments after the name of the program. *)
Definition demo_main (argv : list string) (w : World) : ending Z :=
  tinytest_main demo_aliases 1 argv demo_groups (mk_proc initial_vars None w).

(** The calls of the system that the demo makes, when nothing is wrong with it. *)
Class GoodSystem : Prop := {
  gs_malloc : forall n, 0 < n -> is_Some (malloc n);
  gs_fork : forall w : World, fork_ok w = true;
  gs_write : forall w : World, write_ok w = true;
  gs_sleep : forall w, 4 <= time (sleep 5 w) - time w <= 6 }.

Lemma demo_memcpy_ok flags w :
  GoodSystem ->
  bare_verdict (mk_testcase "memcpy" test_memcpy flags (Some (setup_data_buffer, clean_data_buffer))) None w =
    (Finishes OK None, w).
Proof.
  intros GS. unfold bare_verdict, setup_data_buffer. cbn [tc_setup tc_flags].
  destruct (gs_malloc 1024 eq_refl) as [p Hp]. rewrite Hp. pose proof (malloc_len _ _ Hp) as Hl.
  unfold env_verdict, test_memcpy. cbn [tc_fn tc_setup tc_flags mbind option_bind buffer1 buffer2].
  assert (zlen (slice p 0 512) = 512) as Hl1 by (apply zlen_slice; lia).
  assert (zlen (slice p 512 512) = 512) as Hl2 by (apply zlen_slice; lia).
  set (str := (text "String 0" ++ [x00])%list). assert (zlen str = 9) as Hs by reflexivity.
  rewrite mwrite_ok by lia. cbn [mbind option_bind].
  set (b1 := splice _ 0 str). assert (zlen b1 = 512) as Hb by (unfold b1; rewrite zlen_splice; lia).
  rewrite memcpy_ok by lia. cbn [mbind option_bind].
  assert (splice (slice p 512 512) 0 (slice b1 0 512) = b1) as ->.
  { rewrite slice_all by lia. apply splice_all. lia. }
  assert (c_string b1 = Some "String 0") as ->.
  { reflexivity. }
  cbn [mbind option_bind].
  destruct (gs_malloc (strlen "Hello world." + 1) eq_refl) as [q ->]. reflexivity.
Qed.

Lemma demo_timeout_ok flags w :
  GoodSystem -> bare_verdict (mk_testcase "timeout" test_timeout flags None) None w =
    (Finishes OK (None : option data_buffer), sleep 5 w).
Proof.
  intros GS. destruct (gs_sleep w) as [H1 H2]. unfold bare_verdict, env_verdict, test_timeout. cbn [tc_setup tc_fn].
  apply Z.leb_le in H1 as ->. by apply Z.leb_le in H2 as ->.
Qed.

Lemma demo_one_memcpy w :
  GoodSystem ->
  one_verdict (mk_testcase "memcpy" test_memcpy (Z.lor TT_FORK TT_ENABLED_)
    (Some (setup_data_buffer, clean_data_buffer))) None w = ([OK], Finishes tt None, w).
Proof.
  intros GS. unfold one_verdict, forked_verdict. by rewrite gs_fork, demo_memcpy_ok, gs_write.
Qed.

Lemma demo_one_timeout w :
  GoodSystem ->
  one_verdict (mk_testcase "timeout" test_timeout TT_ENABLED_ None) None w =
    ([OK], Finishes tt (None : option data_buffer), sleep 5 w).
Proof. intros GS. unfold one_verdict. by rewrite demo_timeout_ok. Qed.

Lemma demo_verdicts t os m w w' :
  GoodSystem -> one_verdict t None w = (os, Finishes tt m, w') ->
  verdicts [mk_testcase "strcmp" test_strcmp TT_ENABLED_ None;
            mk_testcase "memcpy" test_memcpy (Z.lor TT_FORK TT_ENABLED_)
              (Some (setup_data_buffer, clean_data_buffer)); t] None w =
    (OK :: OK :: os, Finishes tt m, w')%list.
Proof.
  intros GS E. cbn [verdicts].
  assert (one_verdict (mk_testcase "strcmp" test_strcmp TT_ENABLED_ None) None w =
    ([OK], Finishes tt (None : option data_buffer), w)) as -> by reflexivity.
  cbn [then_]. rewrite demo_one_memcpy by done. cbn [then_]. rewrite E. cbn. by rewrite app_nil_r.
Qed.

(** What the demo says: run as it is, two tests pass and the slow one is left out;
    with the alias for all of them, the three pass; asked for the slow one alone, it
    passes, and the others are not run. *)
Definition demo_ends (argv : list string) (w : World) (ok skipped : Z) : Prop :=
  exists s', demo_main argv w = Returns 0 s' /\
    n_ok (pvars s') = ok /\ n_bad (pvars s') = 0 /\ n_skipped (pvars s') = skipped.

Lemma demo_main_ok w :
  GoodSystem -> demo_ends [] w 2 1 /\ demo_ends ["@ALL"] w 3 0 /\ demo_ends ["@SLOW"] w 1 0.
Proof.
  intros GS. unfold demo_ends, demo_main.
  assert (forall argv gs n os w', forallb plain argv = true ->
    choose demo_aliases 1 argv demo_groups 0 = Some (Some (gs, n)) ->
    verdicts (enabled (if n =? 0 then map_tests (flagged ".." true TT_ENABLED_) gs else gs)) None w =
      (os, Finishes tt None, w') -> number FAIL os = 0 ->
    exists s', tinytest_main demo_aliases 1 argv demo_groups (mk_proc initial_vars None w) = Returns 0 s' /\
      n_ok (pvars s') = number OK os /\ n_bad (pvars s') = 0 /\ n_skipped (pvars s') = number SKIP os) as H.
  { intros argv gs n os w' Hp Hc Hv Hn. pose proof (main_ok demo_aliases 1 argv demo_groups None w Hp) as H.
    rewrite Hc in H. cbv zeta in H. rewrite Hv, Hn in H. destruct H as (s' & E & _ & _ & Ho & Hb & Hs).
    by exists s'. }
  split; [|split].
  - apply (H _ demo_groups 0 [OK; OK; SKIP] w); try reflexivity. by apply demo_verdicts.
  - eapply (H _ _ _ [OK; OK; OK] (sleep 5 w)); [reflexivity|reflexivity| |reflexivity].
    apply demo_verdicts; [done|]. by apply demo_one_timeout.
  - eapply (H _ _ _ [OK] (sleep 5 w)); [reflexivity|reflexivity| |reflexivity].
    exact (f_equal (fun r => then_ r (verdicts [])) (demo_one_timeout w GS)).
Qed.
End Demo.

(** ** test/test_deep.c *)

#[local] Instance working_forks {World} : Forks (World := World) :=
  {| fork_ok := fun _ => true; write_ok := fun _ => true |}.

Section Deep.
Local Open Scope ottery_scope.
Context {BC : BuildConfig}.

Definition OT_ENABLE_STATE : Z := TT_FIRST_USER_FLAG.

(** The memory of the program that a test finds: the generator that [state] points
    to, or the global one, once [setup_state] has made one; and what the library
    keeps in the process. *)
Inductive deep_env := NoGenerator | UsingState (st : ottery_state) | UsingGlobal (g : global).

Record deep_mem := mk_deep_mem {
  dm_env : deep_env; dm_disabled : Z; dm_handler : option (Z -> tworld -> tworld) }.

(** Code of the library and of the tests, as code of the program. *)
Definition on_process {A} (c : deep_env -> M tworld (A * deep_env)) : code (Mem := deep_mem) (World := tworld) A :=
  fun m w =>
    match c (dm_env m) (mk_process w (dm_disabled m) (dm_handler m)) with
    | Ret (a, env, s) =>
        ([], world s, Finishes a (mk_deep_mem env (disabled_cpu_capabilities s) (ottery_fatal_handler s)))
    | NoFuel => ([], w, Hangs)
    | _ => ([], w, Killed)
    end.

Definition to_env {G} (env : G -> deep_env) (r : option G) : setup_result * deep_env :=
  match r with Some g => (SetupEnv, env g) | None => (SetupNull, NoGenerator) end.

(** [setup_state]: [malloc] succeeds. *)
Definition deep_setup (flags : Z) : code (Mem := deep_mem) setup_result :=
  on_process (fun env =>
    match env with
    | UsingState _ => ret (SetupNull, env)
    | _ =>
        if has flags OT_ENABLE_STATE then do r <- setup_state state_api; ret (to_env UsingState r)
        else do r <- setup_state global_api; ret (to_env UsingGlobal r)
    end).

(** The memory is freed, but [state] still points to it. *)
Definition deep_cleanup (flags : Z) : code (Mem := deep_mem) bool :=
  on_process (fun env =>
    match env with
    | UsingState st => do ok <- cleanup_state state_api st; ret (ok, env)
    | _ => ret (true, env)
    end).

(** A test uses the state if there is one, else the global generator. *)
Definition deep_fn (test : forall G, api G tworld -> deep_test (W := tworld) (G := G)) : code (Mem := deep_mem) unit :=
  fun m w =>
    let '(evs, w, r) :=
      on_process (fun env =>
        match env with
        | UsingState st => do '(b, st) <- test _ state_api st; ret (b, UsingState st)
        | UsingGlobal g => do '(b, g) <- test _ global_api g; ret (b, UsingGlobal g)
        | NoGenerator => do '(b, g) <- test _ global_api initial_global; ret (b, UsingGlobal g)
        end) m w in
    match r with
    | Finishes b m => ((evs ++ checks [tt_assert_ b])%list, w, Finishes tt m)
    | Killed => (evs, w, Killed)
    | Hangs => (evs, w, Hangs)
    end.

(** [COMMON_TESTS(flags)] *)
Definition COMMON_TESTS (flags : Z) : list testcase_t :=
  let row name (test : forall G, api G tworld -> deep_test (W := tworld) (G := G)) :=
    mk_testcase name (deep_fn test) (Z.lor TT_FORK flags) (Some (deep_setup, deep_cleanup)) in
  [row "uints" (fun _ a => test_uints a); row "add_seed" (fun _ a => test_add_seed a);
   row "buf_short" (fun _ a => test_buf_short a); row "buf_long_1" (fun _ a => test_buf_long_1 a)].

Definition deep_groups : list testgroup_t :=
  [mk_testgroup "misc/" [];
   mk_testgroup "state/" (COMMON_TESTS OT_ENABLE_STATE);
   mk_testgroup "global/" (COMMON_TESTS 0)].

(** The memory as the program starts. *)
Definition deep_mem0 : deep_mem := mk_deep_mem NoGenerator 0 None.

Definition test_deep_main (argv : list string) : ending Z :=
  tinytest_main [] 1 argv deep_groups (mk_proc initial_vars deep_mem0 (world zero_process)).

(** ** The program passes *)

(** The machine, after some files have been closed. *)
Definition deep_world (closed : list Z) : tworld := mk_tworld 77 12 0x21b6 x00 (2 ^ 30 + 2 ^ 9) closed [].

(** Run in a process of its own, a test passes, and leaves such a machine. *)
Definition deep_passes (t : testcase_t) : Prop :=
  forall closed, let '(r, w) := bare_verdict t deep_mem0 (deep_world closed) in
  (if r is Finishes OK _ then true else false) = true /\ w = deep_world (tw_closed w).

Lemma deep_flags flags flags' :
  Z.testbit flags' 4 = Z.testbit flags 4 -> deep_setup flags' = deep_setup flags.
Proof.
  intros Hb. assert (has flags' OT_ENABLE_STATE = has flags OT_ENABLE_STATE) as E.
  { change OT_ENABLE_STATE with (Z.shiftl 1 4). by rewrite !has_bit. }
  unfold deep_setup. by rewrite E.
Qed.

Lemma deep_row flags name (test : forall G, api G tworld -> deep_test (W := tworld) (G := G)) flags' :
  Z.testbit flags' 4 = Z.testbit flags 4 ->
  bare_verdict (with_flags flags' (mk_testcase name (deep_fn test) flags (Some (deep_setup, deep_cleanup)))) =
  bare_verdict (mk_testcase name (deep_fn test) flags (Some (deep_setup, deep_cleanup))).
Proof. intros Hb. unfold bare_verdict. cbn [tc_setup with_flags tc_flags]. by rewrite (deep_flags flags flags'). Qed.
End Deep.

Lemma deep_groups_pass (BC : BuildConfig) : Forall deep_passes (deep_groups ≫= tg_cases).
Proof. repeat constructor; intros closed; destruct BC as [[] [] [] [] [] []]; by vm_compute. Qed.

Lemma deep_tests_pass (BC : BuildConfig) t flags :
  List.In t (deep_groups ≫= tg_cases) -> Z.testbit flags 4 = Z.testbit (tc_flags t) 4 ->
  deep_passes (with_flags flags t).
Proof.
  intros Hin Hb. pose proof (deep_groups_pass BC) as H. rewrite List.Forall_forall in H. specialize (H t Hin).
  assert (bare_verdict (with_flags flags t) = bare_verdict t) as E
    by (repeat (destruct Hin as [<-|Hin]; [by apply deep_row|]); done).
  unfold deep_passes. by rewrite E.
Qed.

(** What a run that returns comes to: the status, and the tests that passed, failed
    and were skipped. *)
Definition tally_of {Mem World} (e : ending (Mem := Mem) (World := World) Z) : option (Z * Z * Z * Z) :=
  match e with
  | Returns status s => Some (status, n_ok (pvars s), n_bad (pvars s), n_skipped (pvars s))
  | _ => None
  end.

Lemma deep_verdicts (BC : BuildConfig) ts closed :
  Forall (fun t => has (tc_flags t) TT_FORK = true) ts -> Forall deep_passes ts ->
  exists closed', verdicts ts deep_mem0 (deep_world closed) =
    ((fun t => if skipped t then SKIP else OK) <$> ts, Finishes tt deep_mem0, deep_world closed').
Proof.
  revert closed. induction ts as [|t ts IH]; intros closed Hf Hp; [by exists closed|].
  inv Hf. inv Hp. cbn [verdicts fmap list_fmap]. unfold one_verdict, forked_verdict.
  destruct (skipped t).
  { cbn [then_]. by destruct (IH closed) as (c & ->); [done..|]; exists c. }
  match goal with H : has _ TT_FORK = true |- _ => rewrite H end. cbn [fork_ok working_forks].
  match goal with H : deep_passes t |- _ => specialize (H closed) end.
  destruct (bare_verdict t deep_mem0 (deep_world closed)) as [[[] m| |] w]; try (by destruct_and!).
  match goal with H : _ /\ w = _ |- _ => destruct H as [_ ->] end. cbn [write_ok working_forks then_].
  by destruct (IH (tw_closed w)) as (c & ->); [done..|]; exists c.
Qed.

Lemma deep_numbers {Mem World} (ts : list (testcase_t (Mem := Mem) (World := World))) :
  let outs := (fun t => if skipped t then SKIP else OK) <$> ts in
  number FAIL outs = 0 /\ number OK outs = zlen (List.filter (fun t => negb (skipped t)) ts) /\
  number SKIP outs = zlen (List.filter skipped ts).
Proof.
  cbv zeta. unfold number. induction ts as [|t ts (IH1 & IH2 & IH3)]; [done|]. cbn [fmap list_fmap List.filter].
  rewrite !filter_cons. destruct (skipped t); cbn [negb]; repeat (case_decide; try done);
    rewrite ?zlen_cons, ?IH1, ?IH2, ?IH3; done.
Qed.

Lemma deep_short {BC : BuildConfig} : short_names deep_groups.
Proof. unfold short_names. apply (bool_decide_eq_true_1 _). by vm_compute. Qed.

Lemma deep_selected (BC : BuildConfig) os ts :
  selection deep_groups os = Some ts ->
  Forall (fun t => has (tc_flags t) TT_FORK = true) ts /\ Forall deep_passes ts.
Proof.
  intros Es. split; [apply (selection_forks deep_groups os ts Es); by repeat constructor|].
  eapply Forall_impl; [by apply (selection_tests deep_groups os)|]. intros t' (t & flags & Hin & -> & Hb).
  apply (deep_tests_pass BC t flags Hin). apply (Hb 4). by right.
Qed.

(** With no aliases of any rank, an argument nests at most once. *)
Lemma flat_rank arg : (option_rank (fun _ => O) arg <= 1)%nat.
Proof. destruct arg as [|[[] [] [] [] [] [] [] []] arg]; cbn; lia. Qed.

(** C25: the program of test/test_deep.c passes on the model, in every build, on
    the platform of the tests and a machine whose device reads as zeros. Whatever
    tests are named, prefixed, skipped or forced on the command line, and however much
    is to be printed, it returns 0, with every selected test that is not skipped
    passed and none failed, or -1, with none run, if some name is no test's; so the
    integers, byte strings, cleared buffer prefixes, positions and PRF keys written
    there by hand are those that the model computes, through the functions on a state
    and through the global ones, and in whatever order and number the tests run. Only
    in children of their own do they pass: with --no-fork the first one does, and the
    seven others fail, for the cleanup leaves [state] set, at which the next set-up
    gives up. *)
Theorem test_deep_main_passes (BC : BuildConfig) argv :
  forallb plain argv = true ->
  (exists os, orders [] 1 argv = Some os /\
    tally_of (test_deep_main argv) =
      Some (match selection deep_groups os with
            | None => (-1, 0, 0, 0)
            | Some ts => (0, zlen (List.filter (fun t => negb (skipped t)) ts), 0, zlen (List.filter skipped ts))
            end)) /\
  tally_of (test_deep_main ["--no-fork"]) = Some (1, 1, 7, 0).
Proof.
  intros Hp. split; [|by destruct BC as [[] [] [] [] [] []]; vm_compute].
  destruct (orders_ranked [] (fun _ => O) 1 argv) as [os Eo];
    [by intros a t l []|apply List.Forall_forall; intros arg _; apply flat_rank|].
  exists os. split; [done|]. pose proof deep_short as Hs.
  pose proof (main_selects [] 1 argv deep_groups os deep_mem0 (world zero_process) Hp Hs Eo) as H.
  unfold test_deep_main. destruct (selection deep_groups os) as [ts|] eqn:Es.
  - destruct (deep_selected BC os ts Es) as [Hf Ht]. destruct (deep_verdicts BC ts [] Hf Ht) as (c & Ev).
    change (deep_world []) with (world zero_process) in Ev. rewrite Ev in H.
    destruct (deep_numbers ts) as (H1 & H2 & H3). rewrite H1, H2, H3 in H.
    destruct H as (s' & -> & _ & _ & Ho & Hb & Hk). cbn [tally_of]. by rewrite Ho, Hb, Hk.
  - destruct H as (s' & -> & _ & _ & Ho & Hb & Hk). cbn [tally_of]. by rewrite Ho, Hb, Hk.
Qed.

Lemma test_deep_main_passes_witness :
  let BC := default_build in
  tally_of (test_deep_main []) = Some (0, 8, 0, 0) /\
  tally_of (test_deep_main ["state/.."; "global/buf_long_1"; ":state/uints"; "--terse"]) = Some (0, 4, 0, 1) /\
  tally_of (test_deep_main ["misc/.."]) = Some (-1, 0, 0, 0).
Proof.
  intros BC. split; [|split].
  - destruct (test_deep_main_passes BC [] eq_refl) as [(os & [= <-] & ->) _]. by vm_compute.
  - destruct (test_deep_main_passes BC ["state/.."; "global/buf_long_1"; ":state/uints"; "--terse"] eq_refl)
      as [(os & [= <-] & ->) _]. by vm_compute.
  - destruct (test_deep_main_passes BC ["misc/.."] eq_refl) as [(os & [= <-] & ->) _]. by vm_compute.
Defined.
