(* ===== verification/TestShallow.v ===== *)
(** * The shallow tests of test/test_shallow.c

    Those whose result does not depend on random bytes: the sizes, the choice of a
    PRF, fatal errors, build flags, versions, failing initializations, a misaligned
    state; their set-up and cleanup; and the program, which runs them under the
    driver. Left out: the tests of the entropy sources and of the output, which
    look for bytes and bits that differ, and so pass with a probability. *)
From Stdlib Require Import Ascii.
From S2P Require Import Prelude Words Memory Internal ChaChaRef ChaChaMerged Os CpuInfo Entropy Config.
From S2P Require Import Api Global TestVectors Tinytest TestEgd TestDeep TestMain.
Local Open Scope Z_scope.

(** ** The world of the tests *)

(** The world beside [got_fatal_err], the variable that the handler of fatal errors
    sets: to the first error, or to -1 for another or for no error. *)
Definition fatal_world (W : Type) : Type := W * Z.

Section Shallow.
Context {W : Type} {OS0 : OS W} {BC : BuildConfig} {PL : Platform}.
Abbreviation FW := (fatal_world W).

Definition beside {A} (f : W -> A * W) (w : FW) : A * FW :=
  let '(a, w1) := f (fst w) in (a, (w1, snd w)).

#[export] Instance fatal_os : OS FW := {|
  os_getpid w := os_getpid (fst w);
  os_open name := beside (os_open name);
  os_fstat fd := beside (os_fstat fd);
  os_read fd n := beside (os_read fd n);
  os_write fd bs := beside (os_write fd bs);
  os_close fd w := (os_close fd (fst w), snd w);
  os_socket family := beside (os_socket family);
  os_connect sock addr len := beside (os_connect sock addr len);
  os_CryptAcquireContext := beside os_CryptAcquireContext;
  os_CryptGenRandom provider n := beside (os_CryptGenRandom provider n);
  os_CryptReleaseContext provider w := (os_CryptReleaseContext provider (fst w), snd w);
  os_rdrand := beside os_rdrand;
  os_cpuid i w := os_cpuid i (fst w);
  os_pthread_mutex_init := beside os_pthread_mutex_init;
  os_InitializeCriticalSection := beside os_InitializeCriticalSection |}.

Definition fatal_handler (err : Z) (w : FW) : FW :=
  (fst w, if negb (snd w =? 0) || (err =? 0) then -1 else err).

Local Open Scope ottery_scope.

Definition set_got_fatal_err (e : Z) : M FW unit := fun s => Ret (tt, set_world (fst (world s), e) s).
Definition got_fatal_err : M FW Z := gets (fun s => snd (world s)).

(** ** Tests without a generator *)

(** [tt_assert] and its variants, which end the test. *)
Definition assert_ (b : bool) (k : M FW tt_outcome) : M FW tt_outcome := if b then k else ret FAIL.
Definition pass : M FW tt_outcome := ret OK.

(** The program sees the real structures. *)
Definition test_get_sizeof : M FW tt_outcome :=
  assert_ (ottery_get_sizeof_config <=? sizeof_ottery_config)
    (assert_ (ottery_get_sizeof_state <=? sizeof_ottery_state) pass).

(** [tt_int_op(err, ==, ottery_config_force_implementation(&cfg, i))] *)
Definition force (cfg : ottery_config) (i : option string) (err : Z) (k : ottery_config -> M FW tt_outcome)
  : M FW tt_outcome :=
  do '(r, cfg) <- ottery_config_force_implementation cfg i;
  assert_ (r =? err) (k cfg).

(** Two PRFs of the library are the same object if their flavors are the same. *)
Definition impl_is (cfg : ottery_config) (p : ottery_prf) : bool :=
  match cfg_impl cfg with Some q => String.eqb (flav q) (flav p) | None => false end.

Definition test_select_prf : M FW tt_outcome :=
  let cfg := ottery_config_init in
  force cfg (Some "CHACHA8"%string) 0 (fun cfg =>
  assert_ (match cfg_impl cfg with Some q => String.eqb (name q) "CHACHA8" | None => false end)
  (force cfg (Some "CHACHA12-NOSIMD"%string) 0 (fun cfg =>
  assert_ (impl_is cfg ottery_prf_chacha12_merged_)
  (force cfg (Some "CHACHA20-NOSIMD-DEFAULT"%string) 0 (fun cfg =>
  assert_ (impl_is cfg ottery_prf_chacha20_merged_)
  (let cfg := ottery_config_init in
   force cfg None 0 (fun cfg =>
   assert_ (match cfg_impl cfg with Some _ => true | None => false end)
   (do_ ottery_disable_cpu_capabilities_ OTTERY_CPUCAP_SIMD;
    force cfg None 0 (fun cfg =>
    assert_ (impl_is cfg ottery_prf_chacha20_merged_) pass))))))))).

Definition test_build_flags : M FW tt_outcome :=
  let f := ottery_get_build_flags in
  assert_ (if OTTERY_NO_WIPE_STACK then negb (Z.land f OTTERY_BLDFLG_NO_WIPE_STACK =? 0)
           else Z.land f OTTERY_BLDFLG_NO_WIPE_STACK =? 0) pass.

(** A number and the character after it, for [sscanf]'s "%u." and "%u%c%c" on a
    string of digits, dots and letters. *)
Definition scan_number (s : string) : option (Z * option (ascii * string)) :=
  match s with
  | String c _ =>
      match digit c with
      | Some _ =>
          let '(n, rest) := digits 0 s in
          Some (n, match rest with String c rest => Some (c, rest) | EmptyString => None end)
      | None => None
      end
  | EmptyString => None
  end.

(** [sscanf(s, "%u.%u.%u%c%c", &a, &b, &c, &more1, &more2)]: the three numbers and
    the characters after them; [None] if it finds fewer. *)
Definition sscanf_version (s : string) : option (Z * Z * Z * string) :=
  match scan_number s with
  | Some (a, Some ("."%char, s)) =>
      match scan_number s with
      | Some (b, Some ("."%char, s)) =>
          match scan_number s with
          | Some (c, more) => Some (a, b, c, match more with Some (m, r) => String m r | None => EmptyString end)
          | None => None
          end
      | _ => None
      end
  | _ => None
  end.

Definition test_versions : M FW tt_outcome :=
  assert_ (OTTERY_VERSION =? ottery_get_version)
  (assert_ (String.eqb OTTERY_VERSION_STRING ottery_get_version_string)
  match sscanf_version OTTERY_VERSION_STRING with
  | None => ret FAIL
  | Some (a, b, c, more) =>
      let byte_at k := Z.land (Z.shiftr OTTERY_VERSION k) 0xff in
      assert_ (match more with String m _ => Ascii.eqb m "-" | EmptyString => true end)
      (assert_ (byte_at 24 =? a) (assert_ (byte_at 16 =? b) (assert_ (byte_at 8 =? c)
      (assert_ (match more with
                | String _ _ => negb (byte_at 0 =? 0)
                | EmptyString => byte_at 0 =? 0
                end) pass))))
  end).

(** The block that [malloc] gives is at [ptr]. *)
Definition test_misaligned_init (ptr : Z) : M FW tt_outcome :=
  let st := if Z.land ptr 0xf =? 0 then ptr + 1 else ptr in
  do '(r, _) <- ottery_st_init st zero_state None;
  assert_ (r =? OTTERY_ERR_STATE_ALIGNMENT) pass.

(** ** Fatal errors *)

(** [got_fatal_err = 0;], a call, and [tt_int_op(got_fatal_err, ==, err)]. *)
Definition expect_fatal {A} (call : M FW A) (err : Z) (k : A -> M FW tt_outcome) : M FW tt_outcome :=
  do_ set_got_fatal_err 0;
  do a <- call;
  do e <- got_fatal_err;
  assert_ (e =? err) (k a).

Definition ALL_ENTROPY_BUT (src : Z) : Z := Z.ldiff OTTERY_ENTROPY_ALL_SOURCES src.

(** A state of bytes 0xff: of its fields only the magic number is looked at. *)
Definition ff_state : ottery_state := set_pid (-1) (set_magic 0xffffffff zero_state).

Section Fatal.
(** The addresses of [st] and [st_nl], and the turns that a range may take. *)
Context (st_addr nl_addr : Z) (fuel : nat).

Definition xyz : option (list byte) := Some (text "xyz").

(** Calls on states that are not initialized. *)
Definition fatal_uninit (k : M FW tt_outcome) : M FW tt_outcome :=
  let buf := zeros 8 in
  expect_fatal (ottery_st_add_seed st_addr ff_state xyz 3) OTTERY_ERR_STATE_INIT (fun '(_, st) =>
  expect_fatal (ottery_st_add_seed_nolock nl_addr ff_state xyz 3) OTTERY_ERR_STATE_INIT (fun '(_, st_nl) =>
  expect_fatal (ottery_st_rand_unsigned st_addr st) OTTERY_ERR_STATE_INIT (fun '(_, st) =>
  expect_fatal (ottery_st_rand_unsigned_nolock nl_addr st_nl) OTTERY_ERR_STATE_INIT (fun '(_, st_nl) =>
  expect_fatal (ottery_st_rand_bytes st_addr st buf 0 8) OTTERY_ERR_STATE_INIT (fun '(st, buf) =>
  expect_fatal (ottery_st_rand_bytes_nolock nl_addr st_nl buf 0 8) OTTERY_ERR_STATE_INIT (fun '(st_nl, _) =>
  expect_fatal (ottery_st_rand_range fuel st_addr st 12) OTTERY_ERR_STATE_INIT (fun '(_, st) =>
  expect_fatal (ottery_st_rand_range fuel nl_addr st_nl 12) OTTERY_ERR_STATE_INIT (fun '(_, st_nl) =>
  expect_fatal (ottery_st_rand_range64 fuel st_addr st 12) OTTERY_ERR_STATE_INIT (fun '(_, _) =>
  expect_fatal (ottery_st_rand_range64_nolock fuel nl_addr st_nl 12) OTTERY_ERR_STATE_INIT (fun _ => k)))))))))).

(** [st.entropy_config.urandom_fname = "/dev/null";
    st.entropy_config.disabled_sources = ALL_ENTROPY_BUT(RANDOMDEV);] *)
Definition impossible (c : ottery_entropy_config) : ottery_entropy_config :=
  mk_entropy_config (Some "/dev/null"%string) (urandom_fd c) (urandom_fd_is_set c) (egd_sockaddr c)
    (egd_socklen c) (ALL_ENTROPY_BUT OTTERY_ENTROPY_SRC_RANDOMDEV) (weak_sources c) (allow_nondev_urandom c).

(** A state that finds itself in another process and cannot be reseeded. *)
Definition fatal_postfork (init : M FW (Z * ottery_state)) (rand : ottery_state -> M FW (Z * ottery_state))
    (k : M FW tt_outcome) : M FW tt_outcome :=
  do_ set_got_fatal_err 0;
  do '(r, st) <- init;
  assert_ (r =? 0)
  (do '(_, st) <- rand st;
   do pid <- getpid;
   let st := set_pid (pid + 100) st in
   let st := set_entropy_config (impossible (st_entropy_config st)) st in
   do e <- got_fatal_err;
   assert_ (e =? 0)
   (do '(_, st) <- rand st;
    do e <- got_fatal_err;
    assert_ (e =? Z.lor OTTERY_ERR_ACCESS_STRONG_RNG OTTERY_ERR_FLAG_POSTFORK_RESEED) k)).

Definition test_fatal : M FW tt_outcome :=
  do_ ottery_set_fatal_handler (Some fatal_handler);
  (if OTTERY_NO_INIT_CHECK then fun k => k else fatal_uninit)
  ((if OTTERY_NO_PID_CHECK then fun k => k
    else fun k =>
      fatal_postfork (ottery_st_init st_addr ff_state None) (ottery_st_rand_unsigned st_addr)
      (fatal_postfork (ottery_st_init_nolock nl_addr ff_state None) (ottery_st_rand_unsigned_nolock nl_addr) k))
   (ret (if OTTERY_NO_INIT_CHECK && OTTERY_NO_PID_CHECK then SKIP else OK))).
End Fatal.

(** ** Initializations that fail *)

Definition bad_prf (state_len' state_bytes' output_len' : Z) : ottery_prf :=
  let p := ottery_prf_chacha20_merged_ in
  mk_prf (name p) (impl p) (flav p) state_len' state_bytes' output_len' (required_cpucap p) (setup p) (generate p).

Section BadInit.
(** The generator under test, and [OTTERY_INIT] on it. *)
Context {G : Type} (init : G -> option ottery_config -> M FW (Z * G)).

(** [tt_int_op(err, ==, OTTERY_INIT(&cfg))] *)
Definition expect_init (cfg : ottery_config) (err : Z) (k : G -> M FW (tt_outcome * G)) (g : G)
  : M FW (tt_outcome * G) :=
  do '(r, g) <- init g (Some cfg);
  if r =? err then k g else ret (FAIL, g).

Definition expect_force (cfg : ottery_config) (i : string) (err : Z)
    (k : ottery_config -> G -> M FW (tt_outcome * G)) (g : G) : M FW (tt_outcome * G) :=
  do '(r, cfg) <- ottery_config_force_implementation cfg (Some i);
  if r =? err then k cfg g else ret (FAIL, g).

(** PRFs that are too large, or yield too little for a key. *)
Definition bad_prfs (cfg : ottery_config) (k : G -> M FW (tt_outcome * G)) : G -> M FW (tt_outcome * G) :=
  let p := ottery_prf_chacha20_merged_ in
  let cfg := ottery_config_set_manual_prf_ cfg (Some (bad_prf 1024 (state_bytes p) (output_len p))) in
  expect_init cfg OTTERY_ERR_INTERNAL (
  let cfg := ottery_config_set_manual_prf_ cfg (Some (bad_prf (state_len p) 2000 (output_len p))) in
  expect_init cfg OTTERY_ERR_INTERNAL (
  let cfg := ottery_config_set_manual_prf_ cfg (Some (bad_prf (state_len p) (state_bytes p) 8)) in
  expect_init cfg OTTERY_ERR_INTERNAL k)).

(** Sources that are missing, empty, disabled or weak. *)
Definition bad_sources (cfg : ottery_config) : G -> M FW (tt_outcome * G) :=
  let SRC_RDRAND := OTTERY_ENTROPY_SRC_RDRAND in
  expect_init cfg 0 (
  let cfg := ottery_config_set_urandom_device cfg (Some "/dev/please-dont-add-this-device"%string) in
  let cfg := ottery_config_disable_entropy_sources cfg SRC_RDRAND in
  expect_init cfg OTTERY_ERR_INIT_STRONG_RNG (
  let cfg := ottery_config_set_urandom_device cfg (Some "/dev/null"%string) in
  let cfg := ottery_config_disable_entropy_sources cfg (Z.lor SRC_RDRAND OTTERY_ENTROPY_SRC_EGD) in
  expect_init cfg OTTERY_ERR_ACCESS_STRONG_RNG (
  let cfg := ottery_config_set_urandom_device cfg None in
  expect_init cfg 0 (
  let cfg := ottery_config_mark_entropy_sources_weak ottery_config_init 0xffffffff in
  expect_init cfg OTTERY_ERR_INIT_STRONG_RNG (
  let cfg := ottery_config_mark_entropy_sources_weak cfg SRC_RDRAND in
  expect_init cfg 0 (fun g => ret (OK, g))))))).

Definition test_bad_init : G -> M FW (tt_outcome * G) :=
  expect_force ottery_config_init "rc4" OTTERY_ERR_INVALID_ARGUMENT (fun cfg =>
  expect_force cfg "CHACHA20" 0 (fun cfg =>
  bad_prfs cfg (fun g =>
    do '(_, cfg) <- ottery_config_force_implementation ottery_config_init (Some "CHACHA20"%string);
    bad_sources cfg g))).
End BadInit.

(** ** The program *)

Section Program.
(** The addresses of the state that [setup_state] allocates, of the library's
    global state, of the states of test_fatal and of the block of
    test_misaligned_init; the results of [fork] and of the child's [write]. *)
Context (state_addr global_addr st_addr nl_addr ptr : Z) (fuel : nat).

(** [state] with [state_nolock], the global generator, [got_fatal_err], and what the
    library keeps in the process. *)
Record shallow_mem := mk_shallow_mem {
  sm_state : option (ottery_state * bool);
  sm_global : global;
  sm_got_fatal_err : Z;
  sm_disabled : Z;
  sm_handler : option (Z -> FW -> FW) }.

Definition initial_mem : shallow_mem := mk_shallow_mem None initial_global 0 0 None.

Definition shallow_code (A : Type) : Type := code (Mem := shallow_mem) (World := W) A.

(** The code of a test in the memory of its process. *)
Definition in_process {A} (c : shallow_mem -> M FW (A * option (ottery_state * bool) * global)) : shallow_code A :=
  fun m w =>
    match c m (mk_process (w, sm_got_fatal_err m) (sm_disabled m) (sm_handler m)) with
    | Ret (a, st, g, s) =>
        ([], fst (world s),
         Finishes a (mk_shallow_mem st g (snd (world s)) (disabled_cpu_capabilities s) (ottery_fatal_handler s)))
    | NoFuel => ([], w, Hangs)
    | _ => ([], w, Killed)
    end.

(** A test tells the driver its outcome. *)
Definition telling (c : shallow_code tt_outcome) : shallow_code unit := fun m w =>
  let '(evs, w, r) := c m w in
  match r with
  | Finishes o m =>
      ((evs ++ match o with OK => [] | FAIL => [SetFailed] | SKIP => [SetSkipped] end)%list, w, Finishes tt m)
  | Killed => (evs, w, Killed)
  | Hangs => (evs, w, Hangs)
  end.

Definition plain_test (t : M FW tt_outcome) : shallow_code unit :=
  telling (in_process (fun m => do o <- t; ret (o, sm_state m, sm_global m))).

(** [OTTERY_INIT] by what [setup_state] has set up. *)
Definition bad_init_test : shallow_code unit :=
  telling (in_process (fun m =>
    match sm_state m with
    | Some (st, true) =>
        do '(o, st) <- test_bad_init (ottery_st_init_nolock state_addr) st; ret (o, Some (st, true), sm_global m)
    | Some (st, false) =>
        do '(o, st) <- test_bad_init (ottery_st_init state_addr) st; ret (o, Some (st, false), sm_global m)
    | None =>
        do '(o, g) <- test_bad_init (ottery_init global_addr) (sm_global m); ret (o, None, g)
    end)).

Definition OT_ENABLE_STATE_NOLOCK : Z := Z.lor (Z.shiftl TT_FIRST_USER_FLAG 1) OT_ENABLE_STATE.

(** [setup_state]: [malloc] succeeds; the result of the initialization is not
    looked at. *)
Definition shallow_setup (flags : Z) : shallow_code setup_result :=
  in_process (fun m =>
    match sm_state m with
    | Some _ => ret (SetupNull, sm_state m, sm_global m)
    | None =>
        if has flags OT_ENABLE_STATE then
          if negb (ottery_get_sizeof_state =? ottery_get_sizeof_state_nolock)
          then ret (SetupNull, None, sm_global m)
          else
            let nolock := has flags OT_ENABLE_STATE_NOLOCK in
            do '(_, st) <- (if nolock then ottery_st_init_nolock state_addr zero_state None
                            else ottery_st_init state_addr zero_state None);
            ret (SetupEnv, Some (st, nolock), sm_global m)
        else ret (SetupEnv, None, sm_global m)
    end).

Definition shallow_cleanup (flags : Z) : shallow_code bool :=
  in_process (fun m =>
    match sm_state m with
    | Some (st, _) => do ok <- cleanup_state (W := FW) state_api st; ret (ok, sm_state m, sm_global m)
    | None => ret (true, None, sm_global m)
    end).

Definition bad_init_row (flags : Z) : testcase_t :=
  mk_testcase "bad_init" bad_init_test (Z.lor TT_FORK flags) (Some (shallow_setup, shallow_cleanup)).

(** The groups, less the tests left out. *)
Definition shallow_groups : list testgroup_t :=
  [mk_testgroup "misc/"
     [mk_testcase "get_sizeof" (plain_test test_get_sizeof) 0 None;
      mk_testcase "select_prf" (plain_test test_select_prf) TT_FORK None;
      mk_testcase "fatal" (plain_test (test_fatal st_addr nl_addr fuel)) TT_FORK None;
      mk_testcase "build_flags" (plain_test test_build_flags) 0 None;
      mk_testcase "versions" (plain_test test_versions) 0 None];
   mk_testgroup "state/"
     [bad_init_row OT_ENABLE_STATE;
      mk_testcase "misaligned_init" (plain_test (test_misaligned_init ptr)) 0 None];
   mk_testgroup "nolock/" [bad_init_row OT_ENABLE_STATE_NOLOCK];
   mk_testgroup "global/" [bad_init_row 0]].

Context {FK : Forks (World := W)}.

Definition test_shallow_main (argv : list string) (w : W) : ending Z :=
  tinytest_main [] 1 argv shallow_groups (mk_proc initial_vars initial_mem w).
End Program.
End Shallow.
