(* ===== verification/TestShallowProps.v ===== *)
(** * The shallow tests pass on a Unix machine

    Every modelled test of test/test_shallow.c, in every build and on every machine
    that is as UnixMachine.v says, through the program's driver. *)
From Stdlib Require Import Ascii.
From S2P Require Import Prelude Words Memory Internal Spec Prng Refine.
From S2P Require Import ChaChaRef ChaChaMerged ChaChaKrovetz Os CpuInfo Entropy TestOs Config Api ApiRefine ApiProps.
From S2P Require Import Global TestVectors Tinytest TestDeep TestMain Keeps UnixMachine TestShallow.
Local Open Scope Z_scope.
Local Open Scope ottery_scope.

(** ** The world with [got_fatal_err] *)

Section Beside.
Context {W : Type} {OS0 : OS W} {PL : Platform}.

#[export] Instance fatal_os_laws {OL : OSLaws OS0} : OSLaws (fatal_os (OS0 := OS0)).
Proof.
  split.
  - intros fd n [w e] r bs w' Hn. cbn. unfold beside. cbn [fst snd].
    destruct (os_read fd n w) as [[r1 bs1] w1] eqn:E. intros [= <- <- _]. by apply (os_read_law fd n w _ _ w1).
  - intros pr n [w e] r bs w' Hn. cbn. unfold beside. cbn [fst snd].
    destruct (os_CryptGenRandom pr n w) as [[r1 bs1] w1] eqn:E. intros [= <- <- _].
    by apply (os_crypt_law pr n w _ _ w1).
Qed.

#[export] Program Instance fatal_machine {UM : UnixMachine OS0} : UnixMachine (fatal_os (OS0 := OS0)) :=
  {| device_of := device_of; opened d fd w := opened d fd (fst w) |}.
Next Obligation. intros. apply um_unix. Qed.
Next Obligation. intros. apply um_sizes. Qed.
Next Obligation. intros. apply um_urandom. Qed.
Next Obligation. intros. apply um_null. Qed.
Next Obligation. intros. apply um_missing. Qed.
Next Obligation.
  intros UM name [w e]. pose proof (um_open name w) as H. cbn. unfold beside. cbn [fst snd].
  destruct (os_open name w). exact H.
Qed.
Next Obligation.
  intros UM d fd [w e] Ho. pose proof (um_fstat d fd w Ho) as H. cbn. unfold beside. cbn [fst snd].
  destruct (os_fstat fd w) as [[r st] w']. exact H.
Qed.
Next Obligation.
  intros UM d fd n [w e] Ho Hn. pose proof (um_read d fd n w Ho Hn) as H. cbn. unfold beside. cbn [fst snd].
  destruct (os_read fd n w) as [[r bs] w']. exact H.
Qed.
Next Obligation.
  intros UM [w e]. pose proof (um_mutex w) as H. cbn. unfold beside. cbn [fst].
  destruct (os_pthread_mutex_init w). exact H.
Qed.
End Beside.

Section Shallow.
Context {W : Type} {OS0 : OS W} {BC : BuildConfig} {PL : Platform} {OL : OSLaws OS0} {UM : UnixMachine OS0}.
Abbreviation FW := (fatal_world W).

(** ** The choice of a PRF *)

Definition simd_prfs (t : target) : list ottery_prf :=
  [ottery_prf_chacha20_krovetz_ t; ottery_prf_chacha12_krovetz_ t; ottery_prf_chacha8_krovetz_ t].
Definition portable_prfs : list ottery_prf :=
  [ottery_prf_chacha20_merged_; ottery_prf_chacha12_merged_; ottery_prf_chacha8_merged_].

Lemma get_impl_loop_app i cap l l' :
  get_impl_loop i cap (l ++ l') =
    match get_impl_loop i cap l with Some q => Some q | None => get_impl_loop i cap l' end.
Proof.
  induction l as [|r l IH]; [done|]. cbn [app get_impl_loop]. destruct (negb _); [exact IH|].
  destruct i as [n|]; [|done]. by repeat match goal with |- context [String.eqb ?a ?b] => destruct (String.eqb a b) end.
Qed.

Lemma ALL_PRFS_split :
  exists l, ALL_PRFS = l ++ portable_prfs /\ Forall (fun q => exists t, In q (simd_prfs t)) l.
Proof.
  unfold ALL_PRFS. rewrite app_assoc. eexists. split; [reflexivity|].
  assert (forall t, Forall (fun q => exists t, In q (simd_prfs t)) (simd_prfs t)) as H.
  { intros t. apply List.Forall_forall. intros q Hq. by exists t. }
  apply Forall_app. split; [destruct HAVE_SIMD_CHACHA_2|destruct HAVE_SIMD_CHACHA];
    first [apply H | apply Forall_nil_2].
Qed.

(** A PRF that a search for [n] may find when the portable one it finds is [p]. *)
Definition may_find (n : string) (p q : ottery_prf) : Prop :=
  q = p \/ (exists t, In q (simd_prfs t)) /\ (n = name q \/ n = impl q \/ n = flav q).

Lemma get_impl_portable n p cap :
  get_impl_loop (Some n) cap portable_prfs = Some p ->
  exists q, get_impl_loop (Some n) cap ALL_PRFS = Some q /\ may_find n p q.
Proof.
  intros Hp. destruct ALL_PRFS_split as (l & -> & Hl). rewrite get_impl_loop_app.
  destruct (get_impl_loop (Some n) cap l) as [r|] eqn:E; [|by exists p; split; [|left]].
  exists r. split; [done|]. right. apply get_impl_loop_in in E as (Hin & _ & Hn).
  split; [|done]. rewrite List.Forall_forall in Hl. by apply Hl.
Qed.

(** What a search by one of these names may find. *)
Lemma may_find_name p q : may_find "CHACHA8" p q -> name p = "CHACHA8"%string -> name q = "CHACHA8"%string.
Proof.
  intros [->|[[t Ht] Hn]]; [done|]. intros _.
  repeat (destruct Ht as [<-|Ht]; [by destruct t as [|? []], Hn as [?|[?|?]]|]). destruct Ht.
Qed.

Lemma may_find_portable n p q :
  In n ["CHACHA12-NOSIMD"; "CHACHA20-NOSIMD-DEFAULT"]%string -> may_find n p q -> q = p.
Proof.
  intros Hin [->|[[t Ht] Hn]]; [done|]. exfalso.
  repeat (destruct Hin as [<-|Hin];
    [repeat (destruct Ht as [<-|Ht]; [by destruct t as [|? []], Hn as [?|[?|?]]|]); destruct Ht|]).
  destruct Hin.
Qed.

(** Without SIMD the default is the portable PRF. *)
Lemma get_impl_no_simd cap :
  Z.land OTTERY_CPUCAP_SIMD cap = 0 -> get_impl_loop None cap ALL_PRFS = Some ottery_prf_chacha20_merged_.
Proof.
  intros Hc. destruct ALL_PRFS_split as (l & -> & Hl). rewrite get_impl_loop_app.
  destruct (get_impl_loop None cap l) as [q|] eqn:E; [exfalso|done].
  apply get_impl_loop_in in E as (Hin & Hcap & _). rewrite List.Forall_forall in Hl.
  destruct (Hl q Hin) as [t Ht].
  assert (Z.testbit (required_cpucap q) 0 = true) as Hb
    by (destruct t as [|? []]; repeat (destruct Ht as [<-|Ht]; [reflexivity|]); destruct Ht).
  apply (f_equal (fun z => Z.testbit z 0)) in Hc, Hcap. rewrite Z.land_spec in Hc, Hcap.
  rewrite Hb in Hcap. change (Z.testbit OTTERY_CPUCAP_SIMD 0) with true in Hc. rewrite Z.bits_0 in Hc.
  cbn [andb] in *. congruence.
Qed.

Lemma get_impl_unknown cap : get_impl_loop (Some "rc4"%string) cap ALL_PRFS = None.
Proof.
  destruct (get_impl_loop _ cap ALL_PRFS) as [q|] eqn:E; [exfalso|done].
  apply get_impl_loop_in in E as (Hin & _ & Hn). destruct ALL_PRFS_split as (l & HA & Hl). rewrite HA in Hin.
  apply List.in_app_or in Hin as [Hin|Hin].
  - rewrite List.Forall_forall in Hl. destruct (Hl q Hin) as [t Ht].
    repeat (destruct Ht as [<-|Ht]; [by destruct Hn as [?|[?|?]]|]). destruct Ht.
  - repeat (destruct Hin as [<-|Hin]; [by destruct Hn as [?|[?|?]]|]). destruct Hin.
Qed.

(** The library's answer to [ottery_config_force_implementation]. *)
Lemma force_run cfg i (s : process FW) :
  let cap := Z.ldiff (cpu_capabilities (world s)) (disabled_cpu_capabilities s) in
  ottery_config_force_implementation cfg i s =
    match get_impl_loop i cap ALL_PRFS with
    | Some q => Ret (0, mk_config (Some q) (cfg_entropy cfg), s)
    | None => Ret (OTTERY_ERR_INVALID_ARGUMENT, cfg, s)
    end.
Proof.
  intros cap. unfold ottery_config_force_implementation, ottery_get_impl, ottery_get_cpu_capabilities_.
  rewrite bind_assoc, bind_gets, bind_ret. fold cap. by destruct (get_impl_loop i cap ALL_PRFS).
Qed.

(** A test that ends with the outcome [o], whatever the process. *)
Definition ends_with (o : tt_outcome) (t : M FW tt_outcome) : Prop := forall s, exists s', t s = Ret (o, s').

Lemma force_portable cfg n p k o :
  (forall cap, get_impl_loop (Some n) cap portable_prfs = Some p) ->
  (forall q, may_find n p q -> ends_with o (k (mk_config (Some q) (cfg_entropy cfg)))) ->
  ends_with o (force cfg (Some n) 0 k).
Proof.
  intros Hp H s. destruct (get_impl_portable n p
    (Z.ldiff (cpu_capabilities (world s)) (disabled_cpu_capabilities s)) (Hp _)) as (q & E & Hq).
  destruct (H q Hq s) as (s' & E'). exists s'. unfold force, bind. rewrite force_run. cbv zeta. by rewrite E.
Qed.

Lemma force_default cfg k o :
  (forall q, ends_with o (k (mk_config (Some q) (cfg_entropy cfg)))) -> ends_with o (force cfg None 0 k).
Proof.
  intros H s. unfold force, bind. rewrite force_run. cbv zeta.
  destruct (get_impl_default (Z.ldiff (cpu_capabilities (world s)) (disabled_cpu_capabilities s))) as [q ->].
  apply H.
Qed.

Lemma test_select_prf_ok : ends_with OK test_select_prf.
Proof.
  unfold test_select_prf.
  apply (force_portable _ _ ottery_prf_chacha8_merged_); [done|]. intros q1 Hq1. cbn [cfg_impl].
  rewrite (may_find_name _ _ Hq1 eq_refl).
  apply (force_portable _ _ ottery_prf_chacha12_merged_); [done|]. intros q2 Hq2.
  apply may_find_portable in Hq2 as ->; [|by left].
  apply (force_portable _ _ ottery_prf_chacha20_merged_); [done|]. intros q3 Hq3.
  apply may_find_portable in Hq3 as ->; [|by right; left].
  apply force_default. intros q4 s. eexists.
  unfold assert_ at 1, bind, ottery_disable_cpu_capabilities_. cbn [cfg_impl].
  unfold force at 1, bind. rewrite force_run. cbn [world disabled_cpu_capabilities]. cbv zeta.
  rewrite get_impl_no_simd; [reflexivity|].
  apply Z.bits_inj'. intros b _. rewrite Z.land_spec, Z.ldiff_spec, Z.lor_spec, Z.bits_0.
  by destruct (Z.testbit OTTERY_CPUCAP_SIMD b), (Z.testbit (disabled_cpu_capabilities s) b),
    (Z.testbit (cpu_capabilities (world s)) b).
Qed.

Lemma test_get_sizeof_ok : ends_with OK (test_get_sizeof (W := W)).
Proof.
  intros s. exists s. unfold test_get_sizeof, assert_, ottery_get_sizeof_config, ottery_get_sizeof_state.
  by rewrite !Z.leb_refl.
Qed.

Lemma test_build_flags_ok : ends_with OK (test_build_flags (W := W)).
Proof.
  intros s. exists s. unfold test_build_flags, assert_, ottery_get_build_flags, OTTERY_NO_WIPE_STACK.
  by destruct no_pid_check, BC as [[] [] [] [] [] []], lock_impl.
Qed.

Lemma test_versions_ok : ends_with OK (test_versions (W := W)).
Proof. intros s. by exists s. Qed.

Lemma test_misaligned_init_ok ptr : ends_with OK (test_misaligned_init (W := W) ptr).
Proof.
  intros s. exists s. unfold test_misaligned_init, ottery_st_init, ottery_st_initialize.
  assert (Z.land (if Z.land ptr 0xf =? 0 then ptr + 1 else ptr) 0xf <> 0) as H.
  { destruct (Z.eqb_spec (Z.land ptr 0xf) 0) as [H|H]; [|done]. change 0xf with (Z.ones 4) in *.
    rewrite Z.land_ones in * by done. change (2 ^ 4) with 16 in *. rewrite <-Zplus_mod_idemp_l, H. done. }
  by rewrite (proj2 (Z.eqb_neq _ _) H).
Qed.

(** ** Initialization, as the tests see it *)

Definition refused_size (q : ottery_prf) : bool :=
  (MAX_STATE_LEN <? state_len q) || (MAX_STATE_BYTES <? state_bytes q) ||
  (output_len q <? state_bytes q) || (MAX_OUTPUT_LEN <? output_len q).

(** What an initialization function promises: it refuses a PRF of a bad size, and
    otherwise has the expected error code, leaving a generator that is [ok] when
    it succeeds. *)
Class Initializes {G} (init : G -> option ottery_config -> M FW (Z * G)) (ok : G -> process FW -> Prop) : Prop := {
  init_refuses g cfg q s : cfg_impl cfg = Some q -> refused_size q = true ->
    exists g' s', init g (Some cfg) s = Ret (OTTERY_ERR_INTERNAL, g', s') /\ same_process s s';
  init_expected g config s err : config_good config ->
    let c := cfg_entropy (default ottery_config_init config) in
    plain_device c -> no_egd c -> expected (W := FW) c (mk_entropy_state 0) err ->
    exists g' s', init g config s = Ret (err, g', s') /\ same_process s s' /\ (err = 0 -> ok g' s') }.

(** The state is one that [cleanup_state] accepts. *)
Definition clean (st : ottery_state) (s : process FW) : Prop :=
  st_block_counter st = 0 /\ st_pos st < output_len (st_prf st) /\ st_pid st = os_getpid (world s).

Lemma initialize_refuses addr st cfg (locked : bool) q (s : process FW) :
  Z.land addr 0xf = 0 -> cfg_impl cfg = Some q -> refused_size q = true ->
  exists st' s', ottery_st_initialize addr st (Some cfg) locked s = Ret (OTTERY_ERR_INTERNAL, st', s') /\
    same_process s s'.
Proof.
  intros Ha Hq Hbad. unfold ottery_st_initialize. rewrite Ha. cbn [negb Z.eqb].
  change (default ottery_config_init (Some cfg)) with cfg. rewrite Hq. cbv zeta. rewrite bind_ret. destruct (machine_lock locked s) as (l & s1 & E1 & Hp1 & _).
  rewrite (bind_Ret _ _ _ _ _ E1), bind_lift_Some. unfold refused_size in Hbad. rewrite Hbad. by do 2 eexists.
Qed.

#[local] Instance state_initializes addr (locked : bool) (Ha : Z.land addr 0xf = 0) :
  Initializes (fun st config => ottery_st_initialize addr st config locked) clean.
Proof.
  split; [intros; by eapply initialize_refuses|].
  intros st config s err Hg c Hd He Hex. destruct (resolve_ok config s Hg) as (q & Hq & PS & PZ).
  destruct (machine_initialize (q := q) addr st config locked s err Hq Ha Hd He Hex) as (st' & s' & E & Hp & Hok).
  exists st', s'. split; [done|]. split; [done|]. intros H0. destruct (Hok H0) as (a & [Hr _ _] & _ & Hpid & _).
  destruct Hr as [Hk Hc Hpos _]. split; [done|]. split; [|done]. rewrite (keyed_prf _ _ Hk). lia.
Qed.

#[local] Instance global_initializes addr (Ha : Z.land addr 0xf = 0) :
  Initializes (ottery_init addr) (fun _ _ => True).
Proof.
  pose proof (state_initializes addr true Ha) as HI. split.
  - intros g cfg q s Hq Hbad. destruct (init_refuses (ottery_global_state_ g) cfg q s Hq Hbad) as (st' & s' & E & Hp).
    unfold ottery_init, ottery_st_init. rewrite (bind_Ret _ _ _ _ _ E). by do 2 eexists.
  - intros g config s err Hg c Hd He Hex.
    destruct (init_expected (ottery_global_state_ g) config s err Hg Hd He Hex) as (st' & s' & E & Hp & _).
    unfold ottery_init, ottery_st_init. rewrite (bind_Ret _ _ _ _ _ E). by do 2 eexists.
Qed.

(** ** The test of failing initializations *)

Section BadInit.
Context {G : Type} (init : G -> option ottery_config -> M FW (Z * G)) (ok : G -> process FW -> Prop).
Context {IN : Initializes init ok}.

(** A test that passes, whatever the generator was. *)
Definition passes_to (t : G -> M FW (tt_outcome * G)) (s : process FW) (g : G) : Prop :=
  exists g' s', t g s = Ret (OK, g', s') /\ same_process s s' /\ ok g' s'.

Definition always (t : G -> M FW (tt_outcome * G)) : Prop := forall g s, passes_to t s g.

Lemma expect_refused cfg q k :
  cfg_impl cfg = Some q -> refused_size q = true -> always k -> always (expect_init init cfg OTTERY_ERR_INTERNAL k).
Proof.
  intros Hq Hb Hk g s. destruct (init_refuses g cfg q s Hq Hb) as (g1 & s1 & E & Hp).
  unfold passes_to, expect_init. rewrite (bind_Ret _ _ _ _ _ E), Z.eqb_refl.
  destruct (Hk g1 s1) as (g' & s' & E' & Hp' & Ho). exists g', s'. split; [done|]. split; [by transitivity s1|done].
Qed.

Lemma expect_expected cfg err k :
  config_good (Some cfg) -> plain_device (cfg_entropy cfg) -> no_egd (cfg_entropy cfg) ->
  expected (W := FW) (cfg_entropy cfg) (mk_entropy_state 0) err ->
  (forall g s, (err = 0 -> ok g s) -> passes_to k s g) -> always (expect_init init cfg err k).
Proof.
  intros Hg Hd He Hex Hk g s. destruct (init_expected g (Some cfg) s err Hg Hd He Hex) as (g1 & s1 & E & Hp & Ho1).
  unfold passes_to, expect_init. rewrite (bind_Ret _ _ _ _ _ E), Z.eqb_refl.
  destruct (Hk g1 s1 Ho1) as (g' & s' & E' & Hp' & Ho). exists g', s'. split; [done|]. split; [by transitivity s1|done].
Qed.

Lemma bad_prfs_ok cfg k : always k -> always (bad_prfs init cfg k).
Proof.
  intros Hk. unfold bad_prfs.
  eapply expect_refused; [reflexivity|reflexivity|]. eapply expect_refused; [reflexivity|reflexivity|].
  by eapply expect_refused.
Qed.

Lemma bad_sources_ok cfg :
  config_good (Some cfg) -> cfg_entropy cfg = cfg_entropy ottery_config_init -> always (bad_sources init cfg).
Proof.
  intros Hg Hc. destruct cfg as [q c]. cbn in Hc. subst c. unfold bad_sources.
  assert (forall c, config_good (Some (mk_config q c))) as Hgood by (intros; exact Hg).
  assert (forall c, config_good (Some (mk_config None c))) as Hnone by done.
  assert (device_of "/dev/urandom" = Random) as H1 by apply um_urandom.
  assert (device_of "/dev/null" = Null) as H2 by apply um_null.
  assert (device_of "/dev/please-dont-add-this-device" = Missing) as H3 by apply um_missing.
  apply expect_expected; [done|done|done|by apply expected_success|intros g1 s1 _; revert g1 s1].
  apply expect_expected; [done|done|done| |intros g1 s1 _; revert g1 s1].
  { apply expected_init; [done|by left| |by unfold config_device; cbn; rewrite H3].
    right; right. unfold config_device. cbn. by rewrite H3. }
  apply expect_expected; [done|done|done|by apply expected_access|intros g1 s1 _; revert g1 s1].
  apply expect_expected; [done|done|done|by apply expected_success|intros g1 s1 _; revert g1 s1].
  apply expect_expected; [done|done|done| |intros g1 s1 _; revert g1 s1].
  { apply expected_init; [done|by right|by right; left|done]. }
  apply expect_expected; [done|done|done|by apply expected_success|].
  intros g1 s1 Ho. exists g1, s1. split; [done|]. split; [done|auto].
Qed.

Lemma test_bad_init_ok : always (test_bad_init init).
Proof.
  intros g s. unfold passes_to, test_bad_init, expect_force at 1, bind at 1. rewrite force_run. cbv zeta.
  rewrite get_impl_unknown, Z.eqb_refl. unfold expect_force at 1, bind at 1. rewrite force_run. cbv zeta.
  assert (forall cap, exists q, get_impl_loop (Some "CHACHA20"%string) cap ALL_PRFS = Some q) as Hfind.
  { intros cap. destruct (get_impl_portable "CHACHA20" ottery_prf_chacha20_merged_ cap eq_refl) as (q & E & _).
    by exists q. }
  destruct (Hfind (Z.ldiff (cpu_capabilities (world s)) (disabled_cpu_capabilities s))) as [q ->]. cbn [Z.eqb].
  apply bad_prfs_ok. clear g s q. intros g s. unfold passes_to, bind at 1. rewrite force_run. cbv zeta.
  destruct (Hfind (Z.ldiff (cpu_capabilities (world s)) (disabled_cpu_capabilities s))) as [q E]. rewrite E.
  apply bad_sources_ok; [|done]. apply get_impl_loop_in in E as (Hin & _).
  pose proof ALL_PRFS_ok as H. rewrite Forall_forall in H. by apply H, list_elem_of_In.
Qed.
End BadInit.

(** ** The test of fatal errors *)

(** A test that ends with the outcome [o] in a process with the tests' handler. *)
Definition handled (s : process FW) : Prop := ottery_fatal_handler s = Some fatal_handler.

Definition handles (o : tt_outcome) (t : M FW tt_outcome) : Prop :=
  forall s, handled s -> exists s', t s = Ret (o, s').

Lemma expect_fatal_ok {A} (call : M FW A) err a k o :
  err <> 0 -> (forall s, handled s -> call s = fatal_then err a s) -> handles o (k a) ->
  handles o (expect_fatal call err k).
Proof.
  intros He Hc Hk s Hs. set (s1 := set_world (fst (world s), 0) s). assert (handled s1) as Hs1 by exact Hs.
  unfold expect_fatal. rewrite (bind_Ret _ _ _ tt s1 eq_refl).
  unfold bind at 1. rewrite (Hc s1 Hs1). unfold fatal_then. rewrite Hs1. cbn [world set_world s1].
  unfold got_fatal_err. rewrite bind_gets. unfold fatal_handler. cbn [snd fst world set_world].
  rewrite (proj2 (Z.eqb_neq _ _) He). cbn [negb orb Z.eqb]. rewrite Z.eqb_refl. by apply Hk.
Qed.

Lemma MAGIC_ff addr : Z.land addr 0xf = 0 -> st_magic ff_state <> MAGIC addr.
Proof.
  intros Ha Hm. assert (Z.testbit (MAGIC addr) 0 = false) as Hb; [|by rewrite <-Hm in Hb].
  unfold MAGIC. rewrite Z.lxor_spec. change (Z.testbit MAGIC_BASIS 0) with false.
  assert (Z.testbit (u32 addr) 0 = false) as ->; [|done].
  unfold u32. rewrite Z.mod_pow2_bits_low by lia.
  assert (Z.testbit (Z.land addr 0xf) 0 = false) as E by (by rewrite Ha).
  rewrite Z.land_spec in E. change (Z.testbit 0xf 0) with true in E. by rewrite andb_true_r in E.
Qed.

Section Uninit.
Context (st_addr nl_addr : Z) (Hst : Z.land st_addr 0xf = 0) (Hnl : Z.land nl_addr 0xf = 0).

Lemma fatal_uninit_ok fuel k o :
  OTTERY_NO_INIT_CHECK = false -> handles o k -> handles o (fatal_uninit st_addr nl_addr (S fuel) k).
Proof.
  intros Hb Hk. pose proof (MAGIC_ff _ Hst) as Hms. pose proof (MAGIC_ff _ Hnl) as Hmn.
  assert (forall addr (locking : bool) (s : process FW), st_magic ff_state <> MAGIC addr ->
    ottery_st_add_seed_impl addr ff_state xyz 3 locking true s =
      fatal_then OTTERY_ERR_STATE_INIT (OTTERY_ERR_STATE_INIT, ff_state) s) as Hseed.
  { intros addr locking s Hm. rewrite add_seed_bad_magic by done. by apply fatal_bind. }
  assert (forall A addr (k : bool * ottery_state -> M FW A) a s, st_magic ff_state <> MAGIC addr ->
    (forall s', k (false, ff_state) s' = Ret (a, s')) ->
    bind (ottery_st_rand_lock_and_check addr ff_state) k s = fatal_then OTTERY_ERR_STATE_INIT a s /\
    bind (ottery_st_rand_check_nolock addr ff_state) k s = fatal_then OTTERY_ERR_STATE_INIT a s) as Hcheck.
  { intros A addr k0 a s Hm Hk0. split; apply (fatal_then_bind _ _ _ (false, ff_state)); try done;
      [by apply lock_and_check_fatal|by apply check_init_fatal]. }
  unfold fatal_uninit.
  apply (expect_fatal_ok _ _ (OTTERY_ERR_STATE_INIT, ff_state)); [done|intros; by apply Hseed|].
  apply (expect_fatal_ok _ _ (OTTERY_ERR_STATE_INIT, ff_state)); [done|intros; by apply Hseed|].
  apply (expect_fatal_ok _ _ (0, ff_state)); [done|intros; by apply Hcheck|].
  apply (expect_fatal_ok _ _ (0, ff_state)); [done|intros; by apply Hcheck|].
  apply (expect_fatal_ok _ _ (ff_state, zeros 8)); [done|intros; by apply Hcheck|].
  apply (expect_fatal_ok _ _ (ff_state, zeros 8)); [done|intros; by apply Hcheck|].
  apply (expect_fatal_ok _ _ (0, ff_state)); [done|intros; by apply check_init_fatal|].
  apply (expect_fatal_ok _ _ (0, ff_state)); [done|intros; by apply check_init_fatal|].
  apply (expect_fatal_ok _ _ (0, ff_state)); [done|intros; by apply check_init_fatal|].
  apply (expect_fatal_ok _ _ (0, ff_state)); [done| |exact Hk].
  intros s _. unfold ottery_st_rand_range64_nolock. cbn [rand_range_loop].
  apply (fatal_then_bind _ _ _ (0, ff_state)); [by apply Hcheck|]. intros s2. by rewrite Z.div_0_l.
Qed.
End Uninit.


(** The library leaves [got_fatal_err] alone. *)
Lemma got_kept e : kept (fun w : FW => snd w = e).
Proof.
  split; intros; cbn in *; unfold beside;
    repeat match goal with |- context [let '(_, _) := ?x in _] => destruct x end; done.
Qed.

Lemma set_got_run {A} e (k : unit -> M FW A) s :
  bind (set_got_fatal_err e) k s = k tt (set_world (fst (world s), e) s).
Proof. reflexivity. Qed.

Section Postfork.
Context {q : ottery_prf} {PS : PrfSpec q} {PZ : PrfSizes q}.

(** The number functions on a state in its own process, locked or not. *)
Definition rand_unsigned (addr : Z) (locked : bool) (st : ottery_state) : M FW (Z * ottery_state) :=
  if locked then ottery_st_rand_unsigned addr st else ottery_st_rand_unsigned_nolock addr st.

Lemma rand_unsigned_ok addr (locked : bool) st a (s : process FW) :
  checked (p := q) addr st a s -> (locked = true -> lock_ready st) ->
  exists v a' st', rand_unsigned addr locked st s = Ret (v, st', s) /\ rep (p := q) st' a' /\ same_frame st st'.
Proof.
  intros Hc Hl. destruct locked.
  - destruct (api_rand_int_ok addr st a 4 s) as (st' & E & Hr & Hf); [by split; [|apply Hl]|lia|]. by do 3 eexists.
  - destruct (api_rand_int_nolock_ok addr st a 4 s Hc ltac:(lia)) as (st' & E & Hr & Hf). by do 3 eexists.
Qed.

(** On a state of another process that cannot be reseeded. *)
Lemma rand_unsigned_postfork addr (locked : bool) st (s : process FW) :
  OTTERY_NO_PID_CHECK = false -> OTTERY_NO_INIT_CHECK = true \/ st_magic st = MAGIC addr ->
  seedable (p := q) st -> st_pid st <> os_getpid (world s) -> (locked = true -> lock_ready st) ->
  plain_device (st_entropy_config st) -> no_egd (st_entropy_config st) ->
  expected (W := FW) (st_entropy_config st) (st_entropy_state st) OTTERY_ERR_ACCESS_STRONG_RNG ->
  handled s -> snd (world s) = 0 ->
  exists st' s', rand_unsigned addr locked st s = Ret (0, st', s') /\ handled s' /\
    snd (world s') = Z.lor OTTERY_ERR_ACCESS_STRONG_RNG OTTERY_ERR_FLAG_POSTFORK_RESEED.
Proof.
  intros Hb Hm Hs Hpid Hl Hd He Hex Hh H0.
  set (st0 := if locked then set_mutex (held (st_mutex st)) st else st).
  assert (seedable (p := q) st0) as Hs0 by (unfold st0; destruct locked, Hs; by split).
  assert (st_entropy_config st0 = st_entropy_config st /\ st_entropy_state st0 = st_entropy_state st /\
    st_pid st0 = st_pid st /\ st_magic st0 = st_magic st) as (Hc0 & He0 & Hp0 & Hm0)
    by (unfold st0; by destruct locked).
  destruct (machine_reseed (q := q) addr st0 s OTTERY_ERR_ACCESS_STRONG_RNG Hs0) as (st1 & s1 & E & Hp & Hf);
    [by rewrite Hc0|by rewrite Hc0|by rewrite Hc0, He0|].
  assert (snd (world s1) = 0) as H1 by exact (keeps_reseed _ (got_kept 0) addr st0 s _ s1 H0 E).
  set (s2 := set_world (fatal_handler (Z.lor OTTERY_ERR_FLAG_POSTFORK_RESEED OTTERY_ERR_ACCESS_STRONG_RNG)
    (world s1)) s1).
  assert (ottery_st_rand_check_pid addr st0 s = Ret (false, st1, s2)) as Ep.
  { unfold ottery_st_rand_check_pid, no_pid_check, getpid. rewrite Hb, um_unix. cbn [orb]. rewrite bind_gets.
    rewrite Hp0, (proj2 (Z.eqb_neq _ _) Hpid). cbn [negb]. rewrite (bind_Ret _ _ _ _ _ E).
    change (negb (OTTERY_ERR_ACCESS_STRONG_RNG =? 0)) with true. cbv beta iota. unfold ottery_fatal_error_, bind. rewrite (sp_handler _ _ Hp), Hh. reflexivity. }
  assert (handled s2 /\ snd (world s2) = Z.lor OTTERY_ERR_ACCESS_STRONG_RNG OTTERY_ERR_FLAG_POSTFORK_RESEED)
    as [Hh2 H2].
  { split; [change (handled s1); unfold handled; by rewrite (sp_handler _ _ Hp)|].
    unfold s2. cbn. by rewrite H1. }
  unfold rand_unsigned. destruct locked.
  - unfold ottery_st_rand_unsigned, OTTERY_RETURN_RAND_INTTYPE, ottery_st_rand_lock_and_check.
    rewrite bind_assoc, (bind_Ret _ _ _ _ _ (check_init_ok addr st s Hm)). cbn [negb].
    rewrite bind_assoc, (bind_Ret _ _ _ _ _ (LOCK_ok st s (Hl eq_refl))). fold st0.
    rewrite bind_assoc, (bind_Ret _ _ _ _ _ Ep). cbn [negb].
    rewrite bind_assoc, (bind_Ret _ _ _ _ _ (UNLOCK_ok st st1 s2 (Hl eq_refl) (sf_mutex _ _ Hf))).
    rewrite bind_ret. by do 2 eexists.
  - unfold ottery_st_rand_unsigned_nolock, OTTERY_RETURN_RAND_INTTYPE_NOLOCK, ottery_st_rand_check_nolock.
    rewrite bind_assoc, (bind_Ret _ _ _ _ _ (check_init_ok addr st s Hm)). cbn [negb].
    rewrite (bind_Ret _ _ _ _ _ Ep). by do 2 eexists.
Qed.
End Postfork.

Lemma fatal_postfork_ok addr (locked : bool) k o :
  Z.land addr 0xf = 0 -> OTTERY_NO_PID_CHECK = false -> handles o k ->
  handles o (fatal_postfork (ottery_st_initialize addr ff_state None locked) (rand_unsigned addr locked) k).
Proof.
  intros Ha Hb Hk s Hs. unfold fatal_postfork. rewrite set_got_run.
  set (s1 := set_world (fst (world s), 0) s).
  destruct (resolve_ok None s1 I) as (q & Hq & PS & PZ).
  destruct (machine_initialize (q := q) addr ff_state None locked s1 0 Hq Ha) as (st2 & s2 & E2 & Hp2 & Hok);
    [done|done|by apply expected_success; [..|exact um_urandom|]|].
  destruct (Hok eq_refl) as (a & Hc & Hmg & Hpid & Hl & Hcfg). rewrite (bind_Ret _ _ _ _ _ E2). cbn [assert_ Z.eqb].
  assert (snd (world s2) = 0) as H2 by exact (keeps_initialize _ (got_kept 0) _ _ _ _ s1 _ s2 eq_refl E2).
  assert (handled s2) as Hh2 by exact (eq_trans (sp_handler _ _ Hp2) Hs).
  destruct (rand_unsigned_ok (q := q) addr locked st2 a s2 Hc Hl) as (v & a3 & st3 & E3 & Hr3 & Hf3).
  rewrite (bind_Ret _ _ _ _ _ E3). unfold getpid. rewrite bind_gets. cbv zeta.
  unfold got_fatal_err. rewrite bind_gets, H2. cbn [assert_ Z.eqb].
  set (st4 := set_entropy_config _ _).
  destruct (rand_unsigned_postfork (q := q) addr locked st4 s2) as (st5 & s5 & E5 & Hh5 & H5); try done.
  - right. cbn. by rewrite (frame_magic _ _ Hf3).
  - destruct Hr3 as [[] ? _ _]. by split.
  - cbn. lia.
  - intros Hlk. unfold lock_ready. cbn. rewrite (frame_mutex _ _ Hf3). by apply Hl.
  - unfold plain_device. cbn. by rewrite (frame_cfg _ _ Hf3), Hcfg.
  - unfold no_egd. cbn. by rewrite (frame_cfg _ _ Hf3), Hcfg.
  - apply expected_access; try done. exact um_null.
  - rewrite (bind_Ret _ _ _ _ _ E5), bind_gets.
    refine (eq_ind_r (fun e => exists s', assert_ (e =? _) k s5 = Ret (o, s')) _ H5).
    rewrite Z.eqb_refl. by apply Hk.
Qed.

Lemma test_fatal_ok st_addr nl_addr fuel :
  Z.land st_addr 0xf = 0 -> Z.land nl_addr 0xf = 0 ->
  ends_with (if OTTERY_NO_INIT_CHECK && OTTERY_NO_PID_CHECK then SKIP else OK) (test_fatal st_addr nl_addr (S fuel)).
Proof.
  intros Hst Hnl s. unfold test_fatal. set (o := if OTTERY_NO_INIT_CHECK && OTTERY_NO_PID_CHECK then SKIP else OK). unfold bind at 1, ottery_set_fatal_handler.
  set (s1 := mk_process _ _ _). assert (handled s1) as H1 by done. clearbody s1. revert s1 H1.
  assert (handles o (ret o)) as Hret by (intros s1 _; by exists s1).
  enough (handles o ((if OTTERY_NO_PID_CHECK then fun k : M FW tt_outcome => k
    else fun k => fatal_postfork (ottery_st_init st_addr ff_state None) (ottery_st_rand_unsigned st_addr)
      (fatal_postfork (ottery_st_init_nolock nl_addr ff_state None) (ottery_st_rand_unsigned_nolock nl_addr) k))
    (ret o))) as Hpid.
  { destruct OTTERY_NO_INIT_CHECK eqn:Hi; [exact Hpid|]. by apply fatal_uninit_ok. }
  destruct OTTERY_NO_PID_CHECK eqn:Hb; [exact Hret|].
  apply (fatal_postfork_ok st_addr true); [done..|]. by apply (fatal_postfork_ok nl_addr false).
Qed.

(** ** The program *)

Section Program.
Context (state_addr global_addr st_addr nl_addr ptr : Z) (fuel : nat).
Context (Hstate : Z.land state_addr 0xf = 0) (Hglobal : Z.land global_addr 0xf = 0).
Context (Hst : Z.land st_addr 0xf = 0) (Hnl : Z.land nl_addr 0xf = 0).
Context {FK : Forks (World := W)} (fork_works : forall w, fork_ok w = true) (write_works : forall w, write_ok w = true).

(** The memory of the program, in which no test leaves a state. *)
Definition stateless (m : shallow_mem (W := W)) : Prop := sm_state m = None.

(** A test comes to [o], and leaves no state behind in the program. *)
Definition comes_out (o : tt_outcome) (t : testcase_t (Mem := shallow_mem (W := W))) : Prop :=
  forall m w, stateless m -> exists m' w', one_verdict t m w = ([o], Finishes tt m', w') /\ stateless m'.

Lemma comes_out_forked o t :
  skipped t = false -> has (tc_flags t) TT_FORK = true ->
  (forall m w, stateless m -> exists m' w', bare_verdict t m w = (Finishes o m', w')) -> comes_out o t.
Proof.
  intros Hs Hf H m w Hm. destruct (H m w Hm) as (m' & w' & E). exists m, w'. split; [|done].
  unfold one_verdict, forked_verdict. by rewrite Hs, Hf, fork_works, E, write_works.
Qed.

Lemma comes_out_bare o t :
  skipped t = false -> has (tc_flags t) TT_FORK = false ->
  (forall m w, stateless m -> exists m' w', bare_verdict t m w = (Finishes o m', w') /\ stateless m') -> comes_out o t.
Proof.
  intros Hs Hf H m w Hm. destruct (H m w Hm) as (m' & w' & E & Hm'). exists m', w'. split; [|done].
  unfold one_verdict. by rewrite Hs, Hf, E.
Qed.

Lemma telling_marks (c : shallow_code (W := W) tt_outcome) m w o m' w' :
  c m w = ([], w', Finishes o m') ->
  exists evs, telling c m w = (evs, w', Finishes tt m') /\ fold_left mark evs OK = o.
Proof. intros E. unfold telling. rewrite E. eexists. split; [reflexivity|]. by destruct o. Qed.

Lemma plain_verdict name T flags o m w :
  ends_with o T -> stateless m ->
  exists m' w', bare_verdict (mk_testcase name (plain_test T) flags None) m w = (Finishes o m', w') /\ stateless m'.
Proof.
  intros HT Hm. unfold bare_verdict, env_verdict, plain_test. cbn [tc_setup tc_fn].
  destruct (HT (mk_process (w, sm_got_fatal_err m) (sm_disabled m) (sm_handler m))) as (s' & E).
  destruct (telling_marks (in_process (fun m => do o <- T; ret (o, sm_state m, sm_global m))) m w o
    (mk_shallow_mem (sm_state m) (sm_global m) (snd (world s')) (disabled_cpu_capabilities s') (ottery_fatal_handler s'))
    (fst (world s'))) as (evs & -> & <-).
  { unfold in_process. by rewrite (bind_Ret _ _ _ _ _ E). }
  do 2 eexists. split; [reflexivity|exact Hm].
Qed.

(** The set-up: a state, whatever became of its initialization, or none. *)
Lemma setup_runs flags m w :
  stateless m -> exists m' w', shallow_setup state_addr flags m w = ([], w', Finishes SetupEnv m') /\
    if has flags OT_ENABLE_STATE then exists st nolock, sm_state m' = Some (st, nolock) else stateless m'.
Proof.
  intros Hm. unfold shallow_setup, in_process. rewrite Hm. set (s := mk_process _ _ _).
  destruct (has flags OT_ENABLE_STATE); [|by do 2 eexists].
  unfold ottery_get_sizeof_state, ottery_get_sizeof_state_nolock. rewrite Z.eqb_refl. cbn [negb].
  destruct (has flags OT_ENABLE_STATE_NOLOCK).
  - destruct (init_expected (Initializes := state_initializes state_addr false Hstate) zero_state None s 0)
      as (st & s' & E & _); [done|done|done|by apply expected_success; [..|exact um_urandom|]|].
    unfold ottery_st_init_nolock. rewrite (bind_Ret _ _ _ _ _ E). do 2 eexists. split; [reflexivity|]. by do 2 eexists.
  - destruct (init_expected (Initializes := state_initializes state_addr true Hstate) zero_state None s 0)
      as (st & s' & E & _); [done|done|done|by apply expected_success; [..|exact um_urandom|]|].
    unfold ottery_st_init. rewrite (bind_Ret _ _ _ _ _ E). do 2 eexists. split; [reflexivity|]. by do 2 eexists.
Qed.

(** The test and the cleanup. *)
Lemma bad_init_runs m w flags :
  exists evs m1 w1 m2 w2, bad_init_test state_addr global_addr m w = (evs, w1, Finishes tt m1) /\
    fold_left mark evs OK = OK /\ shallow_cleanup flags m1 w1 = ([], w2, Finishes true m2).
Proof.
  unfold bad_init_test. set (c := in_process _). set (s := mk_process (w, sm_got_fatal_err m) (sm_disabled m) (sm_handler m)).
  assert (exists w1 m1 w2 m2, c m w = ([], w1, Finishes OK m1) /\ shallow_cleanup flags m1 w1 = ([], w2, Finishes true m2))
    as (w1 & m1 & w2 & m2 & E & Ec).
  { unfold c, in_process. fold s. assert (forall st (s' : process FW), clean st s' ->
      cleanup_state (W := FW) state_api st s' = Ret (true, s')) as Hclean.
    { intros st s' (Hctr & Hpos & Hpid). unfold cleanup_state. cbn [STATE state_api]. unfold getpid. rewrite bind_gets.
      rewrite Hctr, Hpid, Z.eqb_refl, (proj2 (Z.leb_gt _ _)) by lia. done. }
    destruct (sm_state m) as [[st []]|].
    - destruct (test_bad_init_ok _ clean (IN := state_initializes state_addr false Hstate) st s) as (st' & s' & E & _ & Ho).
      unfold ottery_st_init_nolock. rewrite (bind_Ret _ _ _ _ _ E). do 4 eexists. split; [reflexivity|].
      unfold shallow_cleanup, in_process. cbn [sm_state sm_got_fatal_err sm_disabled sm_handler].
      replace (mk_process (fst (world s'), snd (world s')) _ _) with s' by (by destruct s' as [[] ? ?]).
      rewrite (bind_Ret _ _ _ _ _ (Hclean _ _ Ho)). reflexivity.
    - destruct (test_bad_init_ok _ clean (IN := state_initializes state_addr true Hstate) st s) as (st' & s' & E & _ & Ho).
      unfold ottery_st_init. rewrite (bind_Ret _ _ _ _ _ E). do 4 eexists. split; [reflexivity|].
      unfold shallow_cleanup, in_process. cbn [sm_state sm_got_fatal_err sm_disabled sm_handler].
      replace (mk_process (fst (world s'), snd (world s')) _ _) with s' by (by destruct s' as [[] ? ?]).
      rewrite (bind_Ret _ _ _ _ _ (Hclean _ _ Ho)). reflexivity.
    - destruct (test_bad_init_ok _ _ (IN := global_initializes global_addr Hglobal) (sm_global m) s)
        as (g' & s' & E & _ & _). rewrite (bind_Ret _ _ _ _ _ E). do 4 eexists. split; reflexivity. }
  destruct (telling_marks c m w OK m1 w1 E) as (evs & Et & Hev). exists evs, m1, w1, m2, w2. done.
Qed.

Lemma bad_init_verdict flags m w :
  stateless m -> exists m' w', bare_verdict (mk_testcase "bad_init" (bad_init_test state_addr global_addr) flags
      (Some (shallow_setup state_addr, shallow_cleanup))) m w = (Finishes OK m', w').
Proof.
  intros Hm. unfold bare_verdict, env_verdict. cbn [tc_setup tc_fn tc_flags].
  destruct (setup_runs flags m w Hm) as (m1 & w1 & -> & _).
  destruct (bad_init_runs m1 w1 flags) as (evs & m2 & w2 & m3 & w3 & -> & -> & ->). by do 2 eexists.
Qed.

(** Tests one after the other. *)
Lemma verdicts_come_out os ts m w :
  Forall2 comes_out os ts -> stateless m -> exists m' w', verdicts ts m w = (os, Finishes tt m', w').
Proof.
  intros H. revert m w. induction H as [|o t os ts Ht _ IH]; intros m w Hm; [by do 2 eexists|].
  destruct (Ht m w Hm) as (m1 & w1 & E & Hm1). destruct (IH m1 w1 Hm1) as (m2 & w2 & E2).
  exists m2, w2. cbn [verdicts]. rewrite E. cbn [then_]. by rewrite E2.
Qed.

Definition fatal_outcome : tt_outcome := if OTTERY_NO_INIT_CHECK && OTTERY_NO_PID_CHECK then SKIP else OK.

Lemma shallow_verdicts m w :
  stateless m -> exists m' w',
    verdicts (enabled (map_tests (flagged ".." true TT_ENABLED_)
      (shallow_groups state_addr global_addr st_addr nl_addr ptr (S fuel)))) m w =
      ([OK; OK; fatal_outcome; OK; OK; OK; OK; OK; OK], Finishes tt m', w').
Proof.
  intros Hm. set (bad_init flags := mk_testcase "bad_init" (bad_init_test state_addr global_addr) flags
    (Some (shallow_setup state_addr, shallow_cleanup))).
  match goal with |- context [enabled ?gs] => assert (enabled gs =
    [mk_testcase "get_sizeof" (plain_test test_get_sizeof) 4 None;
     mk_testcase "select_prf" (plain_test test_select_prf) 5 None;
     mk_testcase "fatal" (plain_test (test_fatal st_addr nl_addr (S fuel))) 5 None;
     mk_testcase "build_flags" (plain_test test_build_flags) 4 None;
     mk_testcase "versions" (plain_test test_versions) 4 None;
     bad_init 21; mk_testcase "misaligned_init" (plain_test (test_misaligned_init ptr)) 4 None;
     bad_init 53; bad_init 5]) as -> by reflexivity end.
  assert (forall o flags name T, ends_with o T -> flags = 4 \/ flags = 5 ->
    comes_out o (mk_testcase name (plain_test T) flags None)) as Hplain.
  { intros o flags name T HT [-> | ->].
    - apply comes_out_bare; [done|done|]. intros. by apply plain_verdict.
    - apply comes_out_forked; [done|done|]. intros m0 w0 Hm0.
      destruct (plain_verdict name T 5 o m0 w0 HT Hm0) as (m' & w' & E & _). by exists m', w'. }
  assert (forall flags, skipped (bad_init flags) = false -> has flags TT_FORK = true -> comes_out OK (bad_init flags))
    as Hbad by (intros; apply comes_out_forked; [done|done|intros; by apply bad_init_verdict]).
  apply verdicts_come_out; [|exact Hm].
  repeat first [apply Forall2_nil; exact I | apply Forall2_cons; split]; auto using test_get_sizeof_ok,
    test_select_prf_ok, test_fatal_ok, test_build_flags_ok, test_versions_ok, test_misaligned_init_ok.
Qed.
End Program.
End Shallow.

(** C26: the shallow tests pass. On a Unix machine with its random and null devices
    and without a device of the odd name, on any CPU, in any build, wherever the
    states are put, the program of test/test_shallow.c, less the tests that look
    at random bytes, returns 0 with none of its tests failed: the choice of PRFs by
    name, default and capability, the refusal of PRFs of a wrong size, the error
    codes of missing, empty, disabled and weak sources, the errors of uninitialized
    and forked states, and misalignment are as the authors wrote them down. All
    nine pass, unless the build has neither of the checks whose errors test_fatal
    provokes, when that one is skipped. *)
Theorem test_shallow_passes {W : Type} {OS0 : OS W} {BC : BuildConfig} {PL : Platform} {OL : OSLaws OS0}
    {UM : UnixMachine OS0} {FK : Forks (World := W)} state_addr global_addr st_addr nl_addr ptr fuel w :
  Z.land state_addr 0xf = 0 -> Z.land global_addr 0xf = 0 -> Z.land st_addr 0xf = 0 -> Z.land nl_addr 0xf = 0 ->
  (forall w, fork_ok w = true) -> (forall w, write_ok w = true) ->
  let skips := OTTERY_NO_INIT_CHECK && OTTERY_NO_PID_CHECK in
  exists s', test_shallow_main state_addr global_addr st_addr nl_addr ptr (S fuel) [] w = Returns 0 s' /\
    n_ok (pvars s') = (if skips then 8 else 9) /\ n_bad (pvars s') = 0 /\
    n_skipped (pvars s') = (if skips then 1 else 0).
Proof.
  intros Hstate Hglobal Hst Hnl Hf Hw skips. unfold test_shallow_main.
  set (groups := shallow_groups state_addr global_addr st_addr nl_addr ptr (S fuel)).
  pose proof (main_ok [] 1 [] groups initial_mem w eq_refl) as H. cbn [choose] in H. cbv zeta in H.
  change (0 =? 0) with true in H. cbv iota in H.
  destruct (shallow_verdicts state_addr global_addr st_addr nl_addr ptr fuel Hstate Hglobal Hst Hnl Hf Hw
    initial_mem w eq_refl) as (m' & w' & E).
  fold groups in E. rewrite E in H. unfold fatal_outcome in H. fold skips in H.
  destruct H as (s' & -> & _ & _ & Ho & Hb & Hs). exists s'. rewrite Ho, Hb, Hs. by destruct skips.
Qed.

(** ** At work *)

(** The machine of the witnesses. *)
#[local] Existing Instances unix_os unix_os_laws unix_machine.

#[local] Instance good_forks : Forks (World := tworld) := {| fork_ok := fun _ => true; write_ok := fun _ => true |}.

Lemma test_shallow_passes_witness :
  exists s', test_shallow_main (BC := default_build) 4096 8192 256 512 77 1 [] tworld0 = Returns 0 s' /\
    n_ok (pvars s') = 9 /\ n_bad (pvars s') = 0 /\ n_skipped (pvars s') = 0.
Proof. apply (test_shallow_passes (BC := default_build) 4096 8192 256 512 77 0 tworld0); reflexivity. Defined.
